(* ===== verification/_CoqProject ===== *)
-Q . S2P
Prelude.v
Text.v
Paging.v
Catalogue.v
Envelope.v
Consumer.v
Outbox.v
Inbox.v
Retention.v
PlatformTheorems.v
DeliveryTheorems.v
DeadLetters.v
DeadLetterTheorems.v
CreditSchema.v
CreditSchemaFacts.v
CreditInvariants.v
CreditRepository.v
CreditEffects.v
CreditProofs.v
CreditService.v
CreditReads.v
CreditLive.v
CreditLifecycle.v
CreditReplies.v
CreditTheorems.v
OrderMachine.v
OrderSchema.v
OrderRepository.v
OrderQueries.v
OrderService.v
OrderWorkers.v
OrderFacts.v
OrderEffects.v
OrderTransitions.v
OrderProofs.v
OrderInvariant.v
OrderRuns.v
OrderSweep.v
OrderLive.v
OrderTheorems.v
Saga.v
OrderWorkTheorems.v
OrderDemo.v
SagaDemo.v
UserSchema.v
UserRepository.v
UserService.v
AdminService.v
UserFacts.v
UserEffects.v
AdminEffects.v
UserInvariant.v
UserTrail.v
UserTheorems.v
UserLive.v
UserDemo.v
ChatRepository.v
ChatService.v
ChatTheorems.v
ChatPosts.v
ChatSweep.v
SocketHub.v
SocketHubFacts.v
SocketHubSteps.v
SocketHubTheorems.v
ChatDemo.v
ErrandChat.v
SupplierHours.v
SupplierNormalize.v
SupplierRepository.v
SupplierService.v
SupplierFacts.v
SupplierValid.v
SupplierTheorems.v
SupplierDemo.v
IdentityClient.v
IdentityTheorems.v
IdentityUser.v
