(* ===== verification/Prelude.v ===== *)
(** * The errand economy of foc-app, modelled and proved

    Students post errands, others carry them out and are paid in campus credits. Five services share
    nothing but events and internal requests: the Order Service owns errands, the Credit Service wallets
    and a ledger, the User Service accounts, roles and sessions, the Chat Service conversations, the
    Supplier Service a catalogue. [src/platform] is what they share: a transactional outbox and its
    relay, an idempotent inbox, a consumer with bounded retries, dead letters. [src/auth-client] is how
    the others ask the User Service who a caller is. The development models each service's tables,
    operations and background work, and their composition.

    ** How the model reads

    A service's database is a record of tables. A method of a repository or a service is a computation
    [M S A] over it, with PostgreSQL's constraints raised by the statements that can meet them, and
    [transaction] commits it or rolls it back. A service as it runs is a step relation over its
    operations, with any arguments, clocks and identifiers; its theorems hold in every state those steps
    reach. Times are microseconds since the epoch (milliseconds in the auth client and the sockets),
    identifiers are canonical text. What is not under src/ is a parameter: zod's formats ([Zod]),
    PostgreSQL's text rules ([Pg]), Unicode ([Texts]), collation ([Collation]), hashing ([Crypto]), JSON
    text ([JsLib]), the broker's answers and another service's replies.

    ** The files

    - This file, [Text], [Paging]: exceptions, the transaction monad and its automation, sums and lists;
      strings as JavaScript and PostgreSQL read them; keyset and offset pages.
    - The platform (platform/src/events, db.ts). [Catalogue]: events and their payload schemas.
      [Envelope]: parsing, versions and who sent a message. [Consumer]: one delivery, retries and setting
      aside. [Outbox]: writing an event, claiming, publishing and backing off. [Inbox]: applying an event
      once. [Retention]: pruning. [PlatformTheorems], [DeliveryTheorems]: order of publication, nothing
      lost, effects applied once, the envelope's round trip, retries that end. [DeadLetters],
      [DeadLetterTheorems]: parking, the guarded table, redriving; rows are kept, a redrive sends what
      came and its consumer treats it as it first did.
    - The Credit Service (credit-service/src). [CreditSchema], [CreditRepository]: tables and the
      persistence boundary. [CreditInvariants]: invariants.ts and the invariant [CreditInv]. [CreditService]:
      the four consumers as inbox transactions and the service's steps. [CreditReads]: wallets, ledger
      pages, status and audit. [CreditSchemaFacts], [CreditEffects], [CreditProofs], [CreditLive],
      [CreditLifecycle], [CreditReplies]: what each method does and keeps. [CreditTheorems]: the economy
      is closed, its checks report nothing, status refines a lifecycle, transfers settle exactly.
    - The Order Service (order-service/src). [OrderMachine]: the transition table. [OrderSchema],
      [OrderRepository], [OrderQueries]: tables, writes and reads. [OrderService]: commands, views and
      who may see what. [OrderWorkers]: consumers of Credit's replies, account events, the scheduler and
      the reconciler. [OrderFacts] to [OrderSweep]: every change is one of a few effects, and the
      invariant holds in every run. [OrderTheorems], [OrderWorkTheorems], with [OrderDemo]'s runs: history
      explains each errand, closed errands stay closed, at most one of payment and return is asked for,
      commands follow the table on every branch, keys repeat nothing, views are private.
    - [Saga]: Order and Credit with the messages between them; in every state they reach together Credit's
      status of an errand is one its Order status allows. [SagaDemo] runs an errand from post to payment.
    - The User Service (user-service/src). [UserSchema], [UserRepository]: accounts, emailed links,
      sessions, administration. [UserService], [AdminService]: registration to sign-out, suspension and
      role changes. [UserFacts] to [UserTrail]: effects, invariant, and the audit trail as specification.
      [UserTheorems], [UserLive], [UserDemo]: sessions end, reuse ends a family, links work once, two
      people change administrators, one always remains, and registration can always be completed.
    - The Chat Service (chat-service/src). [ChatRepository], [ChatService], [ChatSweep]: channels, posts,
      reads and retention; [ChatTheorems], [ChatPosts]: numbering, limits, repeated posts. [SocketHub] to
      [SocketHubTheorems]: the sockets of an instance as a state machine; none is open without its own
      checked, unexpired token. [ErrandChat]: chat asking the Order Service's tables.
    - The Supplier Service (supplier-service/src). [SupplierHours], [SupplierNormalize],
      [SupplierRepository], [SupplierService]: opening hours, the seed's normalization, the tables, the
      routes. [SupplierFacts], [SupplierValid], [SupplierTheorems], [SupplierDemo]: entity tags lose no
      update, keys repeat nothing, validation leaves no database error, pages are complete.
    - [IdentityClient], [IdentityTheorems]: the remembered identity of a caller is fresh. [IdentityUser]:
      with the User Service's own replies, a suspension ends what a token can do.

    ** Fuel and bounds

    Fuel stands for loops that end on data: [redeliver] (a message's attempts: [DeliveryTheorems] gives
    the number), [tick] (a claim either publishes a row or stops), [sweep_pages] (one page more than there
    are channels), [walk] and the readers of pages (one more than there are rows). For each a theorem
    shows that the fuel given is enough. Credits and counters are PostgreSQL integers: a value outside 32
    bits raises [NumericOutOfRange].

    ** Not modelled

    Dependency injection, configuration, migrations, logging, metrics and health checks (platform/src and
    each service's module, main and config files): they hold no state of their own. Connections, timers
    and prefetch: a step relation lets each run whenever it likes. Tokens' signatures, password hashing and
    mail transport: libraries' work, whose results are arguments. The rate limiter of sign-in and the
    Order Service's live feed. The web client (web-app), the load generator, the end-to-end tests and
    the observability stack, which keep no record of an errand. Concurrent transactions are modelled as
    serial ones where a row lock, a unique index or a conditional update makes them so in the code; a
    read outside a transaction is a state of its own. *)

(** ** This file

    - [outcome], the value of a computation that may throw, and [Exn], the exceptions the
      services throw and the consumer dispatches on with [instanceof];
    - [M S A], a computation inside one database transaction over the tables [S]: it reads the
      transaction's clock ([now()]) and draws identifiers ([randomUUID()]) from the environment,
      reads and writes the tables and may throw;
    - [transaction], [Db.transaction] of platform/src/db.ts: commit on success, roll back on a throw;
    - sums over lists and finite maps, with the lemmas the conservation proofs use. *)
From Stdlib Require Import ZArith Lia.
From stdpp Require Export base gmap strings list fin_maps.

#[global] Open Scope Z_scope.

(** ** Exceptions *)

(** The SQLSTATE classes the modelled statements can raise. *)
Inductive SqlError :=
  | UniqueViolation (constraint : string)
  | CheckViolation (constraint : string)
  | ForeignKeyViolation (constraint : string)
  | NumericOutOfRange
  | InvalidText (column : string)
  | NotNullViolation (column : string)
  | ImmutableRow (table : string).

(** What the services throw. [PredecessorMissing], [Unparseable] and [Stale] are the classes of
    platform/src/events/envelope.ts that the consumer tells apart; every other [Error] is [Failure]. *)
Inductive Exn :=
  | Sql (e : SqlError)
  | SchemaInvalid (what : string)
  | PredecessorMissing (what : string)
  | Unparseable (reason : string)
  | UnsupportedVersion (eventType : string) (version : Z)
  | UntrustedSender (sender : option string)
  | Stale (reason : string)
  | Unroutable (eventType : string)
  | ApiException (status : Z) (code : string)
  | IdempotencyKeyReused
  | NotDue
  | DirectoryUnavailable
  | CreditUnavailable
  | Failure (message : string).

Inductive outcome (A : Type) :=
  | Ok (a : A)
  | Throw (e : Exn).
Arguments Ok {A} a.
Arguments Throw {A} e.

#[export] Instance SqlError_eq_dec : EqDecision SqlError.
Proof. solve_decision. Defined.
#[export] Instance Exn_eq_dec : EqDecision Exn.
Proof. solve_decision. Defined.
#[export] Instance outcome_eq_dec {A} `{EqDecision A} : EqDecision (outcome A).
Proof. solve_decision. Defined.

Definition is_ok {A} (o : outcome A) : bool :=
  match o with Ok _ => true | Throw _ => false end.

(** ** The transaction monad *)

(** [env_now] is PostgreSQL's [now()], fixed for a transaction, in microseconds since the epoch;
    [env_uuid n] is what the [n]-th call of [randomUUID()] returns. Nothing is assumed of it: a
    repeated identifier meets the tables' primary keys like any other. *)
Record Env := mkEnv { env_now : Z; env_uuid : nat -> string }.

Definition M (S A : Type) : Type := Env -> nat * S -> outcome (A * (nat * S)).

Section Monad.
Context {S : Type}.

Definition ret {A} (a : A) : M S A := fun _ s => Ok (a, s).
Definition throw {A} (e : Exn) : M S A := fun _ _ => Throw e.
Definition bind {A B} (m : M S A) (k : A -> M S B) : M S B :=
  fun e s => match m e s with
             | Ok (a, s') => k a e s'
             | Throw x => Throw x
             end.
Definition gets {A} (f : S -> A) : M S A := fun _ s => Ok (f (snd s), s).
Definition modify (f : S -> S) : M S unit := fun _ s => Ok (tt, (fst s, f (snd s))).
Definition now : M S Z := fun e s => Ok (env_now e, s).
Definition randomUUID : M S string := fun e s => Ok (env_uuid e (fst s), (Datatypes.S (fst s), snd s)).

(** [if (!b) throw e], the shape of every constraint and guard. *)
Definition require (b : bool) (e : Exn) : M S unit := if b then ret tt else throw e.
Definition when (b : bool) (m : M S unit) : M S unit := if b then m else ret tt.

(** A check that reads and may refuse. *)
Definition lift_outcome {A} (o : outcome A) : M S A :=
  match o with Ok a => ret a | Throw x => throw x end.

(** One [BEGIN … COMMIT] of [Db.transaction]: a throw rolls everything back. *)
Definition transaction {A} (m : M S A) (e : Env) (db : S) : outcome A * S :=
  match m e (0%nat, db) with
  | Ok (a, (_, db')) => (Ok a, db')
  | Throw x => (Throw x, db)
  end.

Fixpoint mapM_ {A} (f : A -> M S unit) (l : list A) : M S unit :=
  match l with
  | [] => ret tt
  | a :: l' => bind (f a) (fun _ => mapM_ f l')
  end.
End Monad.

Declare Scope tx_scope.
Delimit Scope tx_scope with tx.
Notation "'let!' x ':=' m 'in' k" := (bind m (fun x => k))
  (at level 10, x name, m at level 100, k at level 200) : tx_scope.
Notation "m ;;; k" := (bind m (fun _ => k))
  (at level 99, k at level 200, right associativity) : tx_scope.
#[global] Open Scope tx_scope.

(** ** Inverting successful computations *)

Section Inversion.
Context {S : Type}.

Lemma bind_ok {A B} (m : M S A) (k : A -> M S B) e s r :
  bind m k e s = Ok r <-> exists a s', m e s = Ok (a, s') /\ k a e s' = Ok r.
Proof.
  unfold bind. destruct (m e s) as [[a s']|x]; split.
  - intros H. by exists a, s'.
  - intros (a0 & s0 & [= <- <-] & H). done.
  - done.
  - by intros (? & ? & ? & ?).
Qed.

Lemma require_ok (b : bool) x e (s : nat * S) r :
  require b x e s = Ok r <-> b = true /\ r = (tt, s).
Proof. destruct b; simpl; unfold ret, throw; split; naive_solver. Qed.

Lemma ret_ok {A} (a : A) e (s : nat * S) r : ret a e s = Ok r <-> r = (a, s).
Proof. unfold ret. naive_solver. Qed.

Lemma lift_ok {A} (o : outcome A) e (s : nat * S) r :
  lift_outcome o e s = Ok r <-> exists a, o = Ok a /\ r = (a, s).
Proof. destruct o; simpl; unfold ret, throw; split; naive_solver. Qed.

Lemma gets_ok {A} (f : S -> A) e (s : nat * S) r : gets f e s = Ok r <-> r = (f (snd s), s).
Proof. unfold gets. naive_solver. Qed.

Lemma modify_ok (f : S -> S) e (s : nat * S) r :
  modify f e s = Ok r <-> r = (tt, (fst s, f (snd s))).
Proof. unfold modify. naive_solver. Qed.

Lemma now_ok e (s : nat * S) r : now e s = Ok r <-> r = (env_now e, s).
Proof. unfold now. naive_solver. Qed.

Lemma randomUUID_ok e (s : nat * S) r :
  randomUUID e s = Ok r <-> r = (env_uuid e (fst s), (Datatypes.S (fst s), snd s)).
Proof. unfold randomUUID. naive_solver. Qed.

Lemma transaction_ok {A} (m : M S A) e db a db' :
  transaction m e db = (Ok a, db') <-> exists n, m e (0%nat, db) = Ok (a, (n, db')).
Proof.
  unfold transaction. destruct (m e (0%nat, db)) as [[a0 [n db0]]|x]; split.
  - intros [= <- <-]. by exists n.
  - by intros [n0 [= <- _ <-]].
  - done.
  - by intros [? ?].
Qed.

Lemma transaction_throw {A} (m : M S A) e db x db' :
  transaction m e db = (Throw x, db') -> db' = db.
Proof. unfold transaction. destruct (m e (0%nat, db)) as [[a0 [n db0]]|y]; naive_solver. Qed.
End Inversion.

(** [inv_tx] turns [m e s = Ok r] into the equations of its steps, one primitive at a time. *)
Ltac inv_tx1 :=
  match goal with
  | H : bind _ _ _ _ = Ok _ |- _ =>
      let a := fresh "a" in let s := fresh "s" in let Hm := fresh "Hm" in
      apply bind_ok in H as (a & s & Hm & H)
  | H : require _ _ _ _ = Ok _ |- _ => apply require_ok in H as [? H]
  | H : ret _ _ _ = Ok _ |- _ => apply ret_ok in H
  | H : gets _ _ _ = Ok _ |- _ => apply gets_ok in H
  | H : modify _ _ _ = Ok _ |- _ => apply modify_ok in H
  | H : now _ _ = Ok _ |- _ => apply now_ok in H
  | H : randomUUID _ _ = Ok _ |- _ => apply randomUUID_ok in H
  | H : throw _ _ _ = Ok _ |- _ => discriminate H
  | H : (_, _) = (_, _) |- _ => apply pair_equal_spec in H as [? ?]
  | H : ?x = (_, _) |- _ => is_var x; subst x
  | H : (_, _) = ?x |- _ => is_var x; subst x
  | H : _ = tt |- _ => clear H
  end.
Ltac inv_tx := repeat (inv_tx1; simpl fst in *; simpl snd in *); subst.

(** ** Running computations forward *)

Lemma bind_step {S A B} (m : M S A) (k : A -> M S B) e s a s' r :
  m e s = Ok (a, s') -> k a e s' = r -> bind m k e s = r.
Proof. unfold bind. by intros ->. Qed.

(** A step that reads nothing it can fail on. *)
Ltac run_plain := eapply bind_step; [reflexivity|]; cbv beta iota.

(** ** Sums *)

Definition sumZ {A} (f : A -> Z) (l : list A) : Z := foldr (fun a acc => f a + acc) 0 l.

Section Sums.
Context {A : Type}.
Implicit Types (f g : A -> Z) (l : list A).

Lemma sumZ_nil f : sumZ f [] = 0.
Proof. done. Qed.
Lemma sumZ_cons f a l : sumZ f (a :: l) = f a + sumZ f l.
Proof. done. Qed.
Lemma sumZ_app f l1 l2 : sumZ f (l1 ++ l2) = sumZ f l1 + sumZ f l2.
Proof. induction l1 as [|a l1 IH]; simpl; [done|]. unfold sumZ in *. simpl. lia. Qed.
Lemma sumZ_ext f g l : (forall a, a ∈ l -> f a = g a) -> sumZ f l = sumZ g l.
Proof.
  induction l as [|a l IH]; intros H; [done|]. rewrite !sumZ_cons.
  rewrite (H a) by set_solver. rewrite IH by (intros; apply H; set_solver). done.
Qed.
Lemma sumZ_zero f l : (forall a, a ∈ l -> f a = 0) -> sumZ f l = 0.
Proof.
  intros H. rewrite (sumZ_ext f (fun _ => 0)) by done.
  clear H. induction l as [|a l IH]; [done|]. rewrite sumZ_cons, IH. done.
Qed.
Lemma sumZ_add f g l : sumZ (fun a => f a + g a) l = sumZ f l + sumZ g l.
Proof. induction l as [|a l IH]; [done|]. rewrite !sumZ_cons, IH. lia. Qed.
Lemma sumZ_nonneg f l : (forall a, a ∈ l -> 0 <= f a) -> 0 <= sumZ f l.
Proof.
  induction l as [|a l IH]; intros H; [done|]. rewrite sumZ_cons.
  assert (0 <= f a) by (apply H; set_solver).
  assert (0 <= sumZ f l) by (apply IH; intros; apply H; set_solver). lia.
Qed.
Lemma sumZ_elem_le f l a : (forall b, b ∈ l -> 0 <= f b) -> a ∈ l -> f a <= sumZ f l.
Proof.
  induction l as [|b l IH]; intros Hn Ha; [set_solver|]. rewrite sumZ_cons.
  assert (0 <= f b) by (apply Hn; set_solver).
  assert (0 <= sumZ f l) by (apply sumZ_nonneg; intros; apply Hn; set_solver).
  apply elem_of_cons in Ha as [->|Ha]; [lia|].
  assert (f a <= sumZ f l) by (apply IH; [intros; apply Hn; set_solver|done]). lia.
Qed.
End Sums.

(** A sum over the rows of a table held as a finite map. *)
Definition sum_map {K A} `{Countable K} (f : A -> Z) (m : gmap K A) : Z :=
  map_fold (fun _ a acc => f a + acc) 0 m.

Section MapSums.
Context {K A : Type} `{Countable K}.
Implicit Types (f : A -> Z) (m : gmap K A).

Lemma sum_map_empty f : sum_map f (∅ : gmap K A) = 0.
Proof. apply map_fold_empty. Qed.

Lemma sum_map_insert_None f m k a :
  m !! k = None -> sum_map f (<[k := a]> m) = f a + sum_map f m.
Proof. intros Hk. unfold sum_map. rewrite map_fold_insert_L; [done| |done]. intros; lia. Qed.

Lemma sum_map_delete f m k a :
  m !! k = Some a -> sum_map f m = f a + sum_map f (delete k m).
Proof.
  intros Hk. rewrite <- (insert_delete_id m k a) at 1 by done.
  apply sum_map_insert_None, lookup_delete_eq.
Qed.

Lemma sum_map_insert_Some f m k a b :
  m !! k = Some a -> sum_map f (<[k := b]> m) = f b - f a + sum_map f m.
Proof.
  intros Hk. rewrite (sum_map_delete f m k a) by done.
  rewrite <- insert_delete_eq, sum_map_insert_None by apply lookup_delete_eq. lia.
Qed.
End MapSums.

(** ** Machine integers *)

(** A PostgreSQL [integer] column holds 32 bits; a value outside raises SQLSTATE 22003. *)
Definition INT4_MIN : Z := -2147483648.
Definition INT4_MAX : Z := 2147483647.
Definition in_int4 (z : Z) : bool := (INT4_MIN <=? z) && (z <=? INT4_MAX).

(** [iso(value)]: a JavaScript [Date] holds milliseconds, so a time read from the database loses its
    microseconds. *)
Definition iso (t : Z) : Z := t / 1000 * 1000.

Lemma iso_le t : iso t <= t < iso t + 1000.
Proof. unfold iso. pose proof (Z.div_mod t 1000). pose proof (Z.mod_pos_bound t 1000). lia. Qed.

Lemma iso_iso t : iso (iso t) = iso t.
Proof. unfold iso. by rewrite Z.div_mul. Qed.

Lemma iso_mono a b : a <= b -> iso a <= iso b.
Proof. unfold iso. intros. assert (a / 1000 <= b / 1000) by (apply Z.div_le_mono; lia). lia. Qed.

Lemma iso_add t ms : iso (iso t + ms * 1000) = iso t + ms * 1000.
Proof. unfold iso. rewrite Z.div_add by done. rewrite Z.div_mul by done. lia. Qed.

(** ** Constraints of a table *)

Section Constraints.
Context {S : Type}.
Definition width_ok (z : Z) : M S unit := require (in_int4 z) (Sql NumericOutOfRange).
Definition check_ (b : bool) (name : string) : M S unit := require b (Sql (CheckViolation name)).
Definition unique_ (b : bool) (name : string) : M S unit := require b (Sql (UniqueViolation name)).
Definition references_ (b : bool) (name : string) : M S unit :=
  require b (Sql (ForeignKeyViolation name)).
End Constraints.

Definition is_some {A} (o : option A) : bool := match o with Some _ => true | None => false end.
Definition optP {A} (o : option A) (p : A -> bool) : bool :=
  match o with Some a => p a | None => true end.

(** Opens the constraint of a statement. *)
Ltac unfold_checks := unfold width_ok, check_, unique_, references_ in *.

(** ** Booleans, options and lists *)

Create HintDb foc.
Create Rewrite HintDb foc_rw.

Lemma existsb_false {A} (p : A -> bool) (l : list A) :
  existsb p l = false <-> forall a, a ∈ l -> p a = false.
Proof.
  induction l as [|b l IH]; simpl; [set_solver|].
  rewrite orb_false_iff, IH. split.
  - intros [Hb Hl] a Ha. apply elem_of_cons in Ha as [->|Ha]; auto.
  - intros Hall. split; [apply Hall; set_solver|]. intros a Ha. apply Hall; set_solver.
Qed.

Lemma existsb_true {A} (p : A -> bool) (l : list A) :
  existsb p l = true <-> exists a, a ∈ l /\ p a = true.
Proof.
  rewrite existsb_exists. split; intros (a & Ha & Hp); exists a; split; auto;
    by apply list_elem_of_In.
Qed.

Lemma elem_filter {A} (p : A -> bool) l (a : A) : a ∈ List.filter p l <-> p a = true /\ a ∈ l.
Proof. rewrite !list_elem_of_In, filter_In. tauto. Qed.

Lemma find_elem {A} (p : A -> bool) l (a : A) : List.find p l = Some a -> a ∈ l /\ p a = true.
Proof. intros [? ?]%List.find_some. by rewrite list_elem_of_In. Qed.

Lemma find_none_elem {A} (p : A -> bool) l : List.find p l = None -> forall a : A, a ∈ l -> p a = false.
Proof. intros Hf a Ha. eapply List.find_none; [done|]. by apply list_elem_of_In. Qed.

Lemma filter_length_mono {A} (p q : A -> bool) l :
  (forall a, p a = true -> q a = true) -> (length (List.filter p l) <= length (List.filter q l))%nat.
Proof.
  intros Hpq. induction l as [|a l IH]; simpl; [lia|]. specialize (Hpq a).
  destruct (p a), (q a); simpl; try lia; by specialize (Hpq eq_refl).
Qed.

(** If no element brings its own window of length [w] past [k], no window of that length is past it, in
    whatever order the elements stand. *)
Lemma window_count {A} (p : A -> bool) (at_ : A -> Z) (w : Z) (k : nat) (l : list A) (t : Z) :
  (forall pre x post, l = pre ++ x :: post -> p x = true ->
     (length (List.filter (fun y => p y && (at_ x - w <? at_ y)%Z) pre) < k)%nat) ->
  (length (List.filter (fun y => p y && (t - w <? at_ y)%Z && (at_ y <=? t)%Z) l) <= k)%nat.
Proof.
  induction l as [|x l IH] using rev_ind; intros Hl; [simpl; lia|].
  rewrite List.filter_app, length_app. simpl.
  specialize (IH (fun pre y post Heq => Hl pre y (post ++ [x]) ltac:(by rewrite Heq, <- app_assoc))).
  destruct (p x && _ && _) eqn:Hx; simpl; [|lia]. rewrite !andb_true_iff, Z.ltb_lt, Z.leb_le in Hx.
  destruct Hx as [[Hp _] Hle]. specialize (Hl l x [] eq_refl Hp).
  pose proof (filter_length_mono (fun y => p y && (t - w <? at_ y) && (at_ y <=? t))
    (fun y => p y && (at_ x - w <? at_ y)) l) as Hm.
  assert (forall y, p y && (t - w <? at_ y) && (at_ y <=? t) = true -> p y && (at_ x - w <? at_ y) = true) as Hy;
    [|specialize (Hm Hy); lia].
  intros y. rewrite !andb_true_iff, !Z.ltb_lt. intros [[? ?] _]. split; [done|lia].
Qed.

Lemma filter_nil {A} (p : A -> bool) l : (forall a, a ∈ l -> p a = false) -> List.filter p l = [].
Proof.
  induction l as [|a l IH]; intros H; simpl; [done|]. rewrite (H a) by set_solver. apply IH. set_solver.
Qed.

Lemma filter_ext_in {A} (p q : A -> bool) l :
  (forall a, a ∈ l -> p a = q a) -> List.filter p l = List.filter q l.
Proof.
  induction l as [|a l IH]; intros H; simpl; [done|]. rewrite (H a) by set_solver.
  rewrite IH by (intros; apply H; set_solver). done.
Qed.

Lemma filter_filter {A} (p q : A -> bool) l :
  List.filter p (List.filter q l) = List.filter (fun a => q a && p a) l.
Proof. induction l as [|a l IH]; simpl; [done|]. destruct (q a); simpl; rewrite <- IH; done. Qed.

Lemma NoDup_fmap_filter {A B} (f : A -> B) (p : A -> bool) l : NoDup (f <$> l) -> NoDup (f <$> List.filter p l).
Proof.
  induction l as [|a l IH]; simpl; [done|]. rewrite NoDup_cons. intros [Ha Hl]. destruct (p a); [|auto].
  rewrite fmap_cons, NoDup_cons. split; [|auto]. rewrite list_elem_of_fmap. intros (x & Hx & [_ Hin]%elem_filter).
  apply Ha. rewrite Hx. by apply list_elem_of_fmap_2.
Qed.

Lemma NoDup_filter_bool {A} (p : A -> bool) (l : list A) : NoDup l -> NoDup (List.filter p l).
Proof. intros Hn. rewrite <- (list_fmap_id (List.filter p l)). apply NoDup_fmap_filter. by rewrite list_fmap_id. Qed.

#[export] Hint Resolve sumZ_nil sum_map_empty : foc.
#[export] Hint Rewrite @sumZ_nil @sumZ_cons @sumZ_app : foc_rw.

(** A JavaScript object used as a table from names to values. *)
Fixpoint assoc {A} (k : string) (l : list (string * A)) : option A :=
  match l with
  | [] => None
  | (k', a) :: l' => if String.eqb k k' then Some a else assoc k l'
  end.

Lemma assoc_Some_elem {A} k (l : list (string * A)) a : assoc k l = Some a -> (k, a) ∈ l.
Proof.
  induction l as [|[k' a'] l IH]; simpl; [done|].
  destruct (String.eqb_spec k k') as [->|]; intros; simplify_eq; set_solver.
Qed.

Lemma assoc_is_Some {A} k (l : list (string * A)) : is_Some (assoc k l) <-> k ∈ l.*1.
Proof.
  induction l as [|[k' a'] l IH]; simpl.
  - split; [by intros []|set_solver].
  - rewrite elem_of_cons, <- IH. destruct (String.eqb_spec k k'); naive_solver.
Qed.

(** ** The order of identifiers *)

Lemma ascii_compare_N a b : Ascii.compare a b = N.compare (Ascii.N_of_ascii a) (Ascii.N_of_ascii b).
Proof. done. Qed.

Lemma string_compare_refl s : String.compare s s = Eq.
Proof.
  induction s as [|a s IH]; simpl; [done|]. rewrite ascii_compare_N, N.compare_refl. done.
Qed.

Lemma string_compare_trans a b c :
  String.compare a b = Lt -> String.compare b c = Lt -> String.compare a c = Lt.
Proof.
  revert b c. induction a as [|x a IH]; intros [|y b] [|z c]; simpl; try done.
  rewrite !ascii_compare_N.
  destruct (N.compare_spec (Ascii.N_of_ascii x) (Ascii.N_of_ascii y)) as [Hxy|Hxy|Hxy]; try done;
    destruct (N.compare_spec (Ascii.N_of_ascii y) (Ascii.N_of_ascii z)) as [Hyz|Hyz|Hyz]; try done;
    intros H1 H2.
  - rewrite Hxy, Hyz, N.compare_refl. eauto.
  - by rewrite (proj2 (N.compare_lt_iff _ _)) by lia.
  - by rewrite (proj2 (N.compare_lt_iff _ _)) by lia.
  - by rewrite (proj2 (N.compare_lt_iff _ _)) by lia.
Qed.

Lemma string_ltb_irrefl s : String.ltb s s = false.
Proof. unfold String.ltb. by rewrite string_compare_refl. Qed.

Lemma string_ltb_trans a b c : String.ltb a b = true -> String.ltb b c = true -> String.ltb a c = true.
Proof.
  unfold String.ltb. intros Hab Hbc. destruct (String.compare a b) eqn:H1; try done.
  destruct (String.compare b c) eqn:H2; try done. by rewrite (string_compare_trans a b c).
Qed.

Lemma string_ltb_total a b : a <> b -> String.ltb a b = true \/ String.ltb b a = true.
Proof.
  intros Hne. unfold String.ltb. rewrite (String.compare_antisym a b).
  destruct (String.compare b a) eqn:Hc; simpl; [|auto..].
  apply String.compare_eq_iff in Hc. congruence.
Qed.
