(* ===== verification/Text.v ===== *)
(** * Text: strings as JavaScript and PostgreSQL read them

    A [string] holds UTF-8. PostgreSQL's [char_length] counts its characters, JavaScript's [length]
    its UTF-16 units, and [String.prototype.trim] strips Unicode white space from both ends. *)
From Stdlib Require Import Ascii.
From S2P Require Export Prelude.

(** A byte that continues a character, and one that starts a character of four bytes. *)
Definition continues (a : ascii) : bool := let n := N_of_ascii a in (128 <=? n)%N && (n <? 192)%N.
Definition starts_four (a : ascii) : bool := (240 <=? N_of_ascii a)%N.

Fixpoint char_length (s : string) : nat :=
  match s with
  | EmptyString => 0
  | String a s' => ((if continues a then 0 else 1) + char_length s')%nat
  end.

(** [s.length]: a character of four bytes is two units. *)
Fixpoint js_length (s : string) : nat :=
  match s with
  | EmptyString => 0
  | String a s' =>
      ((if continues a then 0 else if starts_four a then 2 else 1) + js_length s')%nat
  end.

Lemma char_length_js s : (char_length s <= js_length s)%nat.
Proof. induction s as [|a s IH]; simpl; [done|]. destruct (continues a), (starts_four a); lia. Qed.

(** At least as many characters as half the units, so text of any length has some. *)
Lemma js_length_char s : (js_length s <= 2 * char_length s)%nat.
Proof. induction s as [|a s IH]; simpl; [done|]. destruct (continues a), (starts_four a); lia. Qed.

(** ** slice *)

(** [s.slice(0, n)], as PostgreSQL receives it: half a character of four bytes is sent as U+FFFD. *)
Fixpoint js_slice (n : nat) (s : string) : string :=
  match s with
  | EmptyString => EmptyString
  | String a s' =>
      if continues a then String a (js_slice n s')
      else if starts_four a then
        match n with
        | O => EmptyString
        | 1%nat => String (ascii_of_nat 239) (String (ascii_of_nat 191) (String (ascii_of_nat 189) EmptyString))
        | Datatypes.S (Datatypes.S n') => String a (js_slice n' s')
        end
      else match n with O => EmptyString | Datatypes.S n' => String a (js_slice n' s') end
  end.

(** ** trim *)

Definition bytes (l : list nat) : string := foldr (fun n s => String (ascii_of_nat n) s) "" l.

(** ECMAScript's white space and line terminators. *)
Definition WHITE_SPACE : list (list nat) :=
  [[9]; [10]; [11]; [12]; [13]; [32]; [194; 160]; [225; 154; 128];
   [226; 128; 128]; [226; 128; 129]; [226; 128; 130]; [226; 128; 131]; [226; 128; 132];
   [226; 128; 133]; [226; 128; 134]; [226; 128; 135]; [226; 128; 136]; [226; 128; 137];
   [226; 128; 138]; [226; 128; 168]; [226; 128; 169]; [226; 128; 175]; [226; 129; 159];
   [227; 128; 128]; [239; 187; 191]]%nat.

(** What is left after one of the tokens, if the text starts with one. *)
Fixpoint strip_one (tokens : list string) (s : string) : option string :=
  match tokens with
  | [] => None
  | t :: tokens' =>
      if String.prefix t s
      then Some (String.substring (String.length t) (String.length s - String.length t) s)
      else strip_one tokens' s
  end.

Fixpoint strip (fuel : nat) (tokens : list string) (s : string) : string :=
  match fuel with
  | O => s
  | Datatypes.S fuel' =>
      match strip_one tokens s with Some s' => strip fuel' tokens s' | None => s end
  end.

Fixpoint reverse_bytes (s acc : string) : string :=
  match s with EmptyString => acc | String a s' => reverse_bytes s' (String a acc) end.

(** Each token has a byte, so the text's length is fuel enough. *)
Definition trimStart (s : string) : string := strip (String.length s) (bytes <$> WHITE_SPACE) s.
Definition trimEnd (s : string) : string :=
  reverse_bytes (strip (String.length s) ((fun t => bytes (rev t)) <$> WHITE_SPACE)
                   (reverse_bytes s "")) "".
Definition trim (s : string) : string := trimEnd (trimStart s).

Example trim_spaces : trim ("  a b" ++ bytes [194; 160; 9]%nat) = "a b".
Proof. reflexivity. Qed.
Example trim_blank : trim ("  " ++ bytes [226; 128; 175]%nat) = "".
Proof. reflexivity. Qed.

(** What PostgreSQL decides: which text its [uuid] type takes, and [lower()]. Identifiers are taken in
    their canonical text, so equal identifiers are equal texts. *)
Class Pg := { pg_uuid : string -> bool; pg_lower : string -> string }.

(** Unicode text in JavaScript: [normalize('NFKC')] and [toLowerCase()]. *)
Class Texts := { nfkc : string -> string; to_lower : string -> string }.

(** ** Checks on text *)

Definition len_between (a b : Z) (s : string) : bool :=
  let n := Z.of_nat (char_length s) in (a <=? n) && (n <=? b).

Definition has_nul (s : string) : bool := existsb (fun a => Ascii.eqb a zero) (String.list_ascii_of_string s).

(** ** LIKE *)

(** [escapeLike] (platform/src/db.ts): [s.replace(/[\\%_]/g, (c) => `\\${c}`)]. *)
Definition is_wildcard (a : ascii) : bool := Ascii.eqb a "\" || Ascii.eqb a "%" || Ascii.eqb a "_".
Fixpoint escapeLike (s : string) : string :=
  match s with
  | EmptyString => EmptyString
  | String a s' => if is_wildcard a then String "\" (String a (escapeLike s')) else String a (escapeLike s')
  end.

Fixpoint some_suffix (f : string -> bool) (s : string) : bool :=
  f s || match s with EmptyString => false | String _ s' => some_suffix f s' end.

(** The rest of a character after its first byte. *)
Fixpoint next_char (s : string) : string :=
  match s with
  | EmptyString => EmptyString
  | String a s' => if continues a then next_char s' else s
  end.

(** [s LIKE p ESCAPE '\']. *)
Fixpoint like (p s : string) : bool :=
  match p with
  | EmptyString => String.eqb s ""
  | String c p' =>
      if Ascii.eqb c "%" then some_suffix (like p') s
      else if Ascii.eqb c "_" then match s with EmptyString => false | String _ s' => like p' (next_char s') end
      else if Ascii.eqb c "\" then
        match p', s with
        | String d p'', String x s' => Ascii.eqb x d && like p'' s'
        | _, _ => false
        end
      else match s with EmptyString => false | String x s' => Ascii.eqb x c && like p' s' end
  end.

Definition contains (q s : string) : bool := some_suffix (String.prefix q) s.

Lemma some_suffix_ext f g s : (forall t, f t = g t) -> some_suffix f s = some_suffix g s.
Proof. intros H. induction s as [|a s IH]; simpl; rewrite H; [done|]. by rewrite IH. Qed.

Lemma some_suffix_true f s : f "" = true -> some_suffix f s = true.
Proof. intros H. induction s as [|a s IH]; simpl; rewrite ?H, ?IH; [done|]. by rewrite orb_true_r. Qed.

(** What is escaped matches itself. *)
Lemma like_escape_prefix q s : like (escapeLike q ++ "%") s = String.prefix q s.
Proof.
  revert s. induction q as [|a q IH]; intros s.
  { simpl. destruct s; [done|]. by apply some_suffix_true. }
  assert (forall x t, Ascii.eqb x a && String.prefix q t = String.prefix (String a q) (String x t)) as Hp.
  { intros x t. simpl. destruct (Ascii.eqb_spec x a), (ascii_dec a x); subst; done || congruence. }
  simpl escapeLike. destruct (is_wildcard a) eqn:Ha.
  - simpl. destruct s as [|x t]; [done|]. by rewrite IH, Hp.
  - unfold is_wildcard in Ha. rewrite !orb_false_iff in Ha. destruct Ha as [[H1 H2] H3].
    simpl. rewrite H1, H2, H3. destruct s as [|x t]; [done|]. by rewrite IH, Hp.
Qed.

(** So [%q%], with [q] escaped, finds the text that contains [q], whatever it contains. *)
Lemma like_contains q s : like ("%" ++ escapeLike q ++ "%") s = contains q s.
Proof. apply (some_suffix_ext (like (escapeLike q ++ "%"))). apply like_escape_prefix. Qed.
