(* ===== verification/Paging.v ===== *)
(** * Paging: keyset pages, as the services' lists read them

    Every list the services page holds its rows in a strict order of a key, answers the rows after a
    cursor, [limit + 1] at most, and hands out the last key of a full page as the next cursor.
    [walk] follows the cursors to the end; with a cursor that holds the whole key it visits every row
    exactly once ([walk_all]). *)
From stdpp Require Import sorting.
From S2P Require Export Prelude.
From Stdlib Require Import Sorting.Sorted.

(** [ORDER BY]: insertion by a strict order. *)
Section Order.
Context {A : Type} (lt : A -> A -> bool).

Fixpoint insert_by (a : A) (l : list A) : list A :=
  match l with
  | [] => [a]
  | b :: l' => if lt b a then b :: insert_by a l' else a :: b :: l'
  end.
Definition order_by (l : list A) : list A := foldr insert_by [] l.

Lemma insert_by_perm a l : insert_by a l ≡ₚ a :: l.
Proof.
  induction l as [|b l IH]; simpl; [done|]. destruct (lt b a); [|done].
  rewrite IH. apply Permutation_swap.
Qed.

Lemma order_by_perm l : order_by l ≡ₚ l.
Proof. induction l as [|a l IH]; simpl; [done|]. by rewrite insert_by_perm, IH. Qed.

Definition in_order (l : list A) : Prop := StronglySorted (fun a b => lt a b = true) l.

Context (lt_trans : forall a b c, lt a b = true -> lt b c = true -> lt a c = true).

Lemma insert_by_order a l :
  in_order l -> (forall b, b ∈ l -> lt a b = true \/ lt b a = true) -> in_order (insert_by a l).
Proof.
  induction 1 as [|b l Hl IH Hb]; intros Hcmp; simpl.
  { constructor; constructor. }
  rewrite Forall_forall in Hb. destruct (lt b a) eqn:Hba.
  - constructor; [apply IH; intros; apply Hcmp; set_solver|]. apply Forall_forall. intros x Hx.
    rewrite insert_by_perm in Hx. apply elem_of_cons in Hx as [->|Hx]; auto.
  - destruct (Hcmp b) as [Hab|?]; [set_solver| |congruence].
    constructor; [constructor; [done|by apply Forall_forall]|]. constructor; [done|].
    apply Forall_forall. eauto.
Qed.

Lemma order_by_order l :
  NoDup l -> (forall a b, a ∈ l -> b ∈ l -> a <> b -> lt a b = true \/ lt b a = true) ->
  in_order (order_by l).
Proof.
  induction l as [|a l IH]; intros Hnd Htot; simpl; [constructor|].
  apply NoDup_cons in Hnd as [Ha Hnd]. apply insert_by_order.
  - apply IH; [done|]. intros; apply Htot; set_solver.
  - intros b Hb. rewrite order_by_perm in Hb. apply Htot; set_solver.
Qed.
End Order.

(** [ORDER BY … LIMIT size OFFSET (page - 1) * size], and the number of rows in all. *)
Definition offset_page {A} (page_ pageSize : nat) (rows : list A) : list A * nat :=
  (take pageSize (drop ((page_ - 1) * pageSize) rows), length rows).

(** ** Strict orders *)

Section Strict.
Context {A : Type} (lt : A -> A -> bool).
(** Rows in a strict order are in that order in one way only. *)
Lemma in_order_unique (l l' : list A) :
  (forall a, lt a a = false) -> (forall a b c, lt a b = true -> lt b c = true -> lt a c = true) ->
  in_order lt l -> in_order lt l' -> l ≡ₚ l' -> l = l'.
Proof.
  intros Hirr Htr Hl Hl' Hp. eapply StronglySorted_unique_strong; [|exact Hl|exact Hl'|exact Hp].
  intros a b _ _ Hab Hba. exfalso. pose proof (Htr _ _ _ Hab Hba). by rewrite Hirr in *.
Qed.
Lemma in_order_filter p (l : list A) : in_order lt l -> in_order lt (List.filter p l).
Proof.
  induction 1 as [|a l _ IH Ha]; simpl; [constructor|]. destruct (p a); [|done].
  constructor; [done|]. rewrite Forall_forall in *. intros x [_ Hx]%elem_filter. eauto.
Qed.
Lemma in_order_rev (l : list A) : in_order lt l -> in_order (fun a b => lt b a) (rev l).
Proof.
  induction 1 as [|a l _ IH Ha]; simpl; [constructor|]. apply StronglySorted_app_2; [|done|by constructor; constructor].
  intros x y Hx ->%list_elem_of_singleton. rewrite Forall_forall in Ha. apply Ha. apply list_elem_of_In in Hx. apply list_elem_of_In. by apply in_rev.
Qed.

(** Sorting rows already in order changes nothing; sorting them the other way reverses them. *)
Lemma order_by_id (l : list A) :
  (forall a, lt a a = false) -> (forall a b c, lt a b = true -> lt b c = true -> lt a c = true) ->
  in_order lt l -> order_by lt l = l.
Proof.
  intros Hirr Htr. induction 1 as [|a l _ IH Ha]; simpl; [done|]. rewrite IH. destruct Ha as [|b l Hb]; simpl; [done|].
  destruct (lt b a) eqn:Hba; [|done]. pose proof (Htr _ _ _ Hba Hb). by rewrite Hirr in *.
Qed.
Lemma insert_by_last a (l : list A) : (forall b, b ∈ l -> lt b a = true) -> insert_by lt a l = l ++ [a].
Proof.
  induction l as [|b l IH]; intros Hl; simpl; [done|]. rewrite Hl by set_solver. f_equal. apply IH. set_solver.
Qed.
End Strict.

Lemma order_by_rev {A} (lt : A -> A -> bool) (l : list A) :
  in_order lt l -> order_by (fun a b => lt b a) l = rev l.
Proof.
  induction 1 as [|a l _ IH Ha]; simpl; [done|]. rewrite IH. apply insert_by_last. rewrite Forall_forall in Ha.
  intros b Hb. apply Ha. apply list_elem_of_In in Hb. apply list_elem_of_In. by apply in_rev.
Qed.

Section Paging.
Context {A K : Type} (key : A -> K) (lt : K -> K -> bool) (encode : K -> K).

Definition after (cursor : option K) (r : A) : bool :=
  match cursor with Some c => lt c (key r) | None => true end.

(** One page: the rows, and whether more follow ([LIMIT limit + 1]). *)
Definition page (limit : nat) (cursor : option K) (rows : list A) : list A * bool :=
  let found := take (Datatypes.S limit) (List.filter (after cursor) rows) in
  (take limit found, (limit <? length found)%nat).

Definition next_cursor (p : list A * bool) : option K :=
  if snd p then (fun r => encode (key r)) <$> last (fst p) else None.

(** Reading page after page until there is no next cursor; [None] when the fuel ran out. *)
Fixpoint walk (fuel limit : nat) (cursor : option K) (rows : list A) : option (list A) :=
  match fuel with
  | O => None
  | Datatypes.S fuel' =>
      let p := page limit cursor rows in
      match next_cursor p with
      | None => Some (fst p)
      | Some c => (fun rest => fst p ++ rest) <$> walk fuel' limit (Some c) rows
      end
  end.

Context (lt_irrefl : forall k, lt k k = false)
  (lt_trans : forall a b c, lt a b = true -> lt b c = true -> lt a c = true).

Let sorted (rows : list A) : Prop := in_order (fun a b => lt (key a) (key b)) rows.

Lemma sorted_split l x r :
  sorted (l ++ x :: r) -> List.filter (after (Some (key x))) (l ++ x :: r) = r.
Proof.
  intros Hs. assert (forall y, y ∈ l -> lt (key x) (key y) = false) as Hl.
  { intros y Hy. destruct (lt (key x) (key y)) eqn:Hlt; [|done].
    apply list_elem_of_split in Hy as (l1 & l2 & ->). rewrite <- app_assoc in Hs. simpl in Hs.
    assert (lt (key y) (key x) = true) as Hyx.
    { clear Hlt. induction l1 as [|z l1 IH]; simpl in Hs.
      - apply StronglySorted_inv in Hs as [_ Hf]. rewrite Forall_forall in Hf. apply Hf.
        set_solver.
      - apply StronglySorted_inv in Hs as [Hs _]. auto. }
    pose proof (lt_trans _ _ _ Hlt Hyx). by rewrite lt_irrefl in *. }
  rewrite List.filter_app. simpl. rewrite lt_irrefl.
  assert (List.filter (after (Some (key x))) l = []) as ->.
  { clear Hs. induction l as [|y l IH]; simpl; [done|]. rewrite Hl by set_solver. apply IH.
    intros; apply Hl; set_solver. }
  simpl. assert (forall y, y ∈ r -> lt (key x) (key y) = true) as Hr.
  { induction l as [|y l IH]; simpl in Hs; apply StronglySorted_inv in Hs as [Hs Hf].
    - by rewrite Forall_forall in Hf.
    - apply IH; [done|]. intros; apply Hl; set_solver. }
  clear -Hr. induction r as [|y r IH]; simpl; [done|]. rewrite Hr by set_solver.
  f_equal. apply IH. intros; apply Hr; set_solver.
Qed.

(** A cursor that holds the whole key of every row. *)
Definition exact_cursor (rows : list A) : Prop := forall r, r ∈ rows -> encode (key r) = key r.

(** From a row on, walking reads the rows after it, in order. *)
Lemma walk_from fuel limit seen x rest :
  limit <> 0%nat -> exact_cursor (seen ++ x :: rest) -> sorted (seen ++ x :: rest) ->
  (length rest < fuel)%nat ->
  walk fuel limit (Some (key x)) (seen ++ x :: rest) = Some rest.
Proof.
  intros Hlim. revert seen x rest. induction fuel as [|fuel IH]; intros seen x rest Henc Hs Hf; [lia|].
  simpl. unfold page. rewrite sorted_split by done. cbn [fst snd]. unfold next_cursor. cbn [fst snd].
  rewrite take_take, length_take. rewrite (Nat.min_l limit (Datatypes.S limit)) by lia.
  destruct (Nat.ltb_spec limit (Nat.min (Datatypes.S limit) (length rest))) as [Hmore|Hdone].
  - destruct (last (take limit rest)) as [z|] eqn:Hz.
    2:{ apply last_None in Hz. apply (f_equal length) in Hz. rewrite length_take in Hz. simpl in Hz. lia. }
    simpl. apply last_Some in Hz as [pre Hpre].
    assert (rest = pre ++ z :: drop limit rest) as Hrest.
    { rewrite <- (take_drop limit rest) at 1. rewrite Hpre, <- app_assoc. done. }
    rewrite Henc by (rewrite Hrest; set_solver).
    assert (seen ++ x :: rest = (seen ++ x :: pre) ++ z :: drop limit rest) as Heq.
    { rewrite Hrest at 1. rewrite <- app_assoc. done. }
    rewrite Heq, IH; [simpl; by rewrite take_drop|by rewrite <- Heq|by rewrite <- Heq|].
    rewrite length_drop. lia.
  - simpl. f_equal. apply take_ge. lia.
Qed.

(** Following the cursors from the first page reads every row once, in order. *)
Lemma walk_all limit rows :
  limit <> 0%nat -> exact_cursor rows -> sorted rows ->
  walk (Datatypes.S (length rows)) limit None rows = Some rows.
Proof.
  intros Hlim Henc Hs. remember (length rows) as fuel eqn:Hfuel. simpl. unfold page, next_cursor.
  cbn [fst snd].
  assert (List.filter (after None) rows = rows) as ->.
  { clear. induction rows as [|y r IH]; simpl; [done|]. by rewrite IH. }
  rewrite take_take, length_take. rewrite (Nat.min_l limit (Datatypes.S limit)) by lia.
  destruct (Nat.ltb_spec limit (Nat.min (Datatypes.S limit) (length rows))) as [Hmore|Hdone].
  - destruct (last (take limit rows)) as [z|] eqn:Hz.
    2:{ apply last_None in Hz. apply (f_equal length) in Hz. rewrite length_take in Hz. simpl in Hz. lia. }
    simpl. apply last_Some in Hz as [pre Hpre].
    assert (rows = pre ++ z :: drop limit rows) as Hrows.
    { rewrite <- (take_drop limit rows) at 1. rewrite Hpre, <- app_assoc. done. }
    rewrite Henc by (rewrite Hrows; set_solver).
    rewrite Hrows at 1. rewrite walk_from; [simpl; by rewrite take_drop|done|by rewrite <- Hrows|by rewrite <- Hrows|].
    rewrite length_drop. lia.
  - simpl. f_equal. apply take_ge. lia.
Qed.
End Paging.

(** ** Rows ordered by a time and then an identifier, newest first *)

Definition TimeKey : Type := Z * string.

(** [(a, b) < (c, d)]: PostgreSQL's row comparison. *)
Definition key_before (a b : TimeKey) : bool :=
  (a.1 <? b.1) || ((a.1 =? b.1) && String.ltb a.2 b.2).

Lemma key_before_irrefl k : key_before k k = false.
Proof. unfold key_before. by rewrite Z.ltb_irrefl, string_ltb_irrefl, andb_false_r. Qed.

Lemma key_before_trans a b c :
  key_before a b = true -> key_before b c = true -> key_before a c = true.
Proof.
  unfold key_before. rewrite !orb_true_iff, !andb_true_iff, !Z.ltb_lt, !Z.eqb_eq.
  intros [?|[? Hab]] [?|[? Hbc]]; try (left; lia).
  right. split; [lia|]. by eapply string_ltb_trans.
Qed.

Lemma key_before_total a b : a <> b -> key_before a b = true \/ key_before b a = true.
Proof.
  destruct a as [t1 s1], b as [t2 s2]. unfold key_before. simpl. intros Hne.
  destruct (Z.lt_trichotomy t1 t2) as [Hlt|[->|Hlt]].
  - left. by rewrite (proj2 (Z.ltb_lt _ _)).
  - rewrite Z.ltb_irrefl, Z.eqb_refl. simpl. apply string_ltb_total. congruence.
  - right. by rewrite (proj2 (Z.ltb_lt _ _)).
Qed.

(** [ORDER BY at DESC, id DESC]. *)
Definition newest_first (a b : TimeKey) : bool := key_before b a.

Lemma newest_first_irrefl k : newest_first k k = false.
Proof. apply key_before_irrefl. Qed.
Lemma newest_first_trans a b c :
  newest_first a b = true -> newest_first b c = true -> newest_first a c = true.
Proof. unfold newest_first. eauto using key_before_trans. Qed.

(** Sorting by a key that no two rows share gives the rows in strict order. *)
Lemma newest_first_order {A} (key : A -> TimeKey) (l : list A) :
  NoDup (key <$> l) ->
  in_order (fun a b => newest_first (key a) (key b))
    (order_by (fun a b => newest_first (key a) (key b)) l).
Proof.
  intros Hnd. apply order_by_order.
  - intros a b c. apply newest_first_trans.
  - by eapply NoDup_fmap_1.
  - intros a b Ha Hb Hne. apply key_before_total. intros Heq.
    assert (key a = key b) as Hk by done. clear Heq. apply Hne.
    clear Hne. induction l as [|c l IH]; [set_solver|].
    rewrite fmap_cons, NoDup_cons in Hnd. destruct Hnd as [Hc Hnd].
    apply elem_of_cons in Ha as [->|Ha], Hb as [->|Hb]; auto; exfalso; apply Hc.
    + rewrite Hk. by apply list_elem_of_fmap_2.
    + rewrite <- Hk. by apply list_elem_of_fmap_2.
Qed.

(** Reading such rows page after page, with cursors that hold the whole key, is reading the list. *)
Lemma walk_newest_first {A} (key : A -> TimeKey) (encode : TimeKey -> TimeKey) (limit : nat)
    (l : list A) :
  limit <> 0%nat -> NoDup (key <$> l) -> (forall a, a ∈ l -> encode (key a) = key a) ->
  let rows := order_by (fun a b => newest_first (key a) (key b)) l in
  walk key newest_first encode (Datatypes.S (length rows)) limit None rows = Some rows.
Proof.
  intros Hlim Hnd Henc rows. apply walk_all; [apply newest_first_irrefl|apply newest_first_trans|done|..].
  - intros a Ha. apply Henc. by rewrite <- (order_by_perm (fun a b => newest_first (key a) (key b)) l).
  - by apply newest_first_order.
Qed.
