(* ===== verification/Catalogue.v ===== *)
(** * Catalogue: the events the services exchange (platform/src/events/catalogue.ts, envelope.ts)

    Event types are their routing keys. A payload is the data of one JSON object the catalogue
    describes; [PAYLOAD_SCHEMAS] is the validation the outbox applies before a row is written and
    again before it is published. Zod's [z.uuid()] is the parameter [Zod]; instants are
    microseconds, so [z.iso.datetime()] holds of all of them. *)
From S2P Require Export Prelude.

(** What the zod package decides: whether a string is a UUID, or an ISO date and time. *)
Class Zod := { zod_uuid : string -> bool; zod_datetime : string -> bool }.

(** ** Event types *)

Definition USER_ACTIVATED := "user.activated".
Definition USER_SUSPENDED := "user.suspended".
Definition USER_REACTIVATED := "user.reactivated".
Definition USER_ROLE_CHANGED := "user.role-changed".
Definition CREDIT_RESERVATION_REQUESTED := "order.reservation-requested".
Definition CREDITS_RESERVED := "credit.reserved".
Definition CREDIT_RESERVATION_REJECTED := "credit.reservation-rejected".
Definition ORDER_COMPLETION_REQUESTED := "order.completion-requested".
Definition CREDITS_TRANSFERRED := "credit.transferred".
Definition CREDIT_RELEASE_REQUESTED := "order.release-requested".
Definition CREDITS_RELEASED := "credit.released".
Definition ORDER_STATUS_CHANGED := "order.status-changed".

Definition EVENTS : list string :=
  [USER_ACTIVATED; USER_SUSPENDED; USER_REACTIVATED; USER_ROLE_CHANGED;
   CREDIT_RESERVATION_REQUESTED; CREDITS_RESERVED; CREDIT_RESERVATION_REJECTED;
   ORDER_COMPLETION_REQUESTED; CREDITS_TRANSFERRED; CREDIT_RELEASE_REQUESTED; CREDITS_RELEASED;
   ORDER_STATUS_CHANGED].

Definition REQUIRES_CONSUMER : list string :=
  [USER_ACTIVATED; CREDIT_RESERVATION_REQUESTED; CREDITS_RESERVED; CREDIT_RESERVATION_REJECTED;
   ORDER_COMPLETION_REQUESTED; CREDITS_TRANSFERRED; CREDIT_RELEASE_REQUESTED; CREDITS_RELEASED].

(** ** Payloads *)

Inductive OrderStatus :=
  | PENDING_CREDIT | OPEN | ACCEPTED | PICKED_UP | DELIVERED | DISPUTED
  | COMPLETION_PENDING_CREDIT | RELEASE_PENDING_CREDIT
  | REJECTED | COMPLETED | CANCELLED | EXPIRED.

#[export] Instance OrderStatus_eq_dec : EqDecision OrderStatus.
Proof. solve_decision. Defined.

Definition ORDER_STATUSES : list OrderStatus :=
  [PENDING_CREDIT; OPEN; ACCEPTED; PICKED_UP; DELIVERED; DISPUTED; COMPLETION_PENDING_CREDIT;
   RELEASE_PENDING_CREDIT; REJECTED; COMPLETED; CANCELLED; EXPIRED].

Inductive AccountStatus := ACTIVE | SUSPENDED.
Inductive Role := STUDENT | ADMIN.
Inductive ReservationRejection := INSUFFICIENT_CREDITS | AMOUNT_OUT_OF_RANGE | CONFLICTING_REQUEST.

#[export] Instance AccountStatus_eq_dec : EqDecision AccountStatus.
Proof. solve_decision. Defined.
#[export] Instance Role_eq_dec : EqDecision Role.
Proof. solve_decision. Defined.
#[export] Instance ReservationRejection_eq_dec : EqDecision ReservationRejection.
Proof. solve_decision. Defined.

(** The three fields every credit message restates ([reservation], [terminalMovement]). *)
Record Movement := mkMovement { mv_orderId : string; mv_requesterId : string; mv_amount : Z }.

Record ResultingBalance := mkBalance { rb_available : Z; rb_reserved : Z; rb_total : Z }.

#[export] Instance Movement_eq_dec : EqDecision Movement.
Proof. solve_decision. Defined.
#[export] Instance ResultingBalance_eq_dec : EqDecision ResultingBalance.
Proof. solve_decision. Defined.

Inductive Payload :=
  | UserActivatedP (userId : string) (activatedAt : Z)
  | UserStatusChangedP (userId : string) (status : AccountStatus) (reasonRef : option string)
      (occurredAt : Z)
  | UserRoleChangedP (userId : string) (roles : list Role) (reasonRef : option string)
      (occurredAt : Z)
  | MovementP (m : Movement)
  | RejectedP (m : Movement) (reason : ReservationRejection) (available : option Z)
  | CompletionP (m : Movement) (courierId : string)
  | TransferredP (m : Movement) (courierId : string) (transactionId : string)
      (requesterBalance courierBalance : ResultingBalance)
  | ReleasedP (m : Movement) (transactionId : string) (requesterBalance : ResultingBalance)
  | StatusChangedP (orderId : string) (previousStatus : option OrderStatus)
      (newStatus : OrderStatus) (occurredAt : Z) (orderVersion : option Z).

#[export] Instance Payload_eq_dec : EqDecision Payload.
Proof. solve_decision. Defined.

(** ** Schemas

    [None] is a failed parse. A [z.object] drops the fields it does not name, so a larger payload
    satisfies a smaller schema and comes out as the smaller one. *)

Definition nonempty (s : string) : bool := negb (String.eqb s "").

(** [z.number().int()] takes the integers a double represents exactly. *)
Definition MAX_SAFE_INTEGER : Z := 9007199254740991.
Definition zint (z : Z) : bool := (- MAX_SAFE_INTEGER <=? z) && (z <=? MAX_SAFE_INTEGER).
Definition zint_positive (z : Z) : bool := zint z && (0 <? z).
Definition zint_nonnegative (z : Z) : bool := zint z && (0 <=? z).

Definition movement_ok (m : Movement) : bool :=
  nonempty (mv_orderId m) && nonempty (mv_requesterId m) && zint_positive (mv_amount m).

Definition movement_of (p : Payload) : option Movement :=
  match p with
  | MovementP m | RejectedP m _ _ | CompletionP m _ | TransferredP m _ _ _ _ | ReleasedP m _ _ =>
      if movement_ok m then Some m else None
  | _ => None
  end.

Definition resultingBalance_ok (b : ResultingBalance) : bool :=
  zint_nonnegative (rb_available b) && zint_nonnegative (rb_reserved b)
  && zint_nonnegative (rb_total b) && (rb_total b =? rb_available b + rb_reserved b).

Definition userActivatedPayload (p : Payload) : option Payload :=
  match p with
  | UserActivatedP u _ => if nonempty u then Some p else None
  | _ => None
  end.

Definition userStatusChangedPayload (p : Payload) : option Payload :=
  match p with
  | UserStatusChangedP u _ _ _ => if nonempty u then Some p else None
  | _ => None
  end.

Definition userRoleChangedPayload (p : Payload) : option Payload :=
  match p with
  | UserRoleChangedP u _ _ _ => if nonempty u then Some p else None
  | _ => None
  end.

Definition creditReservationRequestedPayload (p : Payload) : option Payload :=
  MovementP <$> movement_of p.

Definition creditsReservedPayload (p : Payload) : option Payload :=
  MovementP <$> movement_of p.

Definition creditReservationRejectedPayload (p : Payload) : option Payload :=
  match p with
  | RejectedP m INSUFFICIENT_CREDITS (Some available) =>
      if movement_ok m && zint_nonnegative available
      then Some (RejectedP m INSUFFICIENT_CREDITS (Some available)) else None
  | RejectedP _ INSUFFICIENT_CREDITS None => None
  | RejectedP m reason _ => if movement_ok m then Some (RejectedP m reason None) else None
  | _ => None
  end.

Definition orderCompletionRequestedPayload (p : Payload) : option Payload :=
  match p with
  | CompletionP m c | TransferredP m c _ _ _ =>
      if movement_ok m && nonempty c then Some (CompletionP m c) else None
  | _ => None
  end.

Definition creditReleaseRequestedPayload (p : Payload) : option Payload :=
  MovementP <$> movement_of p.

Section Schemas.
Context `{Zod}.

Definition creditsTransferredPayload (p : Payload) : option Payload :=
  match p with
  | TransferredP m c t rb cb =>
      if movement_ok m && nonempty c && zod_uuid t
         && resultingBalance_ok rb && resultingBalance_ok cb
      then Some p else None
  | _ => None
  end.

Definition creditsReleasedPayload (p : Payload) : option Payload :=
  match p with
  | ReleasedP m t rb | TransferredP m _ t rb _ =>
      if movement_ok m && zod_uuid t && resultingBalance_ok rb
      then Some (ReleasedP m t rb) else None
  | _ => None
  end.

Definition orderStatusChangedPayload (p : Payload) : option Payload :=
  match p with
  | StatusChangedP o _ _ _ v =>
      if zod_uuid o && match v with Some v => zint_positive v | None => true end
      then Some p else None
  | _ => None
  end.

Definition PAYLOAD_SCHEMAS : list (string * (Payload -> option Payload)) :=
  [(USER_ACTIVATED, userActivatedPayload);
   (USER_SUSPENDED, userStatusChangedPayload);
   (USER_REACTIVATED, userStatusChangedPayload);
   (USER_ROLE_CHANGED, userRoleChangedPayload);
   (CREDIT_RESERVATION_REQUESTED, creditReservationRequestedPayload);
   (CREDITS_RESERVED, creditsReservedPayload);
   (CREDIT_RESERVATION_REJECTED, creditReservationRejectedPayload);
   (ORDER_COMPLETION_REQUESTED, orderCompletionRequestedPayload);
   (CREDITS_TRANSFERRED, creditsTransferredPayload);
   (CREDIT_RELEASE_REQUESTED, creditReleaseRequestedPayload);
   (CREDITS_RELEASED, creditsReleasedPayload);
   (ORDER_STATUS_CHANGED, orderStatusChangedPayload)].

(** Every catalogued event has a schema, and nothing else does. *)
Lemma PAYLOAD_SCHEMAS_catalogued t : is_Some (assoc t PAYLOAD_SCHEMAS) <-> t ∈ EVENTS.
Proof. apply assoc_is_Some. Qed.

Definition idempotent_schema (f : Payload -> option Payload) : Prop :=
  forall p q, f p = Some q -> f q = Some q.

Lemma movement_schema_idempotent : idempotent_schema (fun p => MovementP <$> movement_of p).
Proof.
  intros p q Hq. apply fmap_Some in Hq as (m & Hm & ->).
  assert (movement_ok m = true) as Hok.
  { destruct p; simpl in Hm; try done; by case_match; simplify_eq. }
  simpl. by rewrite Hok.
Qed.

Lemma schemas_idempotent : Forall (fun nf => idempotent_schema nf.2) PAYLOAD_SCHEMAS.
Proof.
  unfold PAYLOAD_SCHEMAS. repeat constructor; simpl; try exact movement_schema_idempotent;
    intros p q Hq; destruct p; simpl in Hq; try done; repeat case_match; simplify_eq; simpl;
    repeat match goal with Hb : ?b = true |- context [if ?b then _ else _] => rewrite Hb end;
    done.
Qed.

(** A parsed payload parses to itself: what the outbox stores passes the relay's second check. *)
Lemma PAYLOAD_SCHEMAS_idempotent t f p q :
  assoc t PAYLOAD_SCHEMAS = Some f -> f p = Some q -> f q = Some q.
Proof.
  intros Hf. apply assoc_Some_elem in Hf.
  pose proof schemas_idempotent as Hall. rewrite Forall_forall in Hall. apply (Hall _ Hf).
Qed.
End Schemas.
