(* ===== verification/Envelope.v ===== *)
(** * Envelope: what a message carries and who sent it
    (platform/src/events/envelope.ts, sender.ts, topology.ts)

    A message body is what [JSON.parse] makes of it: [None] when it is not JSON, else the members of
    the envelope object with the payload apart. [parseEnvelope] checks the envelope, then the major
    version, then the payload, in that order. [senderOf] and [resendProperties] keep the account
    that first published a message across a service's own republishing. *)
From Stdlib Require Import Ascii.
From stdpp Require Import pretty.
From S2P Require Export Catalogue.

Record Envelope := mkEnvelope {
  eventId : string;
  eventType : string;
  schemaVersion : Z;
  aggregateId : string;
  occurredAt : string;
  producer : string;
  correlationId : string;
  causationId : string;
  payload : Payload }.

(** A member of the envelope object, as far as its schema tells values apart. *)
Inductive Scalar :=
  | SStr (s : string)
  | SInt (z : Z)
  | SOther.

Record RawEnvelope := mkRaw { raw_fields : list (string * Scalar); raw_payload : option Payload }.

Definition str_field (k : string) (r : RawEnvelope) : option string :=
  match assoc k (raw_fields r) with Some (SStr s) => Some s | _ => None end.
Definition int_field (k : string) (r : RawEnvelope) : option Z :=
  match assoc k (raw_fields r) with Some (SInt z) => Some z | _ => None end.

(** [if the value passes], as an option. *)
Definition keep {A} (b : A -> bool) (o : option A) : option A :=
  match o with Some a => if b a then Some a else None | None => None end.

Lemma keep_Some {A} (b : A -> bool) o a : keep b o = Some a <-> o = Some a /\ b a = true.
Proof.
  destruct o as [x|]; simpl; [|by split; [|intros [? _]]].
  destruct (b x) eqn:Hb; split; try done; [intros [= <-]; auto|by intros [[= ->] _]|].
  intros [[= ->] Ht]. congruence.
Qed.

Definition max128 (s : string) : bool := nonempty s && (String.length s <=? 128)%nat.

Section Envelope.
Context `{Zod}.

Definition envelopeSchema (r : RawEnvelope) : option (Payload -> Envelope) :=
  match keep zod_uuid (str_field "eventId" r), keep nonempty (str_field "eventType" r),
        keep zint_positive (int_field "schemaVersion" r),
        keep nonempty (str_field "aggregateId" r),
        keep zod_datetime (str_field "occurredAt" r), keep nonempty (str_field "producer" r),
        keep max128 (str_field "correlationId" r), keep max128 (str_field "causationId" r) with
  | Some id, Some ty, Some v, Some agg, Some at_, Some prod, Some corr, Some cause =>
      Some (mkEnvelope id ty v agg at_ prod corr cause)
  | _, _, _, _, _, _, _, _ => None
  end.

Definition DEFAULT_SUPPORTED_VERSIONS : list Z := [1].

(** A failed payload parse and a missing payload are the same: no payload schema takes
    [undefined]. *)
Definition parseEnvelope (body : option RawEnvelope) (payloadSchema : Payload -> option Payload)
    (supportedVersions : list Z) : outcome Envelope :=
  match body with
  | None => Throw (Unparseable "body is not valid JSON")
  | Some raw =>
      match envelopeSchema raw with
      | None => Throw (Unparseable "envelope invalid")
      | Some outer =>
          match int_field "schemaVersion" raw, str_field "eventType" raw with
          | Some v, Some ty =>
              if negb (existsb (Z.eqb v) supportedVersions)
              then Throw (UnsupportedVersion ty v) else
              match raw_payload raw with
              | None => Throw (Unparseable "payload invalid")
              | Some p =>
                  match payloadSchema p with
                  | None => Throw (Unparseable "payload invalid")
                  | Some inner => Ok (outer inner)
                  end
              end
          | _, _ => Throw (Unparseable "envelope invalid")
          end
      end
  end.

(** The body [createEnvelope] and [JSON.stringify] make. *)
Definition encode (v : Envelope) : RawEnvelope :=
  mkRaw [("eventId", SStr (eventId v)); ("eventType", SStr (eventType v));
         ("schemaVersion", SInt (schemaVersion v)); ("aggregateId", SStr (aggregateId v));
         ("occurredAt", SStr (occurredAt v)); ("producer", SStr (producer v));
         ("correlationId", SStr (correlationId v)); ("causationId", SStr (causationId v))]
    (Some (payload v)).

Definition envelope_ok (v : Envelope) : bool :=
  zod_uuid (eventId v) && nonempty (eventType v) && zint_positive (schemaVersion v)
  && nonempty (aggregateId v) && zod_datetime (occurredAt v) && nonempty (producer v)
  && max128 (correlationId v) && max128 (causationId v).

(** What [envelopeSchema] accepts is exactly what it reads back. *)
Lemma envelopeSchema_Some raw mk :
  envelopeSchema raw = Some mk ->
  exists id ty v agg at_ prod corr cause,
    mk = mkEnvelope id ty v agg at_ prod corr cause
    /\ str_field "eventId" raw = Some id /\ str_field "eventType" raw = Some ty
    /\ int_field "schemaVersion" raw = Some v
    /\ forall p, envelope_ok (mk p) = true.
Proof.
  unfold envelopeSchema. intros Hs. repeat case_match; simplify_eq.
  repeat match goal with H : keep _ _ = Some _ |- _ => apply keep_Some in H as [? ?] end.
  do 8 eexists. repeat split; eauto. intros p. unfold envelope_ok; simpl.
  repeat match goal with H : ?b = true |- _ => rewrite H; clear H end. done.
Qed.
End Envelope.

(** ** Who published a message *)

Record Properties := mkProps {
  p_userId : option string;
  h_sender : option string;
  h_attempt : option Z;
  h_failure : option string;
  h_originalQueue : option string }.

#[export] Instance Properties_eq_dec : EqDecision Properties.
Proof. solve_decision. Defined.

Definition text (value : option string) : option string := keep nonempty value.

Definition senderOf (p : Properties) (ownAccount : option string) : option string :=
  match text (p_userId p) with
  | Some u =>
      if bool_decide (Some u = ownAccount)
      then match text (h_sender p) with Some s => Some s | None => Some u end
      else Some u
  | None => None
  end.

Definition resendProperties (p : Properties) (ownAccount : option string) : Properties :=
  mkProps ownAccount
    (match senderOf p ownAccount with Some s => Some s | None => h_sender p end)
    (h_attempt p) (h_failure p) (h_originalQueue p).

(** Republishing under one's own account never changes who a message is from. *)
Lemma senderOf_resend p own :
  text (Some own) = Some own -> is_Some (senderOf p (Some own)) ->
  senderOf (resendProperties p (Some own)) (Some own) = senderOf p (Some own).
Proof.
  intros Hown [s Hs]. unfold resendProperties. rewrite Hs. unfold senderOf at 1. cbn [p_userId h_sender].
  rewrite Hown, bool_decide_true by done.
  assert (text (Some s) = Some s) as ->; [|done].
  revert Hs. unfold senderOf, text. destruct (keep nonempty (p_userId p)) as [u|] eqn:Hu; [|done].
  case_bool_decide; [destruct (keep nonempty (h_sender p)) as [s'|] eqn:Hs'|]; intros [= <-];
    apply keep_Some in Hu as [? Hu]; try apply keep_Some in Hs' as [? Hs']; apply keep_Some; auto.
Qed.

(** An account other than the reader's own cannot claim to be anyone else. *)
Lemma senderOf_foreign p own u :
  p_userId p = Some u -> Some u <> own -> nonempty u = true -> senderOf p own = Some u.
Proof.
  intros Hu Hne Hn. unfold senderOf, text. rewrite Hu. simpl. rewrite Hn. by rewrite bool_decide_false.
Qed.

(** ** The broker's layout *)

Definition DLX := "foc.events.dlx".
Definition RETRY_DELAYS_MS : list Z := [1000; 5000; 15000; 60000].
Definition MAX_ATTEMPTS : Z := Z.of_nat (length RETRY_DELAYS_MS) + 1.

(** [retryExchangeName(namespace, attempt)], kept as its two arguments. *)
Inductive Exchange := RetryExchange (namespace : string) (attempt : Z) | DeadLetterExchange.

#[export] Instance Exchange_eq_dec : EqDecision Exchange.
Proof. solve_decision. Defined.

Record RetryLevel := mkLevel { rl_exchange : Exchange; rl_ttlMs : Z }.

Definition retryLevels (namespace : string) (delays : list Z) : list RetryLevel :=
  imap (fun i ttlMs => mkLevel (RetryExchange namespace (Z.of_nat i + 1)) ttlMs) delays.

(** ** Demo: what the concrete runs of the witnesses share

    A catalogue that takes every identifier, environments whose identifiers carry a tag of their own,
    and envelopes by the service they claim. *)

#[local] Open Scope Z_scope.

Definition demo_zod : Zod := {| zod_uuid := fun _ => true; zod_datetime := fun _ => true |}.

(** Identifiers that no other demo environment draws: a tag, then the call's number. *)
Definition tagged (tag : Ascii.ascii) (n : nat) : string := String tag (pretty n).
Definition demo_env (tag : Ascii.ascii) (at_ : Z) : Env := mkEnv at_ (tagged tag).

Definition demo_message (id ty agg : string) (p : Payload) : Envelope :=
  mkEnvelope id ty 1 agg "2026-01-01T00:00:00Z" "service" "corr" "cause" p.

Lemma tagged_inj tag n m : tagged tag n = tagged tag m -> n = m.
Proof. unfold tagged. intros [= Heq]. by apply (inj pretty). Qed.

Definition other_tag (tag : Ascii.ascii) (s : string) : bool :=
  match s with String c _ => negb (Ascii.eqb c tag) | EmptyString => true end.

Lemma other_tag_ne tag s n : other_tag tag s = true -> s <> tagged tag n.
Proof. intros Ho ->. unfold tagged, other_tag in Ho. by rewrite Ascii.eqb_refl in Ho. Qed.
