(* ===== verification/Consumer.v ===== *)
(** * Consumer: bounded retry of messages (platform/src/events/consumer.ts)

    [handle] is one delivery: the message is parsed and checked, the handler runs, and the message is
    settled. Its answer is the broker calls made, in order, and the handler's state. A handler is a
    function of the envelope and its state; the accounts and limits of the connection are
    [BrokerConfig]. [redeliver] follows one message through its retry queues until it is settled. *)
From S2P Require Export Envelope Text.

Record Message := mkMessage { msg_body : option RawEnvelope; msg_props : Properties }.

Record SubscribeOptions := mkSubscribe {
  so_queue : string;
  so_eventTypes : list string;
  so_expectedProducer : option (list string);
  so_payloadSchema : Payload -> option Payload;
  so_supportedVersions : list Z }.

(** What the connection knows: the service's namespace and account, whether the broker vouches for
    senders, which queues are transient and how often a message is tried. *)
Record BrokerConfig := mkBroker {
  bc_namespace : string;
  bc_account : option string;
  bc_verifiesSenders : bool;
  bc_transient : string -> bool;
  bc_maxAttempts : Z }.

Inductive BrokerAction :=
| PublishTo (ex : Exchange) (routingKey : string) (msg : Message)
| AckMessage
| NackMessage.

(** [Number(headers['x-foc-attempt'] ?? 1)]. *)
Definition attempt_of (msg : Message) : Z := default 1 (h_attempt (msg_props msg)).

Section Handle.
Context `{Zod} {S : Type} (broker : BrokerConfig) (options : SubscribeOptions)
  (handler : Envelope -> S -> outcome unit * S) (errorMessage : Exn -> string).

(** The checks before the handler: body, envelope, version, payload, type, producer and sender. *)
Definition accept (msg : Message) : outcome Envelope :=
  match parseEnvelope (msg_body msg) (so_payloadSchema options) (so_supportedVersions options) with
  | Throw x => Throw x
  | Ok v =>
      if negb (existsb (String.eqb (eventType v)) (so_eventTypes options))
      then Throw (Unparseable "event type does not match subscription")
      else
        match so_expectedProducer options with
        | None => Ok v
        | Some expected =>
            if negb (existsb (String.eqb (producer v)) expected)
            then Throw (Unparseable "producer is not trusted")
            else if bc_verifiesSenders broker then
              let sender := senderOf (msg_props msg) (bc_account broker) in
              match sender with
              | Some s => if existsb (String.eqb s) expected then Ok v
                          else Throw (UntrustedSender sender)
              | None => Throw (UntrustedSender sender)
              end
            else Ok v
        end
  end.

(** [publishTo]: the same content, under this service's own account, with the headers given. *)
Definition resend (msg : Message) (reason : string) (attempt : Z) : Message :=
  mkMessage (msg_body msg)
    (resendProperties
       (mkProps (p_userId (msg_props msg)) (h_sender (msg_props msg)) (Some attempt)
          (Some (js_slice 500 reason)) (Some (so_queue options)))
       (bc_account broker)).

(** [await publishTo(…); channel.ack(message)]: without the broker's confirm the wait throws, and
    the message is left unsettled. *)
Definition publishThenAck (confirms : bool) (ex : Exchange) (m : Message) : list BrokerAction :=
  PublishTo ex (so_queue options) m :: if confirms then [AckMessage] else [].

(** Set aside for an operator, with the reason. *)
Definition dead_letter (confirms : bool) (msg : Message) (reason : string) (attempt : Z)
  : list BrokerAction :=
  publishThenAck confirms DeadLetterExchange (resend msg reason attempt).

Definition retryOrDeadLetter (confirms : bool) (msg : Message) (reason : string) (attempt : Z)
  : list BrokerAction :=
  if bc_maxAttempts broker <=? attempt then dead_letter confirms msg reason attempt
  else publishThenAck confirms (RetryExchange (bc_namespace broker) attempt)
         (resend msg reason (attempt + 1)).

(** The classes that end a message at once: [UnparseableMessageError] and what extends it. *)
Definition is_unparseable (x : Exn) : bool :=
  match x with Unparseable _ | UnsupportedVersion _ _ | UntrustedSender _ => true | _ => false end.
Definition is_stale (x : Exn) : bool := match x with Stale _ => true | _ => false end.

Definition handle (confirms : bool) (msg : Message) (s : S) : list BrokerAction * S :=
  let attempt := attempt_of msg in
  let transient := bc_transient broker (so_queue options) in
  match accept msg with
  | Throw x =>
      if transient then ([NackMessage], s)
      else (dead_letter confirms msg (errorMessage x) attempt, s)
  | Ok v =>
      match handler v s with
      | (Ok _, s') => ([AckMessage], s')
      | (Throw x, s') =>
          if is_stale x then ([AckMessage], s')
          else if is_unparseable x then
            (if transient then [NackMessage]
             else dead_letter confirms msg (errorMessage x) attempt, s')
          else if transient then ([NackMessage], s')
          else (retryOrDeadLetter confirms msg (errorMessage x) attempt, s')
      end
  end.

(** Where a delivery left the message. *)
Inductive Fate :=
| Consumed
| SetAside (msg : Message)
| Dropped
| Again (level : Z) (msg : Message)
| Unsettled.

Definition fate (actions : list BrokerAction) : Fate :=
  match actions with
  | [AckMessage] => Consumed
  | [NackMessage] => Dropped
  | [PublishTo DeadLetterExchange _ m; AckMessage] => SetAside m
  | [PublishTo (RetryExchange _ l) _ m; AckMessage] => Again l m
  | _ => Unsettled
  end.

(** One message from its first delivery to its last. After a retry queue's delay the broker sends it
    back to this queue; a message left unsettled it delivers again as it was. [confirms k] is whether
    the [k]-th delivery's publication is confirmed, and between deliveries the state moves on as
    [world] says. The answer is the last fate, the state and how many deliveries there were; [None]
    when the fuel ran out. *)
Fixpoint redeliver (fuel : nat) (confirms : nat -> bool) (world : nat -> S -> S) (k : nat)
    (msg : Message) (s : S) : option (Fate * S * nat) :=
  match fuel with
  | O => None
  | Datatypes.S fuel' =>
      let '(actions, s') := handle (confirms k) msg s in
      match fate actions with
      | Again _ m => redeliver fuel' confirms world (Datatypes.S k) m (world k s')
      | Unsettled => redeliver fuel' confirms world (Datatypes.S k) msg (world k s')
      | f => Some (f, s', Datatypes.S k)
      end
  end.

(** ** Facts of one delivery *)

Lemma attempt_resend msg reason attempt : attempt_of (resend msg reason attempt) = attempt.
Proof. done. Qed.

(** The broker calls of one delivery, by what the checks and the handler said. *)
Ltac split_handle :=
  unfold handle, retryOrDeadLetter, dead_letter, publishThenAck;
  destruct (accept _) as [?v|?x]; [destruct (handler _ _) as [[[]|?x] ?s1]|];
  repeat match goal with |- context [if ?b then _ else _] => destruct b eqn:? end; simpl.

(** The whole body travels with every resend, whoever resends it. *)
Lemma handle_keeps_body c msg s ex k m :
  PublishTo ex k m ∈ fst (handle c msg s) ->
  k = so_queue options /\ exists reason attempt, m = resend msg reason attempt.
Proof.
  split_handle; rewrite ?elem_of_cons; intros Hin; destruct_or?; simplify_eq; eauto;
    by apply elem_of_nil in Hin.
Qed.

(** A retry names a level below [maxAttempts], and the next delivery counts one attempt more. *)
Lemma handle_again c msg s l m :
  fate (fst (handle c msg s)) = Again l m ->
  c = true /\ l = attempt_of msg /\ l < bc_maxAttempts broker
  /\ exists reason, m = resend msg reason (l + 1).
Proof. split_handle; intros Hf; simplify_eq. repeat split; [lia|eauto]. Qed.

Lemma handle_set_aside c msg s m :
  fate (fst (handle c msg s)) = SetAside m -> exists reason attempt, m = resend msg reason attempt.
Proof. split_handle; intros Hf; simplify_eq; eauto. Qed.

Lemma handle_unsettled c msg s : fate (fst (handle c msg s)) = Unsettled -> c = false.
Proof. split_handle; intros Hf; by simplify_eq. Qed.

(** A handler that throws what is neither final nor stale, on a queue that can retry. *)
Lemma handle_retries msg s v x s' :
  accept msg = Ok v -> handler v s = (Throw x, s') ->
  is_stale x = false -> is_unparseable x = false -> bc_transient broker (so_queue options) = false ->
  handle true msg s
  = (retryOrDeadLetter true msg (errorMessage x) (attempt_of msg), s').
Proof. intros Ha Hh Hst Hu Ht. unfold handle. by rewrite Ha, Hh, Hst, Hu, Ht. Qed.
End Handle.
