(* ===== verification/Outbox.v ===== *)
(** * Outbox: the transactional outbox and its relay (platform/src/events/outbox.ts)

    [insertOutboxEvent] writes a validated event in the caller's transaction, over any service's
    tables ([HasOutbox]). [claimAndPublish] is one claim of the relay and [tick] drains the outbox.
    The broker is the parameter [broker]: what publishing a row answers. Rows another instance holds
    ([FOR UPDATE SKIP LOCKED]) are the parameter [locked]. *)
From S2P Require Export Catalogue.

Record OutboxRow := mkOutboxRow {
  ob_id : string;
  ob_seq : Z;
  ob_eventType : string;
  ob_schemaVersion : Z;
  ob_aggregateId : string;
  ob_payload : Payload;
  ob_correlationId : string;
  ob_causationId : option string;
  ob_occurredAt : Z;
  ob_publishedAt : option Z;
  ob_attempts : Z;
  ob_lastError : option string;
  ob_nextAttemptAt : Z }.

#[export] Instance OutboxRow_eq_dec : EqDecision OutboxRow.
Proof. solve_decision. Defined.

(** The table in [seq] order, and the identity column's next value. *)
Record Outbox := mkOutbox { ob_rows : list OutboxRow; ob_nextSeq : Z }.

Definition empty_outbox : Outbox := mkOutbox [] 1.

(** What a service's database promises the outbox: a table only the outbox writes. *)
Class HasOutbox (S : Type) := {
  outbox : S -> Outbox;
  set_outbox : Outbox -> S -> S;
  outbox_set_outbox : forall o s, outbox (set_outbox o s) = o }.

Record NewOutboxEvent := mkNewEvent {
  ne_eventType : string;
  ne_aggregateId : string;
  ne_payload : Payload;
  ne_correlationId : string;
  ne_causationId : option string }.

(** The columns a fresh event's row holds: unpublished, due at once. *)
Definition new_row (id : string) (seq at_ : Z) (ev : NewOutboxEvent) (p : Payload) : OutboxRow :=
  mkOutboxRow id seq (ne_eventType ev) 1 (ne_aggregateId ev) p (ne_correlationId ev)
    (ne_causationId ev) at_ None 0 None at_.

Definition append_row (r : OutboxRow) (o : Outbox) : Outbox :=
  mkOutbox (ob_rows o ++ [r]) (ob_nextSeq o + 1).

Section Insert.
Context `{Zod} {S : Type} `{HasOutbox S}.

(** [toOutboxRow]'s validation: the payload must satisfy its event's schema. *)
Definition validate_payload (ev : NewOutboxEvent) : M S Payload :=
  match assoc (ne_eventType ev) PAYLOAD_SCHEMAS with
  | None => throw (Failure "event type is not catalogued")
  | Some schema =>
      match schema (ne_payload ev) with
      | Some p => ret p
      | None => throw (SchemaInvalid (ne_eventType ev))
      end
  end.

Definition insertOutboxEvent (ev : NewOutboxEvent) : M S string :=
  let! id := randomUUID in
  let! p := validate_payload ev in
  let! o := gets outbox in
  let! at_ := now in
  require (negb (existsb (fun r => String.eqb (ob_id r) id) (ob_rows o)))
    (Sql (UniqueViolation "outbox_events_pkey")) ;;;
  modify (set_outbox (append_row (new_row id (ob_nextSeq o) at_ ev p) o)) ;;;
  ret id.

Lemma insertOutboxEvent_ok ev e n s id n' s' :
  insertOutboxEvent ev e (n, s) = Ok (id, (n', s')) ->
  exists p f, assoc (ne_eventType ev) PAYLOAD_SCHEMAS = Some f
    /\ f (ne_payload ev) = Some p
    /\ id = env_uuid e n /\ n' = Datatypes.S n
    /\ (forall r, r ∈ ob_rows (outbox s) -> ob_id r <> id)
    /\ s' = set_outbox
              (append_row (new_row id (ob_nextSeq (outbox s)) (env_now e) ev p) (outbox s)) s.
Proof.
  unfold insertOutboxEvent, validate_payload. intros Hok. inv_tx.
  destruct (assoc _ _) as [f|] eqn:Hf; [|inv_tx]. destruct (f _) as [p|] eqn:Hp; inv_tx.
  exists p, f. repeat split; try done.
  intros r Hr Heq. rewrite negb_true_iff, existsb_false in *.
  specialize (H1 r Hr). by rewrite Heq, String.eqb_refl in H1.
Qed.

(** Inserting succeeds whenever the payload parses and the drawn identifier is new. *)
Lemma insertOutboxEvent_succeeds ev e n s f p :
  assoc (ne_eventType ev) PAYLOAD_SCHEMAS = Some f ->
  f (ne_payload ev) = Some p ->
  (forall r, r ∈ ob_rows (outbox s) -> ob_id r <> env_uuid e n) ->
  insertOutboxEvent ev e (n, s)
  = Ok (env_uuid e n, (Datatypes.S n,
        set_outbox (append_row (new_row (env_uuid e n) (ob_nextSeq (outbox s)) (env_now e) ev p)
                      (outbox s)) s)).
Proof.
  intros Hf Hp Hfresh. unfold insertOutboxEvent, validate_payload, bind, randomUUID, gets, now.
  rewrite Hf, Hp. simpl. unfold ret at 1. simpl.
  assert (existsb (fun r => String.eqb (ob_id r) (env_uuid e n)) (ob_rows (outbox s)) = false)
    as ->; [|done].
  apply existsb_false. intros r Hr. apply String.eqb_neq. auto.
Qed.
End Insert.

(** ** The relay *)

Definition unpublished (r : OutboxRow) : bool :=
  match ob_publishedAt r with None => true | Some _ => false end.

(** [NOT EXISTS (earlier unpublished row of the same aggregate)] of [CLAIM_SQL]. *)
Definition has_earlier (rows : list OutboxRow) (r : OutboxRow) : bool :=
  existsb (fun x => String.eqb (ob_aggregateId x) (ob_aggregateId r) && unpublished x
                    && (ob_seq x <? ob_seq r)) rows.

Definition claimable (rows : list OutboxRow) (at_ : Z) (r : OutboxRow) : bool :=
  unpublished r && (ob_nextAttemptAt r <=? at_) && negb (has_earlier rows r).

Definition claim (locked : string -> bool) (batchSize : nat) (at_ : Z) (rows : list OutboxRow)
  : list OutboxRow :=
  take batchSize
    (List.filter (fun r => claimable rows at_ r && negb (locked (ob_id r))) rows).

Definition update_row (id : string) (f : OutboxRow -> OutboxRow) (rows : list OutboxRow)
  : list OutboxRow :=
  map (fun r => if String.eqb (ob_id r) id then f r else r) rows.

Definition mark_published (at_ : Z) (r : OutboxRow) : OutboxRow :=
  mkOutboxRow (ob_id r) (ob_seq r) (ob_eventType r) (ob_schemaVersion r) (ob_aggregateId r)
    (ob_payload r) (ob_correlationId r) (ob_causationId r) (ob_occurredAt r)
    (Some at_) (ob_attempts r + 1) None (ob_nextAttemptAt r).

(** [recordFailure]: the backoff doubles per attempt up to a ceiling, in milliseconds. *)
Definition retryInMs (backoffMs maxBackoffMs attempts : Z) : Z :=
  Z.min maxBackoffMs (backoffMs * 2 ^ attempts).

Definition mark_failed (at_ delayMs : Z) (reason : string) (r : OutboxRow) : OutboxRow :=
  mkOutboxRow (ob_id r) (ob_seq r) (ob_eventType r) (ob_schemaVersion r) (ob_aggregateId r)
    (ob_payload r) (ob_correlationId r) (ob_causationId r) (ob_occurredAt r)
    (ob_publishedAt r) (ob_attempts r + 1) (Some reason) (at_ + delayMs * 1000).

Record RelayOptions := mkRelay { batchSize : nat; backoffMs : Z; maxBackoffMs : Z }.

Definition default_relay : RelayOptions := mkRelay 100 1000 60000.

Record ClaimResult := mkClaim { published : nat; failed : nat; halted : bool }.

(** [errorMessage(err).slice(0, 500)], as far as the relay's decisions depend on it. *)
Definition reason_of (x : Exn) : string :=
  match x with
  | Failure m | SchemaInvalid m | PredecessorMissing m | Unparseable m | Stale m => m
  | Unroutable t => "unroutable: no queue is bound for " ++ t
  | _ => "error"
  end.

Section Relay.
Context `{Zod} (opts : RelayOptions) (broker : OutboxRow -> option Exn) (locked : string -> bool).

(** [publish]: the schema is checked again, then the broker answers. [None] is confirmed. *)
Definition publish (r : OutboxRow) : option Exn :=
  match assoc (ob_eventType r) PAYLOAD_SCHEMAS with
  | None => Some (Failure (ob_eventType r ++ " has no payload schema in the event catalogue"))
  | Some schema =>
      match schema (ob_payload r) with
      | None => Some (Failure "payload invalid")
      | Some _ => broker r
      end
  end.

Fixpoint publish_rows (at_ : Z) (claimed rows : list OutboxRow) (p f : nat)
  : list OutboxRow * ClaimResult :=
  match claimed with
  | [] => (rows, mkClaim p f false)
  | r :: rest =>
      match publish r with
      | Some err =>
          let rows' := update_row (ob_id r)
                         (mark_failed at_ (retryInMs (backoffMs opts) (maxBackoffMs opts)
                                              (ob_attempts r)) (reason_of err)) rows in
          match err with
          | Unroutable _ => publish_rows at_ rest rows' p (Datatypes.S f)
          | _ => (rows', mkClaim p (Datatypes.S f) true)
          end
      | None => publish_rows at_ rest (update_row (ob_id r) (mark_published at_) rows)
                  (Datatypes.S p) f
      end
  end.

Definition claimAndPublish (at_ : Z) (rows : list OutboxRow) : list OutboxRow * ClaimResult :=
  publish_rows at_ (claim locked (batchSize opts) at_ rows) rows 0 0.

(** [tick]: claims until one is halted or publishes nothing. [clock k] is [now()] of the [k]-th
    claim; the result counts the rows that went out, or is [None] when the fuel ran out. *)
Fixpoint tick (fuel : nat) (clock : nat -> Z) (k : nat) (rows : list OutboxRow) (total : nat)
  : option (list OutboxRow * nat) :=
  match fuel with
  | O => None
  | Datatypes.S fuel' =>
      let '(rows', res) := claimAndPublish (clock k) rows in
      let total' := (total + published res)%nat in
      if halted res || Nat.eqb (published res) 0 then Some (rows', total')
      else tick fuel' clock (Datatypes.S k) rows' total'
  end.
End Relay.

(** ** RelayFacts: what one claim of the relay does to the table

    [published_from] relates a table to the one a claim leaves: the same events in the same places,
    nothing unpublished again, and nothing newly published but claimed rows. [claim_counts] is the
    bookkeeping that makes the drain end. *)

(** The columns no relay ever touches. *)
Definition same_event (r r' : OutboxRow) : Prop :=
  ob_id r' = ob_id r /\ ob_seq r' = ob_seq r /\ ob_eventType r' = ob_eventType r
  /\ ob_aggregateId r' = ob_aggregateId r /\ ob_payload r' = ob_payload r.

Definition published_from (ids : list string) (r r' : OutboxRow) : Prop :=
  same_event r r'
  /\ (unpublished r = false -> unpublished r' = false)
  /\ (unpublished r' = false -> unpublished r = false \/ ob_id r ∈ ids).

Lemma same_event_refl r : same_event r r.
Proof. by repeat split. Qed.
Lemma same_event_trans a b c : same_event a b -> same_event b c -> same_event a c.
Proof. unfold same_event. intuition congruence. Qed.
#[export] Hint Resolve same_event_refl : foc.

Lemma published_from_refl ids rows : Forall2 (published_from ids) rows rows.
Proof. induction rows; constructor; auto. repeat split; auto. Qed.

Lemma published_from_trans i1 i2 l1 l2 l3 :
  Forall2 (published_from i1) l1 l2 -> Forall2 (published_from i2) l2 l3 ->
  Forall2 (published_from (i1 ++ i2)) l1 l3.
Proof.
  intros H12. revert l3. induction H12 as [|a b l1 l2 (Hab & Hk & Hn) _ IH]; intros l3 H23;
    inversion H23 as [|b' c l2' l3' (Hbc & Hk' & Hn')]; subst; constructor; auto.
  split; [by eapply same_event_trans|]. split; [auto|].
  intros Hc. destruct (Hn' Hc) as [Hb|Hin].
  - destruct (Hn Hb); [auto|]. right. set_solver.
  - right. destruct Hab as [Hid _]. rewrite <- Hid. set_solver.
Qed.

Lemma published_from_weaken i1 i2 l1 l2 :
  i1 ⊆ i2 -> Forall2 (published_from i1) l1 l2 -> Forall2 (published_from i2) l1 l2.
Proof.
  intros Hsub Hf. eapply Forall2_impl; [exact Hf|]. intros r r' (He & Hk & Hn).
  split; [done|]. split; [done|]. intros Hu. destruct (Hn Hu); auto.
Qed.

Lemma update_published id at_ rows :
  Forall2 (published_from [id]) rows (update_row id (mark_published at_) rows).
Proof.
  induction rows as [|r rows IH]; simpl; constructor; auto.
  destruct (String.eqb_spec (ob_id r) id) as [Heq|]; repeat split; auto. intros _. right.
  rewrite Heq. set_solver.
Qed.

Lemma update_failed id at_ d reason rows :
  Forall2 (published_from []) rows (update_row id (mark_failed at_ d reason) rows).
Proof.
  induction rows as [|r rows IH]; simpl; constructor; auto.
  destruct (String.eqb_spec (ob_id r) id); repeat split; auto.
Qed.

(** How many rows are still to go out. *)
Definition backlog (rows : list OutboxRow) : nat := length (List.filter unpublished rows).

Lemma update_row_ids id f rows :
  (forall r, ob_id (f r) = ob_id r) -> ob_id <$> update_row id f rows = ob_id <$> rows.
Proof.
  intros Hf. unfold update_row. induction rows as [|r rows IH]; [done|].
  cbn [map]. rewrite !fmap_cons, IH.
  destruct (String.eqb (ob_id r) id); by rewrite ?Hf.
Qed.

Lemma backlog_other id f rows :
  (forall r, unpublished (f r) = unpublished r) -> backlog (update_row id f rows) = backlog rows.
Proof.
  intros Hf. unfold backlog. induction rows as [|r rows IH]; simpl; [done|].
  destruct (String.eqb (ob_id r) id); rewrite ?Hf; destruct (unpublished r); simpl; by rewrite ?IH.
Qed.

Lemma update_row_absent id f rows : id ∉ (ob_id <$> rows) -> update_row id f rows = rows.
Proof.
  induction rows as [|r rows IH]; simpl; [done|]. rewrite elem_of_cons. intros Hn.
  rewrite IH by tauto. destruct (String.eqb_spec (ob_id r) id) as [Heq|]; [|done].
  destruct Hn. auto.
Qed.

(** Publishing an unpublished row takes exactly one off the backlog. *)
Lemma backlog_publish id at_ rows r :
  NoDup (ob_id <$> rows) -> r ∈ rows -> ob_id r = id -> unpublished r = true ->
  Datatypes.S (backlog (update_row id (mark_published at_) rows)) = backlog rows.
Proof.
  unfold backlog. induction rows as [|a rows IH]; intros Hnd Hr Hid Hu; [set_solver|].
  rewrite fmap_cons, NoDup_cons in Hnd. destruct Hnd as [Ha Hnd]. simpl.
  apply elem_of_cons in Hr as [->|Hr].
  - rewrite Hid, String.eqb_refl, Hu. simpl. change (map _ rows) with (update_row id (mark_published at_) rows).
    rewrite update_row_absent; [done|]. by rewrite <- Hid.
  - destruct (String.eqb_spec (ob_id a) id) as [Heq|Hne].
    + exfalso. apply Ha. rewrite Heq, <- Hid. by apply list_elem_of_fmap_2.
    + specialize (IH Hnd Hr Hid Hu). destruct (unpublished a); simpl; [by rewrite IH|done].
Qed.

Section Claims.
Context `{Zod} (opts : RelayOptions) (broker : OutboxRow -> option Exn).

Lemma publish_rows_published at_ claimed rows p f rows' res :
  publish_rows opts broker at_ claimed rows p f = (rows', res) ->
  Forall2 (published_from (ob_id <$> claimed)) rows rows'.
Proof.
  revert rows p f. induction claimed as [|c claimed IH]; intros rows p f; simpl.
  { intros [= <- _]. apply published_from_refl. }
  destruct (publish broker c) as [err|].
  - assert (forall rest, Forall2 (published_from (ob_id <$> c :: rest)) rows
      (update_row (ob_id c) (mark_failed at_ (retryInMs (backoffMs opts) (maxBackoffMs opts)
        (ob_attempts c)) (reason_of err)) rows)) as Hfail.
    { intros rest. eapply published_from_weaken; [|apply update_failed]. set_solver. }
    assert (forall rows0, publish_rows opts broker at_ claimed rows0 p (Datatypes.S f) = (rows', res) ->
      Forall2 (published_from []) rows rows0 ->
      Forall2 (published_from (ob_id <$> c :: claimed)) rows rows') as Hgo.
    { intros rows0 Hr Hf. apply IH in Hr. eapply published_from_weaken;
        [|eapply published_from_trans; [exact Hf|exact Hr]]. try rewrite fmap_cons; set_solver. }
    destruct err; intros Hr; try (injection Hr as <- _; apply Hfail).
    eapply Hgo; [exact Hr|]. apply update_failed.
  - intros Hr. apply IH in Hr. eapply published_from_weaken;
      [|eapply published_from_trans; [apply update_published|exact Hr]].
    try rewrite fmap_cons; set_solver.
Qed.

(** A claim rewrites what it marks, never what an event says. *)
Lemma relayed_events locked at_ rows rows' res r' :
  claimAndPublish opts broker locked at_ rows = (rows', res) -> r' ∈ rows' ->
  exists r, r ∈ rows /\ same_event r r'.
Proof.
  intros Hr%publish_rows_published Hin. apply list_elem_of_lookup in Hin as [i Hi].
  destruct (Forall2_lookup_r _ _ _ _ _ Hr Hi) as (r & Hri & Hsame & _).
  exists r. split; [by eapply list_elem_of_lookup_2|done].
Qed.

Definition to_claim (rows : list OutboxRow) (c : OutboxRow) : Prop :=
  exists r, r ∈ rows /\ ob_id r = ob_id c /\ unpublished r = true.

Lemma to_claim_update rows c c' f :
  (forall r, ob_id (f r) = ob_id r) -> ob_id c <> ob_id c' ->
  to_claim rows c' -> to_claim (update_row (ob_id c) f rows) c'.
Proof.
  intros Hf Hne (r & Hr & Hid & Hu). exists r. split; [|done]. unfold update_row.
  apply list_elem_of_In, in_map_iff. exists r. split; [|by apply list_elem_of_In].
  destruct (String.eqb_spec (ob_id r) (ob_id c)); [congruence|done].
Qed.

(** The count a claim reports is what it took off the backlog. *)
Lemma publish_rows_counts at_ claimed rows p f rows' res :
  NoDup (ob_id <$> rows) -> NoDup (ob_id <$> claimed) ->
  (forall c, c ∈ claimed -> to_claim rows c) ->
  publish_rows opts broker at_ claimed rows p f = (rows', res) ->
  (backlog rows' + published res = backlog rows + p)%nat
  /\ ob_id <$> rows' = ob_id <$> rows.
Proof.
  revert rows p f. induction claimed as [|c claimed IH]; intros rows p f Hnd Hndc Hc; simpl.
  { by intros [= <- <-]. }
  rewrite fmap_cons, NoDup_cons in Hndc. destruct Hndc as [Hcn Hndc].
  assert (forall g, (forall r, ob_id (g r) = ob_id r) -> forall c', c' ∈ claimed ->
    to_claim (update_row (ob_id c) g rows) c') as Hkeep.
  { intros g Hg c' Hc'. apply to_claim_update; [done| |apply Hc; set_solver].
    intros Heq. apply Hcn. rewrite Heq. by apply list_elem_of_fmap_2. }
  destruct (publish broker c) as [err|].
  - set (g := mark_failed at_ _ _).
    assert (backlog (update_row (ob_id c) g rows) = backlog rows) as Hb by (by apply backlog_other).
    assert (ob_id <$> update_row (ob_id c) g rows = ob_id <$> rows) as Hi by (by apply update_row_ids).
    destruct err; try (intros [= <- <-]; simpl; split; [lia|done]).
    intros Hr. apply IH in Hr as [? ?]; [split; [lia|congruence]|by rewrite Hi|done|by apply Hkeep].
  - destruct (Hc c) as (r & Hr & Hid & Hu); [set_solver|].
    pose proof (backlog_publish (ob_id c) at_ rows r Hnd Hr Hid Hu) as Hb.
    assert (ob_id <$> update_row (ob_id c) (mark_published at_) rows = ob_id <$> rows) as Hi
      by (by apply update_row_ids).
    intros Hrun. apply IH in Hrun as [? ?]; [split; [lia|congruence]|by rewrite Hi|done|by apply Hkeep].
Qed.

Lemma claim_sub locked n at_ rows c :
  c ∈ claim locked n at_ rows -> c ∈ rows /\ claimable rows at_ c = true.
Proof.
  unfold claim. intros Hc. apply elem_of_take in Hc as (i & Hi & _).
  apply list_elem_of_lookup_2, list_elem_of_In, filter_In in Hi as [Hin Hp].
  apply andb_true_iff in Hp as [Hp _]. split; [by apply list_elem_of_In|done].
Qed.

Lemma filter_ids_NoDup (q : OutboxRow -> bool) rows :
  NoDup (ob_id <$> rows) -> NoDup (ob_id <$> List.filter q rows).
Proof.
  induction rows as [|r rows IH]; simpl; [done|]. rewrite NoDup_cons. intros [Hr Hnd].
  destruct (q r); [|auto]. rewrite fmap_cons. constructor; [|auto].
  intros Hin. apply Hr. apply list_elem_of_fmap in Hin as (x & Hx & Hin). rewrite Hx.
  apply list_elem_of_fmap_2. apply list_elem_of_In, filter_In in Hin as [Hin _].
  by apply list_elem_of_In.
Qed.

Lemma claim_NoDup locked n at_ rows :
  NoDup (ob_id <$> rows) -> NoDup (ob_id <$> claim locked n at_ rows).
Proof.
  intros Hnd. unfold claim. rewrite fmap_take. eapply sublist_NoDup; [|apply sublist_take].
  by apply filter_ids_NoDup.
Qed.

Lemma claim_counts locked at_ rows rows' res :
  NoDup (ob_id <$> rows) -> claimAndPublish opts broker locked at_ rows = (rows', res) ->
  (backlog rows' + published res = backlog rows)%nat /\ ob_id <$> rows' = ob_id <$> rows.
Proof.
  intros Hnd Hr. unfold claimAndPublish in Hr.
  apply publish_rows_counts in Hr as [Hb Hi]; [split; [lia|done]|done|by apply claim_NoDup|].
  intros c Hc. apply claim_sub in Hc as [Hc Hcl]. exists c. split; [done|]. split; [done|].
  unfold claimable in Hcl. apply andb_true_iff in Hcl as [Hcl _]. by apply andb_true_iff in Hcl as [? _].
Qed.
End Claims.
