(* ===== verification/Inbox.v ===== *)
(** * Inbox: at-least-once delivery made once (platform/src/events/inbox.ts)

    [processOnce] runs an effect unless its event was applied before; [processReplayable] records
    the event and runs an idempotent effect on every delivery. Both are computations in the
    effect's own transaction, over any service's tables ([HasInbox]). *)
From S2P Require Export Envelope Outbox.

(** A row of [processed_events], keyed by consumer and event. *)
Record InboxRow := mkInboxRow { ib_eventType : string; ib_processedAt : Z }.

Notation InboxTable := (gmap (string * string) InboxRow).

Class HasInbox (S : Type) := {
  inbox : S -> InboxTable;
  set_inbox : InboxTable -> S -> S;
  inbox_set_inbox : forall i s, inbox (set_inbox i s) = i }.

Section Inbox.
Context {S : Type} `{HasInbox S}.

(** [INSERT INTO processed_events … ON CONFLICT DO NOTHING RETURNING]: whether a row went in. *)
Definition record_event (consumer : string) (v : Envelope) : M S bool :=
  let! rows := gets inbox in
  match rows !! (consumer, eventId v) with
  | Some _ => ret false
  | None =>
      let! at_ := now in
      modify (fun s => set_inbox (<[(consumer, eventId v) := mkInboxRow (eventType v) at_]> rows) s)
      ;;; ret true
  end.

Definition processOnce (consumer : string) (v : Envelope) (effect : M S unit) : M S bool :=
  let! inserted := record_event consumer v in
  if inserted then effect ;;; ret true else ret false.

Definition processReplayable (consumer : string) (v : Envelope) (effect : bool -> M S unit)
  : M S bool :=
  let! firstDelivery := record_event consumer v in
  effect firstDelivery ;;; ret firstDelivery.

(** [withInbox] and [withReplayableInbox]: one delivery, committed or rolled back; the answer is
    whether the context's [onDuplicate] is called. *)
Definition withInbox (consumer : string) (handler : Envelope -> M S unit) (v : Envelope) (e : Env)
    (s : S) : outcome bool * S :=
  match transaction (processOnce consumer v (handler v)) e s with
  | (Ok applied, s') => (Ok (negb applied), s')
  | (Throw x, s') => (Throw x, s')
  end.

Definition withReplayableInbox (consumer : string) (handler : Envelope -> bool -> M S unit)
    (v : Envelope) (e : Env) (s : S) : outcome bool * S :=
  match transaction (processReplayable consumer v (handler v)) e s with
  | (Ok first_, s') => (Ok (negb first_), s')
  | (Throw x, s') => (Throw x, s')
  end.

Lemma record_event_ok consumer v e n s b r :
  record_event consumer v e (n, s) = Ok (b, r) <->
  (b = false /\ r = (n, s) /\ is_Some (inbox s !! (consumer, eventId v)))
  \/ (b = true /\ inbox s !! (consumer, eventId v) = None
      /\ r = (n, set_inbox (<[(consumer, eventId v) := mkInboxRow (eventType v) (env_now e)]>
                              (inbox s)) s)).
Proof.
  unfold record_event, bind at 1, gets. simpl.
  destruct (inbox s !! (consumer, eventId v)) as [row|] eqn:Hrow.
  - rewrite ret_ok. split; [intros [= -> ->]; eauto|].
    intros [(-> & -> & _)|(_ & ? & _)]; [done|congruence].
  - unfold bind, now, modify, ret. simpl. split; [intros [= <- <-]; eauto|].
    intros [(_ & _ & [? ?])|(-> & _ & ->)]; [congruence|done].
Qed.

(** A duplicate does nothing at all. *)
Lemma processOnce_duplicate consumer v effect e n s :
  is_Some (inbox s !! (consumer, eventId v)) ->
  processOnce consumer v effect e (n, s) = Ok (false, (n, s)).
Proof.
  intros Hrow. unfold processOnce, bind at 1.
  by rewrite (proj2 (record_event_ok consumer v e n s false (n, s))) by auto.
Qed.

Lemma withInbox_duplicate consumer handler v e s :
  is_Some (inbox s !! (consumer, eventId v)) ->
  withInbox consumer handler v e s = (Ok true, s).
Proof. intros Hrow. unfold withInbox, transaction. by rewrite processOnce_duplicate. Qed.

(** A first delivery that commits ran the effect from the state that holds its record. *)
Lemma withInbox_first consumer handler v e s dup s' :
  inbox s !! (consumer, eventId v) = None ->
  withInbox consumer handler v e s = (Ok dup, s') ->
  dup = false /\ exists n,
    handler v e (0%nat, set_inbox (<[(consumer, eventId v) := mkInboxRow (eventType v) (env_now e)]>
                                     (inbox s)) s) = Ok (tt, (n, s')).
Proof.
  intros Hnone. unfold withInbox, transaction, processOnce, bind at 1.
  rewrite (proj2 (record_event_ok consumer v e 0%nat s true _)) by eauto.
  unfold bind. destruct (handler v e _) as [[[] [n s1]]|x] eqn:Hh; simpl; [|done].
  intros [= <- <-]. eauto.
Qed.

Lemma withReplayableInbox_ok consumer handler v e s dup s' :
  withReplayableInbox consumer handler v e s = (Ok dup, s') ->
  exists s1 n, (s1 = s \/ s1 = set_inbox (<[(consumer, eventId v)
                                          := mkInboxRow (eventType v) (env_now e)]> (inbox s)) s)
    /\ handler v (negb dup) e (0%nat, s1) = Ok (tt, (n, s')).
Proof.
  unfold withReplayableInbox, transaction.
  destruct (processReplayable consumer v (handler v) e (0%nat, s)) as [[b [n s2]]|x] eqn:Hp; [|done].
  intros [= <- <-]. unfold processReplayable in Hp. apply bind_ok in Hp as (b1 & [n1 s1] & Hr & Hp).
  apply bind_ok in Hp as ([] & s3 & Hh & Hp). apply ret_ok in Hp as [= -> <-].
  rewrite negb_involutive. exists s1, n.
  apply record_event_ok in Hr as [(-> & [= -> ->] & _)|(-> & _ & [= -> ->])]; auto.
Qed.

(** A throw leaves neither the effect nor the record of the event. *)
Lemma withInbox_throw consumer handler v e s x s' :
  withInbox consumer handler v e s = (Throw x, s') -> s' = s.
Proof.
  unfold withInbox. destruct (transaction _ e s) as [[b|y] s1] eqn:Ht; [done|].
  apply transaction_throw in Ht as ->. by intros [= _ <-].
Qed.

Lemma withReplayableInbox_throw consumer handler v e s x s' :
  withReplayableInbox consumer handler v e s = (Throw x, s') -> s' = s.
Proof.
  unfold withReplayableInbox. destruct (transaction _ e s) as [[b|y] s1] eqn:Ht; [done|].
  apply transaction_throw in Ht as ->. by intros [= _ <-].
Qed.
End Inbox.
