(* ===== verification/Retention.v ===== *)
(** * Retention: pruning the two event tables (platform/src/events/retention.ts)

    A prune deletes rows past their retention in batches, skipping rows another instance holds, and
    stops when a batch deletes nothing or the service is shutting down. An unpublished outbox row is
    never deleted, nor an inbox row whose event waits as a dead letter. *)
From S2P Require Export Inbox.

(** Days as microseconds; the retention may be a fraction of a day, so it is given in microseconds. *)
Record EventRetention := mkRetention { outboxMicros : Z; inboxMicros : Z }.

Definition day_micros : Z := 86400000000.
Definition DEFAULT_EVENT_RETENTION : EventRetention :=
  mkRetention (30 * day_micros) (30 * day_micros).

Section Batches.
Context {A : Type} (old : A -> bool).

(** [DELETE … WHERE id IN (SELECT … WHERE old LIMIT n FOR UPDATE SKIP LOCKED)]: the rows left and
    how many went. *)
Fixpoint delete_batch (locked : A -> bool) (n : nat) (rows : list A) : list A * nat :=
  match rows, n with
  | [], _ => ([], 0%nat)
  | _, O => (rows, 0%nat)
  | r :: rest, Datatypes.S n' =>
      if old r && negb (locked r)
      then let '(left_, gone) := delete_batch locked n' rest in (left_, Datatypes.S gone)
      else let '(left_, gone) := delete_batch locked n rest in (r :: left_, gone)
  end.

(** [locked k] are the rows other instances hold during batch [k]; [stop k] is what [shouldStop]
    answers before it. [None]: the fuel ran out. *)
Fixpoint deleteInBatches (fuel : nat) (batchSize : nat) (locked : nat -> A -> bool)
    (stop : nat -> bool) (k : nat) (rows : list A) (total : nat) : option (list A * nat) :=
  match fuel with
  | O => None
  | Datatypes.S fuel' =>
      if stop k then Some (rows, total) else
      let '(rows', deleted) := delete_batch (locked k) batchSize rows in
      if Nat.eqb deleted 0 then Some (rows', total)
      else deleteInBatches fuel' batchSize locked stop (Datatypes.S k) rows' (total + deleted)%nat
  end.

Lemma delete_batch_spec locked n rows :
  let '(left_, gone) := delete_batch locked n rows in
  (length left_ + gone)%nat = length rows
  /\ left_ `sublist_of` rows
  /\ List.filter (fun r => negb (old r)) left_ = List.filter (fun r => negb (old r)) rows
  /\ (gone = 0%nat -> n <> 0%nat -> forall r, r ∈ rows -> old r = true -> locked r = true).
Proof.
  revert n. induction rows as [|r rows IH]; intros n; simpl.
  { destruct n; repeat split; try done; set_solver. }
  destruct n as [|n]; [by repeat split|].
  destruct (old r && negb (locked r)) eqn:Ho.
  - specialize (IH n). destruct (delete_batch locked n rows) as [l g]. destruct IH as (? & ? & Hf & _).
    apply andb_true_iff in Ho as [Ho _]. rewrite Ho. simpl. repeat split; [lia| |done|done].
    by apply sublist_cons.
  - specialize (IH (Datatypes.S n)). destruct (delete_batch locked (Datatypes.S n) rows) as [l g].
    destruct IH as (? & ? & Hf & Hz). repeat split; simpl.
    + lia.
    + by apply sublist_skip.
    + by rewrite Hf.
    + intros Hg _ x Hx Hox. apply elem_of_cons in Hx as [->|Hx]; [|by apply Hz].
      rewrite Hox in Ho. simpl in Ho. by apply negb_false_iff in Ho.
Qed.

(** What a prune leaves: a part of the table with every row not yet past its retention. *)
Lemma deleteInBatches_spec fuel batchSize locked stop k rows total rows' total' :
  deleteInBatches fuel batchSize locked stop k rows total = Some (rows', total') ->
  (length rows' + total')%nat = (length rows + total)%nat
  /\ rows' `sublist_of` rows
  /\ List.filter (fun r => negb (old r)) rows' = List.filter (fun r => negb (old r)) rows.
Proof.
  revert k rows total. induction fuel as [|fuel IH]; intros k rows total; simpl; [done|].
  destruct (stop k); [by intros [= <- <-]|].
  pose proof (delete_batch_spec (locked k) batchSize rows) as Hb.
  destruct (delete_batch (locked k) batchSize rows) as [l g]. destruct Hb as (Hlen & Hsub & Hf & _).
  destruct (Nat.eqb_spec g 0) as [->|Hg].
  - intros [= <- <-]. repeat split; [lia|done|done].
  - intros Hrec. apply IH in Hrec as (? & ? & Hf'). repeat split; [lia|by etrans|by rewrite Hf'].
Qed.

(** One batch more than there are rows is fuel enough, whatever is locked and whenever it stops. *)
Lemma deleteInBatches_terminates fuel batchSize locked stop k rows total :
  (length rows < fuel)%nat -> is_Some (deleteInBatches fuel batchSize locked stop k rows total).
Proof.
  revert k rows total. induction fuel as [|fuel IH]; intros k rows total Hlen; simpl; [lia|].
  destruct (stop k); [by eexists|].
  pose proof (delete_batch_spec (locked k) batchSize rows) as Hb.
  destruct (delete_batch (locked k) batchSize rows) as [l g]. destruct Hb as (Hl & _).
  destruct (Nat.eqb_spec g 0); [by eexists|]. apply IH. lia.
Qed.

(** Undisturbed, a prune leaves no row past its retention. *)
Lemma deleteInBatches_complete fuel batchSize k rows total rows' total' :
  batchSize <> 0%nat ->
  deleteInBatches fuel batchSize (fun _ _ => false) (fun _ => false) k rows total
    = Some (rows', total') ->
  forall r, r ∈ rows' -> old r = false.
Proof.
  intros Hn. revert k rows total. induction fuel as [|fuel IH]; intros k rows total; simpl; [done|].
  pose proof (delete_batch_spec (fun _ => false) batchSize rows) as Hb.
  destruct (delete_batch (fun _ => false) batchSize rows) as [l g]. destruct Hb as (_ & Hsub & _ & Hz).
  destruct (Nat.eqb_spec g 0) as [->|Hg]; [|apply IH].
  intros [= <- <-] r Hr. destruct (old r) eqn:Ho; [|done].
  assert (r ∈ rows) by (eapply elem_of_sublist; eauto).
  discriminate (Hz eq_refl Hn r ltac:(done) Ho).
Qed.
End Batches.

Section Prune.
Context {S : Type} `{HasOutbox S} `{HasInbox S}.

(** [published_at IS NOT NULL AND published_at < now() - days]. *)
Definition outbox_old (retention : EventRetention) (at_ : Z) (r : OutboxRow) : bool :=
  match ob_publishedAt r with Some p => p <? at_ - outboxMicros retention | None => false end.

Definition inbox_old (retention : EventRetention) (waiting : string -> bool) (at_ : Z)
    (kr : (string * string) * InboxRow) : bool :=
  (ib_processedAt kr.2 <? at_ - inboxMicros retention) && negb (waiting kr.1.2).

(** [pruneEventTables]. [waiting] are the events that wait as a dead letter not yet redriven. *)
Definition pruneEventTables (retention : EventRetention) (batchSize : nat)
    (waiting : string -> bool) (lockedOut : nat -> OutboxRow -> bool)
    (lockedIn : nat -> (string * string) * InboxRow -> bool) (stop : nat -> bool) (at_ : Z) (s : S)
  : option (S * (nat * nat)) :=
  let rows := ob_rows (outbox s) in
  match deleteInBatches (outbox_old retention at_) (Datatypes.S (length rows)) batchSize lockedOut
          stop 0 rows 0 with
  | None => None
  | Some (rows', out) =>
      let s' := set_outbox (mkOutbox rows' (ob_nextSeq (outbox s))) s in
      if stop (length rows) then Some (s', (out, 0%nat)) else
      let ins := map_to_list (inbox s') in
      match deleteInBatches (inbox_old retention waiting at_) (Datatypes.S (length ins)) batchSize
              lockedIn stop (length rows) ins 0 with
      | None => None
      | Some (ins', in_) => Some (set_inbox (list_to_map ins') s', (out, in_))
      end
  end.

(** Enough fuel is built in: a prune always ends. *)
Lemma pruneEventTables_total retention batchSize waiting lo li stop at_ s :
  is_Some (pruneEventTables retention batchSize waiting lo li stop at_ s).
Proof.
  unfold pruneEventTables.
  destruct (deleteInBatches_terminates (outbox_old retention at_)
    (Datatypes.S (length (ob_rows (outbox s)))) batchSize lo stop 0 (ob_rows (outbox s)) 0)
    as [[rows' out] ->]; [lia|].
  destruct (stop _); [by eexists|].
  set (ins := map_to_list _).
  destruct (deleteInBatches_terminates (inbox_old retention waiting at_) (Datatypes.S (length ins))
    batchSize li stop (length (ob_rows (outbox s))) ins 0) as [[ins' in_] ->]; [lia|].
  by eexists.
Qed.
End Prune.
