(* ===== verification/PlatformTheorems.v ===== *)
(** * PlatformTheorems: what the shared event platform promises

    Order and completeness of the relay, bounds of the retry, the round trip of an envelope, who can
    be believed as a sender, and what a prune keeps. *)
From S2P Require Export Consumer Outbox Retention.
From Stdlib Require Import Sorting.Sorted.

(** ** The outbox relay *)

(** One aggregate's events go out in the order they were written. *)
Definition aggregate_order (rows : list OutboxRow) : Prop :=
  forall a b, a ∈ rows -> b ∈ rows -> ob_aggregateId a = ob_aggregateId b ->
    ob_seq a < ob_seq b -> unpublished b = false -> unpublished a = false.

Lemma Forall2_source {A B} (R : A -> B -> Prop) l l' b :
  Forall2 R l l' -> b ∈ l' -> exists a, a ∈ l /\ R a b.
Proof.
  induction 1 as [|a c l l' Hac _ IH]; intros Hb; [set_solver|].
  apply elem_of_cons in Hb as [->|Hb]; [exists a; set_solver|].
  destruct (IH Hb) as (x & ? & ?). exists x. set_solver.
Qed.

Section Relay.
Context `{Zod} (opts : RelayOptions) (broker : OutboxRow -> option Exn) (locked : string -> bool).

(** C37: Whatever the broker answers and whatever rows other instances hold, one claim keeps every
    aggregate's events in order: an event is never published while an earlier one of its aggregate
    is not. It also keeps every row, in place, with its event unchanged, and takes nothing back. *)
Theorem relay_keeps_order (at_ : Z) (rows rows' : list OutboxRow) (res : ClaimResult) :
  NoDup (ob_id <$> rows) -> aggregate_order rows ->
  claimAndPublish opts broker locked at_ rows = (rows', res) ->
  aggregate_order rows'
  /\ Forall2 (fun r r' => same_event r r' /\ (unpublished r = false -> unpublished r' = false))
       rows rows'.
Proof.
  intros Hnd Hord Hrun. pose proof (publish_rows_published _ _ _ _ _ _ _ _ _ Hrun) as Hf. split.
  - intros b1 b2 H1 H2 Hagg Hseq Hpub.
    destruct (Forall2_source _ _ _ b1 Hf H1) as (a1 & Ha1 & (Hid1 & Hs1 & _ & Hg1 & _) & Hk1 & _).
    destruct (Forall2_source _ _ _ b2 Hf H2) as (a2 & Ha2 & (Hid2 & Hs2 & _ & Hg2 & _) & _ & Hn2).
    apply Hk1. destruct (Hn2 Hpub) as [Hold|Hclaimed].
    { apply (Hord a1 a2); congruence. }
    apply list_elem_of_fmap in Hclaimed as (c & Hidc & Hc). apply claim_sub in Hc as [Hc Hcl].
    assert (c = a2) as ->.
    { clear -Hnd Hc Ha2 Hidc. induction rows as [|x l IH]; [set_solver|].
      rewrite fmap_cons, NoDup_cons in Hnd. destruct Hnd as [Hx Hnd].
      apply elem_of_cons in Hc as [->|Hc], Ha2 as [->|Ha2]; auto; exfalso; apply Hx.
      - rewrite <- Hidc. by apply list_elem_of_fmap_2.
      - rewrite Hidc. by apply list_elem_of_fmap_2. }
    unfold claimable, has_earlier in Hcl. rewrite !andb_true_iff, negb_true_iff, existsb_false in Hcl.
    destruct Hcl as [_ Hno]. specialize (Hno a1 Ha1).
    rewrite <- Hg1, Hagg, Hg2, String.eqb_refl in Hno. simpl in Hno.
    rewrite (proj2 (Z.ltb_lt _ _)), andb_true_r in Hno by congruence. done.
  - eapply Forall2_impl; [exact Hf|]. by intros r r' (? & ? & _).
Qed.

Lemma tick_ends fuel clock k rows total :
  NoDup (ob_id <$> rows) -> (backlog rows < fuel)%nat ->
  exists rows', tick opts broker locked fuel clock k rows total
                = Some (rows', (total + (backlog rows - backlog rows'))%nat)
    /\ (backlog rows' <= backlog rows)%nat /\ ob_id <$> rows' = ob_id <$> rows.
Proof.
  revert k rows total. induction fuel as [|fuel IH]; intros k rows total Hnd Hf; [lia|]. simpl.
  destruct (claimAndPublish opts broker locked (clock k) rows) as [rows1 res] eqn:Hc.
  destruct (claim_counts opts broker _ _ _ _ _ Hnd Hc) as [Hb Hi].
  destruct (halted res || Nat.eqb (published res) 0) eqn:Hstop.
  - exists rows1. split; [do 2 f_equal; lia|]. split; [lia|done].
  - apply orb_false_iff in Hstop as [_ Hp]. apply Nat.eqb_neq in Hp.
    destruct (IH (Datatypes.S k) rows1 (total + published res)%nat) as (rows2 & Ht & Hle & Hi2);
      [by rewrite Hi|lia|].
    exists rows2. split; [rewrite Ht; do 2 f_equal; lia|]. split; [lia|congruence].
Qed.

(** A drain of the outbox always ends: it needs at most one claim more than there are unpublished
    rows, whatever the broker and the clock do, and it reports exactly the number of rows it took off
    the backlog. *)
Theorem tick_terminates (clock : nat -> Z) (rows : list OutboxRow) :
  NoDup (ob_id <$> rows) ->
  exists rows', tick opts broker locked (Datatypes.S (backlog rows)) clock 0 rows 0
                = Some (rows', (backlog rows - backlog rows')%nat)
    /\ (backlog rows' <= backlog rows)%nat.
Proof.
  intros Hnd. destruct (tick_ends (Datatypes.S (backlog rows)) clock 0 rows 0 Hnd) as (rows' & Ht & Hle & _);
    [lia|]. eauto.
Qed.
End Relay.

Section Drain.
Context `{Zod} (opts : RelayOptions).

(** A row the relay can publish: its payload still satisfies its event's schema, and it is due. *)
Definition sendable (now_ : Z) (r : OutboxRow) : Prop :=
  publish (fun _ => None) r = None /\ ob_nextAttemptAt r <= now_.

Lemma publish_rows_all at_ claimed rows p f :
  (forall c, c ∈ claimed -> publish (fun _ => None) c = None) ->
  let '(_, res) := publish_rows opts (fun _ => None) at_ claimed rows p f in
  halted res = false /\ published res = (p + length claimed)%nat.
Proof.
  revert rows p. induction claimed as [|c claimed IH]; intros rows p Hok; simpl.
  { split; [done|lia]. }
  rewrite (Hok c) by set_solver.
  specialize (IH (update_row (ob_id c) (mark_published at_) rows) (Datatypes.S p)).
  destruct (publish_rows _ _ _ claimed _ _ _) as [rows' res]. destruct IH as [? ?];
    [intros; apply Hok; set_solver|]. split; [done|lia].
Qed.

(** The oldest unpublished row is always claimable once it is due. *)
Lemma first_claimable at_ rows :
  StronglySorted (fun a b => ob_seq a < ob_seq b) rows -> (0 < backlog rows)%nat ->
  (forall r, r ∈ rows -> unpublished r = true -> ob_nextAttemptAt r <= at_) ->
  exists r, r ∈ rows /\ claimable rows at_ r = true.
Proof.
  intros Hs Hb Hdue.
  assert (exists pre r post, rows = pre ++ r :: post /\ unpublished r = true
            /\ forall x, x ∈ pre -> unpublished x = false) as (pre & r & post & -> & Hu & Hpre).
  { clear Hs Hdue. unfold backlog in Hb. induction rows as [|x l IH]; simpl in Hb; [lia|].
    destruct (unpublished x) eqn:Hx; [exists [], x, l; repeat split; auto; set_solver|].
    destruct (IH Hb) as (pre & r & post & -> & Hu & Hp). exists (x :: pre), r, post.
    repeat split; auto. set_solver. }
  exists r. split; [set_solver|]. unfold claimable.
  rewrite Hu, (proj2 (Z.leb_le _ _)) by (apply Hdue; [set_solver|done]). simpl.
  apply negb_true_iff, existsb_false. intros x Hx. rewrite elem_of_app, elem_of_cons in Hx.
  destruct Hx as [Hx|[->|Hx]].
  - by rewrite (Hpre x Hx), andb_false_r.
  - by rewrite Z.ltb_irrefl, andb_false_r.
  - assert (ob_seq r < ob_seq x) as Hlt.
    { clear -Hs Hx. induction pre as [|y pre IH]; simpl in Hs; apply StronglySorted_inv in Hs as [Hs Hall].
      - rewrite Forall_forall in Hall. auto.
      - auto. }
    rewrite (proj2 (Z.ltb_ge _ _)) by lia. by rewrite andb_false_r.
Qed.

Lemma sorted_same_event l l' :
  Forall2 same_event l l' -> StronglySorted (fun a b => ob_seq a < ob_seq b) l ->
  StronglySorted (fun a b => ob_seq a < ob_seq b) l'.
Proof.
  induction 1 as [|a b l l' (_ & Hseq & _) Hf IH]; intros Hs; [constructor|].
  apply StronglySorted_inv in Hs as [Hs Hall]. constructor; [auto|].
  rewrite Forall_forall in *. intros x Hx. destruct (Forall2_source _ _ _ x Hf Hx) as (y & Hy & (_ & Hxy & _)).
  specialize (Hall y Hy). lia.
Qed.

(** With a broker that confirms everything a claim changes nothing but what it publishes. *)
Lemma publish_rows_due at_ claimed rows p f rows' res :
  (forall c, c ∈ claimed -> publish (fun _ => None) c = None) ->
  publish_rows opts (fun _ => None) at_ claimed rows p f = (rows', res) ->
  Forall2 (fun r r' => same_event r r' /\ ob_nextAttemptAt r' = ob_nextAttemptAt r) rows rows'.
Proof.
  revert rows p. induction claimed as [|c claimed IH]; intros rows p Hok; simpl.
  { intros [= <- _]. clear. induction rows; constructor; auto with foc. }
  rewrite (Hok c) by set_solver. intros Hr. apply IH in Hr; [|intros; apply Hok; set_solver].
  revert Hr. generalize rows' as l'. clear. unfold update_row.
  induction rows as [|r rows IH]; intros l' Hr; inversion Hr as [|? b ? ? [Hse Hn] Hr']; subst;
    constructor; [|by apply IH].
  destruct (String.eqb (ob_id r) (ob_id c)); [|done].
  split; [|done]. eapply same_event_trans; [|exact Hse]. by repeat split.
Qed.

Lemma drain fuel clock k rows total :
  batchSize opts <> 0%nat -> NoDup (ob_id <$> rows) ->
  StronglySorted (fun a b => ob_seq a < ob_seq b) rows ->
  (forall r, r ∈ rows -> publish (fun _ => None) r = None) ->
  (forall r j, r ∈ rows -> ob_nextAttemptAt r <= clock j) -> (backlog rows < fuel)%nat ->
  exists rows', tick opts (fun _ => None) (fun _ => false) fuel clock k rows total
                = Some (rows', (total + backlog rows)%nat) /\ backlog rows' = 0%nat.
Proof.
  intros Hbs. revert k rows total. induction fuel as [|fuel IH]; intros k rows total Hnd Hs Hok Hdue Hf;
    [lia|]. simpl.
  destruct (claimAndPublish opts (fun _ => None) (fun _ => false) (clock k) rows) as [rows1 res] eqn:Hc.
  destruct (claim_counts opts _ _ _ _ _ _ Hnd Hc) as [Hb Hi].
  set (cl := claim (fun _ => false) (batchSize opts) (clock k) rows) in *.
  assert (forall c, c ∈ cl -> publish (fun _ => None) c = None) as Hokc.
  { intros c Hin. apply claim_sub in Hin as [Hin _]. auto. }
  unfold claimAndPublish in Hc. fold cl in Hc.
  pose proof (publish_rows_all (clock k) cl rows 0 0 Hokc) as Hall. rewrite Hc in Hall.
  destruct Hall as [Hh Hp]. rewrite Hh. simpl.
  pose proof (publish_rows_due _ _ _ _ _ _ _ Hokc Hc) as Hsame.
  destruct (Nat.eqb_spec (published res) 0) as [Hz|Hnz].
  - exists rows1. assert (backlog rows = 0%nat) as Hb0.
    { destruct (decide (backlog rows = 0%nat)) as [|Hne]; [done|]. exfalso.
      destruct (first_claimable (clock k) rows Hs) as (r & Hr & Hcl); [lia|auto|].
      assert (r ∈ List.filter (fun r => claimable rows (clock k) r && negb false) rows) as Hin.
      { apply list_elem_of_In, filter_In. rewrite Hcl. split; [by apply list_elem_of_In|done]. }
      rewrite Hz in Hp. unfold cl, claim in Hp. rewrite length_take in Hp.
      destruct (List.filter _ rows); [set_solver|]. simpl in Hp. lia. }
    split; [do 2 f_equal; lia|lia].
  - destruct (IH (Datatypes.S k) rows1 (total + published res)%nat) as (rows2 & Ht & Hend).
    + by rewrite Hi.
    + eapply sorted_same_event; [|exact Hs]. eapply Forall2_impl; [exact Hsame|]. by intros ? ? [? _].
    + intros r' Hr'. destruct (Forall2_source _ _ _ r' Hsame Hr') as (r & Hr & (_ & _ & Hty & _ & Hpl) & _).
      specialize (Hok r Hr). unfold publish in *. by rewrite Hty, Hpl.
    + intros r' j Hr'. destruct (Forall2_source _ _ _ r' Hsame Hr') as (r & Hr & _ & ->). auto.
    + lia.
    + exists rows2. split; [rewrite Ht; do 2 f_equal; lia|done].
Qed.

(** When the broker confirms what it is sent, no other instance holds rows and every row is due,
    one drain publishes the whole outbox, however the rows spread over aggregates and batches. *)
Theorem relay_drains (clock : nat -> Z) (rows : list OutboxRow) :
  batchSize opts <> 0%nat -> NoDup (ob_id <$> rows) ->
  StronglySorted (fun a b => ob_seq a < ob_seq b) rows ->
  (forall r j, r ∈ rows -> sendable (clock j) r) ->
  exists rows', tick opts (fun _ => None) (fun _ => false) (Datatypes.S (backlog rows)) clock 0 rows 0
                = Some (rows', backlog rows)
    /\ forall r, r ∈ rows' -> unpublished r = false.
Proof.
  intros Hbs Hnd Hs Hsend.
  destruct (drain (Datatypes.S (backlog rows)) clock 0 rows 0 Hbs Hnd Hs) as (rows' & Ht & Hend).
  - intros r Hr. apply (Hsend r 0%nat Hr).
  - intros r j Hr. by apply Hsend.
  - lia.
  - exists rows'. split; [done|]. intros r Hr. destruct (unpublished r) eqn:Hu; [|done].
    unfold backlog in Hend. apply nil_length_inv in Hend.
    assert (r ∈ List.filter unpublished rows') as Hin.
    { apply list_elem_of_In, filter_In. split; [by apply list_elem_of_In|done]. }
    rewrite Hend in Hin. set_solver.
Qed.
End Drain.

(** ** At concrete inputs *)

Section Demo.
#[local] Instance relay_zod : Zod := {| zod_uuid := fun _ => true; zod_datetime := fun _ => true |}.

Definition demo_row (id : string) (seq : Z) (agg : string) : OutboxRow :=
  mkOutboxRow id seq USER_ACTIVATED 1 agg (UserActivatedP agg 0) "corr" None 0 None 0 None 0.

(** Two events of one aggregate with another aggregate's between them. *)
Definition demo_rows : list OutboxRow :=
  [demo_row "e1" 1 "alice"; demo_row "e2" 2 "bob"; demo_row "e3" 3 "alice"].

Lemma demo_rows_NoDup : NoDup (ob_id <$> demo_rows).
Proof. by apply (bool_decide_unpack _). Qed.

Lemma demo_rows_sorted : StronglySorted (fun a b => ob_seq a < ob_seq b) demo_rows.
Proof. repeat constructor. Qed.

(** A broker that takes nothing about alice: bob's event still goes out, hers stay in order. *)
Definition refuse_alice (r : OutboxRow) : option Exn :=
  if String.eqb (ob_aggregateId r) "alice" then Some (Unroutable (ob_eventType r)) else None.

Lemma relay_keeps_order_witness :
  let '(rows', _) := claimAndPublish default_relay refuse_alice (fun _ => false) 10 demo_rows in
  aggregate_order rows' /\ (unpublished <$> rows') = [true; false; true].
Proof.
  destruct (claimAndPublish default_relay refuse_alice (fun _ => false) 10 demo_rows) as [rows' res] eqn:Hc.
  split; [|by vm_compute in Hc; injection Hc as <- _].
  eapply relay_keeps_order; [exact demo_rows_NoDup| |exact Hc].
  intros a b Ha Hb _ _ Hp. exfalso. revert Hp. unfold demo_rows in Hb.
  rewrite !elem_of_cons in Hb. destruct Hb as [->|[->|[->|Hb]]]; try done. by apply elem_of_nil in Hb.
Defined.

Lemma tick_terminates_witness :
  exists rows', tick default_relay refuse_alice (fun _ => false) 4 (fun _ => 10) 0 demo_rows 0
                = Some (rows', (3 - backlog rows')%nat) /\ (backlog rows' <= 3)%nat.
Proof. apply (tick_terminates default_relay refuse_alice (fun _ => false) (fun _ => 10)), demo_rows_NoDup. Defined.

Lemma relay_drains_witness :
  exists rows', tick (mkRelay 1 1000 60000) (fun _ => None) (fun _ => false) 4 (fun _ => 10) 0 demo_rows 0
                = Some (rows', 3%nat)
    /\ forall r, r ∈ rows' -> unpublished r = false.
Proof.
  apply (relay_drains (mkRelay 1 1000 60000) (fun _ => 10)).
  - done.
  - exact demo_rows_NoDup.
  - exact demo_rows_sorted.
  - intros r j Hr. unfold demo_rows in Hr. rewrite !elem_of_cons in Hr.
    destruct Hr as [->|[->|[->|Hr]]]; [split; [reflexivity|by vm_compute]..|by apply elem_of_nil in Hr].
Defined.
End Demo.
