(* ===== verification/DeliveryTheorems.v ===== *)
(** * DeliveryTheorems: what the consumer and the inbox promise

    How often a message is tried and what becomes of it, that none is lost, who is believed as a
    sender before and after a retry, the round trip of an envelope, and that redelivery applies an
    effect once. *)
From S2P Require Export Consumer Inbox Retention.

(** ** Bounded retry *)

Section Retry.
Context `{Zod} {S : Type} (broker : BrokerConfig) (options : SubscribeOptions)
  (handler : Envelope -> S -> outcome unit * S) (errorMessage : Exn -> string).

(** How many deliveries a message has left, this one included. *)
Definition deliveries_left (msg : Message) : nat :=
  Z.to_nat (Z.max 1 (bc_maxAttempts broker - attempt_of msg + 1)).

(** A message that is over: consumed, dropped from a transient queue, or set aside with its body. *)
Definition settled_as (msg : Message) (f : Fate) : Prop :=
  f = Consumed \/ f = Dropped \/ exists m, f = SetAside m /\ msg_body m = msg_body msg.

(** Whatever the handler does, a message whose publications the broker confirms is settled after
    at most [maxAttempts] deliveries: consumed, dropped from a transient queue, or set aside for an
    operator with its content as it arrived. *)
Theorem retry_bounded (world : nat -> S -> S) (k : nat) (msg : Message) (s : S) :
  exists f s' n,
    redeliver broker options handler errorMessage (deliveries_left msg) (fun _ => true) world k msg s
      = Some (f, s', n)
    /\ (k < n <= k + deliveries_left msg)%nat /\ settled_as msg f.
Proof.
  remember (deliveries_left msg) as fuel eqn:Hfuel. revert k msg s Hfuel.
  induction fuel as [|fuel IH]; intros k msg s Hfuel; [unfold deliveries_left in Hfuel; lia|]. simpl.
  destruct (handle _ _ _ _ true msg s) as [acts s1] eqn:Hh.
  destruct (fate acts) as [|m| |l m|] eqn:Hfate.
  - exists Consumed, s1, (Datatypes.S k). split; [done|]. split; [lia|by left].
  - exists (SetAside m), s1, (Datatypes.S k). split; [done|]. split; [lia|]. right; right.
    exists m. split; [done|]. assert (fate (fst (handle broker options handler errorMessage true msg s))
      = SetAside m) as Hs by by rewrite Hh.
    by apply handle_set_aside in Hs as (? & ? & ->).
  - exists Dropped, s1, (Datatypes.S k). split; [done|]. split; [lia|by right; left].
  - assert (fate (fst (handle broker options handler errorMessage true msg s)) = Again l m) as Hs
      by by rewrite Hh.
    apply handle_again in Hs as (_ & -> & Hlt & reason & ->).
    destruct (IH (Datatypes.S k) (resend broker options msg reason (attempt_of msg + 1)) (world k s1))
      as (f & s2 & n & -> & Hn & Hset).
    { unfold deliveries_left in *. rewrite attempt_resend. lia. }
    exists f, s2, n. repeat split; [lia..|done].
  - assert (fate (fst (handle broker options handler errorMessage true msg s)) = Unsettled) as Hs
      by by rewrite Hh.
    by apply handle_unsettled in Hs.
Qed.

(** C33: No message is lost. A delivery that acknowledges its message either ran the handler to a
    result (or to a stale event) or first published a copy with the same body, which the broker
    confirmed; and a message is refused without a copy only on a transient queue. *)
Theorem never_lost (confirms : bool) (msg : Message) (s : S) :
  let '(actions, s') := handle broker options handler errorMessage confirms msg s in
  (AckMessage ∈ actions ->
     (exists v, accept broker options msg = Ok v
        /\ (handler v s = (Ok tt, s') \/ exists r, handler v s = (Throw (Stale r), s')))
     \/ (confirms = true /\ exists ex m, actions = [PublishTo ex (so_queue options) m; AckMessage]
           /\ msg_body m = msg_body msg))
  /\ (NackMessage ∈ actions ->
        actions = [NackMessage] /\ bc_transient broker (so_queue options) = true).
Proof.
  destruct (handle broker options handler errorMessage confirms msg s) as [acts s'] eqn:Hh.
  revert Hh. unfold handle, retryOrDeadLetter, dead_letter, publishThenAck.
  assert (forall c ex m, NackMessage ∈ PublishTo ex (so_queue options) m
            :: (if c : bool then [AckMessage] else []) -> False) as Hno.
  { intros [] ex m; rewrite !elem_of_cons; intros Hin; destruct_or?; simplify_eq;
      by apply elem_of_nil in Hin. }
  assert (forall c ex m, AckMessage ∈ PublishTo ex (so_queue options) m
            :: (if c : bool then [AckMessage] else []) -> c = true) as Hyes.
  { intros [] ex m; [done|]. rewrite !elem_of_cons. intros Hin; destruct_or?; simplify_eq;
      by apply elem_of_nil in Hin. }
  destruct (accept broker options msg) as [v|x]; [destruct (handler v s) as [[[]|x] s1] eqn:Hr|];
    repeat match goal with |- context [if ?b then _ else _] =>
      lazymatch b with confirms => fail | _ => destruct b eqn:? end end;
    intros [= <- <-]; split; intros Hin;
    try (exfalso; by eapply Hno);
    try (apply list_elem_of_singleton in Hin; discriminate Hin); auto.
  all: try (right; split; [by eapply Hyes|]; rewrite (Hyes _ _ _ Hin); eexists _, _; split; [done|];
            reflexivity).
  - left. exists v. auto.
  - left. exists v. split; [done|]. right. destruct x; try discriminate. eauto.
Qed.

(** A message a service sent again under its own account passes the checks it passed before. *)
Lemma accept_resend own msg reason attempt v :
  bc_account broker = Some own -> nonempty own = true -> accept broker options msg = Ok v ->
  accept broker options (resend broker options msg reason attempt) = Ok v.
Proof.
  intros Hown Hne. unfold accept. simpl. destruct (parseEnvelope _ _ _); [|done].
  destruct (negb _); [done|]. destruct (so_expectedProducer options) as [ex|]; [|done].
  destruct (negb _); [done|]. destruct (bc_verifiesSenders broker); [|done]. rewrite Hown.
  destruct (senderOf (msg_props msg) (Some own)) as [snd|] eqn:Hs; [|done].
  assert (senderOf (resendProperties (mkProps (p_userId (msg_props msg)) (h_sender (msg_props msg))
     (Some attempt) (Some (js_slice 500 reason)) (Some (so_queue options))) (Some own))
     (Some own) = Some snd) as ->; [|done].
  assert (forall at_ r q, senderOf (mkProps (p_userId (msg_props msg)) (h_sender (msg_props msg))
            at_ r q) (Some own) = senderOf (msg_props msg) (Some own)) as Heq by done.
  rewrite senderOf_resend; rewrite ?Heq; [done| |by rewrite Hs].
  unfold text. simpl. by rewrite Hne.
Qed.

(** A handler that keeps failing is given the whole retry budget and no more. A message accepted
    once is accepted at every retry, sender check included, although the service republishes it
    under its own account; after exactly the deliveries left it is set aside, content unchanged. *)
Theorem retry_exhausts (own : string) (v : Envelope) (x : Exn) (world : nat -> S -> S) (k : nat)
    (msg : Message) (s : S) :
  bc_account broker = Some own -> nonempty own = true ->
  bc_transient broker (so_queue options) = false ->
  accept broker options msg = Ok v -> is_stale x = false -> is_unparseable x = false ->
  (forall s, fst (handler v s) = Throw x) ->
  exists m s',
    redeliver broker options handler errorMessage (deliveries_left msg) (fun _ => true) world k msg s
      = Some (SetAside m, s', (k + deliveries_left msg)%nat)
    /\ msg_body m = msg_body msg
    /\ attempt_of m = Z.max (attempt_of msg) (bc_maxAttempts broker).
Proof.
  intros Hown Hne Ht Hacc Hst Hun Hfail.
  remember (deliveries_left msg) as fuel eqn:Hfuel. revert k msg s Hfuel Hacc.
  induction fuel as [|fuel IH]; intros k msg s Hfuel Hacc; [unfold deliveries_left in Hfuel; lia|]. simpl.
  destruct (handler v s) as [res s1] eqn:Hr. specialize (Hfail s) as Hf. rewrite Hr in Hf. simpl in Hf.
  subst res. rewrite (handle_retries _ _ _ _ _ _ _ _ _ Hacc Hr Hst Hun Ht). unfold retryOrDeadLetter.
  destruct (Z.leb_spec (bc_maxAttempts broker) (attempt_of msg)) as [Hle|Hlt].
  - simpl. eexists _, _. split; [do 2 f_equal|].
    + unfold deliveries_left in Hfuel. lia.
    + split; [done|]. rewrite attempt_resend. lia.
  - simpl. destruct (IH (Datatypes.S k)
      (resend broker options msg (errorMessage x) (attempt_of msg + 1)) (world k s1))
      as (m & s2 & -> & Hb & Ha).
    + unfold deliveries_left in *. rewrite attempt_resend. lia.
    + by eapply accept_resend.
    + exists m, s2. split; [do 2 f_equal; lia|]. split; [done|].
      rewrite Ha, attempt_resend. lia.
Qed.

(** A sender the subscription does not expect never reaches its handler. A message published by
    an account outside the expected producers leaves the state alone, is never retried, and is
    dropped or set aside, whatever producer its envelope and whatever sender its headers claim. *)
Theorem foreign_sender_refused (expected : list string) (account : string) (confirms : bool)
    (msg : Message) (s : S) :
  so_expectedProducer options = Some expected -> bc_verifiesSenders broker = true ->
  p_userId (msg_props msg) = Some account -> nonempty account = true ->
  Some account <> bc_account broker -> account ∉ expected ->
  let '(actions, s') := handle broker options handler errorMessage confirms msg s in
  s' = s /\ (forall l m, fate actions <> Again l m) /\ fate actions <> Consumed.
Proof.
  intros Hex Hver Huser Hne Hfor Hnot.
  assert (exists x, accept broker options msg = Throw x) as [x Hx].
  { unfold accept. destruct (parseEnvelope _ _ _) as [v|x]; [|eauto].
    destruct (negb _); [eauto|]. rewrite Hex. destruct (negb _); [eauto|]. rewrite Hver.
    rewrite (senderOf_foreign _ _ account) by done.
    destruct (existsb (String.eqb account) expected) eqn:Hin; [|eauto].
    apply existsb_true in Hin as (a & Ha & Heq). apply String.eqb_eq in Heq as <-. done. }
  unfold handle. rewrite Hx. unfold dead_letter, publishThenAck.
  destruct (bc_transient _ _); [|destruct confirms]; by repeat split.
Qed.
End Retry.

(** ** Retry queues *)

Lemma lookup_retryLevels namespace delays l level :
  retryLevels namespace delays !! l = Some level <->
  exists d, delays !! l = Some d /\ level = mkLevel (RetryExchange namespace (Z.of_nat l + 1)) d.
Proof.
  unfold retryLevels. rewrite list_lookup_imap. destruct (delays !! l); simpl; naive_solver.
Qed.

(** With a retry queue for each delay and one attempt more than there are delays, every retry a
    consumer schedules goes to a queue that is declared, and waits the delay of its attempt. *)
Theorem retry_has_a_queue `{Zod} {S : Type} (broker : BrokerConfig) (options : SubscribeOptions)
    (handler : Envelope -> S -> outcome unit * S) (errorMessage : Exn -> string) (delays : list Z)
    (confirms : bool) (msg : Message) (s : S) (ex : Exchange) (key : string) (m : Message) :
  bc_maxAttempts broker = Z.of_nat (length delays) + 1 -> 1 <= attempt_of msg ->
  PublishTo ex key m ∈ fst (handle broker options handler errorMessage confirms msg s) ->
  ex = DeadLetterExchange
  \/ exists d, delays !! Z.to_nat (attempt_of msg - 1) = Some d
       /\ mkLevel ex d ∈ retryLevels (bc_namespace broker) delays /\ attempt_of m = attempt_of msg + 1.
Proof.
  intros Hmax Hpos Hin.
  assert (ex = DeadLetterExchange \/ attempt_of msg < bc_maxAttempts broker
          /\ ex = RetryExchange (bc_namespace broker) (attempt_of msg)
          /\ attempt_of m = attempt_of msg + 1) as [->|(Hlt & -> & Hm)]; [|by left|].
  { revert Hin. unfold handle, retryOrDeadLetter, dead_letter, publishThenAck.
    destruct (accept broker options msg) as [v|x]; [destruct (handler v s) as [[[]|x] s1]|];
      repeat match goal with |- context [if ?b then _ else _] => destruct b eqn:? end; simpl;
      rewrite ?elem_of_cons; intros Hin; destruct_or?; simplify_eq; auto;
      try (by apply elem_of_nil in Hin); right; repeat split; lia. }
  right. destruct (lookup_lt_is_Some_2 delays (Z.to_nat (attempt_of msg - 1))) as [d Hd]; [lia|].
  exists d. repeat split; [done| |done].
  apply list_elem_of_lookup. exists (Z.to_nat (attempt_of msg - 1)).
  apply lookup_retryLevels. exists d. split; [done|]. do 2 f_equal. lia.
Qed.

(** ** Envelopes *)

Section Envelopes.
Context `{Zod} (schema : Payload -> option Payload) (supported : list Z).

Lemma str_field_cons k k' x l p :
  str_field k (mkRaw ((k', x) :: l) p) =
  if String.eqb k k' then (match x with SStr s => Some s | _ => None end) else str_field k (mkRaw l p).
Proof. unfold str_field. simpl. by destruct (String.eqb k k'). Qed.

Lemma int_field_cons k k' x l p :
  int_field k (mkRaw ((k', x) :: l) p) =
  if String.eqb k k' then (match x with SInt z => Some z | _ => None end) else int_field k (mkRaw l p).
Proof. unfold int_field. simpl. by destruct (String.eqb k k'). Qed.


(** The version is judged before the payload. Of a body whose envelope is well formed, an
    unsupported version is reported as such whatever the payload holds; and only a body that is well
    formed, of a supported version and with a payload its schema accepts becomes an envelope. *)
Theorem version_before_payload (raw : RawEnvelope) (mk : Payload -> Envelope) :
  envelopeSchema raw = Some mk ->
  (forall p, schemaVersion (mk p) ∉ supported ->
     parseEnvelope (Some raw) schema supported
     = Throw (UnsupportedVersion (eventType (mk p)) (schemaVersion (mk p))))
  /\ (forall v, parseEnvelope (Some raw) schema supported = Ok v ->
        envelope_ok v = true /\ schemaVersion v ∈ supported
        /\ exists p, raw_payload raw = Some p /\ schema p = Some (payload v)).
Proof.
  intros Hs. destruct (envelopeSchema_Some _ _ Hs) as
    (id & ty & ver & agg & at_ & prod & corr & cause & -> & Hid & Hty & Hver & Hok).
  unfold parseEnvelope. rewrite Hs, Hver, Hty. split.
  - intros p Hno. simpl in *.
    assert (existsb (Z.eqb ver) supported = false) as ->; [|done].
    apply existsb_false. intros z Hz. apply Z.eqb_neq. by intros ->.
  - intros v. destruct (existsb (Z.eqb ver) supported) eqn:Hin; simpl; [|done].
    destruct (raw_payload raw) as [p|]; [|done]. destruct (schema p) as [q|] eqn:Hq; [|done].
    intros [= <-]. split; [apply Hok|]. split; [|eauto].
    apply existsb_true in Hin as (z & Hz & Heq). apply Z.eqb_eq in Heq as <-. done.
Qed.
End Envelopes.

(** ** At-least-once delivery, applied once *)

Section Once.
Context {S : Type} `{HasInbox S} (consumer : string) (handler : Envelope -> M S unit).

(** The deliveries of one event, each with its own transaction: what each answered, and the state. *)
Fixpoint deliveries (v : Envelope) (envs : list Env) (s : S) : list (outcome bool) * S :=
  match envs with
  | [] => ([], s)
  | e :: rest =>
      let '(r, s1) := withInbox consumer handler v e s in
      let '(rs, s2) := deliveries v rest s1 in (r :: rs, s2)
  end.

Lemma deliveries_applied v envs s :
  is_Some (inbox s !! (consumer, eventId v)) ->
  deliveries v envs s = ((fun _ => Ok true) <$> envs, s).
Proof.
  intros Hin. induction envs as [|e envs IH]; [done|]. simpl.
  rewrite withInbox_duplicate by done. by rewrite IH.
Qed.

(** C32: However often an event is delivered, its effect is applied at most once. Either every
    delivery threw and nothing changed, or some delivery is the first to return: those before it
    threw and left no trace, the state is the one it left, and all later ones are duplicates. *)
Theorem inbox_applies_once (v : Envelope) (envs : list Env) (s : S) :
  inbox s !! (consumer, eventId v) = None ->
  (forall e st r, handler v e st = Ok r ->
     inbox (snd (snd r)) !! (consumer, eventId v) = inbox (snd st) !! (consumer, eventId v)) ->
  let '(rs, s') := deliveries v envs s in
  (s' = s /\ Forall (fun r => exists x, r = Throw x) rs)
  \/ exists pre e post, envs = pre ++ e :: post
       /\ withInbox consumer handler v e s = (Ok false, s')
       /\ Forall (fun r => exists x, r = Throw x) (take (length pre) rs)
       /\ drop (length pre) rs = Ok false :: ((fun _ => Ok true) <$> post).
Proof.
  intros Hnone Hkeep. induction envs as [|e envs IH]; simpl; [by left|].
  destruct (withInbox consumer handler v e s) as [[dup|x] s1] eqn:Hw.
  - destruct (withInbox_first _ _ _ _ _ _ _ Hnone Hw) as (-> & n & Hh).
    rewrite deliveries_applied.
    + right. exists [], e, envs. by repeat split.
    + specialize (Hkeep _ _ _ Hh). simpl in Hkeep.
      rewrite Hkeep, inbox_set_inbox, lookup_insert_eq. eauto.
  - apply withInbox_throw in Hw as Heq. subst s1.
    destruct (deliveries v envs s) as [rs s2]. destruct IH as [[-> Hall]|(pre & e' & post & -> & Hw' & Ha & Hd)].
    + left. split; [done|]. constructor; eauto.
    + right. exists (e :: pre), e', post. simpl. repeat split; [done| |done]. constructor; eauto.
Qed.
End Once.

(** ** Retention *)

(** Pruning never deletes what is still needed. Whatever rows other instances hold and whenever
    the service stops, it leaves the outbox a part of what it was, with every unpublished row and
    every row published within the retention, in order; and it always ends. *)
Theorem prune_keeps_outbox {S : Type} `{HasOutbox S} `{HasInbox S} (retention : EventRetention)
    (batchSize : nat) (waiting : string -> bool) (lo : nat -> OutboxRow -> bool)
    (li : nat -> (string * string) * InboxRow -> bool) (stop : nat -> bool) (at_ : Z) (s : S) :
  (forall i st, outbox (set_inbox i st) = outbox st) ->
  exists s' out in_,
    pruneEventTables retention batchSize waiting lo li stop at_ s = Some (s', (out, in_))
    /\ ob_rows (outbox s') `sublist_of` ob_rows (outbox s)
    /\ List.filter (fun r => negb (outbox_old retention at_ r)) (ob_rows (outbox s'))
       = List.filter (fun r => negb (outbox_old retention at_ r)) (ob_rows (outbox s))
    /\ List.filter unpublished (ob_rows (outbox s')) = List.filter unpublished (ob_rows (outbox s)).
Proof.
  intros Hframe.
  destruct (pruneEventTables_total retention batchSize waiting lo li stop at_ s) as [[s' [out in_]] Hp].
  exists s', out, in_. split; [done|]. revert Hp. unfold pruneEventTables.
  destruct (deleteInBatches (outbox_old retention at_) _ _ _ _ _ _ _) as [[rows' out']|] eqn:Hd; [|done].
  apply deleteInBatches_spec in Hd as (_ & Hsub & Hf).
  assert (List.filter unpublished rows' = List.filter unpublished (ob_rows (outbox s))) as Hu.
  { assert (forall l, List.filter unpublished l
      = List.filter unpublished (List.filter (fun r => negb (outbox_old retention at_ r)) l)) as Heq.
    { clear. induction l as [|r l IH]; simpl; [done|]. unfold unpublished at 1.
      unfold outbox_old at 1. destruct (ob_publishedAt r) eqn:Hp; simpl.
      - destruct (_ <? _); simpl; [done|]. unfold unpublished at 2. by rewrite Hp.
      - unfold unpublished at 2. rewrite Hp. by rewrite IH. }
    by rewrite (Heq rows'), Hf, <- Heq. }
  destruct (stop _).
  - intros [= <- _ _]. by rewrite outbox_set_outbox.
  - destruct (deleteInBatches _ _ _ _ _ _ _ _) as [[ins' n]|]; [|done].
    intros [= <- _ _]. by rewrite Hframe, outbox_set_outbox.
Qed.

(** Pruning keeps redelivery harmless. Every inbox record within its retention, and every record
    of an event that still waits as a dead letter, stays as it was, and no record is made up; so a
    redriven event still meets its record. *)
Theorem prune_keeps_inbox {S : Type} `{HasOutbox S} `{HasInbox S} (retention : EventRetention)
    (batchSize : nat) (waiting : string -> bool) (lo : nat -> OutboxRow -> bool)
    (li : nat -> (string * string) * InboxRow -> bool) (stop : nat -> bool) (at_ : Z) (s s' : S)
    (out in_ : nat) :
  (forall o st, inbox (set_outbox o st) = inbox st) ->
  pruneEventTables retention batchSize waiting lo li stop at_ s = Some (s', (out, in_)) ->
  inbox s' ⊆ inbox s
  /\ forall consumer event row, inbox s !! (consumer, event) = Some row ->
       at_ - inboxMicros retention <= ib_processedAt row \/ waiting event = true ->
       inbox s' !! (consumer, event) = Some row.
Proof.
  intros Hframe. unfold pruneEventTables.
  destruct (deleteInBatches (outbox_old retention at_) _ _ _ _ _ _ _) as [[rows' out']|]; [|done].
  destruct (stop _); [intros [= <- _ _]; rewrite Hframe; by split|].
  rewrite Hframe.
  destruct (deleteInBatches (inbox_old retention waiting at_) _ _ _ _ _ _ _) as [[ins' n]|] eqn:Hd;
    [|done].
  apply deleteInBatches_spec in Hd as (_ & Hsub & Hf). intros [= <- _ _].
  rewrite inbox_set_inbox.
  assert (NoDup ins'.*1) as Hnd.
  { eapply sublist_NoDup; [apply (NoDup_fst_map_to_list (inbox s))|by apply fmap_sublist]. }
  split.
  - apply map_subseteq_spec. intros k r Hk. apply elem_of_list_to_map_2 in Hk.
    apply elem_of_map_to_list. by eapply elem_of_sublist.
  - intros cons ev row Hrow Hwhy. apply elem_of_list_to_map_1; [done|].
    assert ((cons, ev, row) ∈ List.filter (fun r => negb (inbox_old retention waiting at_ r)) ins') as Hin.
    { rewrite Hf. apply list_elem_of_In, filter_In. split.
      - by apply list_elem_of_In, elem_of_map_to_list.
      - unfold inbox_old. simpl. destruct Hwhy as [Hle| ->]; [|by rewrite andb_false_r].
        by rewrite (proj2 (Z.ltb_ge _ _)). }
    by apply list_elem_of_In, filter_In, proj1, list_elem_of_In in Hin.
Qed.

(** ** At concrete inputs *)

Section Demo.
#[local] Instance delivery_zod : Zod := {| zod_uuid := fun _ => true; zod_datetime := fun _ => true |}.

Definition demo_broker : BrokerConfig :=
  mkBroker "credit" (Some "credit-service") true (fun _ => false) MAX_ATTEMPTS.

Definition demo_options : SubscribeOptions :=
  mkSubscribe "credit.activations" [USER_ACTIVATED] (Some ["user-service"]) Some [1].

Definition demo_event : Envelope :=
  mkEnvelope "e1" USER_ACTIVATED 1 "alice" "2026-01-01T00:00:00Z" "user-service" "corr" "cause"
    (UserActivatedP "alice" 0).

Definition from (account : string) : Message :=
  mkMessage (Some (Envelope.encode demo_event)) (mkProps (Some account) None None None None).

(** Fails for good, and counts how often it ran. *)
Definition failing (_ : Envelope) (n : nat) : outcome unit * nat := (Throw (Failure "down"), Datatypes.S n).

Lemma demo_accepted : accept demo_broker demo_options (from "user-service") = Ok demo_event.
Proof. reflexivity. Qed.

Lemma retry_exhausts_witness :
  exists m s',
    redeliver demo_broker demo_options failing (fun _ => "down") 5 (fun _ => true) (fun _ n => n) 0
      (from "user-service") 0%nat
      = Some (SetAside m, s', 5%nat)
    /\ msg_body m = Some (Envelope.encode demo_event) /\ attempt_of m = 5.
Proof.
  apply (retry_exhausts demo_broker demo_options failing (fun _ => "down") "credit-service" demo_event
           (Failure "down") (fun _ n => n) 0 (from "user-service") 0%nat);
    try reflexivity; exact demo_accepted.
Defined.

(** An account that names the expected service as sender in its own header. *)
Definition forged : Message :=
  mkMessage (Some (Envelope.encode demo_event))
    (mkProps (Some "chat-service") (Some "user-service") None None None).

Lemma foreign_sender_refused_witness :
  let '(actions, s') :=
    handle demo_broker demo_options failing (fun _ => "untrusted") true forged 0%nat in
  s' = 0%nat /\ (forall l m, fate actions <> Again l m) /\ fate actions <> Consumed.
Proof.
  apply (foreign_sender_refused demo_broker demo_options failing (fun _ => "untrusted")
           ["user-service"] "chat-service"); try reflexivity; by apply (bool_decide_unpack _).
Defined.

Lemma retry_has_a_queue_witness :
  exists d, RETRY_DELAYS_MS !! 0%nat = Some d
    /\ mkLevel (RetryExchange "credit" 1) d ∈ retryLevels "credit" RETRY_DELAYS_MS.
Proof.
  destruct (retry_has_a_queue demo_broker demo_options failing (fun _ => "down") RETRY_DELAYS_MS true
    (from "user-service") 0%nat (RetryExchange "credit" 1) "credit.activations"
    (resend demo_broker demo_options (from "user-service") "down" 2)) as [[=]|(d & Hd & Hl & _)].
  - reflexivity.
  - by vm_compute.
  - by left.
  - exists d. split; [exact Hd|exact Hl].
Defined.


(** The same envelope one version on, without a payload. *)
Definition next_version : RawEnvelope :=
  mkRaw (raw_fields (Envelope.encode (mkEnvelope "e1" USER_ACTIVATED 2 "alice" "2026-01-01T00:00:00Z"
    "user-service" "corr" "cause" (payload demo_event)))) None.

Lemma version_before_payload_witness :
  is_Some (envelopeSchema next_version)
  /\ parseEnvelope (Some next_version) Some [1] = Throw (UnsupportedVersion USER_ACTIVATED 2).
Proof.
  destruct (envelopeSchema next_version) as [mk|] eqn:Hs; [split; [done|]|by vm_compute in Hs].
  destruct (version_before_payload Some [1] next_version mk Hs) as [Hun _].
  assert (mk (payload demo_event) = mkEnvelope "e1" USER_ACTIVATED 2 "alice" "2026-01-01T00:00:00Z"
    "user-service" "corr" "cause" (payload demo_event)) as Heq by (by vm_compute in Hs; injection Hs as <-).
  specialize (Hun (payload demo_event)). rewrite Heq in Hun. apply Hun.
  apply (bool_decide_unpack _). by vm_compute.
Defined.

(** A service's two event tables and a counter its effect moves. *)
Record DemoTables := mkTables { dt_outbox : Outbox; dt_inbox : InboxTable; dt_count : nat }.

#[local] Instance demo_has_outbox : HasOutbox DemoTables := {|
  outbox := dt_outbox; set_outbox := fun o s => mkTables o (dt_inbox s) (dt_count s);
  outbox_set_outbox := fun _ _ => eq_refl |}.
#[local] Instance demo_has_inbox : HasInbox DemoTables := {|
  inbox := dt_inbox; set_inbox := fun i s => mkTables (dt_outbox s) i (dt_count s);
  inbox_set_inbox := fun _ _ => eq_refl |}.

Lemma demo_outbox_frame (i : InboxTable) (st : DemoTables) : outbox (set_inbox i st) = outbox st.
Proof. done. Qed.
Lemma demo_inbox_frame (o : Outbox) (st : DemoTables) : inbox (set_outbox o st) = inbox st.
Proof. done. Qed.

Definition demo_tables : DemoTables := mkTables (mkOutbox [] 1) ∅ 0.

(** Fails before noon, then counts. *)
Definition count_one (_ : Envelope) : M DemoTables unit :=
  let! at_ := now in
  require (12 <=? at_) (Failure "too early") ;;;
  modify (fun s => mkTables (dt_outbox s) (dt_inbox s) (Datatypes.S (dt_count s))).

Definition at_time (t : Z) : Env := mkEnv t (fun _ => "id").

Definition demo_times : list Env := at_time <$> [1; 13; 2; 14].

Lemma inbox_applies_once_witness :
  let '(rs, s') := deliveries "counter" count_one demo_event demo_times demo_tables in
  dt_count s' = 1%nat
  /\ ((s' = demo_tables /\ Forall (fun r => exists x, r = Throw x) rs)
      \/ exists pre e post, demo_times = pre ++ e :: post
           /\ withInbox "counter" count_one demo_event e demo_tables = (Ok false, s')
           /\ Forall (fun r => exists x, r = Throw x) (take (length pre) rs)
           /\ drop (length pre) rs = Ok false :: ((fun _ => Ok true) <$> post)).
Proof.
  pose proof (inbox_applies_once "counter" count_one demo_event demo_times
    demo_tables (lookup_empty _)) as Honce.
  assert (dt_count (snd (deliveries "counter" count_one demo_event demo_times
    demo_tables)) = 1%nat) as Hcount by by vm_compute.
  destruct (deliveries "counter" count_one demo_event demo_times demo_tables) as [rs s'].
  split; [exact Hcount|]. apply Honce.
  intros e [n st] r Hr. unfold count_one in Hr. inv_tx. done.
Defined.

(** One row long published and one never published; one record old, one old but waiting. *)
Definition old_row (id : string) (seq : Z) (p : option Z) : OutboxRow :=
  mkOutboxRow id seq USER_ACTIVATED 1 "alice" (UserActivatedP "alice" 0) "corr" None 0 p 0 None 0.
Definition prune_tables : DemoTables :=
  mkTables (mkOutbox [old_row "e1" 1 (Some 0); old_row "e2" 2 None] 3)
    (<[("counter", "e1") := mkInboxRow USER_ACTIVATED 0]>
       {[ ("counter", "e2") := mkInboxRow USER_ACTIVATED 0 ]}) 0.
Definition waits (id : string) : bool := String.eqb id "e2".
Definition pruned : option (DemoTables * (nat * nat)) :=
  pruneEventTables (mkRetention 10 10) 1 waits (fun _ _ => false) (fun _ _ => false) (fun _ => false)
    100 prune_tables.

Lemma prune_keeps_outbox_witness :
  exists s' out in_,
    pruned = Some (s', (out, in_))
    /\ ob_rows (outbox s') `sublist_of` ob_rows (outbox prune_tables)
    /\ List.filter (fun r => negb (outbox_old (mkRetention 10 10) 100 r)) (ob_rows (outbox s'))
       = [old_row "e2" 2 None]
    /\ List.filter unpublished (ob_rows (outbox s')) = [old_row "e2" 2 None].
Proof.
  destruct (prune_keeps_outbox (mkRetention 10 10) 1 waits (fun _ _ => false) (fun _ _ => false)
    (fun _ => false) 100 prune_tables demo_outbox_frame) as (s' & out & in_ & Hp & Hsub & Hf & Hu).
  exists s', out, in_. repeat split; [exact Hp|exact Hsub|exact Hf|exact Hu].
Defined.

Lemma prune_keeps_inbox_witness :
  exists s' out in_, pruned = Some (s', (out, in_))
    /\ inbox s' !! ("counter", "e1") = None
    /\ inbox s' !! ("counter", "e2") = Some (mkInboxRow USER_ACTIVATED 0).
Proof.
  destruct pruned as [[s' [out in_]]|] eqn:Hp; [|by vm_compute in Hp].
  exists s', out, in_. split; [reflexivity|]. split; [by vm_compute in Hp; injection Hp as <- _ _|].
  apply (proj2 (prune_keeps_inbox (mkRetention 10 10) 1 waits (fun _ _ => false) (fun _ _ => false)
    (fun _ => false) 100 prune_tables s' out in_ demo_inbox_frame Hp)); [reflexivity|by right].
Defined.
End Demo.
