(* ===== verification/DeadLetters.v ===== *)
(** * DeadLetters: messages an operator reads and redrives (platform/src/events/dead-letters.ts)

    A message its consumer gave up on lands in its queue's dead-letter queue. [park] stores it in the
    table and only then acknowledges it; [redrive] sends it to its own queue again and stamps the row.
    A message here is what AMQP carries: its bytes, its properties and its headers, as JSON values.
    [read] is how its consumer sees it. What the broker answers a publication is the parameter
    [PublishReply]; Node's text decoding and [JSON.parse] are the class [JsLib]. *)
From S2P Require Export Consumer Text Paging.

Inductive Json :=
  | JNull
  | JBool (b : bool)
  | JNum (z : Z)
  | JStr (s : string)
  | JArr (l : list Json)
  | JObj (members : list (string * Json)).

(** [Buffer.toString('utf8')], [JSON.parse] ([None]: it throws), [Number(s)] of text ([None]: [NaN]) and
    [String(l)] of an array. *)
Class JsLib := {
  buffer_text : string -> string;
  json_parse : string -> option Json;
  text_number : string -> option Z;
  array_text : list Json -> string }.

(** [Number(v)]. *)
Definition js_number `{JsLib} (v : Json) : option Z :=
  match v with
  | JNum z => Some z
  | JNull => Some 0
  | JBool b => Some (if b then 1 else 0)
  | JStr s => text_number s
  | JArr l => text_number (array_text l)
  | JObj _ => None
  end.

(** ** A message as AMQP carries it *)

Record Amqp := mkAmqp {
  a_userId : option string;
  a_messageId : option string;
  a_type : option string;
  a_correlationId : option string;
  a_persistent : option bool;
  a_headers : gmap string Json;
  a_other : gmap string Json }.

Record AmqpMessage := mkAmqpMessage { m_content : string; m_properties : Amqp }.

Definition HEADER_SENDER := "x-foc-sender".
Definition HEADER_ATTEMPT := "x-foc-attempt".
Definition HEADER_FAILURE := "x-foc-failure-reason".
Definition HEADER_ORIGINAL_QUEUE := "x-foc-original-queue".
Definition HEADER_REDRIVE_OF := "x-foc-redrive-of".

Definition as_string (v : option Json) : option string := match v with Some (JStr s) => Some s | _ => None end.
Definition as_number (v : option Json) : option Z := match v with Some (JNum z) => Some z | _ => None end.

(** What the consumer reads of the properties: a sender that is not text counts as none, and the
    attempt is the number consumers write there. *)
Definition props_of (p : Amqp) : Properties :=
  mkProps (a_userId p) (as_string (a_headers p !! HEADER_SENDER)) (as_number (a_headers p !! HEADER_ATTEMPT))
    (as_string (a_headers p !! HEADER_FAILURE)) (as_string (a_headers p !! HEADER_ORIGINAL_QUEUE)).

(** [resendProperties] (platform/src/events/sender.ts) on the whole properties. *)
Definition resend_amqp (p : Amqp) (ownAccount : option string) : Amqp :=
  mkAmqp ownAccount (a_messageId p) (a_type p) (a_correlationId p) (a_persistent p)
    (match senderOf (props_of p) ownAccount with
     | Some s => <[HEADER_SENDER := JStr s]> (a_headers p)
     | None => a_headers p
     end) (a_other p).

Definition FAILURE_HEADERS : list string :=
  [HEADER_ATTEMPT; HEADER_FAILURE; HEADER_ORIGINAL_QUEUE; "x-death"; "x-first-death-exchange";
   "x-first-death-queue"; "x-first-death-reason"; "x-last-death-exchange"; "x-last-death-queue";
   "x-last-death-reason"].

Definition redriveProperties (stored : Amqp) (deadLetterId : string) (account : option string) : Amqp :=
  let resent := resend_amqp stored account in
  mkAmqp (a_userId resent) (a_messageId resent) (a_type resent) (a_correlationId resent) (Some true)
    (<[HEADER_REDRIVE_OF := JStr deadLetterId]> (foldr delete (a_headers resent) FAILURE_HEADERS))
    (a_other resent).

(** [publishTo] (platform/src/events/consumer.ts): what a consumer sends when it retries a message or
    sets it aside. *)
Definition publishTo (ownAccount : option string) (queue : string) (m : AmqpMessage) (reason : string) (attempt : Z)
  : AmqpMessage :=
  let p := m_properties m in
  let headers := <[HEADER_ATTEMPT := JNum attempt]> (<[HEADER_ORIGINAL_QUEUE := JStr queue]>
    (<[HEADER_FAILURE := JStr (js_slice 500 reason)]> (a_headers p))) in
  let resent := resend_amqp
    (mkAmqp (a_userId p) (a_messageId p) (a_type p) (a_correlationId p) (a_persistent p) headers (a_other p)) ownAccount in
  mkAmqpMessage (m_content m)
    (mkAmqp (a_userId resent) (a_messageId resent) (a_type resent) (a_correlationId resent) (Some true)
       (a_headers resent) (a_other resent)).

(** ** The table *)

Record DeadLetterRow := mkDeadLetter {
  dl_id : string;
  dl_queue : string;
  dl_eventId : option string;
  dl_eventType : option string;
  dl_aggregateId : option string;
  dl_correlationId : option string;
  dl_failureReason : option string;
  dl_attempts : Z;
  dl_body : string;
  dl_properties : Amqp;
  dl_parkedAt : Z;
  dl_redrivenAt : option Z;
  dl_redrivenBy : option string;
  dl_redriveReason : option string;
  dl_redriveCorrelationId : option string }.

Notation DeadLetterDb := (gmap string DeadLetterRow).

(** Neither [text] nor [jsonb] holds a NUL. *)
Definition text_ok (o : option string) : bool := optP o (fun s => negb (has_nul s)).
Fixpoint jsonb_ok (v : Json) : bool :=
  match v with
  | JStr s => negb (has_nul s)
  | JArr l => forallb jsonb_ok l
  | JObj ms => forallb (fun m => negb (has_nul m.1) && jsonb_ok m.2) ms
  | _ => true
  end.
Definition headers_ok (h : gmap string Json) : bool :=
  forallb (fun m => negb (has_nul m.1) && jsonb_ok m.2) (map_to_list h).
Definition properties_ok (p : Amqp) : bool :=
  text_ok (a_userId p) && text_ok (a_messageId p) && text_ok (a_type p) && text_ok (a_correlationId p)
  && headers_ok (a_headers p) && headers_ok (a_other p).

Definition text_column (column : string) (o : option string) : M DeadLetterDb unit :=
  require (text_ok o) (Sql (InvalidText column)).

(** [dead_letters_redrive_complete]. *)
Definition redrive_complete (r : DeadLetterRow) : bool :=
  Bool.eqb (is_some (dl_redrivenAt r)) (is_some (dl_redrivenBy r))
  && Bool.eqb (is_some (dl_redrivenAt r)) (is_some (dl_redriveReason r)).

(** The columns the trigger keeps. *)
Definition kept_columns (r : DeadLetterRow) :=
  (dl_id r, dl_queue r, dl_eventId r, dl_eventType r, dl_aggregateId r, dl_correlationId r,
   dl_failureReason r, dl_attempts r, dl_body r, dl_properties r, dl_parkedAt r).

#[export] Instance Json_eq_dec : EqDecision Json.
Proof.
  unshelve refine (fix go (a b : Json) {struct a} : Decision (a = b) :=
    let fix lst (l1 l2 : list Json) {struct l1} : Decision (l1 = l2) :=
      match l1, l2 with
      | [], [] => left eq_refl
      | x :: r1, y :: r2 =>
          match go x y with
          | left Hx => match lst r1 r2 with left Hr => left _ | right Hr => right _ end
          | right Hx => right _
          end
      | _, _ => right _
      end in
    let fix mem (l1 l2 : list (string * Json)) {struct l1} : Decision (l1 = l2) :=
      match l1, l2 with
      | [], [] => left eq_refl
      | (k, x) :: r1, (k', y) :: r2 =>
          match decide (k = k'), go x y with
          | left Hk, left Hx => match mem r1 r2 with left Hr => left _ | right Hr => right _ end
          | _, _ => right _
          end
      | _, _ => right _
      end in
    match a, b with
    | JNull, JNull => left eq_refl
    | JBool x, JBool y => match decide (x = y) with left H => left _ | right H => right _ end
    | JNum x, JNum y => match decide (x = y) with left H => left _ | right H => right _ end
    | JStr x, JStr y => match decide (x = y) with left H => left _ | right H => right _ end
    | JArr x, JArr y => match lst x y with left H => left _ | right H => right _ end
    | JObj x, JObj y => match mem x y with left H => left _ | right H => right _ end
    | _, _ => right _
    end); congruence.
Defined.
#[export] Instance Amqp_eq_dec : EqDecision Amqp.
Proof. solve_decision. Defined.
#[export] Instance DeadLetterRow_eq_dec : EqDecision DeadLetterRow.
Proof. solve_decision. Defined.

(** The trigger [dead_letters_guard], before an update of [old] to [new]; a deletion it always refuses. *)
Definition dead_letters_guard (old new : DeadLetterRow) : bool :=
  negb (is_some (dl_redrivenAt old)) && bool_decide (kept_columns new = kept_columns old).

Definition update_dead_letter (id : string) (f : DeadLetterRow -> DeadLetterRow) : M DeadLetterDb (option DeadLetterRow) :=
  let! t := gets (fun t => t) in
  match t !! id with
  | None => ret None
  | Some old =>
      let new := f old in
      require (dead_letters_guard old new) (Sql (ImmutableRow "dead_letters")) ;;;
      check_ (redrive_complete new) "dead_letters_redrive_complete" ;;;
      modify (fun t => <[id := new]> t) ;;;
      ret (Some new)
  end.

Definition insert_dead_letter (r : DeadLetterRow) : M DeadLetterDb unit :=
  text_column "queue" (Some (dl_queue r)) ;;;
  text_column "event_id" (dl_eventId r) ;;;
  text_column "event_type" (dl_eventType r) ;;;
  text_column "aggregate_id" (dl_aggregateId r) ;;;
  text_column "correlation_id" (dl_correlationId r) ;;;
  text_column "failure_reason" (dl_failureReason r) ;;;
  width_ok (dl_attempts r) ;;;
  require (properties_ok (dl_properties r)) (Sql (InvalidText "properties")) ;;;
  check_ (redrive_complete r) "dead_letters_redrive_complete" ;;;
  let! t := gets (fun t => t) in
  unique_ (negb (is_some (t !! dl_id r))) "dead_letters_pkey" ;;;
  modify (fun t => <[dl_id r := r]> t).

(** ** What is stored of a message *)

(** The file's own [text(value, max = 200)]. *)
Definition short_text (max : nat) (value : option string) : option string := js_slice max <$> keep nonempty value.

(** [o?.k]; on an array or a plain value it is [undefined]. *)
Definition member (k : string) (o : option Json) : option Json :=
  match o with Some (JObj ms) => assoc k ms | _ => None end.

(** [a ?? b] and, on numbers, [a || b]. *)
Definition or_else {A} (a b : option A) : option A := match a with Some _ => a | None => b end.
Definition or_number (a : option Z) (b : Z) : Z := match a with Some z => if z =? 0 then b else z | None => b end.

Inductive DeadLetterStatus := WAITING | REDRIVEN.
#[export] Instance DeadLetterStatus_eq_dec : EqDecision DeadLetterStatus.
Proof. solve_decision. Defined.

(** One dead letter, as an operator lists it. *)
Record DeadLetter := mkView {
  v_id : string;
  v_queue : string;
  v_eventId : option string;
  v_eventType : option string;
  v_aggregateId : option string;
  v_correlationId : option string;
  v_failureReason : option string;
  v_attempts : Z;
  v_status : DeadLetterStatus;
  v_parkedAt : Z;
  v_redrivenAt : option Z;
  v_redrivenBy : option string;
  v_redriveReason : option string }.

Definition toView (r : DeadLetterRow) : DeadLetter :=
  mkView (dl_id r) (dl_queue r) (dl_eventId r) (dl_eventType r) (dl_aggregateId r) (dl_correlationId r)
    (dl_failureReason r) (dl_attempts r) (if is_some (dl_redrivenAt r) then REDRIVEN else WAITING)
    (iso (dl_parkedAt r)) (iso <$> dl_redrivenAt r) (dl_redrivenBy r) (dl_redriveReason r).

Section Parking.
Context `{JsLib}.

Definition brokerDeath (headers : gmap string Json) : option string * Z :=
  let first := match headers !! "x-death" with Some (JArr (d :: _)) => Some d | _ => None end in
  ((fun reason => "broker: " +:+ reason) <$> keep nonempty (as_string (member "reason" first)),
   or_number (member "count" first ≫= js_number) 0).

(** [typeof parsed === 'object'] takes arrays too, which have none of the members read here. *)
Definition envelope_of (content : string) : option Json :=
  match json_parse (buffer_text content) with
  | Some (JObj ms) => Some (JObj ms)
  | Some (JArr l) => Some (JArr l)
  | _ => None
  end.

(** The row [toDeadLetterRow] and [INSERT] make; [parked_at] is the statement's [now()]. The
    properties are JSON values, so the trip through [JSON.stringify] leaves them as they are. *)
Definition toDeadLetterRow (id : string) (at_ : Z) (queue : string) (message : AmqpMessage) : DeadLetterRow :=
  let p := m_properties message in
  let envelope := envelope_of (m_content message) in
  let field k := short_text 200 (as_string (member k envelope)) in
  let '(reason, count) := brokerDeath (a_headers p) in
  mkDeadLetter id queue
    (or_else (field "eventId") (short_text 200 (a_messageId p)))
    (or_else (field "eventType") (short_text 200 (a_type p)))
    (field "aggregateId")
    (or_else (field "correlationId") (short_text 200 (a_correlationId p)))
    (or_else (short_text 500 (as_string (a_headers p !! HEADER_FAILURE))) reason)
    (or_number (a_headers p !! HEADER_ATTEMPT ≫= js_number) (or_number (Some count) 1))
    (m_content message) p at_ None None None None.

(** What [park] does with the delivery: [channel.ack(message)], or [channel.nack(message, false, true)]
    after [PARK_RETRY_MS]. *)
Inductive Settlement := Acked | HandedBack (x : Exn).

Definition PARK_RETRY_MS : Z := 5000.

(** [outage]: the database could not be reached, so the statement never ran. *)
Definition park (outage : option Exn) (queue : string) (message : AmqpMessage) (e : Env) (db : DeadLetterDb)
  : Settlement * DeadLetterDb :=
  match outage with
  | Some x => (HandedBack x, db)
  | None =>
      match transaction (let! id := randomUUID in let! at_ := now in insert_dead_letter (toDeadLetterRow id at_ queue message)) e db with
      | (Ok _, db') => (Acked, db')
      | (Throw x, db') => (HandedBack x, db')
      end
  end.
End Parking.

(** ** Redriving *)

(** What became of a publication: [channel.publish] threw, or the broker handed these messages back on
    the channel and then answered, with an error or without. *)
Inductive PublishReply :=
  | PublishThrew (message : string)
  | Answered (returned : list (option string)) (err : option string).

(** A message put on its queue through the service's redrive exchange. *)
Record Sent := mkSent { st_exchange : string; st_queue : string; st_message : AmqpMessage }.

Definition requeueExchangeName (namespace : string) : string := "foc." +:+ namespace +:+ ".requeue".

(** Mandatory: a message no queue is bound for comes back before it is confirmed. *)
Definition publishToQueue (reply : PublishReply) (exchange queue : string) (properties : Amqp) : outcome unit :=
  match reply with
  | PublishThrew m => Throw (Failure m)
  | Answered returned err =>
      match err with
      | Some m => Throw (Failure m)
      | None =>
          if existsb (fun id => bool_decide (id = a_messageId properties)) returned
          then Throw (Failure ("redrive was not delivered: " +:+ queue +:+ " is not bound to " +:+ exchange))
          else Ok tt
      end
  end.

Record Redriver := mkRedriver { by_actorId : string; by_reason : string; by_correlationId : string }.

Definition notFound : Exn := ApiException 404 "NOT_FOUND".

(** What a service knows of its broker: whether it is connected, and its name and account. *)
Record RedriveBroker := mkRedriveBroker { rb_connected : bool; rb_namespace : string; rb_account : option string }.

Definition redrive_message (broker : RedriveBroker) (row : DeadLetterRow) : Sent :=
  mkSent (requeueExchangeName (rb_namespace broker)) (dl_queue row)
    (mkAmqpMessage (dl_body row) (redriveProperties (dl_properties row) (dl_id row) (rb_account broker))).

Definition with_redrive (by_ : Redriver) (at_ : Z) (r : DeadLetterRow) : DeadLetterRow :=
  mkDeadLetter (dl_id r) (dl_queue r) (dl_eventId r) (dl_eventType r) (dl_aggregateId r) (dl_correlationId r)
    (dl_failureReason r) (dl_attempts r) (dl_body r) (dl_properties r) (dl_parkedAt r)
    (Some at_) (Some (by_actorId by_)) (Some (by_reason by_)) (Some (by_correlationId by_)).

(** The [UPDATE] that records the redrive. *)
Definition stamp (id : string) (by_ : Redriver) : M DeadLetterDb DeadLetter :=
  text_column "redriven_by" (Some (by_actorId by_)) ;;;
  text_column "redrive_reason" (Some (by_reason by_)) ;;;
  text_column "redrive_correlation_id" (Some (by_correlationId by_)) ;;;
  let! at_ := now in
  let! updated := update_dead_letter id (with_redrive by_ at_) in
  match updated with
  | Some r => ret (toView r)
  | None => throw (Failure "Cannot read properties of undefined")
  end.

(** The transaction locks the row, so the row read is the row with_redrive. [lost]: the stamp or the commit
    failed, with the connection. The answer is the outcome, the table and the message the broker
    confirmed, which no rollback takes back. *)
Definition redrive (broker : option RedriveBroker) (reply : PublishReply) (lost : option Exn) (id : string)
    (by_ : Redriver) (e : Env) (db : DeadLetterDb) : outcome DeadLetter * DeadLetterDb * option Sent :=
  match broker with
  | Some b =>
      if rb_connected b then
        match db !! id with
        | None => (Throw notFound, db, None)
        | Some row =>
            if is_some (dl_redrivenAt row) then (Throw (ApiException 409 "ALREADY_REDRIVEN"), db, None)
            else
              let m := redrive_message b row in
              match publishToQueue reply (st_exchange m) (st_queue m) (m_properties (st_message m)) with
              | Throw x => (Throw x, db, None)
              | Ok _ =>
                  match lost with
                  | Some x => (Throw x, db, Some m)
                  | None => (transaction (stamp (dl_id row) by_) e db, Some m)
                  end
              end
        end
      else (Throw (ApiException 503 "BROKER_UNAVAILABLE"), db, None)
  | None => (Throw (ApiException 503 "BROKER_UNAVAILABLE"), db, None)
  end.

(** ** Reading *)

Record DeadLetterQuery := mkQuery {
  dq_status : option DeadLetterStatus;
  dq_queue : option string;
  dq_q : option string;
  dq_page : nat;
  dq_pageSize : nat }.

(** An empty filter is no filter. *)
Definition filter_on (f : option string) (test : string -> bool) : bool :=
  match f with Some s => if nonempty s then test s else true | None => true end.
Definition is_text (o : option string) (s : string) : bool := bool_decide (o = Some s).

Definition matches (query : DeadLetterQuery) (r : DeadLetterRow) : bool :=
  match dq_status query with
  | Some WAITING => negb (is_some (dl_redrivenAt r))
  | Some REDRIVEN => is_some (dl_redrivenAt r)
  | None => true
  end
  && filter_on (dq_queue query) (String.eqb (dl_queue r))
  && filter_on (dq_q query) (fun q => is_text (dl_correlationId r) q || is_text (dl_aggregateId r) q || is_text (dl_eventId r) q).

(** [ORDER BY parked_at DESC, id]. *)
Definition parked_before (a b : DeadLetterRow) : bool :=
  (dl_parkedAt b <? dl_parkedAt a) || ((dl_parkedAt a =? dl_parkedAt b) && String.ltb (dl_id a) (dl_id b)).

Definition dead_letter_rows (db : DeadLetterDb) : list DeadLetterRow := (map_to_list db).*2.

(** The total and the page are two statements, each over the table as it then stands. *)
Definition list_ (query : DeadLetterQuery) (counted db : DeadLetterDb) : list DeadLetter * nat :=
  let total := length (List.filter (matches query) (dead_letter_rows counted)) in
  let rows := order_by parked_before (List.filter (matches query) (dead_letter_rows db)) in
  (toView <$> (offset_page (dq_page query) (dq_pageSize query) rows).1, total).

(** The gauge [foc_dead_letters_waiting]: 0 for a durable queue with none. *)
Definition waiting_gauge (durableQueues : list string) (db : DeadLetterDb) : list (string * nat) :=
  let waiting := List.filter (fun r => negb (is_some (dl_redrivenAt r))) (dead_letter_rows db) in
  let queues := remove_dups (durableQueues ++ (dl_queue <$> waiting)) in
  (fun q => (q, length (List.filter (fun r => String.eqb (dl_queue r) q) waiting))) <$> queues.

(** The body parsed when it is JSON, its text otherwise. *)
Inductive BodyView := Parsed (v : Json) | AsText (s : string).

Definition get `{JsLib} (id : string) (db : DeadLetterDb) : outcome (DeadLetter * BodyView * gmap string Json) :=
  match db !! id with
  | None => Throw notFound
  | Some r =>
      let raw := buffer_text (dl_body r) in
      Ok (toView r, match json_parse raw with Some v => Parsed v | None => AsText raw end, a_headers (dl_properties r))
  end.

(** ** The administrator's routes *)

(** A query parameter: text, or given more than once. *)
Inductive Param := PText (s : string) | PMany.

(** [Number(s)] when it is an integer a double holds exactly. *)
Class JsInteger := { js_integer : string -> option Z }.

Definition optional_param (p : string -> option string) (v : option Param) : option (option string) :=
  match v with
  | None => Some None
  | Some (PText s) => Some <$> p s
  | Some PMany => None
  end.
Definition bounded (max : nat) (s : string) : option string :=
  if (1 <=? js_length s)%nat && (js_length s <=? max)%nat then Some s else None.

Definition status_filter (v : option Param) : option (option DeadLetterStatus) :=
  match v with
  | None => Some None
  | Some (PText s) =>
      if String.eqb s "WAITING" then Some (Some WAITING)
      else if String.eqb s "REDRIVEN" then Some (Some REDRIVEN) else None
  | Some PMany => None
  end.

Section Routes.
Context `{JsInteger} `{Zod} `{Texts}.

Definition number_param (max : option Z) (default_ : nat) (v : option Param) : option nat :=
  match v with
  | None => Some default_
  | Some (PText s) =>
      match js_integer s with
      | Some z => if (1 <=? z) && optP max (fun m => z <=? m) then Some (Z.to_nat z) else None
      | None => None
      end
  | Some PMany => None
  end.

Definition VALIDATION_FAILED : Exn := ApiException 422 "VALIDATION_FAILED".
Definition QUERY_KEYS : list string := ["status"; "queue"; "q"; "page"; "pageSize"].

(** [deadLetterQuerySchema]: strict, [q] trimmed before it is measured. *)
Definition parseDeadLetterQuery (query : list (string * Param)) : outcome DeadLetterQuery :=
  if forallb (fun m => existsb (String.eqb m.1) QUERY_KEYS) query then
    match status_filter (assoc "status" query), optional_param (bounded 200) (assoc "queue" query),
          optional_param (fun s => bounded 200 (trim s)) (assoc "q" query),
          number_param None 1 (assoc "page" query), number_param (Some 100) 20 (assoc "pageSize" query) with
    | Some status, Some queue, Some q, Some page_, Some size => Ok (mkQuery status queue q page_ size)
    | _, _, _, _, _ => Throw VALIDATION_FAILED
    end
  else Throw VALIDATION_FAILED.

(** PostgreSQL reads the identifier whatever its letter case. *)
Definition parseDeadLetterId (id : string) : outcome string :=
  if zod_uuid id then Ok (to_lower id) else Throw notFound.

(** [redriveSchema], strict; a missing body is an empty one. *)
Definition parseRedriveReason (body : option Json) : outcome string :=
  match body with
  | Some (JObj [("reason", JStr s)]) =>
      match bounded 500 (trim s) with Some r => Ok r | None => Throw VALIDATION_FAILED end
  | _ => Throw VALIDATION_FAILED
  end.

Definition list_route (query : list (string * Param)) (counted db : DeadLetterDb) : outcome (list DeadLetter * nat) :=
  match parseDeadLetterQuery query with Ok q => Ok (list_ q counted db) | Throw x => Throw x end.

Definition get_route `{JsLib} (id : string) (db : DeadLetterDb) : outcome (DeadLetter * BodyView * gmap string Json) :=
  match parseDeadLetterId id with Ok i => get i db | Throw x => Throw x end.

(** [POST /admin/dead-letters/:id/redrive]. *)
Definition redrive_route (broker : option RedriveBroker) (reply : PublishReply) (lost : option Exn) (id : string)
    (body : option Json) (actorId correlationId : string) (e : Env) (db : DeadLetterDb)
  : outcome DeadLetter * DeadLetterDb * option Sent :=
  match parseDeadLetterId id, parseRedriveReason body with
  | Ok i, Ok reason => redrive broker reply lost i (mkRedriver actorId reason correlationId) e db
  | Throw x, _ | _, Throw x => (Throw x, db, None)
  end.
End Routes.
