(* ===== verification/DeadLetterTheorems.v ===== *)
(** * DeadLetterTheorems: dead letters are kept, sent as they came and redriven once

    [desk_step] is what happens around one service's dead letters: a consumer sets a message aside, the
    service parks it, with or without an outage, and an administrator redrives a row, whatever the
    broker answers and wherever the transaction is lost. *)
From S2P Require Export DeadLetters DeliveryTheorems.

Section Desk.
Context `{JsLib}.

(** What is on the dead-letter queues, the table, and what the broker confirmed of redrives. *)
Record Desk := mkDesk { dk_queued : list (string * AmqpMessage); dk_table : DeadLetterDb; dk_sent : list Sent }.

(** [settled]: the acknowledgement reached the broker before the channel closed. *)
Inductive desk_step : Desk -> Desk -> Prop :=
  | ds_failed d queue m : desk_step d (mkDesk ((queue, m) :: dk_queued d) (dk_table d) (dk_sent d))
  | ds_parked d l1 l2 queue m outage (settled : bool) e s t :
      dk_queued d = l1 ++ (queue, m) :: l2 ->
      park outage queue m e (dk_table d) = (s, t) ->
      desk_step d (mkDesk (match s with Acked => if settled then l1 ++ l2 else dk_queued d | HandedBack _ => dk_queued d end)
                     t (dk_sent d))
  | ds_redriven d broker reply lost id by_ e o t sent :
      redrive broker reply lost id by_ e (dk_table d) = (o, t, sent) ->
      desk_step d (mkDesk (dk_queued d) t (dk_sent d ++ option_list sent)).

Definition no_desk : Desk := mkDesk [] ∅ [].
Definition desk_reachable (d : Desk) : Prop := rtc desk_step no_desk d.

(** ** The operations *)

Lemma toDeadLetterRow_as_came id at_ queue m :
  let r := toDeadLetterRow id at_ queue m in
  dl_id r = id /\ dl_queue r = queue /\ dl_body r = m_content m /\ dl_properties r = m_properties m
  /\ dl_redrivenAt r = None.
Proof. unfold toDeadLetterRow. by destruct (brokerDeath _). Qed.

Lemma insert_ok r e n t u n' t' :
  insert_dead_letter r e (n, t) = Ok (u, (n', t')) -> t !! dl_id r = None /\ redrive_complete r = true /\ t' = <[dl_id r := r]> t.
Proof.
  unfold insert_dead_letter, text_column. unfold_checks. intros Hok. inv_tx.
  match goal with Hn : negb (is_some (?m !! _)) = true |- _ => destruct (m !! dl_id r) eqn:Hr; [done|] end. done.
Qed.

Lemma park_kept outage queue m e t s t' :
  park outage queue m e t = (s, t') ->
  (t' = t /\ exists x, s = HandedBack x)
  \/ s = Acked /\ exists id at_, let r := toDeadLetterRow id at_ queue m in
       t !! id = None /\ redrive_complete r = true /\ t' = <[id := r]> t.
Proof.
  unfold park. destruct outage as [x|]; [intros [= <- <-]; eauto|].
  destruct (transaction _ _ _) as [[[]|x] t1] eqn:Ht; intros [= <- <-].
  - right. split; [done|]. apply transaction_ok in Ht as [n Ht]. inv_tx.
    match goal with Hi : insert_dead_letter (toDeadLetterRow ?i ?a _ _) _ _ = _ |- _ => apply insert_ok in Hi; exists i, a;
      destruct (toDeadLetterRow_as_came i a queue m) as [Hid _]; by rewrite Hid in Hi end.
  - left. apply transaction_throw in Ht. eauto.
Qed.

Lemma stamp_ok id by_ e t v t' :
  transaction (stamp id by_) e t = (Ok v, t') ->
  exists r, t !! id = Some r /\ dl_redrivenAt r = None
    /\ t' = <[id := with_redrive by_ (env_now e) r]> t /\ v = toView (with_redrive by_ (env_now e) r).
Proof.
  intros [n Ht]%transaction_ok. unfold stamp, text_column, update_dead_letter in Ht. unfold_checks. inv_tx.
  destruct (t !! id) as [r|] eqn:Hr; inv_tx; cbv beta iota in Ht; inv_tx. exists r. unfold dead_letters_guard in *.
  destruct (dl_redrivenAt r); [done|]. auto.
Qed.

(** Every redrive either leaves the table alone or stamps a row that waited, and then its message is on
    its queue; whatever is sent is a waiting row's message. *)
Lemma redrive_cases broker reply lost id by_ e t o t' sent :
  (forall i r, t !! i = Some r -> dl_id r = i) ->
  redrive broker reply lost id by_ e t = (o, t', sent) ->
  (sent = None /\ t' = t /\ is_ok o = false)
  \/ exists b r, broker = Some b /\ t !! id = Some r /\ dl_redrivenAt r = None /\ sent = Some (redrive_message b r)
     /\ (t' = t /\ is_ok o = false
         \/ t' = <[id := with_redrive by_ (env_now e) r]> t /\ o = Ok (toView (with_redrive by_ (env_now e) r))).
Proof.
  intros Hk. unfold redrive. destruct broker as [b|]; [|intros [= <- <- <-]; auto].
  destruct (rb_connected b); [|intros [= <- <- <-]; auto].
  destruct (t !! id) as [r|] eqn:Hr; [|intros [= <- <- <-]; auto].
  destruct (dl_redrivenAt r) eqn:Hat; simpl; [intros [= <- <- <-]; auto|].
  destruct (publishToQueue _ _ _ _); [|intros [= <- <- <-]; auto].
  rewrite (Hk _ _ Hr). destruct lost as [x|].
  - intros [= <- <- <-]. right. eauto 10.
  - destruct (transaction _ _ _) as [o1 t1] eqn:Ht. intros [= <- <- <-]. right. exists b, r. repeat split; auto.
    destruct o1 as [v|x]; [|apply transaction_throw in Ht; auto].
    apply stamp_ok in Ht as (r1 & Hr1 & _ & -> & ->). simplify_eq. auto.
Qed.

(** ** What stays *)

(** A row is never lost, keeps what came and is stamped once. *)
Definition kept_by (t t' : DeadLetterDb) : Prop :=
  forall id r, t !! id = Some r ->
    exists r', t' !! id = Some r' /\ kept_columns r' = kept_columns r /\ (is_Some (dl_redrivenAt r) -> r' = r).

#[local] Instance later_preorder : PreOrder kept_by.
Proof.
  split; [by intros t id r Hr; eauto|]. intros t1 t2 t3 H12 H23 id r Hr.
  destruct (H12 id r Hr) as (r2 & Hr2 & Hk2 & Hs2). destruct (H23 id r2 Hr2) as (r3 & Hr3 & Hk3 & Hs3).
  exists r3. repeat split; [done|congruence|]. intros Hs. specialize (Hs2 Hs). subst r2. auto.
Qed.

Lemma later_park t id r : t !! id = None -> kept_by t (<[id := r]> t).
Proof. intros Hn i r' Hr. exists r'. rewrite lookup_insert_ne by congruence. auto. Qed.

Lemma later_stamp t id r by_ at_ : t !! id = Some r -> dl_redrivenAt r = None -> kept_by t (<[id := with_redrive by_ at_ r]> t).
Proof.
  intros Hr Hw i r' Hr'. destruct (decide (i = id)) as [->|Hne].
  - simplify_eq. eexists. rewrite lookup_insert_eq. repeat split. intros [? ?]. congruence.
  - exists r'. by rewrite lookup_insert_ne.
Qed.

(** What a redrive sends depends on what the trigger keeps. *)
Lemma redrive_message_kept b r r' : kept_columns r' = kept_columns r -> redrive_message b r' = redrive_message b r.
Proof. unfold kept_columns, redrive_message. intros [= -> -> _ _ _ _ _ _ -> -> _]. done. Qed.

Lemma later_sent t t' id r b :
  kept_by t t' -> t !! id = Some r -> exists r', t' !! id = Some r' /\ redrive_message b r' = redrive_message b r.
Proof. intros Hl Hr. destruct (Hl _ _ Hr) as (r' & ? & Hk & _). exists r'. auto using redrive_message_kept. Qed.

(** ** The invariant *)

Record desk_ok (d : Desk) : Prop := {
  ok_keyed : forall id r, dk_table d !! id = Some r -> dl_id r = id;
  ok_complete : forall id r, dk_table d !! id = Some r -> redrive_complete r = true;
  ok_sent : forall m, m ∈ dk_sent d -> exists id r b, dk_table d !! id = Some r /\ m = redrive_message b r;
  ok_stamped : forall id r, dk_table d !! id = Some r -> is_Some (dl_redrivenAt r) ->
    exists b, redrive_message b r ∈ dk_sent d }.

Lemma sent_later d t m :
  desk_ok d -> kept_by (dk_table d) t -> m ∈ dk_sent d ->
  exists id r b, t !! id = Some r /\ m = redrive_message b r.
Proof.
  intros Hd Hl Hm. destruct (ok_sent d Hd m Hm) as (id & r & b & Hr & ->).
  destruct (later_sent _ _ _ _ b Hl Hr) as (r' & Hr' & Heq). eauto.
Qed.

Lemma desk_ok_step d d' : desk_step d d' -> desk_ok d -> desk_ok d' /\ kept_by (dk_table d) (dk_table d').
Proof.
  intros Hs Hd. destruct Hs as [d q m|d l1 l2 q m outage settled e s t Hq Hp|d broker reply lost id by_ e o t sent Hr].
  - split; [|done]. by destruct Hd.
  - apply park_kept in Hp as [[-> _]|(_ & id & at_ & Hn & Hc & ->)]; [split; [|done]; by destruct Hd|].
    destruct (toDeadLetterRow_as_came id at_ q m) as (Hid & _ & _ & _ & Hw).
    assert (kept_by (dk_table d) (<[id := toDeadLetterRow id at_ q m]> (dk_table d))) as Hl by by apply later_park.
    split; [|done]. split; simpl.
    + intros i r [[<- <-]|[_ Hr]]%lookup_insert_Some; [done|by apply (ok_keyed d Hd)].
    + intros i r [[<- <-]|[_ Hr]]%lookup_insert_Some; [done|by apply (ok_complete d Hd i)].
    + intros x Hx. by eapply sent_later.
    + intros i r [[<- <-]|[_ Hr]]%lookup_insert_Some; [rewrite Hw; by intros [? ?]|by apply (ok_stamped d Hd i)].
  - apply redrive_cases in Hr as [(-> & -> & _)|(b & r & _ & Hr & Hw & -> & Ht)]; [| |apply (ok_keyed d Hd)].
    { split; [|done]. rewrite app_nil_r. by destruct Hd. }
    assert (kept_by (dk_table d) t) as Hl.
    { destruct Ht as [[-> _]|[-> _]]; [done|by apply later_stamp]. }
    split; [|done]. split; simpl.
    + destruct Ht as [[-> _]|[-> _]]; [apply (ok_keyed d Hd)|].
      intros i r1 [[<- <-]|[_ Hr1]]%lookup_insert_Some; [apply (ok_keyed d Hd _ _ Hr)|by apply (ok_keyed d Hd)].
    + destruct Ht as [[-> _]|[-> _]]; [apply (ok_complete d Hd)|].
      intros i r1 [[<- <-]|[_ Hr1]]%lookup_insert_Some; [done|by apply (ok_complete d Hd i)].
    + intros x [Hx|Hx%list_elem_of_singleton]%elem_of_app; [by eapply sent_later|]. subst x.
      destruct (later_sent _ _ _ _ b Hl Hr) as (r' & ? & ?). eauto.
    + destruct Ht as [[-> _]|[-> _]].
      * intros i r1 Hr1 Hs. destruct (ok_stamped d Hd i r1 Hr1 Hs) as [b1 ?]. exists b1. set_solver.
      * intros i r1 [[<- <-]|[_ Hr1]]%lookup_insert_Some Hs; [exists b; apply elem_of_app; right; by left|].
        destruct (ok_stamped d Hd i r1 Hr1 Hs) as [b1 ?]. exists b1. set_solver.
Qed.

Lemma desk_runs d d' : rtc desk_step d d' -> desk_ok d -> desk_ok d' /\ kept_by (dk_table d) (dk_table d').
Proof.
  induction 1 as [d|d d1 d' Hs _ IH]; intros Hd; [done|]. destruct (desk_ok_step d d1 Hs Hd) as [H1 Hl].
  destruct (IH H1) as [? ?]. split; [done|by etrans].
Qed.

Lemma desk_reachable_ok d : desk_reachable d -> desk_ok d.
Proof.
  intros Hd. refine (proj1 (desk_runs no_desk d Hd _)).
  split; simpl; try (intros ? ? Hr; by rewrite lookup_empty in Hr). intros m Hm. by apply elem_of_nil in Hm.
Qed.

(** A message PostgreSQL cannot hold is never parked: the insert fails each time, outage or not, and the
    message goes back to its queue. *)
Lemma unstorable_returns outage queue m e t :
  properties_ok (m_properties m) = false -> exists x, park outage queue m e t = (HandedBack x, t).
Proof.
  intros Hbad. destruct (park outage queue m e t) as [s t'] eqn:Hp. pose proof Hp as Hp'.
  apply park_kept in Hp as [[-> [x ->]]|(-> & _)]; [eauto|]. exfalso. revert Hp'. unfold park. destruct outage; [done|].
  destruct (transaction _ _ _) as [[[]|x] t1] eqn:Ht; [|done]. intros _. apply transaction_ok in Ht as [n Ht]. inv_tx.
  unfold insert_dead_letter, text_column in *. unfold_checks. inv_tx.
  match goal with Hc : properties_ok (dl_properties (toDeadLetterRow ?i ?a _ _)) = true |- _ =>
    destruct (toDeadLetterRow_as_came i a queue m) as (_ & _ & _ & Hpr & _); rewrite Hpr in Hc end. congruence.
Qed.

(** ** The theorems *)

(** A message on a dead-letter queue stays there until a row holds it: its queue, its bytes and its
    properties. *)
Definition held (t : DeadLetterDb) (queue : string) (m : AmqpMessage) : Prop :=
  exists id r, t !! id = Some r /\ dl_queue r = queue /\ dl_body r = m_content m /\ dl_properties r = m_properties m.

Lemma held_later t t' queue m : kept_by t t' -> held t queue m -> held t' queue m.
Proof.
  intros Hl (id & r & Hr & Hq & Hb & Hp). destruct (Hl _ _ Hr) as (r' & Hr' & Hk & _). exists id, r'.
  unfold kept_columns in Hk. injection Hk as _ Hq' _ _ _ _ _ _ Hb' Hp' _. repeat split; congruence.
Qed.

Lemma queued_step d d' queue m :
  desk_step d d' -> (queue, m) ∈ dk_queued d -> (queue, m) ∈ dk_queued d' \/ held (dk_table d') queue m.
Proof.
  intros Hs Hin. destruct Hs as [d q x|d l1 l2 q x outage settled e s t Hq Hp|d broker reply lost id by_ e o t sent Hr]; simpl;
    [left; set_solver| |auto].
  apply park_kept in Hp as [[-> [y ->]]|(-> & id & at_ & _ & _ & ->)]; [auto|].
  destruct settled; [|auto]. rewrite Hq in Hin. rewrite elem_of_app, elem_of_cons in *.
  destruct Hin as [?|[[= -> ->]|?]]; [auto| |auto]. right.
  destruct (toDeadLetterRow_as_came id at_ q x) as (Hid & Hqu & Hb & Hpr & _).
  exists id, (toDeadLetterRow id at_ q x). rewrite lookup_insert_eq. auto.
Qed.

(** C34: whatever the database, the broker and the administrators do, a message on a dead-letter queue
    is there in every later state or is held by a row, as it came; and a row stays for ever, changes
    only by being stamped, and never again once it is. *)
Theorem dead_letters_kept (d d' : Desk) (queue : string) (m : AmqpMessage) :
  desk_reachable d -> rtc desk_step d d' ->
  ((queue, m) ∈ dk_queued d -> (queue, m) ∈ dk_queued d' \/ held (dk_table d') queue m)
  /\ forall id r, dk_table d !! id = Some r ->
       exists r', dk_table d' !! id = Some r' /\ kept_columns r' = kept_columns r
         /\ (is_Some (dl_redrivenAt r) -> r' = r).
Proof.
  intros Hd Hrun. pose proof (desk_reachable_ok d Hd) as Hok. split; [|by apply desk_runs].
  clear Hd. induction Hrun as [d|d d1 d' Hs Hrun IH]; intros Hin; [auto|].
  destruct (desk_ok_step d d1 Hs Hok) as [H1 _].
  destruct (queued_step d d1 queue m Hs Hin) as [?|Hh]; [auto|]. right.
  eapply held_later; [|exact Hh]. by apply desk_runs.
Qed.

End Desk.

(** ** A redriven message at its consumer *)

Lemma js_slice_idem n s : js_slice n (js_slice n s) = js_slice n s.
Proof.
  revert n. induction s as [|a s IH]; intros n; [done|]. simpl. destruct (continues a) eqn:Hc; simpl.
  { by rewrite Hc, IH. }
  destruct (starts_four a) eqn:Hf.
  - destruct n as [|[|n]]; [done|done|]. simpl. by rewrite Hc, Hf, IH.
  - destruct n as [|n]; [done|]. simpl. by rewrite Hc, Hf, IH.
Qed.

Lemma js_slice_nonempty n s : nonempty s = true -> nonempty (js_slice (Datatypes.S n) s) = true.
Proof. destruct s as [|a s]; [done|]. simpl. intros _. destruct (continues a), (starts_four a), n; done. Qed.

Section Redriven.
Context `{Zod} `{JsLib} (broker : BrokerConfig) (options : SubscribeOptions) (decode : string -> option RawEnvelope).

(** A message as its consumer sees it; [decode] is [JSON.parse] and what the envelope's schema tells apart. *)
Definition read (m : AmqpMessage) : Message := mkMessage (decode (m_content m)) (props_of (m_properties m)).

(** What is sent to the dead-letter exchange is what the consumer's model says. *)
Lemma read_publishTo m reason attempt :
  read (publishTo (bc_account broker) (so_queue options) m reason attempt) = resend broker options (read m) reason attempt.
Proof.
  unfold read, resend, publishTo, resend_amqp, resendProperties, props_of. simpl. f_equal. unfold senderOf. simpl.
  destruct (text (a_userId (m_properties m))) as [u|]; [case_bool_decide|]; simpl; try case_match; f_equal;
    simplify_map_eq; done.
Qed.

(** The checks look at the bytes and at who sent them, nothing else. *)
Lemma accept_same msg msg' :
  msg_body msg = msg_body msg' -> senderOf (msg_props msg) (bc_account broker) = senderOf (msg_props msg') (bc_account broker) ->
  accept broker options msg = accept broker options msg'.
Proof. unfold accept. by intros -> ->. Qed.

Definition redriven (own : string) (row : DeadLetterRow) : Message :=
  read (st_message (redrive_message (mkRedriveBroker true (bc_namespace broker) (Some own)) row)).

Lemma read_redriven own row :
  redriven own row
  = mkMessage (decode (dl_body row))
      (mkProps (Some own)
         (match senderOf (props_of (dl_properties row)) (Some own) with Some s => Some s | None => h_sender (props_of (dl_properties row)) end)
         None None None).
Proof.
  unfold redriven, read, redrive_message, redriveProperties, resend_amqp, props_of. simpl. f_equal. f_equal; simplify_map_eq; try done.
  destruct (senderOf _ _); simplify_map_eq; done.
Qed.

(** What a consumer writes of a failure, and what the row keeps of it. *)
Lemma publishTo_failure own q m reason attempt :
  a_headers (m_properties (publishTo own q m reason attempt)) !! HEADER_FAILURE = Some (JStr (js_slice 500 reason)).
Proof. unfold publishTo, resend_amqp. simpl. case_match; simplify_map_eq; done. Qed.
Lemma publishTo_attempt own q m reason attempt :
  a_headers (m_properties (publishTo own q m reason attempt)) !! HEADER_ATTEMPT = Some (JNum attempt).
Proof. unfold publishTo, resend_amqp. simpl. case_match; simplify_map_eq; done. Qed.

Lemma row_reason id at_ q m s :
  a_headers (m_properties m) !! HEADER_FAILURE = Some (JStr s) -> nonempty s = true ->
  dl_failureReason (toDeadLetterRow id at_ q m) = Some (js_slice 500 s).
Proof. intros Hh Hs. unfold toDeadLetterRow. destruct (brokerDeath _). simpl. rewrite Hh. unfold short_text. simpl. by rewrite Hs. Qed.
Lemma row_attempts id at_ q m z :
  a_headers (m_properties m) !! HEADER_ATTEMPT = Some (JNum z) -> z <> 0 -> dl_attempts (toDeadLetterRow id at_ q m) = z.
Proof.
  intros Hh Hz. unfold toDeadLetterRow. destruct (brokerDeath _). simpl. rewrite Hh. simpl.
  by rewrite (proj2 (Z.eqb_neq z 0)).
Qed.

(** The row of a message its consumer set aside. *)
Definition set_aside_row (own : string) (m : AmqpMessage) (reason : string) (attempt : Z) (id : string) (at_ : Z) : DeadLetterRow :=
  toDeadLetterRow id at_ (so_queue options) (publishTo (Some own) (so_queue options) m reason attempt).


(** The header that keeps the first sender is believed on a message of one's own account, and a message
    without an account keeps whatever it claims there. Refused when it came, it is accepted from an
    operator, as if the sender it names had sent it. *)
Lemma forged_sender_accepted own m reason attempt id at_ expected claimed v :
  bc_account broker = Some own -> nonempty own = true -> bc_verifiesSenders broker = true ->
  so_expectedProducer options = Some expected -> claimed ∈ expected -> nonempty claimed = true ->
  a_userId (m_properties m) = None -> a_headers (m_properties m) !! HEADER_SENDER = Some (JStr claimed) ->
  accept (mkBroker (bc_namespace broker) (Some own) false (bc_transient broker) (bc_maxAttempts broker)) options (read m) = Ok v ->
  accept broker options (read m) = Throw (UntrustedSender None)
  /\ accept broker options (redriven own (set_aside_row own m reason attempt id at_)) = Ok v.
Proof.
  intros Hown Hne Hver Hexp Hin Hcl Hu Hh Hok.
  destruct (toDeadLetterRow_as_came id at_ (so_queue options) (publishTo (Some own) (so_queue options) m reason attempt))
    as (_ & _ & Hbody & Hprops & _).
  assert (text (Some claimed) = Some claimed) as Ht by (unfold text; simpl; by rewrite Hcl).
  assert (senderOf (msg_props (redriven own (set_aside_row own m reason attempt id at_))) (Some own) = Some claimed) as Hs.
  { rewrite read_redriven. unfold set_aside_row. rewrite Hprops.
    pose proof (read_publishTo m reason attempt) as Hpub. rewrite Hown in Hpub. apply (f_equal msg_props) in Hpub.
    cbn [msg_props read] in Hpub. cbn [msg_props]. rewrite Hpub.
    unfold resend, resendProperties, read, props_of, senderOf. simpl. rewrite Hu, Hh, Hown. simpl.
    rewrite Hne, !bool_decide_true by done. simpl. by rewrite Hcl, Ht. }
  assert (msg_body (redriven own (set_aside_row own m reason attempt id at_)) = msg_body (read m)) as Hb.
  { rewrite read_redriven. cbn [msg_body read]. unfold set_aside_row. by rewrite Hbody. }
  revert Hok. unfold accept. cbn [bc_verifiesSenders]. rewrite Hb, Hver, Hexp, Hown, Hs.
  destruct (parseEnvelope _ _ _) as [env|]; [|done]. destruct (negb _); [done|]. destruct (negb _); [done|]. intros [= ->].
  split; [by unfold read, senderOf, props_of; simpl; rewrite Hu|].
  rewrite (proj2 (existsb_true (String.eqb claimed) expected)); [done|]. exists claimed. by rewrite String.eqb_refl.
Qed.
End Redriven.

(** ** At concrete inputs *)

Section DeadLetterDemo.
#[local] Instance desk_zod : Zod := {| zod_uuid := fun _ => true; zod_datetime := fun _ => true |}.
#[local] Instance desk_js : JsLib :=
  {| buffer_text := fun s => s; json_parse := fun s => if String.eqb s "{}" then Some (JObj []) else None;
     text_number := fun _ => None; array_text := fun _ => "" |}.

(** An activation the User Service sent, and the same bytes from nobody, claiming to be from it. *)
Definition activation_from (account : option string) (headers : gmap string Json) : AmqpMessage :=
  mkAmqpMessage "activation" (mkAmqp account (Some "e1") (Some USER_ACTIVATED) (Some "corr") None headers ∅).
Definition activation : AmqpMessage := activation_from (Some "user-service") ∅.
Definition activation_bytes (s : string) : option RawEnvelope :=
  if String.eqb s "activation" then Some (Envelope.encode demo_event) else None.

Definition dead_activation : AmqpMessage := publishTo (Some "credit-service") "credit.activations" activation "down" 5.

Definition operator : Redriver := mkRedriver "ada" "the database is back" "corr-2".
Definition credit_desk : RedriveBroker := mkRedriveBroker true "credit" (Some "credit-service").
Definition at_desk (n : Z) : Env := demo_env (Ascii.ascii_of_nat 100) n.

(** Set aside, parked, and redriven, with the broker's confirm. *)
Definition desk1 : Desk := mkDesk [("credit.activations", dead_activation)] ∅ [].
Definition desk2 : Desk := mkDesk [] (park None "credit.activations" dead_activation (at_desk 1000) ∅).2 [].
Definition redrive2 := redrive (Some credit_desk) (Answered [] None) None "d0" operator (at_desk 2000) (dk_table desk2).
Definition desk3 : Desk := mkDesk [] redrive2.1.2 (option_list redrive2.2).

Lemma desk1_reached : desk_reachable desk1.
Proof. apply rtc_once. exact (ds_failed no_desk "credit.activations" dead_activation). Qed.

Lemma desk1_parked : desk_step desk1 desk2.
Proof.
  refine (ds_parked desk1 [] [] "credit.activations" dead_activation None true (at_desk 1000) Acked _ eq_refl _).
  vm_compute. reflexivity.
Qed.

Lemma desk2_redriven : desk_step desk2 desk3.
Proof.
  refine (ds_redriven desk2 (Some credit_desk) (Answered [] None) None "d0" operator (at_desk 2000) redrive2.1.1 _ redrive2.2 _).
  unfold redrive2. by destruct (redrive _ _ _ _ _ _ _) as [[]].
Qed.

Lemma desk3_reached : desk_reachable desk3.
Proof. eapply rtc_r; [eapply rtc_r; [exact desk1_reached|exact desk1_parked]|exact desk2_redriven]. Qed.

Example redriven_at : dl_redrivenAt <$> dk_table desk3 !! "d0" = Some (Some 2000).
Proof. vm_compute. reflexivity. Qed.

Lemma dead_letters_kept_witness : held (dk_table desk3) "credit.activations" dead_activation.
Proof.
  destruct (dead_letters_kept desk1 desk3 "credit.activations" dead_activation desk1_reached) as [[Hin|Hh] _].
  - eapply rtc_l; [exact desk1_parked|]. apply rtc_once. exact desk2_redriven.
  - by left.
  - by apply elem_of_nil in Hin.
  - exact Hh.
Defined.



(** The forged activation: refused from the exchange, accepted from an operator. *)
Example forged_activation :
  let m := activation_from None {[HEADER_SENDER := JStr "user-service"]} in
  accept demo_broker demo_options (read activation_bytes m) = Throw (UntrustedSender None)
  /\ accept demo_broker demo_options
       (redriven demo_broker activation_bytes "credit-service" (set_aside_row demo_options "credit-service" m "untrusted" 1 "d0" 1000))
     = Ok demo_event.
Proof. vm_compute. split; reflexivity. Qed.

(** A message whose identifier holds a NUL goes round for ever. *)
Example nul_returns t e :
  exists x, park None "credit.activations"
    (mkAmqpMessage "{}" (mkAmqp None (Some (String (Ascii.ascii_of_nat 0) "")) None None None ∅ ∅)) e t = (HandedBack x, t).
Proof. apply unstorable_returns. vm_compute. reflexivity. Qed.
End DeadLetterDemo.
