(* ===== verification/CreditSchema.v ===== *)
(** * CreditSchema: the Credit Service's tables (credit-service/src/db/schema.ts, credits/types.ts)

    One record per row, one field of [CreditDb] per table, and one operation per statement shape the
    repository uses. Each operation enforces what the schema declares: column width (32-bit
    [integer]), CHECK constraints, primary keys and unique indexes, foreign keys, and the
    triggers that keep history append-only (there is no operation that edits or deletes it) and a
    finalized operation immutable (drizzle/0001, 0003). *)
From S2P Require Export Inbox.

Definition INITIAL_CREDIT_ALLOCATION : Z := 10.
Definition MAX_RESERVATION_AMOUNT : Z := 5.

Inductive TransactionType := ISSUE | RESERVE | RELEASE | TRANSFER.
Inductive Account := PLATFORM_ISSUANCE | AVAILABLE | RESERVED.
Inductive Direction := DEBIT | CREDIT.
Inductive OperationType := OpReserve | OpRelease | OpTransfer.
Inductive OperationOutcome := Pending | Succeeded | Rejected.
Inductive TerminalRejection :=
  | ConflictingRequest | InvalidParticipants | ReservationNotActive | TerminalOperationConflict.

#[export] Instance TransactionType_eq_dec : EqDecision TransactionType.
Proof. solve_decision. Defined.
#[export] Instance Account_eq_dec : EqDecision Account.
Proof. solve_decision. Defined.
#[export] Instance Direction_eq_dec : EqDecision Direction.
Proof. solve_decision. Defined.
#[export] Instance OperationType_eq_dec : EqDecision OperationType.
Proof. solve_decision. Defined.
#[export] Instance OperationOutcome_eq_dec : EqDecision OperationOutcome.
Proof. solve_decision. Defined.
#[export] Instance TerminalRejection_eq_dec : EqDecision TerminalRejection.
Proof. solve_decision. Defined.

#[export] Instance OperationType_countable : Countable OperationType.
Proof.
  refine (inj_countable' (fun t => match t with OpReserve => 0%nat | OpRelease => 1%nat
                                           | OpTransfer => 2%nat end)
            (fun n => match n with 0%nat => OpReserve | 1%nat => OpRelease | _ => OpTransfer end) _).
  by intros [].
Defined.

(** [wallets], keyed by [user_id]. *)
Record Wallet := mkWallet {
  w_available : Z; w_reserved : Z; w_createdAt : Z; w_updatedAt : Z }.

(** [credit_transactions]. *)
Record Txn := mkTxn {
  t_id : string; t_orderId : option string; t_type : TransactionType;
  t_wallet : option string; t_amount : Z; t_occurredAt : Z }.

(** [ledger_entries]. *)
Record Entry := mkEntry {
  e_id : string; e_txn : string; e_no : Z; e_wallet : option string; e_account : Account;
  e_direction : Direction; e_amount : Z; e_resAvailable : option Z; e_resReserved : option Z;
  e_occurredAt : Z }.

(** [credit_operations], keyed by order and operation type. *)
Record Op := mkOp {
  o_requester : string; o_courier : option string; o_amount : Z; o_outcome : OperationOutcome;
  o_rejection : option ReservationRejection; o_availableAtDecision : option Z;
  o_txn : option string; o_result : option Payload; o_createdAt : Z }.

(** The [details] column of an alert: what was recorded or why, and what was received. *)
Inductive AlertFact :=
  | ReservationOutcome (outcome : OperationOutcome)
  | RecordedReservation (requesterId : string) (amount : Z)
  | RecordedTerminal (type : OperationType) (requesterId : string) (courierId : option string)
      (amount : Z)
  | ReasonGiven (reason : string).
Record Received := mkReceived {
  rc_orderId : option string; rc_requesterId : string; rc_courierId : option string;
  rc_amount : Z }.
Record Alert := mkAlert {
  al_id : string; al_orderId : string; al_operation : OperationType;
  al_code : TerminalRejection; al_fact : AlertFact; al_received : Received;
  al_correlationId : string; al_occurredAt : Z }.

Inductive ReadResource := WALLET | LEDGER.
Record AdminRead := mkAdminRead {
  ar_id : string; ar_admin : string; ar_target : string; ar_resource : ReadResource;
  ar_correlationId : string; ar_occurredAt : Z }.

#[export] Instance Wallet_eq_dec : EqDecision Wallet.
Proof. solve_decision. Defined.
#[export] Instance Op_eq_dec : EqDecision Op.
Proof. solve_decision. Defined.

Record CreditDb := mkCreditDb {
  wallets : gmap string Wallet;
  transactions : list Txn;
  ledger : list Entry;
  operations : gmap (string * OperationType) Op;
  alerts : list Alert;
  adminReads : list AdminRead;
  processed : InboxTable;
  creditOutbox : Outbox }.

Definition empty_credit : CreditDb := mkCreditDb ∅ [] [] ∅ [] [] ∅ empty_outbox.

Definition set_wallets v d := mkCreditDb v (transactions d) (ledger d) (operations d) (alerts d)
  (adminReads d) (processed d) (creditOutbox d).
Definition set_transactions v d := mkCreditDb (wallets d) v (ledger d) (operations d) (alerts d)
  (adminReads d) (processed d) (creditOutbox d).
Definition set_ledger v d := mkCreditDb (wallets d) (transactions d) v (operations d) (alerts d)
  (adminReads d) (processed d) (creditOutbox d).
Definition set_operations v d := mkCreditDb (wallets d) (transactions d) (ledger d) v (alerts d)
  (adminReads d) (processed d) (creditOutbox d).
Definition set_alerts v d := mkCreditDb (wallets d) (transactions d) (ledger d) (operations d) v
  (adminReads d) (processed d) (creditOutbox d).
Definition set_adminReads v d := mkCreditDb (wallets d) (transactions d) (ledger d) (operations d)
  (alerts d) v (processed d) (creditOutbox d).
Definition set_creditProcessed v d := mkCreditDb (wallets d) (transactions d) (ledger d)
  (operations d) (alerts d) (adminReads d) v (creditOutbox d).
Definition set_creditOutbox v d := mkCreditDb (wallets d) (transactions d) (ledger d)
  (operations d) (alerts d) (adminReads d) (processed d) v.

#[export] Instance CreditDb_HasOutbox : HasOutbox CreditDb :=
  {| outbox := creditOutbox; set_outbox := set_creditOutbox;
     outbox_set_outbox := fun _ _ => eq_refl |}.

#[export] Instance CreditDb_HasInbox : HasInbox CreditDb :=
  {| inbox := processed; set_inbox := set_creditProcessed;
     inbox_set_inbox := fun _ _ => eq_refl |}.

Notation CreditM := (M CreditDb).

Definition has_wallet (db : CreditDb) (u : string) : bool := is_some (wallets db !! u).
Definition has_txn (db : CreditDb) (t : string) : bool :=
  existsb (fun x => String.eqb (t_id x) t) (transactions db).
Definition same_order (a b : option string) : bool :=
  match a, b with Some x, Some y => String.eqb x y | _, _ => false end.
Definition is_terminal (t : TransactionType) : bool :=
  match t with RELEASE | TRANSFER => true | _ => false end.

(** ** wallets *)

Definition check_wallet (w : Wallet) : CreditM unit :=
  width_ok (w_available w) ;;;
  width_ok (w_reserved w) ;;;
  check_ (0 <=? w_available w) "wallets_available_nonnegative" ;;;
  check_ (0 <=? w_reserved w) "wallets_reserved_nonnegative".

(** [INSERT INTO wallets … ON CONFLICT DO NOTHING RETURNING …]: whether a row was inserted. *)
Definition insert_wallet (u : string) (w : Wallet) : CreditM bool :=
  check_wallet w ;;;
  let! db := gets id in
  if has_wallet db u then ret false
  else modify (set_wallets (<[u := w]> (wallets db))) ;;; ret true.

(** [UPDATE wallets SET … WHERE user_id = $1 AND cond RETURNING available, reserved]. *)
Definition update_wallet (u : string) (cond : Wallet -> bool) (f : Wallet -> Wallet)
  : CreditM (option Wallet) :=
  let! db := gets id in
  match wallets db !! u with
  | Some w =>
      if cond w then
        check_wallet (f w) ;;;
        modify (set_wallets (<[u := f w]> (wallets db))) ;;;
        ret (Some (f w))
      else ret None
  | None => ret None
  end.

(** ** credit_transactions *)

(** The identifier's column has type [uuid], which takes no empty text. *)
Definition insert_transaction (t : Txn) : CreditM unit :=
  width_ok (t_amount t) ;;;
  check_ (0 <? t_amount t) "credit_transactions_amount_positive" ;;;
  require (nonempty (t_id t)) (Sql (InvalidText "transaction_id")) ;;;
  let! db := gets id in
  unique_ (negb (has_txn db (t_id t))) "credit_transactions_pkey" ;;;
  unique_ (negb (existsb (fun x => same_order (t_orderId x) (t_orderId t)
                                   && bool_decide (t_type x = t_type t)) (transactions db)))
    "credit_transactions_order_type_key" ;;;
  unique_ (negb (existsb (fun x => same_order (t_wallet x) (t_wallet t)
                                   && bool_decide (t_type x = ISSUE)
                                   && bool_decide (t_type t = ISSUE)) (transactions db)))
    "credit_transactions_issue_wallet_key" ;;;
  unique_ (negb (existsb (fun x => same_order (t_orderId x) (t_orderId t)
                                   && is_terminal (t_type x) && is_terminal (t_type t))
                   (transactions db)))
    "credit_transactions_terminal_order_key" ;;;
  references_ (optP (t_wallet t) (has_wallet db)) "credit_transactions_wallet_user_id_fk" ;;;
  modify (set_transactions (transactions db ++ [t])).

(** ** ledger_entries *)

Definition insert_entry (x : Entry) : CreditM unit :=
  width_ok (e_amount x) ;;;
  check_ (0 <? e_amount x) "ledger_entries_amount_positive" ;;;
  check_ (Bool.eqb (is_some (e_resAvailable x)) (is_some (e_resReserved x)))
    "ledger_entries_result_pair" ;;;
  check_ (Bool.eqb (is_some (e_wallet x)) (is_some (e_resAvailable x)))
    "ledger_entries_wallet_result" ;;;
  check_ (optP (e_resAvailable x) (fun a => 0 <=? a) && optP (e_resReserved x) (fun r => 0 <=? r))
    "ledger_entries_result_nonnegative" ;;;
  let! db := gets id in
  unique_ (negb (existsb (fun y => String.eqb (e_id y) (e_id x)) (ledger db)))
    "ledger_entries_pkey" ;;;
  unique_ (negb (existsb (fun y => String.eqb (e_txn y) (e_txn x) && (e_no y =? e_no x))
                   (ledger db))) "ledger_entries_transaction_entry_key" ;;;
  references_ (has_txn db (e_txn x)) "ledger_entries_transaction_id_fk" ;;;
  references_ (optP (e_wallet x) (has_wallet db)) "ledger_entries_wallet_user_id_fk" ;;;
  modify (set_ledger (ledger db ++ [x])).

(** ** credit_operations *)

Definition outcome_shape (o : Op) : bool :=
  match o_outcome o with
  | Pending => negb (is_some (o_txn o)) && negb (is_some (o_rejection o))
  | Succeeded => is_some (o_txn o) && negb (is_some (o_rejection o))
  | Rejected => negb (is_some (o_txn o)) && is_some (o_rejection o)
  end.

Definition party_shape (ty : OperationType) (o : Op) : bool :=
  match ty with
  | OpTransfer => is_some (o_courier o)
  | _ => negb (is_some (o_courier o))
  end.

Definition check_op (ty : OperationType) (o : Op) : CreditM unit :=
  width_ok (o_amount o) ;;;
  (match o_availableAtDecision o with Some a => width_ok a | None => ret tt end) ;;;
  check_ (0 <? o_amount o) "credit_operations_amount_positive" ;;;
  check_ (optP (o_rejection o) (fun r => bool_decide (r <> CONFLICTING_REQUEST)))
    "credit_operations_rejection_reason_enum" ;;;
  check_ (outcome_shape o) "credit_operations_outcome_shape" ;;;
  check_ (party_shape ty o) "credit_operations_party_shape" ;;;
  let! db := gets id in
  references_ (optP (o_courier o) (has_wallet db)) "credit_operations_courier_id_fk" ;;;
  references_ (optP (o_txn o) (has_txn db)) "credit_operations_transaction_id_fk".

Definition terminal_type (ty : OperationType) : bool :=
  match ty with OpReserve => false | _ => true end.

(** A row the primary key or [credit_operations_terminal_order_key] makes this insert conflict with. *)
Definition op_conflict (db : CreditDb) (orderId : string) (ty : OperationType) : bool :=
  is_some (operations db !! (orderId, ty))
  || (terminal_type ty && (is_some (operations db !! (orderId, OpRelease))
                           || is_some (operations db !! (orderId, OpTransfer)))).

(** [INSERT … ON CONFLICT DO NOTHING RETURNING order_id]: whether a row was inserted. *)
Definition insert_op_ignore (orderId : string) (ty : OperationType) (o : Op) : CreditM bool :=
  check_op ty o ;;;
  let! db := gets id in
  if op_conflict db orderId ty then ret false
  else modify (set_operations (<[(orderId, ty) := o]> (operations db))) ;;; ret true.

Definition insert_op (orderId : string) (ty : OperationType) (o : Op) : CreditM unit :=
  check_op ty o ;;;
  let! db := gets id in
  unique_ (negb (op_conflict db orderId ty)) "credit_operations_pkey" ;;;
  modify (set_operations (<[(orderId, ty) := o]> (operations db))).

(** [UPDATE credit_operations SET … WHERE order_id = … AND operation_type = … AND cond], under the
    trigger that refuses to change a finalized row. *)
Definition update_op (orderId : string) (ty : OperationType) (cond : Op -> bool) (f : Op -> Op)
  : CreditM unit :=
  let! db := gets id in
  match operations db !! (orderId, ty) with
  | Some o =>
      if cond o then
        require (bool_decide (o_outcome o = Pending)) (Sql (ImmutableRow "credit_operations")) ;;;
        check_op ty (f o) ;;;
        modify (set_operations (<[(orderId, ty) := f o]> (operations db)))
      else ret tt
  | None => ret tt
  end.

(** ** credit_audit_alerts, admin_wallet_reads *)

Definition insert_alert (a : Alert) : CreditM unit :=
  let! db := gets id in
  unique_ (negb (existsb (fun x => String.eqb (al_id x) (al_id a)) (alerts db)))
    "credit_audit_alerts_pkey" ;;;
  modify (set_alerts (alerts db ++ [a])).

Definition insert_adminRead (a : AdminRead) : CreditM unit :=
  let! db := gets id in
  unique_ (negb (existsb (fun x => String.eqb (ar_id x) (ar_id a)) (adminReads db)))
    "admin_wallet_reads_pkey" ;;;
  modify (set_adminReads (adminReads db ++ [a])).
