(* ===== verification/CreditSchemaFacts.v ===== *)
(** * CreditSchemaFacts: when each table operation succeeds, and what it then does

    One equivalence per operation of CreditSchema, so that the proofs about the repository read a
    successful statement as its constraint plus its effect, and [inv_credit] does so for a whole
    computation. *)
From S2P Require Export CreditSchema.

Definition wallet_ok (w : Wallet) : bool :=
  in_int4 (w_available w) && in_int4 (w_reserved w)
  && (0 <=? w_available w) && (0 <=? w_reserved w).

Definition txn_ok (db : CreditDb) (t : Txn) : bool :=
  in_int4 (t_amount t) && (0 <? t_amount t) && nonempty (t_id t) && negb (has_txn db (t_id t))
  && negb (existsb (fun x => same_order (t_orderId x) (t_orderId t)
                             && bool_decide (t_type x = t_type t)) (transactions db))
  && negb (existsb (fun x => same_order (t_wallet x) (t_wallet t)
                             && bool_decide (t_type x = ISSUE)
                             && bool_decide (t_type t = ISSUE)) (transactions db))
  && negb (existsb (fun x => same_order (t_orderId x) (t_orderId t)
                             && is_terminal (t_type x) && is_terminal (t_type t))
             (transactions db))
  && optP (t_wallet t) (has_wallet db).

Definition entry_ok (db : CreditDb) (x : Entry) : bool :=
  in_int4 (e_amount x) && (0 <? e_amount x)
  && Bool.eqb (is_some (e_resAvailable x)) (is_some (e_resReserved x))
  && Bool.eqb (is_some (e_wallet x)) (is_some (e_resAvailable x))
  && (optP (e_resAvailable x) (fun a => 0 <=? a) && optP (e_resReserved x) (fun r => 0 <=? r))
  && negb (existsb (fun y => String.eqb (e_id y) (e_id x)) (ledger db))
  && negb (existsb (fun y => String.eqb (e_txn y) (e_txn x) && (e_no y =? e_no x)) (ledger db))
  && has_txn db (e_txn x) && optP (e_wallet x) (has_wallet db).

Definition op_ok (db : CreditDb) (ty : OperationType) (o : Op) : bool :=
  in_int4 (o_amount o) && optP (o_availableAtDecision o) in_int4 && (0 <? o_amount o)
  && optP (o_rejection o) (fun r => bool_decide (r <> CONFLICTING_REQUEST))
  && outcome_shape o && party_shape ty o
  && optP (o_courier o) (has_wallet db) && optP (o_txn o) (has_txn db).

Ltac run_checks :=
  repeat match goal with
    | H : _ && _ = true |- _ => apply andb_true_iff in H as [? H]
    end;
  repeat match goal with
    | H : ?b = true |- context [?b] => rewrite H; simpl
    end.


Lemma check_wallet_ok w e (s : nat * CreditDb) r :
  check_wallet w e s = Ok r <-> wallet_ok w = true /\ r = (tt, s).
Proof.
  unfold check_wallet, wallet_ok. unfold_checks. split.
  - intros H. inv_tx. subst. rewrite !andb_true_iff. auto.
  - intros [H ->]. rewrite !andb_true_iff in H. destruct H as [[[H1 H2] H3] H4].
    unfold bind. by rewrite H1, H2, H3, H4.
Qed.

Lemma insert_wallet_ok u w e n s r :
  insert_wallet u w e (n, s) = Ok r <->
  wallet_ok w = true /\
  r = (if has_wallet s u then (false, (n, s))
       else (true, (n, set_wallets (<[u := w]> (wallets s)) s))).
Proof.
  unfold insert_wallet. split.
  - intros H. inv_tx. apply check_wallet_ok in Hm as [? ?]. inv_tx.
    simpl in H. destruct (has_wallet s u); inv_tx; auto.
  - intros [H ->]. unfold bind at 1.
    rewrite (proj2 (check_wallet_ok w e (n, s) (tt, (n, s)))) by auto.
    unfold bind, gets, id. simpl. by destruct (has_wallet s u).
Qed.

Lemma update_wallet_ok u c f e n s r :
  update_wallet u c f e (n, s) = Ok r <->
  match wallets s !! u with
  | Some w => if c w then wallet_ok (f w) = true
                          /\ r = (Some (f w), (n, set_wallets (<[u := f w]> (wallets s)) s))
              else r = (None, (n, s))
  | None => r = (None, (n, s))
  end.
Proof.
  unfold update_wallet, bind at 1, gets, id. simpl.
  destruct (wallets s !! u) as [w|]; [|apply ret_ok].
  destruct (c w); [|apply ret_ok]. split.
  - intros H. inv_tx. apply check_wallet_ok in Hm as [? ?]. inv_tx. auto.
  - intros [H ->]. unfold bind at 1.
    by rewrite (proj2 (check_wallet_ok (f w) e (n, s) (tt, (n, s)))) by auto.
Qed.

Lemma update_wallet_inv u c f e n s o s' :
  update_wallet u c f e (n, s) = Ok (o, s') ->
  (o = None /\ s' = (n, s) /\ forall w, wallets s !! u = Some w -> c w = false)
  \/ exists w, wallets s !! u = Some w /\ c w = true /\ wallet_ok (f w) = true
       /\ o = Some (f w) /\ s' = (n, set_wallets (<[u := f w]> (wallets s)) s).
Proof.
  rewrite update_wallet_ok. destruct (wallets s !! u) as [w|] eqn:Hw; [|naive_solver].
  destruct (c w) eqn:Hc; naive_solver.
Qed.

Lemma insert_transaction_ok t e n s r :
  insert_transaction t e (n, s) = Ok r <->
  txn_ok s t = true /\ r = (tt, (n, set_transactions (transactions s ++ [t]) s)).
Proof.
  unfold insert_transaction, txn_ok. unfold_checks. unfold id. split.
  - intros H. inv_tx. rewrite !andb_true_iff. auto 10.
  - intros [H ->]. rewrite !andb_true_iff in H. destruct_and!.
    unfold bind, gets. simpl. run_checks. simpl. done.
Qed.

(** An identifier a transaction may be given. *)
Definition new_txn_id (db : CreditDb) (tid : string) : Prop :=
  has_txn db tid = false /\ nonempty tid = true.

Lemma txn_ok_fresh db t : txn_ok db t = true -> new_txn_id db (t_id t).
Proof. unfold txn_ok, new_txn_id. rewrite !andb_true_iff, negb_true_iff. naive_solver. Qed.

Lemma insert_entry_ok x e n s r :
  insert_entry x e (n, s) = Ok r <->
  entry_ok s x = true /\ r = (tt, (n, set_ledger (ledger s ++ [x]) s)).
Proof.
  unfold insert_entry, entry_ok. unfold_checks. unfold id. split.
  - intros H. inv_tx. rewrite !andb_true_iff in *. destruct_and?. auto 20.
  - intros [H ->]. rewrite !andb_true_iff in H. destruct_and!.
    assert (optP (e_resAvailable x) (λ a : Z, 0 <=? a) && optP (e_resReserved x) (λ r : Z, 0 <=? r)
            = true) by (rewrite andb_true_iff; auto).
    unfold bind, gets. simpl. run_checks. simpl. done.
Qed.

Lemma check_op_ok ty o e n s r :
  check_op ty o e (n, s) = Ok r <-> op_ok s ty o = true /\ r = (tt, (n, s)).
Proof.
  unfold check_op, op_ok. unfold_checks. unfold id. split.
  - intros H. inv_tx. rewrite !andb_true_iff.
    destruct (o_availableAtDecision o); inv_tx; auto 10.
  - intros [H ->]. rewrite !andb_true_iff in H. destruct_and!.
    destruct (o_availableAtDecision o); simpl in *; unfold bind, gets; simpl; run_checks; done.
Qed.

Lemma insert_op_ignore_ok k ty o e n s r :
  insert_op_ignore k ty o e (n, s) = Ok r <->
  op_ok s ty o = true /\
  r = (if op_conflict s k ty then (false, (n, s))
       else (true, (n, set_operations (<[(k, ty) := o]> (operations s)) s))).
Proof.
  unfold insert_op_ignore. split.
  - intros H. inv_tx. apply check_op_ok in Hm as [? ?]. inv_tx. simpl in H.
    unfold id in H. destruct (op_conflict s k ty); inv_tx; auto.
  - intros [H ->]. unfold bind at 1.
    rewrite (proj2 (check_op_ok ty o e n s (tt, (n, s)))) by auto.
    unfold bind, gets, id. simpl. by destruct (op_conflict s k ty).
Qed.

Lemma insert_op_ok k ty o e n s r :
  insert_op k ty o e (n, s) = Ok r <->
  op_ok s ty o = true /\ op_conflict s k ty = false /\
  r = (tt, (n, set_operations (<[(k, ty) := o]> (operations s)) s)).
Proof.
  unfold insert_op, unique_. split.
  - intros H. inv_tx. apply check_op_ok in Hm as [? ?]. inv_tx.
    rewrite negb_true_iff in *. auto.
  - intros (H & Hc & ->). unfold bind at 1.
    rewrite (proj2 (check_op_ok ty o e n s (tt, (n, s)))) by auto.
    unfold bind, gets, id. simpl. by rewrite Hc.
Qed.

Lemma update_op_ok k ty c f e n s r :
  update_op k ty c f e (n, s) = Ok r <->
  match operations s !! (k, ty) with
  | Some o => if c o then o_outcome o = Pending /\ op_ok s ty (f o) = true
                          /\ r = (tt, (n, set_operations (<[(k, ty) := f o]> (operations s)) s))
              else r = (tt, (n, s))
  | None => r = (tt, (n, s))
  end.
Proof.
  unfold update_op, bind at 1, gets, id. simpl.
  destruct (operations s !! (k, ty)) as [o|]; [|apply ret_ok].
  destruct (c o); [|apply ret_ok]. split.
  - intros H. inv_tx.
    match goal with Hc : check_op _ _ _ _ = Ok _ |- _ => apply check_op_ok in Hc as [? ?] end.
    inv_tx. rewrite bool_decide_eq_true in *. auto.
  - intros (Hp & H & ->). unfold bind at 1, require. rewrite bool_decide_true by done.
    unfold ret at 1, bind at 1.
    by rewrite (proj2 (check_op_ok ty (f o) e n s (tt, (n, s)))) by auto.
Qed.

Lemma insert_alert_ok a e n s r :
  insert_alert a e (n, s) = Ok r ->
  r = (tt, (n, set_alerts (alerts s ++ [a]) s)).
Proof. unfold insert_alert, unique_. intros H. inv_tx. done. Qed.

Lemma insert_alert_succeeds a e n s :
  (forall x, x ∈ alerts s -> al_id x <> al_id a) ->
  insert_alert a e (n, s) = Ok (tt, (n, set_alerts (alerts s ++ [a]) s)).
Proof.
  intros Hf. unfold insert_alert, unique_, bind, gets, id. simpl.
  assert (existsb (fun x => String.eqb (al_id x) (al_id a)) (alerts s) = false) as ->; [|done].
  apply existsb_false. intros x Hx. apply String.eqb_neq. auto.
Qed.

(** Reads the statements of a successful computation off [H : m e s = Ok r]. *)
Ltac inv_credit1 :=
  match goal with
  | H : insert_wallet _ _ _ _ = Ok _ |- _ => apply insert_wallet_ok in H as [? H]
  | H : insert_transaction _ _ _ = Ok _ |- _ => apply insert_transaction_ok in H as [? H]
  | H : insert_entry _ _ _ = Ok _ |- _ => apply insert_entry_ok in H as [? H]
  | H : insert_op_ignore _ _ _ _ _ = Ok _ |- _ => apply insert_op_ignore_ok in H as [? H]
  | H : insert_op _ _ _ _ _ = Ok _ |- _ => apply insert_op_ok in H as (? & ? & H)
  | H : insert_alert _ _ _ = Ok _ |- _ => apply insert_alert_ok in H
  end.
Ltac inv_credit := repeat first [inv_tx1 | inv_credit1]; simpl fst in *; simpl snd in *; subst.

(** ** Running statements forward *)

Lemma update_wallet_hit u c f e n s w :
  wallets s !! u = Some w -> c w = true -> wallet_ok (f w) = true ->
  update_wallet u c f e (n, s) = Ok (Some (f w), (n, set_wallets (<[u := f w]> (wallets s)) s)).
Proof. intros Hw Hc Hok. apply update_wallet_ok. by rewrite Hw, Hc. Qed.

Lemma update_op_hit k ty c f e n s o :
  operations s !! (k, ty) = Some o -> c o = true -> o_outcome o = Pending ->
  op_ok s ty (f o) = true ->
  update_op k ty c f e (n, s) = Ok (tt, (n, set_operations (<[(k, ty) := f o]> (operations s)) s)).
Proof. intros Ho Hc Hp Hok. apply update_op_ok. by rewrite Ho, Hc. Qed.

(** What [randomUUID()] promises from the [n]-th call on: well-formed identifiers no row has yet. *)
Record fresh_ids `{Zod} (e : Env) (n : nat) (db : CreditDb) : Prop := {
  fresh_uuid : forall k, (n <= k)%nat -> zod_uuid (env_uuid e k) = true;
  fresh_inj : forall k l, (n <= k)%nat -> (n <= l)%nat -> env_uuid e k = env_uuid e l -> k = l;
  fresh_txn : forall k, (n <= k)%nat -> has_txn db (env_uuid e k) = false;
  fresh_entry : forall k x, (n <= k)%nat -> x ∈ ledger db -> e_id x <> env_uuid e k;
  fresh_alert : forall k x, (n <= k)%nat -> x ∈ alerts db -> al_id x <> env_uuid e k;
  fresh_outbox : forall k x, (n <= k)%nat -> x ∈ ob_rows (creditOutbox db) -> ob_id x <> env_uuid e k;
  fresh_nonempty : forall k, (n <= k)%nat -> nonempty (env_uuid e k) = true }.
