(* ===== verification/CreditInvariants.v ===== *)
(** * CreditInvariants: the closed-economy checks (credit-service/src/credits/invariants.ts)

    The checks the service runs against its own tables, as functions from the tables to the
    violations they report, and [CreditInv], the invariant of the operations that implies them. *)
From S2P Require Export CreditSchemaFacts.

(** ** The checks *)

(** The violations, as the data their messages print. *)
Inductive Violation :=
  | WalletLedgerMismatch (userId : string) (available reserved ledgerAvailable ledgerReserved : Z)
  | NegativeWallet (userId : string)
  | UnbalancedTransaction (transactionId : string) (debit credit : Z)
  | CreditsNotConserved (held issued : Z)
  | ReservedTimes (orderId : string) (n : Z)
  | TerminalTimes (orderId : string) (n : Z)
  | TerminalWithoutReservation (orderId : string)
  | ReservedNotBacked (userId : string) (reserved openReservations : Z).

Definition signed (x : Entry) : Z :=
  match e_direction x with CREDIT => e_amount x | DEBIT => - e_amount x end.

(** [sum(CASE WHEN direction = 'CREDIT' …) FILTER (WHERE account = …) … GROUP BY wallet_user_id]. *)
Definition ledger_sum (acc : Account) (u : string) (l : list Entry) : Z :=
  sumZ (fun x => if bool_decide (e_wallet x = Some u) && bool_decide (e_account x = acc)
                 then signed x else 0) l.

Definition walletLedgerViolations (db : CreditDb) : list Violation :=
  flat_map (fun uw => let '(u, w) := uw in
      let la := ledger_sum AVAILABLE u (ledger db) in
      let lr := ledger_sum RESERVED u (ledger db) in
      if negb (w_available w =? la) || negb (w_reserved w =? lr)
      then [WalletLedgerMismatch u (w_available w) (w_reserved w) la lr] else [])
    (map_to_list (wallets db)).

(** An [integer] column never holds a fraction, so only the sign is left to check. *)
Definition balanceViolations (db : CreditDb) : list Violation :=
  flat_map (fun uw => let '(u, w) := uw in
      if (w_available w <? 0) || (w_reserved w <? 0) then [NegativeWallet u] else [])
    (map_to_list (wallets db)).

Definition side_sum (d : Direction) (tid : string) (l : list Entry) : Z :=
  sumZ (fun x => if String.eqb (e_txn x) tid && bool_decide (e_direction x = d)
                 then e_amount x else 0) l.

Definition unbalancedTransactionViolations (db : CreditDb) : list Violation :=
  flat_map (fun tid =>
      let debit := side_sum DEBIT tid (ledger db) in
      let credit := side_sum CREDIT tid (ledger db) in
      if negb (debit =? credit) then [UnbalancedTransaction tid debit credit] else [])
    (remove_dups (e_txn <$> ledger db)).

Definition held (db : CreditDb) : Z :=
  sum_map (fun w => w_available w + w_reserved w) (wallets db).
Definition issued_sum (l : list Txn) : Z :=
  sumZ (fun t => if bool_decide (t_type t = ISSUE) then t_amount t else 0) l.

Definition conservationViolations (db : CreditDb) : list Violation :=
  if held db =? issued_sum (transactions db) then []
  else [CreditsNotConserved (held db) (issued_sum (transactions db))].

Definition count_if {A} (p : A -> bool) (l : list A) : Z := sumZ (fun a => if p a then 1 else 0) l.
Definition of_order (o : string) (t : Txn) : bool := bool_decide (t_orderId t = Some o).
Definition is_reserve (t : Txn) : bool := bool_decide (t_type t = RESERVE).
Definition reserves_of (o : string) (l : list Txn) : Z :=
  count_if (fun t => of_order o t && is_reserve t) l.
Definition terminals_of (o : string) (l : list Txn) : Z :=
  count_if (fun t => of_order o t && is_terminal (t_type t)) l.

Definition orderOutcomeViolations (db : CreditDb) : list Violation :=
  flat_map (fun o =>
      let r := reserves_of o (transactions db) in
      let t := terminals_of o (transactions db) in
      (if 1 <? r then [ReservedTimes o r] else [])
      ++ (if 1 <? t then [TerminalTimes o t] else [])
      ++ (if (0 <? t) && (r =? 0) then [TerminalWithoutReservation o] else []))
    (remove_dups (omap t_orderId (transactions db))).

(** [EXISTS (… settled.order_id = t.order_id AND settled.transaction_type IN (…))]. *)
Definition settled (l : list Txn) (t : Txn) : bool :=
  existsb (fun s => same_order (t_orderId s) (t_orderId t) && is_terminal (t_type s)) l.

Definition open_reservations (u : string) (l : list Txn) : Z :=
  sumZ (fun t => if is_reserve t && bool_decide (t_wallet t = Some u) && negb (settled l t)
                 then t_amount t else 0) l.

Definition reservedBackingViolations (db : CreditDb) : list Violation :=
  flat_map (fun uw => let '(u, w) := uw in
      let open_ := open_reservations u (transactions db) in
      if negb (w_reserved w =? open_) then [ReservedNotBacked u (w_reserved w) open_] else [])
    (map_to_list (wallets db)).

Definition CREDIT_INVARIANTS : list (string * (CreditDb -> list Violation)) :=
  [("no wallet is negative or fractional", balanceViolations);
   ("every transaction's debits equal its credits", unbalancedTransactionViolations);
   ("all wallets together hold exactly what was issued", conservationViolations);
   ("each order is reserved once and settles once", orderOutcomeViolations);
   ("every wallet's reserved credits are its open reservations", reservedBackingViolations)].

Definition creditEconomyViolations (db : CreditDb) : list Violation :=
  flat_map (fun nc => snd nc db) CREDIT_INVARIANTS.

(** ** The invariant *)

Definition wallet_agrees (db : CreditDb) : Prop :=
  forall u w, wallets db !! u = Some w ->
    wallet_ok w = true /\ ledger_sum AVAILABLE u (ledger db) = w_available w
    /\ ledger_sum RESERVED u (ledger db) = w_reserved w.

Definition references_hold (db : CreditDb) : Prop :=
  (forall x u, x ∈ ledger db -> e_wallet x = Some u -> is_Some (wallets db !! u))
  /\ (forall x, x ∈ ledger db -> has_txn db (e_txn x) = true)
  /\ (forall t u, t ∈ transactions db -> t_wallet t = Some u -> is_Some (wallets db !! u)).

Definition balanced (db : CreditDb) : Prop :=
  forall tid, side_sum DEBIT tid (ledger db) = side_sum CREDIT tid (ledger db).

Definition conserved (db : CreditDb) : Prop := held db = issued_sum (transactions db).

Definition backed (db : CreditDb) : Prop :=
  forall u w, wallets db !! u = Some w -> open_reservations u (transactions db) = w_reserved w.

Definition txns_wf (db : CreditDb) : Prop :=
  NoDup (t_id <$> transactions db) /\ (forall t, t ∈ transactions db -> 0 < t_amount t /\ nonempty (t_id t) = true).

(** The result payload a settled operation replays. *)
Definition result_of (o : string) (ty : OperationType) (op : Op) (tid : string) : Prop :=
  match ty with
  | OpTransfer => exists c rb cb, o_courier op = Some c
      /\ o_result op = Some (TransferredP (mkMovement o (o_requester op) (o_amount op)) c tid rb cb)
  | _ => exists rb,
      o_result op = Some (ReleasedP (mkMovement o (o_requester op) (o_amount op)) tid rb)
  end.

Definition op_type (ty : OperationType) : TransactionType :=
  match ty with OpReserve => RESERVE | OpRelease => RELEASE | OpTransfer => TRANSFER end.

(** [t] is the transaction the operation [op] of order [o] made. *)
Definition txn_of (o : string) (ty : OperationType) (op : Op) (t : Txn) : Prop :=
  t_orderId t = Some o /\ t_type t = op_type ty /\ t_wallet t = Some (o_requester op)
  /\ t_amount t = o_amount op /\ o_txn op = Some (t_id t).

Definition op_linked (db : CreditDb) (o : string) (ty : OperationType) (op : Op) : Prop :=
  o_outcome op <> Pending /\ outcome_shape op = true
  /\ (o_outcome op = Succeeded -> exists t, t ∈ transactions db /\ txn_of o ty op t)
  /\ (ty <> OpReserve ->
      o_outcome op = Succeeded
      /\ (forall tid, o_txn op = Some tid -> result_of o ty op tid)
      /\ exists r, operations db !! (o, OpReserve) = Some r /\ o_outcome r = Succeeded
                   /\ o_requester r = o_requester op /\ o_amount r = o_amount op).

Definition ops_linked (db : CreditDb) : Prop :=
  (forall o ty op, operations db !! (o, ty) = Some op -> op_linked db o ty op)
  /\ (forall t, t ∈ transactions db -> t_type t <> ISSUE ->
      exists o ty op, operations db !! (o, ty) = Some op /\ txn_of o ty op t)
  /\ (forall o a b, operations db !! (o, OpRelease) = Some a ->
      operations db !! (o, OpTransfer) = Some b -> False).

Record CreditInv (db : CreditDb) : Prop := {
  inv_agrees : wallet_agrees db;
  inv_refs : references_hold db;
  inv_balanced : balanced db;
  inv_conserved : conserved db;
  inv_backed : backed db;
  inv_txns : txns_wf db;
  inv_ops : ops_linked db }.

(** ** The invariant implies the checks *)

Lemma flat_map_nil {A B} (f : A -> list B) (l : list A) :
  (forall a, a ∈ l -> f a = []) -> flat_map f l = [].
Proof.
  induction l as [|a l IH]; intros H; simpl; [done|].
  rewrite (H a) by set_solver. simpl. apply IH. intros b Hb. apply H. set_solver.
Qed.

Lemma count_if_app {A} (p : A -> bool) l1 l2 : count_if p (l1 ++ l2) = count_if p l1 + count_if p l2.
Proof. apply sumZ_app. Qed.

Lemma count_if_pos {A} (p : A -> bool) (l : list A) :
  0 < count_if p l -> exists a, a ∈ l /\ p a = true.
Proof.
  induction l as [|a l IH]; unfold count_if in *; simpl; [lia|]. intros Hpos.
  destruct (p a) eqn:Hp; [exists a; set_solver|].
  destruct IH as (b & Hb & Hpb); [lia|]. exists b. set_solver.
Qed.

Lemma count_if_elem {A} (p : A -> bool) (l : list A) a : a ∈ l -> p a = true -> 0 < count_if p l.
Proof.
  intros Ha Hp. unfold count_if.
  enough ((if p a then 1 else 0) <= sumZ (fun a => if p a then 1 else 0) l) by (rewrite Hp in *; lia).
  apply (sumZ_elem_le (fun a => if p a then 1 else 0)); [|done]. intros b _. case_match; lia.
Qed.

(** Rows that agree on a key that is never repeated are counted at most once. *)
Lemma count_if_le_1 {A} (key : A -> string) (p : A -> bool) (l : list A) :
  NoDup (key <$> l) ->
  (forall a b, a ∈ l -> b ∈ l -> p a = true -> p b = true -> key a = key b) ->
  count_if p l <= 1.
Proof.
  induction l as [|a l IH]; intros Hnd Hkey; unfold count_if in *; simpl; [lia|].
  rewrite fmap_cons, NoDup_cons in Hnd. destruct Hnd as [Hna Hnd].
  assert (sumZ (fun a => if p a then 1 else 0) l <= 1) as Hl.
  { apply IH; [done|]. intros; apply Hkey; set_solver. }
  destruct (p a) eqn:Hp; [|lia].
  enough (sumZ (fun a => if p a then 1 else 0) l = 0) by lia.
  apply sumZ_zero. intros b Hb. destruct (p b) eqn:Hpb; [|done]. exfalso. apply Hna.
  rewrite (Hkey a b) by set_solver. by apply list_elem_of_fmap_2.
Qed.

Section Checks.
Context (db : CreditDb) (I : CreditInv db).

Lemma txn_of_unique o ty op1 op2 t1 t2 :
  operations db !! (o, ty) = Some op1 -> operations db !! (o, ty) = Some op2 ->
  txn_of o ty op1 t1 -> txn_of o ty op2 t2 -> t_id t1 = t_id t2.
Proof. intros H1 H2 (_ & _ & _ & _ & Ht1) (_ & _ & _ & _ & Ht2). congruence. Qed.

Lemma reserves_of_le_1 o : reserves_of o (transactions db) <= 1.
Proof.
  destruct (inv_txns db I) as [Hnd _]. destruct (inv_ops db I) as (_ & Hlink & _).
  apply (count_if_le_1 t_id _ _ Hnd). unfold of_order, is_reserve.
  intros a b Ha Hb Hpa Hpb. rewrite !andb_true_iff, !bool_decide_eq_true in Hpa, Hpb.
  destruct (Hlink a Ha) as (oa & tya & opa & Hopa & Hta); [destruct Hpa; congruence|].
  destruct (Hlink b Hb) as (ob & tyb & opb & Hopb & Htb); [destruct Hpb; congruence|].
  destruct Hta as (Ha1 & Ha2 & _ & _ & Ha3), Htb as (Hb1 & Hb2 & _ & _ & Hb3).
  destruct Hpa as [Hoa Hra], Hpb as [Hob Hrb].
  assert (oa = o) as -> by congruence. assert (ob = o) as -> by congruence.
  destruct tya, tyb; simpl in *; congruence.
Qed.

Lemma terminals_of_le_1 o : terminals_of o (transactions db) <= 1.
Proof.
  destruct (inv_txns db I) as [Hnd _]. destruct (inv_ops db I) as (_ & Hlink & Hone).
  apply (count_if_le_1 t_id _ _ Hnd). unfold of_order.
  intros a b Ha Hb Hpa Hpb. rewrite !andb_true_iff, !bool_decide_eq_true in Hpa, Hpb.
  destruct Hpa as [Hoa Hta], Hpb as [Hob Htb].
  destruct (Hlink a Ha) as (oa & tya & opa & Hopa & HTa); [by destruct (t_type a)|].
  destruct (Hlink b Hb) as (ob & tyb & opb & Hopb & HTb); [by destruct (t_type b)|].
  destruct HTa as (Ha1 & Ha2 & _ & _ & Ha3), HTb as (Hb1 & Hb2 & _ & _ & Hb3).
  rewrite Ha2 in Hta. rewrite Hb2 in Htb.
  assert (oa = o) as -> by congruence. assert (ob = o) as -> by congruence.
  destruct tya, tyb; simpl in *; try discriminate; try congruence;
    exfalso; eauto.
Qed.

Lemma terminal_reserved o :
  0 < terminals_of o (transactions db) -> 0 < reserves_of o (transactions db).
Proof.
  destruct (inv_ops db I) as (Hops & Hlink & _). intros Hpos.
  apply count_if_pos in Hpos as (t & Ht & Hp). unfold of_order in Hp.
  rewrite andb_true_iff, bool_decide_eq_true in Hp. destruct Hp as [Ho Hty].
  destruct (Hlink t Ht) as (o' & ty & op & Hop & HT); [by destruct (t_type t)|].
  destruct HT as (Ho' & Hty' & _). assert (o' = o) as -> by congruence.
  destruct (Hops _ _ _ Hop) as (_ & _ & _ & Hterm).
  destruct Hterm as (_ & _ & r & Hr & Hsucc & _); [intros ->; by rewrite Hty' in Hty|].
  destruct (Hops _ _ _ Hr) as (_ & _ & Htx & _).
  destruct (Htx Hsucc) as (t' & Ht' & Hrt1 & Hrt2 & _).
  apply (count_if_elem _ _ t'); [done|]. unfold of_order, is_reserve.
  by rewrite andb_true_iff, !bool_decide_eq_true.
Qed.

Lemma CreditInv_checks :
  creditEconomyViolations db = [] /\ walletLedgerViolations db = [].
Proof.
  split; [|apply flat_map_nil; intros [u w] Hw%elem_of_map_to_list;
           destruct (inv_agrees db I u w Hw) as (_ & -> & ->); simpl; by rewrite !Z.eqb_refl].
  unfold creditEconomyViolations, CREDIT_INVARIANTS. simpl. rewrite app_nil_r.
  assert (balanceViolations db = []) as ->.
  { apply flat_map_nil. intros [u w] Hw%elem_of_map_to_list.
    destruct (inv_agrees db I u w Hw) as (Hok & _). unfold wallet_ok in Hok.
    rewrite !andb_true_iff, !Z.leb_le in Hok. destruct_and!.
    by rewrite (proj2 (Z.ltb_ge _ _)), (proj2 (Z.ltb_ge (w_reserved w) _)). }
  assert (unbalancedTransactionViolations db = []) as ->.
  { apply flat_map_nil. intros tid _. simpl. by rewrite (inv_balanced db I tid), Z.eqb_refl. }
  assert (conservationViolations db = []) as ->.
  { unfold conservationViolations. by rewrite (inv_conserved db I), Z.eqb_refl. }
  assert (orderOutcomeViolations db = []) as ->.
  { apply flat_map_nil. intros o _. simpl. pose proof (reserves_of_le_1 o). pose proof (terminals_of_le_1 o).
    pose proof (terminal_reserved o).
    rewrite (proj2 (Z.ltb_ge 1 _)), (proj2 (Z.ltb_ge 1 (terminals_of o _))) by lia.
    destruct (Z.ltb_spec 0 (terminals_of o (transactions db))); simpl; [|done].
    by rewrite (proj2 (Z.eqb_neq _ _)) by lia. }
  simpl. apply flat_map_nil. intros [u w] Hw%elem_of_map_to_list.
  simpl. by rewrite (inv_backed db I u w Hw), Z.eqb_refl.
Qed.
End Checks.

(** The invariant reads only these four tables. *)
Lemma CreditInv_frame d d' :
  wallets d' = wallets d -> transactions d' = transactions d -> ledger d' = ledger d ->
  operations d' = operations d -> CreditInv d -> CreditInv d'.
Proof.
  intros Hw Ht Hl Ho [].
  constructor;
    unfold wallet_agrees, references_hold, balanced, conserved, held, backed, txns_wf, ops_linked,
      op_linked, has_txn in *; rewrite ?Hw, ?Ht, ?Hl, ?Ho; auto.
Qed.

Lemma CreditInv_empty : CreditInv empty_credit.
Proof.
  constructor; unfold wallet_agrees, references_hold, balanced, conserved, held, backed, txns_wf,
    ops_linked; simpl; repeat split; intros; try (by set_solver); try (by constructor);
    try (by rewrite lookup_empty in *).
Qed.

(** ** CreditPosting: why a balanced posting keeps the economy closed

    Every economic effect of the Credit Service appends one transaction and its two ledger entries,
    moves the balances by exactly those entries and records the operation. [post] is that shape and
    [post_inv] the one preservation lemma the four effects share. *)

Definition post (db : CreditDb) (ws : gmap string Wallet) (t : Txn) (x1 x2 : Entry)
    (ops : gmap (string * OperationType) Op) : CreditDb :=
  mkCreditDb ws (transactions db ++ [t]) (ledger db ++ [x1; x2]) ops (alerts db) (adminReads db)
    (processed db) (creditOutbox db).

(** What the two entries change in one account of one wallet. *)
Definition delta (acc : Account) (u : string) (x1 x2 : Entry) : Z := ledger_sum acc u [x1; x2].

Lemma ledger_sum_app acc u l1 l2 :
  ledger_sum acc u (l1 ++ l2) = ledger_sum acc u l1 + ledger_sum acc u l2.
Proof. apply sumZ_app. Qed.

Lemma ledger_sum_unknown acc u l :
  (forall x, x ∈ l -> e_wallet x <> Some u) -> ledger_sum acc u l = 0.
Proof. intros H. apply sumZ_zero. intros x Hx. by rewrite bool_decide_false by auto. Qed.

Lemma side_sum_app d tid l1 l2 : side_sum d tid (l1 ++ l2) = side_sum d tid l1 + side_sum d tid l2.
Proof. apply sumZ_app. Qed.

Lemma has_txn_app db t tid ws x1 x2 ops :
  has_txn (post db ws t x1 x2 ops) tid = has_txn db tid || String.eqb (t_id t) tid.
Proof. unfold has_txn. simpl. rewrite existsb_app. simpl. by rewrite orb_false_r. Qed.

Lemma has_txn_fresh db tid : has_txn db tid = false -> tid ∉ (t_id <$> transactions db).
Proof.
  unfold has_txn. rewrite existsb_false. intros H Hin.
  apply list_elem_of_fmap in Hin as (t & -> & Ht). specialize (H t Ht).
  by rewrite String.eqb_refl in H.
Qed.

(** ** Open reservations, transaction by transaction *)

Lemma settled_app l s t :
  settled (l ++ [s]) t = settled l t || (same_order (t_orderId s) (t_orderId t)
                                         && is_terminal (t_type s)).
Proof. unfold settled. rewrite existsb_app. simpl. by rewrite orb_false_r. Qed.

Definition open_amount (l : list Txn) (u : string) (t : Txn) : Z :=
  if is_reserve t && bool_decide (t_wallet t = Some u) && negb (settled l t) then t_amount t else 0.

Lemma open_app_nonterminal u l t :
  is_terminal (t_type t) = false ->
  open_reservations u (l ++ [t]) = open_reservations u l + open_amount l u t.
Proof.
  intros Ht. unfold open_reservations. rewrite sumZ_app. simpl.
  assert (forall x, settled (l ++ [t]) x = settled l x) as Hs.
  { intros x. by rewrite settled_app, Ht, andb_false_r, orb_false_r. }
  rewrite Hs. unfold open_amount. f_equal; [|lia].
  apply sumZ_ext. intros a _. by rewrite Hs.
Qed.

Lemma sumZ_unique {A} (key : A -> string) (g : A -> Z) (l : list A) a :
  NoDup (key <$> l) -> a ∈ l ->
  sumZ (fun b => if String.eqb (key b) (key a) then g b else 0) l = g a.
Proof.
  induction l as [|b l IH]; intros Hnd Ha; [set_solver|].
  rewrite fmap_cons, NoDup_cons in Hnd. destruct Hnd as [Hb Hnd]. rewrite sumZ_cons.
  apply elem_of_cons in Ha as [->|Ha].
  - rewrite String.eqb_refl. rewrite sumZ_zero; [lia|]. intros c Hc.
    destruct (String.eqb_spec (key c) (key b)) as [Heq|]; [|done]. exfalso. apply Hb.
    rewrite <- Heq. by apply list_elem_of_fmap_2.
  - rewrite IH by done. destruct (String.eqb_spec (key b) (key a)) as [Heq|]; [|lia].
    exfalso. apply Hb. rewrite Heq. by apply list_elem_of_fmap_2.
Qed.

Lemma NoDup_key_inj {A} (key : A -> string) (l : list A) a b :
  NoDup (key <$> l) -> a ∈ l -> b ∈ l -> key a = key b -> a = b.
Proof.
  induction l as [|c l IH]; intros Hnd Ha Hb Heq; [set_solver|].
  rewrite fmap_cons, NoDup_cons in Hnd. destruct Hnd as [Hc Hnd].
  apply elem_of_cons in Ha as [->|Ha], Hb as [->|Hb]; auto; exfalso; apply Hc.
  - rewrite Heq. by apply list_elem_of_fmap_2.
  - rewrite <- Heq. by apply list_elem_of_fmap_2.
Qed.

(** Settling an order closes exactly its one open reservation. *)
Lemma open_app_terminal u l t o t0 r :
  NoDup (t_id <$> l) -> is_terminal (t_type t) = true -> t_orderId t = Some o ->
  t0 ∈ l -> is_reserve t0 = true -> t_orderId t0 = Some o -> t_wallet t0 = Some r ->
  settled l t0 = false ->
  (forall x, x ∈ l -> is_reserve x = true -> t_orderId x = Some o -> t_id x = t_id t0) ->
  open_reservations u (l ++ [t])
  = open_reservations u l - (if bool_decide (r = u) then t_amount t0 else 0).
Proof.
  intros Hnd Hty Ho Ht0 Hr0 Ho0 Hw0 Hs0 Huniq.
  set (g := fun x => if bool_decide (t_wallet x = Some u) then t_amount x else 0).
  assert (g t0 = if bool_decide (r = u) then t_amount t0 else 0) as <-.
  { unfold g. rewrite Hw0. repeat case_bool_decide; congruence. }
  rewrite <- (sumZ_unique t_id g l t0 Hnd Ht0).
  change (sumZ (open_amount (l ++ [t]) u) (l ++ [t])
          = sumZ (open_amount l u) l
            - sumZ (fun b => if String.eqb (t_id b) (t_id t0) then g b else 0) l).
  rewrite sumZ_app, sumZ_cons, sumZ_nil.
  assert (open_amount (l ++ [t]) u t = 0) as ->.
  { unfold open_amount, is_reserve. rewrite bool_decide_false; [done|]. by destruct (t_type t). }
  enough (sumZ (open_amount l u) l
          = sumZ (fun x => open_amount (l ++ [t]) u x
                           + (if String.eqb (t_id x) (t_id t0) then g x else 0)) l) as Hsum
    by (rewrite sumZ_add in Hsum; lia).
  apply sumZ_ext. intros x Hx. unfold open_amount, g. rewrite settled_app, Ho, Hty, andb_true_r.
  destruct (String.eqb_spec (t_id x) (t_id t0)) as [Heq|Hne].
  - assert (x = t0) as -> by eauto using NoDup_key_inj.
    rewrite Hr0, Hs0, Ho0. simpl. rewrite String.eqb_refl. simpl. rewrite andb_false_r, andb_true_r.
    lia.
  - destruct (is_reserve x) eqn:Hrx; [|simpl; lia].
    assert (same_order (Some o) (t_orderId x) = false) as ->.
    { destruct (t_orderId x) as [o'|] eqn:Hox; simpl; [|done]. apply String.eqb_neq.
      intros <-. by apply Hne, Huniq. }
    rewrite orb_false_r. simpl. lia.
Qed.

(** ** The shared preservation lemma *)

Section Post.
Context (db : CreditDb) (I : CreditInv db) (ws : gmap string Wallet) (t : Txn) (x1 x2 : Entry)
  (ops : gmap (string * OperationType) Op).

(** The shape of a posting: two entries of [t], equal and opposite. *)
Hypotheses (Hfresh : new_txn_id db (t_id t)) (Hpos : 0 < t_amount t)
  (Ht1 : e_txn x1 = t_id t) (Ht2 : e_txn x2 = t_id t)
  (Hd1 : e_direction x1 = DEBIT) (Hd2 : e_direction x2 = CREDIT)
  (Ha1 : e_amount x1 = t_amount t) (Ha2 : e_amount x2 = t_amount t).

(** The wallets move by the entries, and every referenced wallet exists. *)
Hypotheses (Hdom : forall u, is_Some (wallets db !! u) -> is_Some (ws !! u))
  (Hw1 : forall u, e_wallet x1 = Some u -> is_Some (ws !! u))
  (Hw2 : forall u, e_wallet x2 = Some u -> is_Some (ws !! u))
  (Hwt : forall u, t_wallet t = Some u -> is_Some (ws !! u))
  (Hmove : forall u w', ws !! u = Some w' -> wallet_ok w' = true
    /\ ledger_sum AVAILABLE u (ledger db) + delta AVAILABLE u x1 x2 = w_available w'
    /\ ledger_sum RESERVED u (ledger db) + delta RESERVED u x1 x2 = w_reserved w')
  (Hheld : sum_map (fun w => w_available w + w_reserved w) ws
           = held db + (if bool_decide (t_type t = ISSUE) then t_amount t else 0))
  (Hback : forall u w', ws !! u = Some w' ->
    open_reservations u (transactions db ++ [t]) = w_reserved w')
  (Hops : ops_linked (post db ws t x1 x2 ops)).

Lemma post_inv : CreditInv (post db ws t x1 x2 ops).
Proof.
  destruct (inv_refs db I) as (Hr1 & Hr2 & Hr3).
  constructor.
  - intros u w' Hu. simpl in *. destruct (Hmove u w' Hu) as (? & ? & ?).
    rewrite !ledger_sum_app. auto.
  - split; [|split].
    + simpl. intros x u Hx Hxu. apply elem_of_app in Hx as [Hx|Hx]; [by eapply Hdom, Hr1|].
      rewrite !elem_of_cons in Hx. destruct Hx as [->|[->|Hx]]; [auto..|set_solver].
    + intros x Hx. rewrite has_txn_app. simpl in Hx. apply elem_of_app in Hx as [Hx|Hx].
      * by rewrite (Hr2 x Hx).
      * apply orb_true_iff. right. apply String.eqb_eq.
        rewrite !elem_of_cons in Hx. destruct Hx as [->|[->|Hx]]; [congruence..|set_solver].
    + simpl. intros t' u Ht' Htu. apply elem_of_app in Ht' as [Ht'|Ht']; [by eapply Hdom, Hr3|].
      apply list_elem_of_singleton in Ht' as ->. auto.
  - intros tid. simpl. rewrite !side_sum_app, (inv_balanced db I tid). f_equal.
    unfold side_sum. rewrite !sumZ_cons, !sumZ_nil, Ht1, Ht2, Hd1, Hd2, Ha1, Ha2.
    destruct (String.eqb (t_id t) tid); simpl; lia.
  - unfold conserved. simpl. unfold held at 1. simpl. rewrite Hheld, (inv_conserved db I).
    unfold issued_sum. rewrite sumZ_app, sumZ_cons, sumZ_nil. lia.
  - intros u w' Hu. by apply Hback.
  - destruct (inv_txns db I) as [Hnd Hamt]. split; simpl.
    + rewrite fmap_app. apply NoDup_app. repeat split; [done| |apply NoDup_singleton].
      intros id Hid Hin. apply list_elem_of_singleton in Hin as ->.
      by apply (has_txn_fresh db (t_id t)); [apply Hfresh|].
    + intros t' Ht'. apply elem_of_app in Ht' as [Ht'|Ht']; [auto|].
      apply list_elem_of_singleton in Ht' as ->. split; [done|apply Hfresh].
  - exact Hops.
Qed.
End Post.
