(* ===== verification/CreditRepository.v ===== *)
(** * CreditRepository: the Credit Service's persistence boundary
    (credit-service/src/credits/credit.repository.ts)

    Each method is a computation in the caller's transaction, statement by statement. The optional
    [fault] callback of the rollback tests is the parameter [fault]: what it throws at a boundary. *)
From S2P Require Export CreditSchema.

Record CreditInput := mkCreditInput {
  ci_orderId : string; ci_requesterId : string; ci_amount : Z;
  ci_correlationId : string; ci_causationId : string }.

Inductive ReservationOutcomeT :=
  | ReservedR (transactionId : string)
  | RejectedR (reason : ReservationRejection) (available : option Z).

(** [TransferOutcome] and [ReleaseOutcome]: the result is the payload of the reply. *)
Inductive TerminalOutcome :=
  | Settled (result : Payload)
  | RejectedT (reason : TerminalRejection).

#[export] Instance ReservationOutcomeT_eq_dec : EqDecision ReservationOutcomeT.
Proof. solve_decision. Defined.
#[export] Instance TerminalOutcome_eq_dec : EqDecision TerminalOutcome.
Proof. solve_decision. Defined.

Inductive Boundary :=
  | ReservationLocked | OperationClaimed | WalletUpdated | RequesterWalletUpdated
  | CourierWalletUpdated | TransactionWritten | LedgerWritten | OperationFinalized | OutboxWritten.

Definition no_fault (_ : Boundary) : option Exn := None.
Definition at_boundary (fault : Boundary -> option Exn) (b : Boundary) : CreditM unit :=
  match fault b with Some x => throw x | None => ret tt end.

Definition WalletNotReadyError (userId : string) : Exn :=
  PredecessorMissing ("Wallet for " ++ userId ++ " does not exist yet.").
Definition ReservationNotReadyError (orderId : string) : Exn :=
  PredecessorMissing ("Reservation for " ++ orderId ++ " is not ready yet.").

Definition balance (w : Wallet) : ResultingBalance :=
  mkBalance (w_available w) (w_reserved w) (w_available w + w_reserved w).

Definition truthy (s : option string) : bool :=
  match s with Some t => nonempty t | None => false end.

Definition movement (i : CreditInput) : Movement :=
  mkMovement (ci_orderId i) (ci_requesterId i) (ci_amount i).

Section Repository.
Context `{Zod} (initialAllocation : Z).

Definition issueInitial (userId : string) : CreditM bool :=
  let! at_ := now in
  let! inserted := insert_wallet userId (mkWallet initialAllocation 0 at_ at_) in
  if negb inserted then ret false else
  let! transactionId := randomUUID in
  insert_transaction (mkTxn transactionId None ISSUE (Some userId) initialAllocation at_) ;;;
  let! e1 := randomUUID in
  let! e2 := randomUUID in
  insert_entry (mkEntry e1 transactionId 1 None PLATFORM_ISSUANCE DEBIT initialAllocation
                  None None at_) ;;;
  insert_entry (mkEntry e2 transactionId 2 (Some userId) AVAILABLE CREDIT initialAllocation
                  (Some initialAllocation) (Some 0) at_) ;;;
  ret true.

(** ** Reservations *)

Definition finishRejection (i : CreditInput) (reason : ReservationRejection)
    (available : option Z) : CreditM unit :=
  update_op (ci_orderId i) OpReserve (fun o => String.eqb (o_requester o) (ci_requesterId i))
    (fun o => mkOp (o_requester o) (o_courier o) (o_amount o) Rejected (Some reason) available
                (o_txn o) (o_result o) (o_createdAt o)).

Definition writeOutcome (i : CreditInput) (out : ReservationOutcomeT) : CreditM unit :=
  match out with
  | ReservedR _ =>
      insertOutboxEvent (mkNewEvent CREDITS_RESERVED (ci_orderId i) (MovementP (movement i))
                           (ci_correlationId i) (Some (ci_causationId i))) ;;; ret tt
  | RejectedR reason available =>
      insertOutboxEvent
        (mkNewEvent CREDIT_RESERVATION_REJECTED (ci_orderId i)
           (RejectedP (movement i) reason
              (if bool_decide (reason = INSUFFICIENT_CREDITS) then available else None))
           (ci_correlationId i) (Some (ci_causationId i))) ;;; ret tt
  end.

(** The [!] on [transaction_id] and [rejection_reason] rests on [outcome_shape]; a row without
    them would fail the reply's schema, so both cases throw. *)
Definition replayOrRejectConflict (i : CreditInput) : CreditM ReservationOutcomeT :=
  let! existing := gets (fun db => operations db !! (ci_orderId i, OpReserve)) in
  match existing with
  | None => throw (Failure "Reservation operation conflict disappeared.")
  | Some o =>
      if negb (String.eqb (o_requester o) (ci_requesterId i)) || negb (o_amount o =? ci_amount i)
      then
        let! alertId := randomUUID in
        let! at_ := now in
        insert_alert (mkAlert alertId (ci_orderId i) OpReserve ConflictingRequest
                        (RecordedReservation (o_requester o) (o_amount o))
                        (mkReceived None (ci_requesterId i) None (ci_amount i))
                        (ci_correlationId i) at_) ;;;
        writeOutcome i (RejectedR CONFLICTING_REQUEST None) ;;;
        ret (RejectedR CONFLICTING_REQUEST None)
      else
        match o_outcome o with
        | Pending => throw (Failure "Reservation outcome is still pending.")
        | Succeeded =>
            match o_txn o with
            | Some t => writeOutcome i (ReservedR t) ;;; ret (ReservedR t)
            | None => throw (SchemaInvalid CREDITS_RESERVED)
            end
        | Rejected =>
            match o_rejection o with
            | Some r =>
                let out := RejectedR r (o_availableAtDecision o) in
                writeOutcome i out ;;; ret out
            | None => throw (SchemaInvalid CREDIT_RESERVATION_REJECTED)
            end
        end
  end.

Definition reserve (fault : Boundary -> option Exn) (i : CreditInput)
  : CreditM ReservationOutcomeT :=
  let! at_ := now in
  let! claimed := insert_op_ignore (ci_orderId i) OpReserve
                    (mkOp (ci_requesterId i) None (ci_amount i) Pending None None None None at_) in
  if negb claimed then replayOrRejectConflict i else
  at_boundary fault OperationClaimed ;;;
  if MAX_RESERVATION_AMOUNT <? ci_amount i then
    finishRejection i AMOUNT_OUT_OF_RANGE None ;;;
    at_boundary fault OperationFinalized ;;;
    writeOutcome i (RejectedR AMOUNT_OUT_OF_RANGE None) ;;;
    at_boundary fault OutboxWritten ;;;
    ret (RejectedR AMOUNT_OUT_OF_RANGE None)
  else
  let! changed := update_wallet (ci_requesterId i) (fun w => ci_amount i <=? w_available w)
    (fun w => mkWallet (w_available w - ci_amount i) (w_reserved w + ci_amount i)
                (w_createdAt w) at_) in
  match changed with
  | None =>
      let! wallet := gets (fun db => wallets db !! ci_requesterId i) in
      match wallet with
      | None => throw (WalletNotReadyError (ci_requesterId i))
      | Some w =>
          let out := RejectedR INSUFFICIENT_CREDITS (Some (w_available w)) in
          finishRejection i INSUFFICIENT_CREDITS (Some (w_available w)) ;;;
          at_boundary fault OperationFinalized ;;;
          writeOutcome i out ;;;
          at_boundary fault OutboxWritten ;;;
          ret out
      end
  | Some w =>
      at_boundary fault WalletUpdated ;;;
      let! transactionId := randomUUID in
      insert_transaction (mkTxn transactionId (Some (ci_orderId i)) RESERVE
                            (Some (ci_requesterId i)) (ci_amount i) at_) ;;;
      at_boundary fault TransactionWritten ;;;
      let! e1 := randomUUID in
      let! e2 := randomUUID in
      insert_entry (mkEntry e1 transactionId 1 (Some (ci_requesterId i)) AVAILABLE DEBIT
                      (ci_amount i) (Some (w_available w)) (Some (w_reserved w)) at_) ;;;
      insert_entry (mkEntry e2 transactionId 2 (Some (ci_requesterId i)) RESERVED CREDIT
                      (ci_amount i) (Some (w_available w)) (Some (w_reserved w)) at_) ;;;
      at_boundary fault LedgerWritten ;;;
      update_op (ci_orderId i) OpReserve
        (fun o => String.eqb (o_requester o) (ci_requesterId i))
        (fun o => mkOp (o_requester o) (o_courier o) (o_amount o) Succeeded (o_rejection o)
                    (o_availableAtDecision o) (Some transactionId) (o_result o)
                    (o_createdAt o)) ;;;
      at_boundary fault OperationFinalized ;;;
      writeOutcome i (ReservedR transactionId) ;;;
      at_boundary fault OutboxWritten ;;;
      ret (ReservedR transactionId)
  end.

(** ** Terminal operations *)

Definition lockReservation (orderId : string) : CreditM Op :=
  let! reservation := gets (fun db => operations db !! (orderId, OpReserve)) in
  match reservation with
  | Some o => if bool_decide (o_outcome o = Pending)
              then throw (ReservationNotReadyError orderId) else ret o
  | None => throw (ReservationNotReadyError orderId)
  end.

Definition rejectTerminal (i : CreditInput) (courier : option string) (ty : OperationType)
    (reason : TerminalRejection) (fact : AlertFact) : CreditM TerminalOutcome :=
  let! alertId := randomUUID in
  let! at_ := now in
  insert_alert (mkAlert alertId (ci_orderId i) ty reason fact
                  (mkReceived (Some (ci_orderId i)) (ci_requesterId i) courier (ci_amount i))
                  (ci_correlationId i) at_) ;;;
  ret (RejectedT reason).

Definition validateReservation (reservation : Op) (i : CreditInput) (courier : option string)
    (ty : OperationType) : CreditM (option TerminalOutcome) :=
  if negb (bool_decide (o_outcome reservation = Succeeded)) || negb (truthy (o_txn reservation))
  then
    let! r := rejectTerminal i courier ty ReservationNotActive
                (ReservationOutcome (o_outcome reservation)) in
    ret (Some r)
  else if negb (String.eqb (o_requester reservation) (ci_requesterId i))
          || negb (o_amount reservation =? ci_amount i)
  then
    let! r := rejectTerminal i courier ty ConflictingRequest
                (RecordedReservation (o_requester reservation) (o_amount reservation)) in
    ret (Some r)
  else ret None.

Definition findTerminalOperation (orderId : string) : CreditM (option (OperationType * Op)) :=
  gets (fun db =>
    match operations db !! (orderId, OpRelease) with
    | Some o => Some (OpRelease, o)
    | None => (fun o => (OpTransfer, o)) <$> operations db !! (orderId, OpTransfer)
    end).

Definition writeTransferOutcome (i : CreditInput) (result : Payload) : CreditM unit :=
  insertOutboxEvent (mkNewEvent CREDITS_TRANSFERRED (ci_orderId i) result (ci_correlationId i)
                       (Some (ci_causationId i))) ;;; ret tt.

Definition writeReleaseOutcome (i : CreditInput) (result : Payload) : CreditM unit :=
  insertOutboxEvent (mkNewEvent CREDITS_RELEASED (ci_orderId i) result (ci_correlationId i)
                       (Some (ci_causationId i))) ;;; ret tt.

Definition recorded_terminal (ty : OperationType) (o : Op) : AlertFact :=
  RecordedTerminal ty (o_requester o) (o_courier o) (o_amount o).

Definition replayTransferOrReject (ty : OperationType) (prior : Op) (i : CreditInput)
    (courierId : string) : CreditM TerminalOutcome :=
  if negb (bool_decide (ty = OpTransfer))
     || negb (String.eqb (o_requester prior) (ci_requesterId i))
     || negb (bool_decide (o_courier prior = Some courierId))
     || negb (o_amount prior =? ci_amount i)
  then rejectTerminal i (Some courierId) OpTransfer
         (if bool_decide (ty = OpTransfer) then ConflictingRequest
          else TerminalOperationConflict) (recorded_terminal ty prior)
  else
    match o_outcome prior, o_result prior with
    | Succeeded, Some stored =>
        match creditsTransferredPayload stored with
        | Some result => writeTransferOutcome i result ;;; ret (Settled result)
        | None => throw (SchemaInvalid CREDITS_TRANSFERRED)
        end
    | _, _ => throw (Failure "Transfer outcome is not replayable.")
    end.

Definition replayReleaseOrReject (ty : OperationType) (prior : Op) (i : CreditInput)
  : CreditM TerminalOutcome :=
  if negb (bool_decide (ty = OpRelease))
     || negb (String.eqb (o_requester prior) (ci_requesterId i))
     || negb (o_amount prior =? ci_amount i)
  then rejectTerminal i None OpRelease
         (if bool_decide (ty = OpRelease) then ConflictingRequest
          else TerminalOperationConflict) (recorded_terminal ty prior)
  else
    match o_outcome prior, o_result prior with
    | Succeeded, Some stored =>
        match creditsReleasedPayload stored with
        | Some result => writeReleaseOutcome i result ;;; ret (Settled result)
        | None => throw (SchemaInvalid CREDITS_RELEASED)
        end
    | _, _ => throw (Failure "Release outcome is not replayable.")
    end.

Definition finishTerminal (orderId : string) (ty : OperationType) (transactionId : string)
    (result : Payload) : CreditM unit :=
  update_op orderId ty (fun _ => true)
    (fun o => mkOp (o_requester o) (o_courier o) (o_amount o) Succeeded (o_rejection o)
                (o_availableAtDecision o) (Some transactionId) (Some result) (o_createdAt o)).

Definition not_backed : Exn := Failure "Recorded reservation is not backed by reserved credit.".

Definition transfer (fault : Boundary -> option Exn) (i : CreditInput) (courierId : string)
  : CreditM TerminalOutcome :=
  let! reservation := lockReservation (ci_orderId i) in
  at_boundary fault ReservationLocked ;;;
  let! invalid := validateReservation reservation i (Some courierId) OpTransfer in
  match invalid with
  | Some out => ret out
  | None =>
  if String.eqb (ci_requesterId i) courierId
  then rejectTerminal i (Some courierId) OpTransfer InvalidParticipants
         (ReasonGiven "requester and courier must differ")
  else
  let! prior := findTerminalOperation (ci_orderId i) in
  match prior with
  | Some (ty, o) => replayTransferOrReject ty o i courierId
  | None =>
      let! db := gets id in
      require (has_wallet db courierId) (WalletNotReadyError courierId) ;;;
      require (has_wallet db (ci_requesterId i)) (WalletNotReadyError (ci_requesterId i)) ;;;
      let! at_ := now in
      insert_op (ci_orderId i) OpTransfer
        (mkOp (ci_requesterId i) (Some courierId) (ci_amount i) Pending None None None None
           at_) ;;;
      at_boundary fault OperationClaimed ;;;
      let! requester := update_wallet (ci_requesterId i)
        (fun w => ci_amount i <=? w_reserved w)
        (fun w => mkWallet (w_available w) (w_reserved w - ci_amount i) (w_createdAt w) at_) in
      match requester with
      | None => throw not_backed
      | Some rw =>
          at_boundary fault RequesterWalletUpdated ;;;
          let! courier := update_wallet courierId (fun _ => true)
            (fun w => mkWallet (w_available w + ci_amount i) (w_reserved w) (w_createdAt w)
                        at_) in
          match courier with
          | None => throw (WalletNotReadyError courierId)
          | Some cw =>
              at_boundary fault CourierWalletUpdated ;;;
              let! transactionId := randomUUID in
              insert_transaction (mkTxn transactionId (Some (ci_orderId i)) TRANSFER
                                    (Some (ci_requesterId i)) (ci_amount i) at_) ;;;
              at_boundary fault TransactionWritten ;;;
              let! e1 := randomUUID in
              let! e2 := randomUUID in
              insert_entry (mkEntry e1 transactionId 1 (Some (ci_requesterId i)) RESERVED DEBIT
                              (ci_amount i) (Some (w_available rw)) (Some (w_reserved rw))
                              at_) ;;;
              insert_entry (mkEntry e2 transactionId 2 (Some courierId) AVAILABLE CREDIT
                              (ci_amount i) (Some (w_available cw)) (Some (w_reserved cw))
                              at_) ;;;
              at_boundary fault LedgerWritten ;;;
              let result := TransferredP (movement i) courierId transactionId
                              (balance rw) (balance cw) in
              finishTerminal (ci_orderId i) OpTransfer transactionId result ;;;
              at_boundary fault OperationFinalized ;;;
              writeTransferOutcome i result ;;;
              at_boundary fault OutboxWritten ;;;
              ret (Settled result)
          end
      end
  end
  end.

Definition release (fault : Boundary -> option Exn) (i : CreditInput)
  : CreditM TerminalOutcome :=
  let! reservation := lockReservation (ci_orderId i) in
  at_boundary fault ReservationLocked ;;;
  let! invalid := validateReservation reservation i None OpRelease in
  match invalid with
  | Some out => ret out
  | None =>
  let! prior := findTerminalOperation (ci_orderId i) in
  match prior with
  | Some (ty, o) => replayReleaseOrReject ty o i
  | None =>
      let! at_ := now in
      insert_op (ci_orderId i) OpRelease
        (mkOp (ci_requesterId i) None (ci_amount i) Pending None None None None at_) ;;;
      at_boundary fault OperationClaimed ;;;
      let! requester := update_wallet (ci_requesterId i)
        (fun w => ci_amount i <=? w_reserved w)
        (fun w => mkWallet (w_available w + ci_amount i) (w_reserved w - ci_amount i)
                    (w_createdAt w) at_) in
      match requester with
      | None => throw not_backed
      | Some rw =>
          at_boundary fault RequesterWalletUpdated ;;;
          let! transactionId := randomUUID in
          insert_transaction (mkTxn transactionId (Some (ci_orderId i)) RELEASE
                                (Some (ci_requesterId i)) (ci_amount i) at_) ;;;
          at_boundary fault TransactionWritten ;;;
          let! e1 := randomUUID in
          let! e2 := randomUUID in
          insert_entry (mkEntry e1 transactionId 1 (Some (ci_requesterId i)) RESERVED DEBIT
                          (ci_amount i) (Some (w_available rw)) (Some (w_reserved rw)) at_) ;;;
          insert_entry (mkEntry e2 transactionId 2 (Some (ci_requesterId i)) AVAILABLE CREDIT
                          (ci_amount i) (Some (w_available rw)) (Some (w_reserved rw)) at_) ;;;
          at_boundary fault LedgerWritten ;;;
          let result := ReleasedP (movement i) transactionId (balance rw) in
          finishTerminal (ci_orderId i) OpRelease transactionId result ;;;
          at_boundary fault OperationFinalized ;;;
          writeReleaseOutcome i result ;;;
          at_boundary fault OutboxWritten ;;;
          ret (Settled result)
      end
  end
  end.
End Repository.
