(* ===== verification/CreditEffects.v ===== *)
(** * CreditEffects: what each successful repository method did, and that it keeps [CreditInv]

    For every method: the cases of a successful run, each with its resulting tables, and the
    preservation of the closed-economy invariant. A throw rolls back, so it needs no case. *)
From S2P Require Export CreditRepository CreditInvariants.

Lemma at_boundary_ok fault b e (s : nat * CreditDb) r :
  at_boundary fault b e s = Ok r <-> fault b = None /\ r = (tt, s).
Proof. unfold at_boundary. destruct (fault b); simpl; unfold ret, throw; naive_solver. Qed.

Ltac inv_effect1 :=
  match goal with
  | H : at_boundary _ _ _ _ = Ok _ |- _ => apply at_boundary_ok in H as [_ H]
  | H : (match _ with _ => _ end) _ _ = Ok _ |- _ => progress cbn beta iota delta [negb] in H
  | H : ?x = None |- _ => is_var x; subst x
  | H : ?x = Some _ |- _ => is_var x; subst x
  | H : match _ with _ => _ end |- _ => progress cbn beta iota in H
  | H : (let _ := _ in _) _ _ = Ok _ |- _ => progress cbv zeta beta in H
  | H : gets _ _ _ = Ok _ |- _ => apply gets_ok in H; cbv beta in H
  end.
Ltac inv_effect := repeat first [inv_effect1 | inv_tx1 | inv_credit1]; simpl fst in *;
  simpl snd in *; subst.

(** The update that finalizes the operation just claimed. *)
Ltac inv_finalize :=
  match goal with
  | H : update_op _ _ _ _ _ _ = Ok _ |- _ =>
      apply update_op_ok in H; simpl in H; rewrite lookup_insert_eq in H; simpl in H;
      rewrite ?String.eqb_refl in H; destruct H as (_ & ? & H)
  end.

(** The tables the economy is made of, unchanged. *)
Definition same_economy (d d' : CreditDb) : Prop :=
  wallets d' = wallets d /\ transactions d' = transactions d /\ ledger d' = ledger d
  /\ operations d' = operations d /\ adminReads d' = adminReads d /\ processed d' = processed d.

Lemma same_economy_inv d d' : same_economy d d' -> CreditInv d -> CreditInv d'.
Proof. intros (? & ? & ? & ? & _). by apply CreditInv_frame. Qed.

Lemma same_economy_refl d : same_economy d d.
Proof. done. Qed.
#[export] Hint Resolve same_economy_refl same_economy_inv : foc.

(** Closes [same_economy d d'] from a reply written over a state that differs from [d] by rows
    written twice. *)
Ltac close_economy :=
  match goal with
  | Hw : same_economy _ ?d |- same_economy _ ?d =>
      unfold same_economy in *; simpl in *; rewrite ?insert_insert_eq in Hw;
      rewrite <- ?app_assoc in Hw; simpl in Hw; exact Hw
  end.

(** A wallet updated: the row [w] that was there. *)
Ltac inv_wallet w Hw :=
  match goal with Hu : update_wallet _ _ _ _ _ = Ok _ |- _ =>
    apply update_wallet_inv in Hu as [(-> & -> & _)|(w & Hw & ? & ? & -> & ->)] end.

Section Effects.
Context `{Zod}.

(** ** Replies and alerts leave the economy as it is *)

Lemma insertOutboxEvent_same ev e n db id n' db' :
  insertOutboxEvent ev e (n, db) = Ok (id, (n', db')) -> same_economy db db'.
Proof. intros Hok. apply insertOutboxEvent_ok in Hok as (p & f & _ & _ & _ & _ & _ & ->). done. Qed.

Lemma writeOutcome_same i out e n db r n' db' :
  writeOutcome i out e (n, db) = Ok (r, (n', db')) -> same_economy db db'.
Proof.
  unfold writeOutcome. intros Hok.
  destruct out; inv_effect; eauto using insertOutboxEvent_same.
Qed.

Lemma writeTransferOutcome_same i p e n db r n' db' :
  writeTransferOutcome i p e (n, db) = Ok (r, (n', db')) -> same_economy db db'.
Proof. unfold writeTransferOutcome. intros Hok. inv_effect. eauto using insertOutboxEvent_same. Qed.

Lemma writeReleaseOutcome_same i p e n db r n' db' :
  writeReleaseOutcome i p e (n, db) = Ok (r, (n', db')) -> same_economy db db'.
Proof. unfold writeReleaseOutcome. intros Hok. inv_effect. eauto using insertOutboxEvent_same. Qed.

(** The reply to a reservation request, as the event it is written as. *)
Definition reply_event (i : CreditInput) (out : ReservationOutcomeT) : NewOutboxEvent :=
  match out with
  | ReservedR _ => mkNewEvent CREDITS_RESERVED (ci_orderId i) (MovementP (movement i))
                     (ci_correlationId i) (Some (ci_causationId i))
  | RejectedR reason available =>
      mkNewEvent CREDIT_RESERVATION_REJECTED (ci_orderId i)
        (RejectedP (movement i) reason
           (if bool_decide (reason = INSUFFICIENT_CREDITS) then available else None))
        (ci_correlationId i) (Some (ci_causationId i))
  end.

Definition reply_valid (i : CreditInput) (out : ReservationOutcomeT) : Prop :=
  exists f p, assoc (ne_eventType (reply_event i out)) PAYLOAD_SCHEMAS = Some f
              /\ f (ne_payload (reply_event i out)) = Some p.

Lemma reply_written i out e n db r s' :
  insertOutboxEvent (reply_event i out) e (n, db) = Ok (r, s') -> reply_valid i out.
Proof.
  destruct s' as [n' db']. intros Hi. apply insertOutboxEvent_ok in Hi as (p & f & Hf & Hp & _).
  by exists f, p.
Qed.

Lemma writeOutcome_valid i out e n db r n' db' :
  writeOutcome i out e (n, db) = Ok (r, (n', db')) -> reply_valid i out.
Proof.
  unfold writeOutcome. intros Hok.
  destruct out; inv_effect; by eapply reply_written.
Qed.

(** The last write of a method is its reply. *)
Ltac same_after_reply :=
  match goal with
  | Hr : writeOutcome _ _ _ _ = Ok _ |- _ => apply writeOutcome_same in Hr
  | Hr : writeTransferOutcome _ _ _ _ = Ok _ |- _ => apply writeTransferOutcome_same in Hr
  | Hr : writeReleaseOutcome _ _ _ _ = Ok _ |- _ => apply writeReleaseOutcome_same in Hr
  | Hr : insertOutboxEvent _ _ _ = Ok _ |- _ => apply insertOutboxEvent_same in Hr
  end.

Lemma rejectTerminal_ok i c ty reason fact e n db r n' db' :
  rejectTerminal i c ty reason fact e (n, db) = Ok (r, (n', db')) ->
  r = RejectedT reason /\ same_economy db db' /\ creditOutbox db' = creditOutbox db
  /\ exists al, alerts db' = alerts db ++ [al] /\ al_orderId al = ci_orderId i
                /\ al_operation al = ty /\ al_code al = reason.
Proof. unfold rejectTerminal. intros Hok. inv_effect. repeat split; eauto. Qed.

Lemma replayOrRejectConflict_same i e n db r n' db' :
  replayOrRejectConflict i e (n, db) = Ok (r, (n', db')) -> same_economy db db'.
Proof.
  unfold replayOrRejectConflict. intros Hok. inv_effect.
  destruct (operations db !! _) as [o|]; inv_effect.
  destruct (_ || _); [|destruct (o_outcome o); [|destruct (o_txn o)|destruct (o_rejection o)]];
    inv_effect; repeat match goal with s : nat * CreditDb |- _ => destruct s end;
    match goal with Hw : writeOutcome _ _ _ _ = Ok _ |- _ => by apply writeOutcome_same in Hw end.
Qed.

Lemma op_ok_amount db ty o : op_ok db ty o = true -> 0 < o_amount o.
Proof. unfold op_ok. rewrite !andb_true_iff, Z.ltb_lt. naive_solver. Qed.

(** The claimed operation passed its positive-amount check. *)
Ltac positive_amount :=
  match goal with
  | Ho : op_ok _ _ (mkOp _ _ (ci_amount ?i) _ _ _ _ _ _) = true |- 0 < ci_amount ?i =>
      exact (op_ok_amount _ _ _ Ho)
  end.

Lemma op_ok_int4 db ty o : op_ok db ty o = true -> in_int4 (o_amount o) = true.
Proof. unfold op_ok. rewrite !andb_true_iff. naive_solver. Qed.

Ltac int4_amount :=
  match goal with
  | Ho : op_ok _ _ (mkOp _ _ (ci_amount ?i) _ _ _ _ _ _) = true |- in_int4 (ci_amount ?i) = true =>
      exact (op_ok_int4 _ _ _ Ho)
  end.

Ltac reply_sent :=
  match goal with
  | Hr : writeOutcome _ _ _ _ = Ok _ |- _ => exact (writeOutcome_valid _ _ _ _ _ _ _ _ Hr)
  | Hr : insertOutboxEvent _ _ _ = Ok _ |- reply_valid ?i ?out =>
      exact (reply_written i out _ _ _ _ _ Hr)
  end.

(** What a replay answers, from the recorded operation. *)
Definition replay_answer (o : Op) (i : CreditInput) : option ReservationOutcomeT :=
  if negb (String.eqb (o_requester o) (ci_requesterId i)) || negb (o_amount o =? ci_amount i)
  then Some (RejectedR CONFLICTING_REQUEST None)
  else match o_outcome o with
       | Pending => None
       | Succeeded => ReservedR <$> o_txn o
       | Rejected => (fun r => RejectedR r (o_availableAtDecision o)) <$> o_rejection o
       end.

Lemma replay_answered i e n db out n' db' :
  replayOrRejectConflict i e (n, db) = Ok (out, (n', db')) ->
  reply_valid i out
  /\ exists o, operations db !! (ci_orderId i, OpReserve) = Some o /\ replay_answer o i = Some out.
Proof.
  unfold replayOrRejectConflict, replay_answer. intros Hok. inv_effect.
  destruct (operations db !! _) as [o|] eqn:Ho; inv_effect. 
  destruct (_ || _) eqn:Hm;
    [|destruct (o_outcome o) eqn:Hout;
      [|destruct (o_txn o) eqn:Htx|destruct (o_rejection o) eqn:Hrej]];
    inv_effect; repeat match goal with s : nat * CreditDb |- _ => destruct s end;
    (split; [reply_sent|]); exists o; rewrite ?Hm, ?Hout, ?Htx, ?Hrej; done.
Qed.

(** ** reserve *)

Definition pending_reserve (i : CreditInput) (at_ : Z) : Op :=
  mkOp (ci_requesterId i) None (ci_amount i) Pending None None None None at_.
Definition rejected_reserve (i : CreditInput) (r : ReservationRejection) (av : option Z) (at_ : Z)
  : Op := mkOp (ci_requesterId i) None (ci_amount i) Rejected (Some r) av None None at_.
Definition reserved_op (i : CreditInput) (tid : string) (at_ : Z) : Op :=
  mkOp (ci_requesterId i) None (ci_amount i) Succeeded None None (Some tid) None at_.

Definition reserve_wallet (i : CreditInput) (w : Wallet) (at_ : Z) : Wallet :=
  mkWallet (w_available w - ci_amount i) (w_reserved w + ci_amount i) (w_createdAt w) at_.

Definition reserve_post (db : CreditDb) (i : CreditInput) (w : Wallet) (tid e1 e2 : string)
    (at_ : Z) : CreditDb :=
  let w' := reserve_wallet i w at_ in
  post db (<[ci_requesterId i := w']> (wallets db))
    (mkTxn tid (Some (ci_orderId i)) RESERVE (Some (ci_requesterId i)) (ci_amount i) at_)
    (mkEntry e1 tid 1 (Some (ci_requesterId i)) AVAILABLE DEBIT (ci_amount i)
       (Some (w_available w')) (Some (w_reserved w')) at_)
    (mkEntry e2 tid 2 (Some (ci_requesterId i)) RESERVED CREDIT (ci_amount i)
       (Some (w_available w')) (Some (w_reserved w')) at_)
    (<[(ci_orderId i, OpReserve) := reserved_op i tid at_]> (operations db)).

Inductive reserve_case (i : CreditInput) (e : Env) (n n' : nat) (db db' : CreditDb)
  : ReservationOutcomeT -> Prop :=
  | reserve_replayed out :
      op_conflict db (ci_orderId i) OpReserve = true ->
      replayOrRejectConflict i e (n, db) = Ok (out, (n', db')) ->
      reserve_case i e n n' db db' out
  | reserve_refused reason av :
      op_conflict db (ci_orderId i) OpReserve = false ->
      (reason = AMOUNT_OUT_OF_RANGE /\ MAX_RESERVATION_AMOUNT < ci_amount i /\ av = None)
      \/ (reason = INSUFFICIENT_CREDITS /\ ci_amount i <= MAX_RESERVATION_AMOUNT
          /\ exists w, wallets db !! ci_requesterId i = Some w
                       /\ w_available w < ci_amount i /\ av = Some (w_available w)) ->
      same_economy
        (set_operations (<[(ci_orderId i, OpReserve) := rejected_reserve i reason av (env_now e)]>
                           (operations db)) db) db' ->
      reserve_case i e n n' db db' (RejectedR reason av)
  | reserve_reserved w tid e1 e2 :
      op_conflict db (ci_orderId i) OpReserve = false ->
      ci_amount i <= MAX_RESERVATION_AMOUNT ->
      wallets db !! ci_requesterId i = Some w -> ci_amount i <= w_available w ->
      wallet_ok (reserve_wallet i w (env_now e)) = true ->
      new_txn_id db tid ->
      same_economy (reserve_post db i w tid e1 e2 (env_now e)) db' ->
      reserve_case i e n n' db db' (ReservedR tid).

Lemma reserve_ok fault i e n db out n' db' :
  reserve fault i e (n, db) = Ok (out, (n', db')) ->
  0 < ci_amount i /\ in_int4 (ci_amount i) = true /\ reply_valid i out
  /\ reserve_case i e n n' db db' out.
Proof.
  unfold reserve, finishRejection. intros Hrun. inv_effect.
  split; [positive_amount|]. split; [int4_amount|].
  destruct (op_conflict db (ci_orderId i) OpReserve) eqn:Hc; inv_effect.
  { split; [by eapply replay_answered|by apply reserve_replayed]. }
  destruct (Z.ltb_spec MAX_RESERVATION_AMOUNT (ci_amount i)) as [Hgt|Hle]; inv_effect.
  { inv_finalize. inv_effect. split; [reply_sent|]. same_after_reply.
    apply (reserve_refused _ _ _ _ _ _ AMOUNT_OUT_OF_RANGE None); [done|auto|]. close_economy. }
  match goal with Hu : update_wallet _ _ _ _ _ = Ok _ |- _ =>
    apply update_wallet_ok in Hu; rename Hu into Hup end. simpl in Hup.
  destruct (wallets db !! ci_requesterId i) as [w|] eqn:Hw; [|inv_effect; simpl in *; rewrite Hw in *; by inv_effect].
  destruct (Z.leb_spec (ci_amount i) (w_available w)) as [Hav|Hav].
  - cbn beta iota in Hup. destruct Hup as [Hwok Hup]. inv_effect. inv_finalize. inv_effect.
    split; [reply_sent|]. same_after_reply.
    match goal with Ht : txn_ok _ _ = true |- _ => apply txn_ok_fresh in Ht end.
    eapply reserve_reserved; try done. close_economy.
  - inv_effect. simpl in *. rewrite Hw in *. inv_effect. inv_finalize. inv_effect.
    split; [reply_sent|]. same_after_reply.
    eapply reserve_refused; [done|right; eauto 10|]. close_economy.
Qed.

(** ** transfer and release *)

(** The reservation a terminal request may settle: locked, succeeded and restated exactly. *)
Definition active_reservation (db : CreditDb) (i : CreditInput) (r : Op) : Prop :=
  operations db !! (ci_orderId i, OpReserve) = Some r /\ o_outcome r = Succeeded
  /\ truthy (o_txn r) = true /\ o_requester r = ci_requesterId i /\ o_amount r = ci_amount i.

Lemma lockReservation_ok o e n db r s' :
  lockReservation o e (n, db) = Ok (r, s') <->
  s' = (n, db) /\ operations db !! (o, OpReserve) = Some r /\ o_outcome r <> Pending.
Proof.
  unfold lockReservation, bind, gets. simpl.
  destruct (operations db !! (o, OpReserve)) as [r'|]; simpl.
  - case_bool_decide; unfold throw, ret; naive_solver.
  - unfold throw. naive_solver.
Qed.

Lemma validateReservation_ok r i c ty e n db out n' db' :
  validateReservation r i c ty e (n, db) = Ok (out, (n', db')) ->
  (out = None /\ n' = n /\ db' = db /\ o_outcome r = Succeeded /\ truthy (o_txn r) = true
   /\ o_requester r = ci_requesterId i /\ o_amount r = ci_amount i)
  \/ (exists reason, out = Some (RejectedT reason) /\ same_economy db db'
                     /\ creditOutbox db' = creditOutbox db).
Proof.
  unfold validateReservation. intros Hok.
  destruct (negb (bool_decide (o_outcome r = Succeeded)) || negb (truthy (o_txn r))) eqn:Ha.
  - right. inv_effect.
    match goal with Hr : rejectTerminal _ _ _ _ _ _ _ = Ok _ |- _ =>
      apply rejectTerminal_ok in Hr as (-> & ? & ? & _) end. eauto.
  - destruct (negb (String.eqb (o_requester r) (ci_requesterId i))
              || negb (o_amount r =? ci_amount i)) eqn:Hb.
    + right. inv_effect.
      match goal with Hr : rejectTerminal _ _ _ _ _ _ _ = Ok _ |- _ =>
        apply rejectTerminal_ok in Hr as (-> & ? & ? & _) end. eauto.
    + left. inv_effect.
      rewrite orb_false_iff, !negb_false_iff, bool_decide_eq_true in Ha.
      rewrite orb_false_iff, !negb_false_iff, String.eqb_eq, Z.eqb_eq in Hb. naive_solver.
Qed.

Definition terminal_op (i : CreditInput) (c : option string) (tid : string) (p : Payload)
    (at_ : Z) : Op :=
  mkOp (ci_requesterId i) c (ci_amount i) Succeeded None None (Some tid) (Some p) at_.

Definition transfer_debit (i : CreditInput) (w : Wallet) (at_ : Z) : Wallet :=
  mkWallet (w_available w) (w_reserved w - ci_amount i) (w_createdAt w) at_.
Definition transfer_credit (i : CreditInput) (w : Wallet) (at_ : Z) : Wallet :=
  mkWallet (w_available w + ci_amount i) (w_reserved w) (w_createdAt w) at_.
Definition release_wallet (i : CreditInput) (w : Wallet) (at_ : Z) : Wallet :=
  mkWallet (w_available w + ci_amount i) (w_reserved w - ci_amount i) (w_createdAt w) at_.

Definition transfer_result (i : CreditInput) (c tid : string) (rw cw : Wallet) : Payload :=
  TransferredP (movement i) c tid (balance rw) (balance cw).
Definition release_result (i : CreditInput) (tid : string) (rw : Wallet) : Payload :=
  ReleasedP (movement i) tid (balance rw).

Definition transfer_post (db : CreditDb) (i : CreditInput) (c : string) (rw0 cw0 : Wallet)
    (tid e1 e2 : string) (at_ : Z) : CreditDb :=
  let rw := transfer_debit i rw0 at_ in
  let cw := transfer_credit i cw0 at_ in
  post db (<[c := cw]> (<[ci_requesterId i := rw]> (wallets db)))
    (mkTxn tid (Some (ci_orderId i)) TRANSFER (Some (ci_requesterId i)) (ci_amount i) at_)
    (mkEntry e1 tid 1 (Some (ci_requesterId i)) RESERVED DEBIT (ci_amount i)
       (Some (w_available rw)) (Some (w_reserved rw)) at_)
    (mkEntry e2 tid 2 (Some c) AVAILABLE CREDIT (ci_amount i)
       (Some (w_available cw)) (Some (w_reserved cw)) at_)
    (<[(ci_orderId i, OpTransfer) := terminal_op i (Some c) tid (transfer_result i c tid rw cw) at_]>
       (operations db)).

Definition release_post (db : CreditDb) (i : CreditInput) (w : Wallet) (tid e1 e2 : string)
    (at_ : Z) : CreditDb :=
  let rw := release_wallet i w at_ in
  post db (<[ci_requesterId i := rw]> (wallets db))
    (mkTxn tid (Some (ci_orderId i)) RELEASE (Some (ci_requesterId i)) (ci_amount i) at_)
    (mkEntry e1 tid 1 (Some (ci_requesterId i)) RESERVED DEBIT (ci_amount i)
       (Some (w_available rw)) (Some (w_reserved rw)) at_)
    (mkEntry e2 tid 2 (Some (ci_requesterId i)) AVAILABLE CREDIT (ci_amount i)
       (Some (w_available rw)) (Some (w_reserved rw)) at_)
    (<[(ci_orderId i, OpRelease) := terminal_op i None tid (release_result i tid rw) at_]>
       (operations db)).

Definition no_terminal (db : CreditDb) (o : string) : Prop :=
  operations db !! (o, OpRelease) = None /\ operations db !! (o, OpTransfer) = None.

Inductive transfer_case (i : CreditInput) (c : string) (e : Env) (db db' : CreditDb)
  : TerminalOutcome -> Prop :=
  | transfer_rejected reason :
      same_economy db db' -> transfer_case i c e db db' (RejectedT reason)
  | transfer_replayed r o stored result :
      active_reservation db i r -> ci_requesterId i <> c ->
      operations db !! (ci_orderId i, OpTransfer) = Some o ->
      o_outcome o = Succeeded -> o_result o = Some stored ->
      creditsTransferredPayload stored = Some result ->
      same_economy db db' -> transfer_case i c e db db' (Settled result)
  | transfer_settled r rw cw tid e1 e2 :
      active_reservation db i r -> ci_requesterId i <> c -> no_terminal db (ci_orderId i) ->
      0 < ci_amount i ->
      wallets db !! ci_requesterId i = Some rw -> wallets db !! c = Some cw ->
      wallet_ok (transfer_debit i rw (env_now e)) = true ->
      wallet_ok (transfer_credit i cw (env_now e)) = true ->
      new_txn_id db tid ->
      same_economy (transfer_post db i c rw cw tid e1 e2 (env_now e)) db' ->
      transfer_case i c e db db'
        (Settled (transfer_result i c tid (transfer_debit i rw (env_now e))
                    (transfer_credit i cw (env_now e)))).

Inductive release_case (i : CreditInput) (e : Env) (db db' : CreditDb)
  : TerminalOutcome -> Prop :=
  | release_rejected reason :
      same_economy db db' -> release_case i e db db' (RejectedT reason)
  | release_replayed r o stored result :
      active_reservation db i r ->
      operations db !! (ci_orderId i, OpRelease) = Some o ->
      o_outcome o = Succeeded -> o_result o = Some stored ->
      creditsReleasedPayload stored = Some result ->
      same_economy db db' -> release_case i e db db' (Settled result)
  | release_settled r w tid e1 e2 :
      active_reservation db i r -> no_terminal db (ci_orderId i) ->
      0 < ci_amount i ->
      wallets db !! ci_requesterId i = Some w ->
      wallet_ok (release_wallet i w (env_now e)) = true ->
      new_txn_id db tid ->
      same_economy (release_post db i w tid e1 e2 (env_now e)) db' ->
      release_case i e db db' (Settled (release_result i tid (release_wallet i w (env_now e)))).

Lemma replayTransferOrReject_ok ty prior i c e n db out n' db' :
  replayTransferOrReject ty prior i c e (n, db) = Ok (out, (n', db')) ->
  same_economy db db'
  /\ ((exists reason, out = RejectedT reason)
      \/ exists stored result, ty = OpTransfer /\ o_outcome prior = Succeeded
           /\ o_result prior = Some stored /\ creditsTransferredPayload stored = Some result
           /\ out = Settled result).
Proof.
  unfold replayTransferOrReject. intros Hok.
  destruct (_ || _) eqn:Hm.
  - apply rejectTerminal_ok in Hok as (-> & ? & _). eauto.
  - rewrite !orb_false_iff, negb_false_iff, bool_decide_eq_true in Hm.
    destruct (o_outcome prior) eqn:Ho; inv_effect. destruct (o_result prior) as [p|] eqn:Hr; inv_effect.
    destruct (creditsTransferredPayload p) eqn:Hp; inv_effect. same_after_reply.
    split; [done|]. right. naive_solver.
Qed.

Lemma replayReleaseOrReject_ok ty prior i e n db out n' db' :
  replayReleaseOrReject ty prior i e (n, db) = Ok (out, (n', db')) ->
  same_economy db db'
  /\ ((exists reason, out = RejectedT reason)
      \/ exists stored result, ty = OpRelease /\ o_outcome prior = Succeeded
           /\ o_result prior = Some stored /\ creditsReleasedPayload stored = Some result
           /\ out = Settled result).
Proof.
  unfold replayReleaseOrReject. intros Hok.
  destruct (_ || _) eqn:Hm.
  - apply rejectTerminal_ok in Hok as (-> & ? & _). eauto.
  - rewrite !orb_false_iff, negb_false_iff, bool_decide_eq_true in Hm.
    destruct (o_outcome prior) eqn:Ho; inv_effect. destruct (o_result prior) as [p|] eqn:Hr; inv_effect.
    destruct (creditsReleasedPayload p) eqn:Hp; inv_effect. same_after_reply.
    split; [done|]. right. naive_solver.
Qed.

Lemma findTerminal_none db o :
  (match operations db !! (o, OpRelease) with
   | Some x => Some (OpRelease, x)
   | None => (fun x => (OpTransfer, x)) <$> operations db !! (o, OpTransfer)
   end) = None -> no_terminal db o.
Proof. unfold no_terminal. destruct (operations db !! (o, OpRelease)); [done|].
  destruct (operations db !! (o, OpTransfer)); simpl; auto; done. Qed.

Lemma findTerminal_some db o ty x :
  (match operations db !! (o, OpRelease) with
   | Some x => Some (OpRelease, x)
   | None => (fun x => (OpTransfer, x)) <$> operations db !! (o, OpTransfer)
   end) = Some (ty, x) -> operations db !! (o, ty) = Some x.
Proof.
  destruct (operations db !! (o, OpRelease)) eqn:Hr; [naive_solver|].
  destruct (operations db !! (o, OpTransfer)) eqn:Ht; simpl; naive_solver.
Qed.

Lemma transfer_ok fault i c e n db out n' db' :
  transfer fault i c e (n, db) = Ok (out, (n', db')) -> transfer_case i c e db db' out.
Proof.
  unfold transfer, findTerminalOperation. intros Hrun.
  apply bind_ok in Hrun as (r & s1 & Hlock & Hrun). apply lockReservation_ok in Hlock as (-> & Hr & _).
  apply bind_ok in Hrun as (? & s2 & Hf & Hrun). apply at_boundary_ok in Hf as (_ & [= -> ->]).
  apply bind_ok in Hrun as (v & [n1 db1] & Hv & Hrun).
  apply validateReservation_ok in Hv as [(-> & -> & -> & Hs & Htx & Hreq & Ham)|(reason & -> & Hsame & _)];
    cbn beta iota in Hrun; [|inv_effect; by apply transfer_rejected].
  assert (active_reservation db i r) as Hact by done.
  destruct (String.eqb_spec (ci_requesterId i) c) as [|Hne].
  { apply rejectTerminal_ok in Hrun as (-> & ? & _). by apply transfer_rejected. }
  apply bind_ok in Hrun as (prior & s3 & Hp & Hrun). apply gets_ok in Hp.
  injection Hp as Hp ->. simpl in Hp.
  destruct prior as [[ty o]|]; symmetry in Hp; cbn beta iota in Hrun.
  { apply findTerminal_some in Hp. apply replayTransferOrReject_ok in Hrun as [Hsame Hcase].
    destruct Hcase as [[reason ->]|(st & res & -> & ? & ? & ? & ->)].
    - by apply transfer_rejected.
    - by eapply transfer_replayed. }
  apply findTerminal_none in Hp. inv_effect.
  inv_wallet rw Hrw; inv_effect. inv_wallet cw Hcw; inv_effect. unfold finishTerminal in *.
  inv_finalize. inv_effect. same_after_reply. simpl in *.
  rewrite lookup_insert_ne in Hcw by done.
  match goal with Ht : txn_ok _ _ = true |- _ => apply txn_ok_fresh in Ht end.
  eapply (transfer_settled _ _ _ _ _ r rw cw); try done.
  - positive_amount.
  - close_economy.
Qed.

Lemma release_ok fault i e n db out n' db' :
  release fault i e (n, db) = Ok (out, (n', db')) -> release_case i e db db' out.
Proof.
  unfold release, findTerminalOperation. intros Hrun.
  apply bind_ok in Hrun as (r & s1 & Hlock & Hrun). apply lockReservation_ok in Hlock as (-> & Hr & _).
  apply bind_ok in Hrun as (? & s2 & Hf & Hrun). apply at_boundary_ok in Hf as (_ & [= -> ->]).
  apply bind_ok in Hrun as (v & [n1 db1] & Hv & Hrun).
  apply validateReservation_ok in Hv as [(-> & -> & -> & Hs & Htx & Hreq & Ham)|(reason & -> & Hsame & _)];
    cbn beta iota in Hrun; [|inv_effect; by apply release_rejected].
  assert (active_reservation db i r) as Hact by done.
  apply bind_ok in Hrun as (prior & s3 & Hp & Hrun). apply gets_ok in Hp.
  injection Hp as Hp ->. simpl in Hp.
  destruct prior as [[ty o]|]; symmetry in Hp; cbn beta iota in Hrun.
  { apply findTerminal_some in Hp. apply replayReleaseOrReject_ok in Hrun as [Hsame Hcase].
    destruct Hcase as [[reason ->]|(st & res & -> & ? & ? & ? & ->)].
    - by apply release_rejected.
    - by eapply release_replayed. }
  apply findTerminal_none in Hp.
  inv_effect. inv_wallet w Hw; inv_effect. unfold finishTerminal in *.
  inv_finalize. inv_effect. same_after_reply. simpl in *.
  match goal with Ht : txn_ok _ _ = true |- _ => apply txn_ok_fresh in Ht end.
  eapply (release_settled _ _ _ _ r w); try done.
  - positive_amount.
  - close_economy.
Qed.

(** ** issueInitial *)

Definition issue_post (db : CreditDb) (u : string) (a : Z) (tid e1 e2 : string) (at_ : Z)
  : CreditDb :=
  post db (<[u := mkWallet a 0 at_ at_]> (wallets db))
    (mkTxn tid None ISSUE (Some u) a at_)
    (mkEntry e1 tid 1 None PLATFORM_ISSUANCE DEBIT a None None at_)
    (mkEntry e2 tid 2 (Some u) AVAILABLE CREDIT a (Some a) (Some 0) at_)
    (operations db).

Inductive issue_case (a : Z) (u : string) (e : Env) (db db' : CreditDb) : bool -> Prop :=
  | issue_existing w : wallets db !! u = Some w -> db' = db -> issue_case a u e db db' false
  | issue_done tid e1 e2 :
      wallets db !! u = None -> 0 < a -> wallet_ok (mkWallet a 0 (env_now e) (env_now e)) = true ->
      new_txn_id db tid ->
      same_economy (issue_post db u a tid e1 e2 (env_now e)) db' ->
      issue_case a u e db db' true.

Lemma issue_ok a u e n db b n' db' :
  issueInitial a u e (n, db) = Ok (b, (n', db')) -> issue_case a u e db db' b.
Proof.
  unfold issueInitial, has_wallet. intros Hrun. inv_effect. unfold has_wallet in *.
  destruct (wallets db !! u) as [w|] eqn:Hw; simpl in *; inv_effect; cbn [negb] in Hrun; inv_effect.
  { by eapply issue_existing. }
  match goal with Ht : txn_ok _ _ = true |- _ =>
    pose proof (txn_ok_fresh _ _ Ht); unfold txn_ok in Ht; rewrite !andb_true_iff, Z.ltb_lt in Ht;
    destruct Ht as [[[[[[[_ Hpos] _] _] _] _] _] _] end.
  eapply issue_done; try done. unfold same_economy. simpl. rewrite <- app_assoc. done.
Qed.
End Effects.
