(* ===== verification/CreditProofs.v ===== *)
(** * CreditProofs: every economic effect keeps [CreditInv]

    One preservation lemma per method of the repository, for every outcome it can have and every
    fault point; [post_inv] carries the arithmetic and the lemmas here supply the bookkeeping of
    [credit_operations]. *)
From S2P Require Export CreditEffects.

Lemma has_txn_elem db tid : has_txn db tid = true <-> exists t, t ∈ transactions db /\ t_id t = tid.
Proof.
  unfold has_txn. rewrite existsb_true. split; intros (t & Ht & Hid); exists t; split; auto.
  - by apply String.eqb_eq.
  - by apply String.eqb_eq.
Qed.

(** ** Operations stay linked *)

Lemma op_linked_post db ws t x1 x2 ops o ty op :
  op_linked db o ty op ->
  (forall r, operations db !! (o, OpReserve) = Some r -> ops !! (o, OpReserve) = Some r) ->
  op_linked (post db ws t x1 x2 ops) o ty op.
Proof.
  intros (Hp & Hs & Ht & Hterm) Hres. split; [done|]. split; [done|]. split.
  - intros Hsu. destruct (Ht Hsu) as (t' & ? & ?). exists t'. simpl. split; [set_solver|done].
  - intros Hty. destruct (Hterm Hty) as (? & ? & r & Hr & ?). split; [done|]. split; [done|].
    exists r. simpl. auto.
Qed.

(** A settled operation and the transaction it made, added together. *)
Lemma ops_linked_settle db ws t x1 x2 o ty op :
  ops_linked db -> operations db !! (o, ty) = None ->
  o_outcome op = Succeeded -> outcome_shape op = true -> txn_of o ty op t ->
  (ty <> OpReserve -> no_terminal db o
     /\ (forall tid, o_txn op = Some tid -> result_of o ty op tid)
     /\ exists r, operations db !! (o, OpReserve) = Some r /\ o_outcome r = Succeeded
                  /\ o_requester r = o_requester op /\ o_amount r = o_amount op) ->
  ops_linked (post db ws t x1 x2 (<[(o, ty) := op]> (operations db))).
Proof.
  intros (Hops & Htx & Hone) Hnone Hsu Hshape Htxn Hterm.
  assert (forall o' r, operations db !! (o', OpReserve) = Some r ->
    <[(o, ty) := op]> (operations db) !! (o', OpReserve) = Some r) as Hkeep.
  { intros o' r Hr. rewrite lookup_insert_ne; [done|]. intros [= -> ->]. congruence. }
  split; [|split].
  - intros o' ty' op' Hop'. simpl in Hop'. apply lookup_insert_Some in Hop' as [[[= -> ->] <-]|[_ Hop']].
    + split; [congruence|]. split; [done|]. split.
      * intros _. exists t. simpl. split; [set_solver|done].
      * intros Hty. destruct (Hterm Hty) as (_ & ? & r & Hr & ?). split; [done|]. split; [done|].
        exists r. simpl. auto.
    + apply op_linked_post; auto.
  - intros t' Ht' Hty'. simpl in *. apply elem_of_app in Ht' as [Ht'|Ht'].
    + destruct (Htx t' Ht' Hty') as (o' & ty' & op' & Hop' & ?). exists o', ty', op'. split; [|done].
      rewrite lookup_insert_ne; [done|]. intros [= -> ->]. congruence.
    + apply list_elem_of_singleton in Ht' as ->. exists o, ty, op. by rewrite lookup_insert_eq.
  - simpl. intros o' a b Ha Hb.
    apply lookup_insert_Some in Ha as [[[= <- ->] _]|[Hka Ha]];
      apply lookup_insert_Some in Hb as [[[= <- ?] _]|[Hkb Hb]]; subst; try discriminate; eauto.
    + destruct Hterm as ([_ ?] & _); [done|]. congruence.
    + destruct Hterm as ([? _] & _); [done|]. congruence.
Qed.

(** A refused reservation records no transaction. *)
Lemma refused_inv db i reason av at_ :
  CreditInv db -> operations db !! (ci_orderId i, OpReserve) = None ->
  CreditInv (set_operations (<[(ci_orderId i, OpReserve) := rejected_reserve i reason av at_]>
                               (operations db)) db).
Proof.
  intros [] Hnone. destruct inv_ops as (Hops & Htx & Hone).
  constructor; try assumption. split; [|split]; simpl.
  - intros o' ty' op' Hop'. apply lookup_insert_Some in Hop' as [[[= <- <-] <-]|[Hk Hop']].
    + repeat split; done.
    + destruct (Hops _ _ _ Hop') as (? & ? & ? & Hterm). do 3 (split; [done|]).
      intros Hty. destruct (Hterm Hty) as (? & ? & r & Hr & ?). do 2 (split; [done|]).
      exists r. split; [|done]. simpl. rewrite lookup_insert_ne; [done|]. intros [= <-]. congruence.
  - intros t' Ht' Hty'. destruct (Htx t' Ht' Hty') as (o' & ty' & op' & Hop' & ?).
    exists o', ty', op'. split; [|done]. rewrite lookup_insert_ne; [done|].
    intros [= <- <-]. congruence.
  - intros o' a b Ha Hb. rewrite !lookup_insert_ne in * by congruence. eauto.
Qed.

(** ** The four postings *)

Lemma delta_eq acc u x1 x2 :
  delta acc u x1 x2
  = (if bool_decide (e_wallet x1 = Some u) && bool_decide (e_account x1 = acc)
     then signed x1 else 0)
    + (if bool_decide (e_wallet x2 = Some u) && bool_decide (e_account x2 = acc)
       then signed x2 else 0).
Proof. unfold delta, ledger_sum. rewrite !sumZ_cons, sumZ_nil. lia. Qed.

(** Evaluates the two entries of a posting on a wallet. *)
Ltac posting_delta :=
  rewrite !delta_eq; simpl; unfold signed; simpl;
  repeat case_bool_decide; simplify_eq; simpl; try done; try lia.

Section Postings.
Context (db : CreditDb) (I : CreditInv db).

Lemma ledger_sum_new acc u : wallets db !! u = None -> ledger_sum acc u (ledger db) = 0.
Proof.
  intros Hu. apply ledger_sum_unknown. intros x Hx Hw.
  destruct (inv_refs db I) as (Hr & _). destruct (Hr x u Hx Hw). congruence.
Qed.

Lemma open_new u : wallets db !! u = None -> open_reservations u (transactions db) = 0.
Proof.
  intros Hu. apply sumZ_zero. intros t Ht.
  destruct (bool_decide (t_wallet t = Some u)) eqn:Hw; [|by rewrite andb_false_r].
  apply bool_decide_eq_true in Hw. destruct (inv_refs db I) as (_ & _ & Hr).
  destruct (Hr t u Ht Hw). congruence.
Qed.

Lemma is_Some_insert (u v : string) (w : Wallet) (m : gmap string Wallet) :
  is_Some (m !! u) \/ u = v -> is_Some (<[v := w]> m !! u).
Proof. rewrite lookup_insert_is_Some. destruct (decide (v = u)); naive_solver. Qed.
Hint Resolve is_Some_insert : foc.

(** The references and shape of a posting, by computation. *)
Ltac posting_sides := simpl; auto with foc; try (intros v [= <-]; by auto with foc).

Lemma agrees_at u w :
  wallets db !! u = Some w ->
  wallet_ok w = true /\ ledger_sum AVAILABLE u (ledger db) = w_available w
  /\ ledger_sum RESERVED u (ledger db) = w_reserved w.
Proof. apply (inv_agrees db I). Qed.

(** Without a reservation operation an order has no transaction that settles it. *)
Lemma no_op_no_terminal o :
  is_some (operations db !! (o, OpReserve)) = false ->
  forall t, t ∈ transactions db -> t_orderId t = Some o -> is_terminal (t_type t) = false.
Proof.
  intros Hn t Ht Ho. destruct (is_terminal (t_type t)) eqn:Hty; [|done]. exfalso.
  destruct (inv_ops db I) as (Hops & Htx & _).
  destruct (Htx t Ht) as (o' & ty & op & Hop & Ho' & Hty' & _); [by destruct (t_type t)|].
  assert (o' = o) as -> by congruence.
  destruct (Hops _ _ _ Hop) as (_ & _ & _ & Hterm).
  destruct Hterm as (_ & _ & r & Hr & _); [intros ->; by rewrite Hty' in Hty|].
  by rewrite Hr in Hn.
Qed.

(** An order without a terminal operation has no transaction that settles it. *)
Lemma no_terminal_unsettled o :
  no_terminal db o ->
  forall t, t ∈ transactions db -> t_orderId t = Some o -> is_terminal (t_type t) = false.
Proof.
  intros [Hr Htr] t Ht Ho. destruct (is_terminal (t_type t)) eqn:Hty; [|done]. exfalso.
  destruct (inv_ops db I) as (_ & Htx & _).
  destruct (Htx t Ht) as (o' & ty & op & Hop & Ho' & Hty' & _); [by destruct (t_type t)|].
  assert (o' = o) as -> by congruence. rewrite Hty' in Hty. destruct ty; simpl in *; congruence.
Qed.

Lemma unsettled t o :
  t_orderId t = Some o ->
  (forall x, x ∈ transactions db -> t_orderId x = Some o -> is_terminal (t_type x) = false) ->
  settled (transactions db) t = false.
Proof.
  intros Ho Hno. unfold settled. apply existsb_false. intros x Hx. rewrite Ho.
  destruct (t_orderId x) as [o'|] eqn:Hox; simpl; [|done].
  destruct (String.eqb_spec o' o) as [->|]; simpl; [|done]. by apply Hno.
Qed.

Lemma issue_post_inv u a tid e1 e2 at_ :
  wallets db !! u = None -> 0 < a -> wallet_ok (mkWallet a 0 at_ at_) = true ->
  new_txn_id db tid -> CreditInv (issue_post db u a tid e1 e2 at_).
Proof.
  intros Hu Ha Hok Hf. unfold issue_post. apply post_inv; posting_sides.
  - intros v w' Hv. apply lookup_insert_Some in Hv as [[<- <-]|[Hne Hv]].
    + split; [done|]. rewrite !ledger_sum_new by done. posting_delta.
    + destruct (agrees_at v w' Hv) as (? & -> & ->). split; [done|]. posting_delta.
  - rewrite sum_map_insert_None by done. unfold held. simpl. lia.
  - intros v w' Hv. rewrite open_app_nonterminal by done.
    apply lookup_insert_Some in Hv as [[<- <-]|[Hne Hv]].
    + by rewrite open_new.
    + rewrite (inv_backed db I v w' Hv). unfold open_amount, is_reserve. simpl. lia.
  - destruct (inv_ops db I) as (Hops & Htx & Hone). split; [|split]; simpl.
    + intros o ty op Hop. apply op_linked_post; auto.
    + intros t Ht Hty. apply elem_of_app in Ht as [Ht|Ht]; [eauto|].
      by apply list_elem_of_singleton in Ht as ->.
    + done.
Qed.

Lemma reserve_post_inv i w tid e1 e2 at_ :
  0 < ci_amount i -> op_conflict db (ci_orderId i) OpReserve = false ->
  wallets db !! ci_requesterId i = Some w -> wallet_ok (reserve_wallet i w at_) = true ->
  new_txn_id db tid -> CreditInv (reserve_post db i w tid e1 e2 at_).
Proof.
  intros Ha Hc Hw Hok Hf. unfold reserve_post. apply post_inv; posting_sides.
  - intros v w' Hv. apply lookup_insert_Some in Hv as [[<- <-]|[Hne Hv]].
    + split; [done|]. destruct (agrees_at _ w Hw) as (_ & -> & ->). posting_delta.
    + destruct (agrees_at v w' Hv) as (? & -> & ->). split; [done|]. posting_delta.
  - rewrite (sum_map_insert_Some _ _ _ _ _ Hw). unfold held. simpl. lia.
  - intros v w' Hv. rewrite open_app_nonterminal by done. unfold open_amount, is_reserve. simpl.
    assert (settled (transactions db) (mkTxn tid (Some (ci_orderId i)) RESERVE
              (Some (ci_requesterId i)) (ci_amount i) at_) = false) as ->.
    { apply (unsettled _ (ci_orderId i)); [done|]. apply no_op_no_terminal.
      unfold op_conflict in Hc. by apply orb_false_iff in Hc as [? _]. }
    apply lookup_insert_Some in Hv as [[<- <-]|[Hne Hv]].
    + rewrite (inv_backed db I _ w Hw). by rewrite bool_decide_true.
    + rewrite (inv_backed db I v w' Hv). rewrite bool_decide_false by congruence. simpl. lia.
  - apply orb_false_iff in Hc as [Hn _]. apply ops_linked_settle; simpl; try done.
    + apply (inv_ops db I).
    + by destruct (operations db !! _).
Qed.

(** What an active reservation and an open order give a settling posting. *)
Lemma open_settle i r ty tid at_ u :
  active_reservation db i r -> no_terminal db (ci_orderId i) -> is_terminal ty = true ->
  open_reservations u
    (transactions db ++ [mkTxn tid (Some (ci_orderId i)) ty (Some (ci_requesterId i))
                           (ci_amount i) at_])
  = open_reservations u (transactions db)
    - (if bool_decide (ci_requesterId i = u) then ci_amount i else 0).
Proof.
  intros (Hr & Hsu & _ & Hreq & Ham) Hno Hty.
  destruct (inv_ops db I) as (Hops & Htx & _). destruct (inv_txns db I) as [Hnd _].
  destruct (Hops _ _ _ Hr) as (_ & _ & Hmade & _).
  destruct (Hmade Hsu) as (t0 & Ht0 & Ho0 & Hty0 & Hw0 & Ham0 & Hid0).
  rewrite (open_app_terminal u _ _ (ci_orderId i) t0 (ci_requesterId i)); simpl; try done.
  - by rewrite Ham0, Ham.
  - unfold is_reserve. by rewrite bool_decide_true.
  - by rewrite Hw0, Hreq.
  - apply (unsettled _ (ci_orderId i)); [done|]. by apply no_terminal_unsettled.
  - intros x Hx Hrx Hox. unfold is_reserve in Hrx. apply bool_decide_eq_true in Hrx.
    destruct (Htx x Hx) as (o & ty' & op & Hop & Hox' & Htyx & _ & _ & Hidx); [congruence|].
    assert (o = ci_orderId i) as -> by congruence.
    destruct ty'; simpl in *; congruence.
Qed.

Lemma release_post_inv i r w tid e1 e2 at_ :
  active_reservation db i r -> no_terminal db (ci_orderId i) -> 0 < ci_amount i ->
  wallets db !! ci_requesterId i = Some w -> wallet_ok (release_wallet i w at_) = true ->
  new_txn_id db tid -> CreditInv (release_post db i w tid e1 e2 at_).
Proof.
  intros Hact Hno Ha Hw Hok Hf. unfold release_post. apply post_inv; posting_sides.
  - intros v w' Hv. apply lookup_insert_Some in Hv as [[<- <-]|[Hne Hv]].
    + split; [done|]. destruct (agrees_at _ w Hw) as (_ & -> & ->). posting_delta.
    + destruct (agrees_at v w' Hv) as (? & -> & ->). split; [done|]. posting_delta.
  - rewrite (sum_map_insert_Some _ _ _ _ _ Hw). unfold held. simpl. lia.
  - intros v w' Hv. rewrite (open_settle i r) by done.
    apply lookup_insert_Some in Hv as [[<- <-]|[Hne Hv]].
    + by rewrite (inv_backed db I _ w Hw), bool_decide_true.
    + rewrite (inv_backed db I v w' Hv), bool_decide_false by congruence. lia.
  - destruct Hact as (Hr & Hsu & _ & Hreq & Ham). destruct Hno as [Hn1 Hn2].
    apply ops_linked_settle; try done; [apply (inv_ops db I)|].
    intros _. split; [done|]. split; [|by exists r].
    intros tid' [= <-]. simpl. eexists. reflexivity.
Qed.

Lemma transfer_post_inv i c r rw cw tid e1 e2 at_ :
  active_reservation db i r -> ci_requesterId i <> c -> no_terminal db (ci_orderId i) ->
  0 < ci_amount i ->
  wallets db !! ci_requesterId i = Some rw -> wallets db !! c = Some cw ->
  wallet_ok (transfer_debit i rw at_) = true -> wallet_ok (transfer_credit i cw at_) = true ->
  new_txn_id db tid -> CreditInv (transfer_post db i c rw cw tid e1 e2 at_).
Proof.
  intros Hact Hne Hno Ha Hrw Hcw Hokr Hokc Hf. unfold transfer_post. apply post_inv; posting_sides.
  - intros v w' Hv. apply lookup_insert_Some in Hv as [[<- <-]|[Hnc Hv]].
    + split; [done|]. destruct (agrees_at _ cw Hcw) as (_ & -> & ->). posting_delta.
    + apply lookup_insert_Some in Hv as [[<- <-]|[Hnr Hv]].
      * split; [done|]. destruct (agrees_at _ rw Hrw) as (_ & -> & ->). posting_delta.
      * destruct (agrees_at v w' Hv) as (? & -> & ->). split; [done|]. posting_delta.
  - rewrite (sum_map_insert_Some _ _ c cw) by (by rewrite lookup_insert_ne).
    rewrite (sum_map_insert_Some _ _ _ _ _ Hrw). unfold held. simpl. lia.
  - intros v w' Hv. rewrite (open_settle i r) by done.
    apply lookup_insert_Some in Hv as [[<- <-]|[Hnc Hv]].
    + rewrite (inv_backed db I _ cw Hcw), bool_decide_false by done. simpl. lia.
    + apply lookup_insert_Some in Hv as [[<- <-]|[Hnr Hv]].
      * by rewrite (inv_backed db I _ rw Hrw), bool_decide_true.
      * rewrite (inv_backed db I v w' Hv), bool_decide_false by congruence. lia.
  - destruct Hact as (Hr & Hsu & _ & Hreq & Ham). destruct Hno as [Hn1 Hn2].
    apply ops_linked_settle; try done; [apply (inv_ops db I)|].
    intros _. split; [done|]. split; [|by exists r].
    intros tid' [= <-]. simpl. eauto 10.
Qed.
End Postings.

(** ** Every method keeps the invariant *)

Section Methods.
Context `{Zod} (db : CreditDb) (I : CreditInv db).

Lemma issue_inv a u e n b n' db' : issueInitial a u e (n, db) = Ok (b, (n', db')) -> CreditInv db'.
Proof.
  intros Hrun. apply issue_ok in Hrun as [|]; [by subst|].
  eapply same_economy_inv; [done|]. by apply issue_post_inv.
Qed.

Lemma reserve_inv fault i e n out n' db' :
  reserve fault i e (n, db) = Ok (out, (n', db')) -> CreditInv db'.
Proof.
  intros Hrun. apply reserve_ok in Hrun as (Hpos & _ & _ & [out' _ Hrep|reason av Hc _ Hsame|]).
  - apply replayOrRejectConflict_same in Hrep. eauto with foc.
  - eapply same_economy_inv; [done|]. apply refused_inv; [done|].
    unfold op_conflict in Hc. apply orb_false_iff in Hc as [Hn _]. by destruct (operations db !! _).
  - eapply same_economy_inv; [done|]. by apply reserve_post_inv.
Qed.

Lemma transfer_inv fault i c e n out n' db' :
  transfer fault i c e (n, db) = Ok (out, (n', db')) -> CreditInv db'.
Proof.
  intros Hrun. apply transfer_ok in Hrun as [| |]; eauto with foc.
  eapply same_economy_inv; [done|]. by eapply transfer_post_inv.
Qed.

Lemma release_inv fault i e n out n' db' :
  release fault i e (n, db) = Ok (out, (n', db')) -> CreditInv db'.
Proof.
  intros Hrun. apply release_ok in Hrun as [| |]; eauto with foc.
  eapply same_economy_inv; [done|]. by eapply release_post_inv.
Qed.
End Methods.
