(* ===== verification/CreditService.v ===== *)
(** * CreditService: the Credit Service as it runs

    The consumers (wallet-provisioning.ts, reservation-consumer.ts, terminal-consumers.ts), each an
    inbox transaction around one method of the repository; the recorded admin reads; the relay and
    the pruner of its event tables; and [credit_reachable], the states any sequence of them leads
    to. The closed-economy theorem is proved of every such state. *)
From S2P Require Export CreditProofs Retention.

Definition WALLET_QUEUE := "foc.credit.wallet-provisioning".
Definition RESERVATION_QUEUE := "foc.credit.reservations".
Definition COMPLETION_QUEUE := "foc.credit.completions".
Definition RELEASE_QUEUE := "foc.credit.releases".

(** [{ ...envelope.payload, correlationId, causationId: envelope.eventId }]. *)
Definition credit_input (v : Envelope) (m : Movement) : CreditInput :=
  mkCreditInput (mv_orderId m) (mv_requesterId m) (mv_amount m) (correlationId v) (eventId v).

Section Service.
Context `{Zod} (initialAllocation : Z).

Definition handle_activation (v : Envelope) : CreditM unit :=
  match userActivatedPayload (payload v) with
  | Some (UserActivatedP userId _) =>
      if negb (String.eqb (aggregateId v) userId)
      then throw (Unparseable "aggregateId does not match activated userId")
      else issueInitial initialAllocation userId ;;; ret tt
  | _ => throw (Unparseable "payload invalid")
  end.

Definition handle_reservation (v : Envelope) (_ : bool) : CreditM unit :=
  match creditReservationRequestedPayload (payload v) with
  | Some (MovementP m) =>
      if negb (String.eqb (aggregateId v) (mv_orderId m))
      then throw (Unparseable "aggregateId does not match reservation orderId")
      else reserve no_fault (credit_input v m) ;;; ret tt
  | _ => throw (Unparseable "payload invalid")
  end.

Definition handle_completion (v : Envelope) (_ : bool) : CreditM unit :=
  match orderCompletionRequestedPayload (payload v) with
  | Some (CompletionP m c) =>
      if negb (String.eqb (aggregateId v) (mv_orderId m))
      then throw (Unparseable "aggregateId does not match completion orderId")
      else transfer no_fault (credit_input v m) c ;;; ret tt
  | _ => throw (Unparseable "payload invalid")
  end.

Definition handle_release (v : Envelope) (_ : bool) : CreditM unit :=
  match creditReleaseRequestedPayload (payload v) with
  | Some (MovementP m) =>
      if negb (String.eqb (aggregateId v) (mv_orderId m))
      then throw (Unparseable "aggregateId does not match release orderId")
      else release no_fault (credit_input v m) ;;; ret tt
  | _ => throw (Unparseable "payload invalid")
  end.

(** The four subscriptions of the service. *)
Inductive CreditQueue := Activations | Reservations | Completions | Releases.

Definition deliver (q : CreditQueue) (v : Envelope) (e : Env) (db : CreditDb)
  : outcome bool * CreditDb :=
  match q with
  | Activations => withInbox WALLET_QUEUE handle_activation v e db
  | Reservations => withReplayableInbox RESERVATION_QUEUE handle_reservation v e db
  | Completions => withReplayableInbox COMPLETION_QUEUE handle_completion v e db
  | Releases => withReplayableInbox RELEASE_QUEUE handle_release v e db
  end.

(** [auditAdminRead], in a statement of its own. *)
Definition auditAdminRead (admin target : string) (res : ReadResource) (corr : string)
  : CreditM unit :=
  let! id := randomUUID in
  let! at_ := now in
  insert_adminRead (mkAdminRead id admin target res corr at_).

(** ** Runs of the service *)

(** One transaction of the service, when the messages it may be handed are those [heard]. *)
Inductive credit_step_hearing (heard : CreditQueue -> Envelope -> Prop) (db : CreditDb)
  : CreditDb -> Prop :=
  | step_deliver q v e out db' :
      heard q v -> deliver q v e db = (out, db') -> credit_step_hearing heard db db'
  | step_adminRead admin target res corr e out db' :
      transaction (auditAdminRead admin target res corr) e db = (out, db') -> credit_step_hearing heard db db'
  | step_relay opts broker locked at_ rows' res :
      claimAndPublish opts broker locked at_ (ob_rows (creditOutbox db)) = (rows', res) ->
      credit_step_hearing heard db (set_creditOutbox (mkOutbox rows' (ob_nextSeq (creditOutbox db))) db)
  | step_prune retention n waiting lo li stop at_ db' counts :
      pruneEventTables retention n waiting lo li stop at_ db = Some (db', counts) ->
      credit_step_hearing heard db db'.

(** A transaction of the service whatever messages it is handed. *)
Definition credit_step : CreditDb -> CreditDb -> Prop := credit_step_hearing (fun _ _ => True).

Inductive credit_reachable : CreditDb -> Prop :=
  | reach_empty : credit_reachable empty_credit
  | reach_step db db' : credit_reachable db -> credit_step db db' -> credit_reachable db'.

(** ** The invariant holds throughout *)

Lemma same_economy_processed db rows : CreditInv db -> CreditInv (set_creditProcessed rows db).
Proof. by apply CreditInv_frame. Qed.
Hint Resolve same_economy_processed : foc.

Lemma handle_activation_inv v e n db n' db' :
  CreditInv db -> handle_activation v e (n, db) = Ok (tt, (n', db')) -> CreditInv db'.
Proof.
  intros I. unfold handle_activation. destruct (userActivatedPayload _) as [[]|]; try done.
  destruct (negb _); [done|]. intros Hrun. apply bind_ok in Hrun as (b & [n1 db1] & Hi & Hr).
  apply ret_ok in Hr as [= -> ->]. by eapply issue_inv.
Qed.

Lemma handle_reservation_inv v f e n db n' db' :
  CreditInv db -> handle_reservation v f e (n, db) = Ok (tt, (n', db')) -> CreditInv db'.
Proof.
  intros I. unfold handle_reservation. destruct (creditReservationRequestedPayload _) as [[]|]; try done.
  destruct (negb _); [done|]. intros Hrun. apply bind_ok in Hrun as (b & [n1 db1] & Hi & Hr).
  apply ret_ok in Hr as [= -> ->]. by eapply reserve_inv.
Qed.

Lemma handle_completion_inv v f e n db n' db' :
  CreditInv db -> handle_completion v f e (n, db) = Ok (tt, (n', db')) -> CreditInv db'.
Proof.
  intros I. unfold handle_completion. destruct (orderCompletionRequestedPayload _) as [[]|]; try done.
  destruct (negb _); [done|]. intros Hrun. apply bind_ok in Hrun as (b & [n1 db1] & Hi & Hr).
  apply ret_ok in Hr as [= -> ->]. by eapply transfer_inv.
Qed.

Lemma handle_release_inv v f e n db n' db' :
  CreditInv db -> handle_release v f e (n, db) = Ok (tt, (n', db')) -> CreditInv db'.
Proof.
  intros I. unfold handle_release. destruct (creditReleaseRequestedPayload _) as [[]|]; try done.
  destruct (negb _); [done|]. intros Hrun. apply bind_ok in Hrun as (b & [n1 db1] & Hi & Hr).
  apply ret_ok in Hr as [= -> ->]. by eapply release_inv.
Qed.

(** A replayable delivery keeps what its handler keeps. *)
Lemma replayable_inv consumer handler v e db out db' :
  CreditInv db ->
  (forall f n db0 n' db1, CreditInv db0 -> handler v f e (n, db0) = Ok (tt, (n', db1)) ->
                          CreditInv db1) ->
  withReplayableInbox consumer handler v e db = (out, db') -> CreditInv db'.
Proof.
  intros I Hh Hrun. destruct out as [dup|x].
  - apply withReplayableInbox_ok in Hrun as (s1 & n & Hs & Hh1). eapply Hh; [|done].
    destruct Hs as [->| ->]; [done|]. by apply same_economy_processed.
  - apply withReplayableInbox_throw in Hrun as ->. done.
Qed.

Lemma deliver_inv q v e db out db' : CreditInv db -> deliver q v e db = (out, db') -> CreditInv db'.
Proof.
  intros I. destruct q; simpl.
  - intros Hrun. destruct (inbox db !! (WALLET_QUEUE, eventId v)) as [row|] eqn:Hrow.
    + rewrite withInbox_duplicate in Hrun by eauto. congruence.
    + destruct out as [dup|x]; [|by apply withInbox_throw in Hrun as ->].
      apply withInbox_first in Hrun as (_ & n & Hh); [|done].
      eapply handle_activation_inv; [|done]. by apply same_economy_processed.
  - apply replayable_inv; [done|]. intros. by eapply handle_reservation_inv.
  - apply replayable_inv; [done|]. intros. by eapply handle_completion_inv.
  - apply replayable_inv; [done|]. intros. by eapply handle_release_inv.
Qed.

Lemma hearing_step_inv heard db db' :
  CreditInv db -> credit_step_hearing heard db db' -> CreditInv db'.
Proof.
  intros I [q v e out db1 _ Hd|ad tg res corr e out db1 Ht|opts br lk at_ rows r _|
            rt n wt lo li st at_ db1 counts Hp].
  - by eapply deliver_inv.
  - destruct out as [[]|x]; [|by apply transaction_throw in Ht as ->].
    apply transaction_ok in Ht as (n & Hr). unfold auditAdminRead, insert_adminRead, unique_ in Hr.
    inv_tx. by apply (CreditInv_frame db).
  - by apply (CreditInv_frame db).
  - unfold pruneEventTables in Hp. repeat case_match; simplify_eq; by apply (CreditInv_frame db).
Qed.

Lemma credit_step_inv db db' : CreditInv db -> credit_step db db' -> CreditInv db'.
Proof. apply hearing_step_inv. Qed.

Lemma reachable_inv db : credit_reachable db -> CreditInv db.
Proof. induction 1; [apply CreditInv_empty|]. by eapply credit_step_inv. Qed.
End Service.
