(* ===== verification/CreditReads.v ===== *)
(** * CreditReads: what the Credit Service reports and audits

    The reads of credit.repository.ts ([findWallet], [orderStatus], [listLedger]), the wallet views of
    wallets.service.ts, the credit status of status.service.ts, the bulk-read alert of
    admin-activity.ts and the ledger audit of ledger-audit.service.ts. *)
From S2P Require Export CreditService Paging.

(** ** Wallets *)

Record WalletView := mkWalletView {
  wv_userId : string; wv_available : Z; wv_reserved : Z; wv_total : Z;
  wv_createdAt : Z; wv_updatedAt : Z }.

Definition walletView (u : string) (w : Wallet) : WalletView :=
  mkWalletView u (w_available w) (w_reserved w) (w_available w + w_reserved w)
    (iso (w_createdAt w)) (iso (w_updatedAt w)).

Definition findWallet (u : string) (db : CreditDb) : option WalletView :=
  walletView u <$> wallets db !! u.

(** ** An order's credit status *)

Inductive CreditStatus := NONE | CREDIT_RESERVED | TRANSFERRED | RELEASED.
Inductive NoneDetail := NoneUnknown | NoneRejected | NoneInFlight.

#[export] Instance CreditStatus_eq_dec : EqDecision CreditStatus.
Proof. solve_decision. Defined.
#[export] Instance NoneDetail_eq_dec : EqDecision NoneDetail.
Proof. solve_decision. Defined.

Record TransactionReference := mkRef {
  tr_transactionId : string; tr_type : OperationType; tr_occurredAt : Z }.

Record OrderCreditStatus := mkCreditStatus {
  cs_orderId : string; cs_status : CreditStatus; cs_detail : option NoneDetail;
  cs_rejectionReason : option ReservationRejection; cs_recordedAt : option Z;
  cs_reservation : option TransactionReference; cs_terminal : option TransactionReference }.

(** [LEFT JOIN credit_transactions t ON t.transaction_id = o.transaction_id]. *)
Definition txn_time (db : CreditDb) (tid : string) : option Z :=
  t_occurredAt <$> List.find (fun t => String.eqb (t_id t) tid) (transactions db).

Definition reference (db : CreditDb) (ty : OperationType) (row : option Op)
  : option TransactionReference :=
  match row with
  | Some o =>
      if bool_decide (o_outcome o = Succeeded) && truthy (o_txn o)
      then match o_txn o with
           | Some tid => (fun at_ => mkRef tid ty (iso at_)) <$> txn_time db tid
           | None => None
           end
      else None
  | None => None
  end.

(** [result.rows.find((row) => row.operation_type !== 'RESERVE')]; the unique index allows one. *)
Definition terminal_row (db : CreditDb) (orderId : string) : option (OperationType * Op) :=
  match operations db !! (orderId, OpRelease) with
  | Some o => Some (OpRelease, o)
  | None => (fun o => (OpTransfer, o)) <$> operations db !! (orderId, OpTransfer)
  end.

Definition orderStatus (orderId : string) (db : CreditDb) : OrderCreditStatus :=
  let reservation := operations db !! (orderId, OpReserve) in
  let reservationReference := reference db OpReserve reservation in
  let terminalReference :=
    match terminal_row db orderId with
    | Some (ty, o) => reference db ty (Some o)
    | None => None
    end in
  match terminalReference, reservationReference with
  | Some t, _ =>
      mkCreditStatus orderId
        (if bool_decide (tr_type t = OpTransfer) then TRANSFERRED else RELEASED)
        None None (Some (tr_occurredAt t)) reservationReference (Some t)
  | None, Some r =>
      mkCreditStatus orderId CREDIT_RESERVED None None (Some (tr_occurredAt r)) (Some r) None
  | None, None =>
      mkCreditStatus orderId NONE
        (Some (match reservation with
               | Some o => if bool_decide (o_outcome o = Rejected) then NoneRejected
                           else NoneInFlight
               | None => NoneUnknown
               end))
        (match reservation with Some o => o_rejection o | None => None end)
        (match reservation with Some o => Some (iso (o_createdAt o)) | None => None end)
        None None
  end.

(** [CreditStatusService.status]. [validOrderId] is the service's zod pattern over the trimmed
    value. *)
Definition creditStatus (validOrderId : string -> option string) (orderIdValue : string)
    (db : CreditDb) : outcome OrderCreditStatus :=
  match validOrderId orderIdValue with
  | None => Throw (ApiException 400 "INVALID_ORDER_ID")
  | Some orderId => Ok (orderStatus orderId db)
  end.

(** ** The ledger of one wallet *)

Record LedgerItem := mkLedgerItem {
  li_transactionId : string; li_type : TransactionType; li_amount : Z; li_orderId : option string;
  li_at : Z;  (** the row's [occurred_at], to the microsecond *)
  li_available : Z; li_reserved : Z; li_totalChange : Z }.

Definition li_occurredAt (x : LedgerItem) : Z := iso (li_at x).
Definition li_total (x : LedgerItem) : Z := li_available x + li_reserved x.

(** The wallet's entries of one transaction, and the one [DISTINCT ON … ORDER BY entry_no DESC] keeps. *)
Definition entries_of (u tid : string) (l : list Entry) : list Entry :=
  List.filter (fun x => String.eqb (e_txn x) tid && bool_decide (e_wallet x = Some u)) l.
Definition last_entry (l : list Entry) : option Entry :=
  foldr (fun x best => match best with
                       | Some y => if e_no y <? e_no x then Some x else Some y
                       | None => Some x
                       end) None l.

Definition activity (u : string) (db : CreditDb) : list LedgerItem :=
  omap (fun t =>
    let mine := entries_of u (t_id t) (ledger db) in
    match last_entry mine with
    | Some x => Some (mkLedgerItem (t_id t) (t_type t) (t_amount t) (t_orderId t) (t_occurredAt t)
                        (default 0 (e_resAvailable x)) (default 0 (e_resReserved x))
                        (sumZ signed mine))
    | None => None
    end) (transactions db).

(** A cursor is a time and a transaction. *)
Definition LedgerKey : Type := TimeKey.

Definition ledger_key (x : LedgerItem) : LedgerKey := (li_at x, li_transactionId x).
(** [encodeCursor({ occurredAt: last.occurredAt, … })]: the time the row reports, in milliseconds. *)
Definition encode_ledger_key (k : LedgerKey) : LedgerKey := (iso k.1, k.2).

Definition ledger_rows (u : string) (db : CreditDb) : list LedgerItem :=
  order_by (fun a b => newest_first (ledger_key a) (ledger_key b)) (activity u db).

Definition listLedger (u : string) (limit : nat) (cursor : option LedgerKey) (db : CreditDb)
  : list LedgerItem * bool :=
  page ledger_key newest_first limit cursor (ledger_rows u db).

(** ** wallets.service.ts *)

(** The query's [cursor]: absent or empty, not a cursor, or one. *)
Inductive CursorValue := NoCursor | BadCursor | Cursor (k : LedgerKey).
(** The query's [limit]: absent, not a number, or the number it coerces to. *)
Inductive LimitValue := NoLimit | BadLimit | Limit (z : Z).

Definition decodeCursor (c : CursorValue) : outcome (option LedgerKey) :=
  match c with
  | NoCursor => Ok None
  | BadCursor => Throw (ApiException 400 "INVALID_CURSOR")
  | Cursor k => Ok (Some k)
  end.

Definition parseLimit (v : LimitValue) : outcome nat :=
  match v with
  | NoLimit => Ok 20%nat
  | BadLimit => Throw (ApiException 400 "INVALID_PAGE_SIZE")
  | Limit z => if (1 <=? z) && (z <=? 100) then Ok (Z.to_nat z)
               else Throw (ApiException 400 "INVALID_PAGE_SIZE")
  end.

Definition wallet (u : string) (db : CreditDb) : outcome WalletView :=
  match findWallet u db with
  | Some w => Ok w
  | None => Throw (ApiException 404 "WALLET_NOT_FOUND")
  end.

Record LedgerPage := mkLedgerPage { lp_items : list LedgerItem; lp_nextCursor : option LedgerKey }.

Definition ledgerPage (u : string) (limitValue : LimitValue) (cursorValue : CursorValue)
    (db : CreditDb) : outcome LedgerPage :=
  match wallet u db with
  | Throw x => Throw x
  | Ok _ =>
      match parseLimit limitValue with
      | Throw x => Throw x
      | Ok limit =>
          match decodeCursor cursorValue with
          | Throw x => Throw x
          | Ok cursor =>
              let p := listLedger u limit cursor db in
              Ok (mkLedgerPage (fst p) (next_cursor ledger_key encode_ledger_key p))
          end
      end
  end.

(** A reader that follows [nextCursor] from the first page; [Ok None] when the fuel ran out. *)
Fixpoint readLedger (fuel : nat) (u : string) (limit : Z) (cursor : CursorValue) (db : CreditDb)
  : outcome (option (list LedgerItem)) :=
  match fuel with
  | O => Ok None
  | Datatypes.S fuel' =>
      match ledgerPage u (Limit limit) cursor db with
      | Throw x => Throw x
      | Ok p =>
          match lp_nextCursor p with
          | None => Ok (Some (lp_items p))
          | Some k =>
              match readLedger fuel' u limit (Cursor k) db with
              | Ok (Some rest) => Ok (Some (lp_items p ++ rest))
              | other => other
              end
          end
      end
  end.

(** ** Watching the admins (admin-activity.ts) *)

Record ActivityAlert := mkActivityAlert {
  aa_id : string; aa_actor : string; aa_walletsInLastHour : Z; aa_threshold : Z;
  aa_occurredAt : Z }.

Definition hour_micros : Z := 3600000000.

(** [count(DISTINCT target_user_id) … WHERE admin_user_id = $1 AND occurred_at > now() - 1 hour]. *)
Definition walletsInLastHour (admin : string) (at_ : Z) (reads : list AdminRead) : Z :=
  Z.of_nat (length (remove_dups (ar_target <$> List.filter
    (fun r => String.eqb (ar_admin r) admin && (at_ - hour_micros <? ar_occurredAt r)) reads))).

Definition alerted_recently (admin : string) (at_ : Z) (raised : list ActivityAlert) : bool :=
  existsb (fun a => String.eqb (aa_actor a) admin && (at_ - hour_micros <? aa_occurredAt a)) raised.

(** The read's count and the alert's transaction may see different clocks. *)
Definition afterWalletRead (threshold : Z) (admin : string) (countedAt at_ : Z) (id : string)
    (reads : list AdminRead) (raised : list ActivityAlert) : list ActivityAlert :=
  let n := walletsInLastHour admin countedAt reads in
  if n <? threshold then raised
  else if alerted_recently admin at_ raised then raised
  else raised ++ [mkActivityAlert id admin n threshold at_].

(** ** The ledger audit (ledger-audit.service.ts) *)

Inductive AuditOrigin := SCHEDULED | MANUAL | CLI.
Inductive AuditStatus := PASS | MISMATCH | ERROR.
#[export] Instance AuditOrigin_eq_dec : EqDecision AuditOrigin.
Proof. solve_decision. Defined.

Record AuditRun := mkAuditRun {
  au_runId : string; au_origin : AuditOrigin; au_requestedBy : option string;
  au_scheduledDay : option Z; au_status : AuditStatus; au_mismatchCount : option nat;
  au_results : list (string * list Violation) }.

Definition AUDIT_CHECKS : list (string * (CreditDb -> list Violation)) :=
  CREDIT_INVARIANTS ++ [("wallet balances agree with their ledger", walletLedgerViolations)].

(** [to_char(now() AT TIME ZONE 'UTC', 'YYYY-MM-DD')], as the day's number. *)
Definition utc_day (at_ : Z) : Z := at_ / day_micros.

Definition scheduled_on (d : Z) (runs : list AuditRun) : bool :=
  existsb (fun r => bool_decide (au_scheduledDay r = Some d)) runs.

Definition completed_run (runId : string) (origin : AuditOrigin) (by_ : option string)
    (day_ : option Z) (results : list (string * list Violation)) : AuditRun :=
  let count := length (concat results.*2) in
  mkAuditRun runId origin by_ day_ (if Nat.eqb count 0 then PASS else MISMATCH) (Some count) results.

(** [run]. [acquired] is what the advisory lock answers; [fails] is whether the audit's transaction
    throws and [stored] whether the [ERROR] row could be written after it. *)
Definition runAudit (acquired : bool) (fails stored : bool) (runId : string) (origin : AuditOrigin)
    (by_ : option string) (at_ : Z) (db : CreditDb) (runs : list AuditRun)
  : outcome (option AuditRun) * list AuditRun :=
  if fails then
    (Throw (ApiException 503 "LEDGER_AUDIT_FAILED"),
     if stored then runs ++ [mkAuditRun runId origin by_ None ERROR None []] else runs)
  else if negb acquired then (Ok None, runs)
  else
    let day_ := if bool_decide (origin = SCHEDULED) then Some (utc_day at_) else None in
    match day_ with
    | Some d =>
        if scheduled_on d runs then (Ok None, runs) else
        let r := completed_run runId origin by_ day_ (map (fun nc => (nc.1, nc.2 db)) AUDIT_CHECKS) in
        (Ok (Some r), runs ++ [r])
    | None =>
        let r := completed_run runId origin by_ day_ (map (fun nc => (nc.1, nc.2 db)) AUDIT_CHECKS) in
        (Ok (Some r), runs ++ [r])
    end.
