(* ===== verification/CreditLive.v ===== *)
(** * CreditLive: the Credit Service's methods succeed when they should

    The effects of CreditEffects say what a successful run did; here the methods are run forward:
    with fresh identifiers, a well-formed request against an active reservation settles, and a
    request already decided is answered again. *)
From S2P Require Export CreditService.

Section Live.
Context `{Zod}.

Lemma insertOutboxEvent_run ev e n (db : CreditDb) f p :
  assoc (ne_eventType ev) PAYLOAD_SCHEMAS = Some f -> f (ne_payload ev) = Some p ->
  (forall r, r ∈ ob_rows (creditOutbox db) -> ob_id r <> env_uuid e n) ->
  insertOutboxEvent ev e (n, db)
  = Ok (env_uuid e n, (Datatypes.S n,
      set_creditOutbox (append_row (new_row (env_uuid e n) (ob_nextSeq (creditOutbox db))
                                      (env_now e) ev p) (creditOutbox db)) db)).
Proof. intros Hf Hp Hr. exact (insertOutboxEvent_succeeds ev e n db f p Hf Hp Hr). Qed.

(** ** The bounds a reachable wallet gives *)

Section Invariant.
Context (db : CreditDb) (I : CreditInv db).

(** An open order's reserved credits are in its requester's wallet. *)
Lemma reserved_backs i r w :
  active_reservation db i r -> no_terminal db (ci_orderId i) ->
  wallets db !! ci_requesterId i = Some w -> ci_amount i <= w_reserved w.
Proof.
  intros (Hr & Hsu & _ & Hreq & Ham) Hno Hw.
  destruct (inv_ops db I) as (Hops & _ & _). destruct (Hops _ _ _ Hr) as (_ & _ & Hmade & _).
  destruct (Hmade Hsu) as (t0 & Ht0 & Ho0 & Hty0 & Hw0 & Ham0 & _).
  rewrite <- (inv_backed db I _ _ Hw). destruct (inv_txns db I) as [_ Hpos].
  transitivity (open_amount (transactions db) (ci_requesterId i) t0).
  - unfold open_amount, is_reserve. rewrite Hty0, Hw0, Hreq, !bool_decide_true by done.
    rewrite (unsettled db t0 (ci_orderId i)); [simpl; lia|done|].
    by apply no_terminal_unsettled.
  - apply (sumZ_elem_le (open_amount (transactions db) (ci_requesterId i))); [|done].
    intros t Ht. unfold open_amount. destruct (Hpos t Ht). case_match; lia.
Qed.

Lemma active_amount_pos i r : active_reservation db i r -> 0 < ci_amount i.
Proof.
  intros (Hr & Hsu & _ & _ & Ham). destruct (inv_ops db I) as (Hops & _ & _).
  destruct (Hops _ _ _ Hr) as (_ & _ & Hmade & _). destruct (Hmade Hsu) as (t0 & Ht0 & HT).
  destruct HT as (_ & _ & _ & Ht & _). destruct (inv_txns db I) as [_ Hpos].
  destruct (Hpos t0 Ht0). lia.
Qed.

(** A settling transaction passes every constraint of its table. *)
Lemma terminal_txn_ok tid o ty u a at_ :
  new_txn_id db tid -> no_terminal db o -> is_terminal ty = true ->
  in_int4 a = true -> 0 < a -> is_Some (wallets db !! u) ->
  txn_ok db (mkTxn tid (Some o) ty (Some u) a at_) = true.
Proof.
  intros [Hf Hne] Hno Hty Hint Ha [w Hw]. unfold txn_ok. simpl. rewrite Hint, Hf, Hne. simpl.
  rewrite (proj2 (Z.ltb_lt 0 a) Ha). simpl. unfold has_wallet. rewrite Hw. simpl.
  rewrite andb_true_r, !andb_true_iff, !negb_true_iff, !existsb_false.
  assert (forall x, x ∈ transactions db ->
    same_order (t_orderId x) (Some o) && is_terminal (t_type x) = false) as Hnone.
  { intros x Hx. destruct (t_orderId x) as [o'|] eqn:Ho; simpl; [|done].
    destruct (String.eqb_spec o' o) as [->|]; simpl; [|done].
    by apply (no_terminal_unsettled db I o Hno x). }
  repeat split; intros x Hx; specialize (Hnone x Hx).
  - destruct (bool_decide (t_type x = ty)) eqn:Heq; [|by rewrite andb_false_r].
    apply bool_decide_eq_true in Heq. rewrite Heq, Hty, andb_true_r in Hnone. by rewrite Hnone.
  - assert (bool_decide (ty = ISSUE) = false) as ->; [|by rewrite andb_false_r].
    apply bool_decide_eq_false. by intros ->.
  - by rewrite Hty, andb_true_r.
Qed.

(** The first of two entries of a fresh transaction passes its constraints. *)
Lemma entry_id_ok (id : string) l :
  (forall x, x ∈ l -> e_id x <> id) ->
  existsb (fun y => String.eqb (e_id y) id) l = false.
Proof. intros Hf. apply existsb_false. intros x Hx. apply String.eqb_neq. auto. Qed.

Lemma entry_key_ok tid k :
  has_txn db tid = false ->
  existsb (fun y => String.eqb (e_txn y) tid && (e_no y =? k)) (ledger db) = false.
Proof.
  intros Hf. apply existsb_false. intros x Hx. destruct (inv_refs db I) as (_ & Hr & _).
  specialize (Hr x Hx). destruct (String.eqb_spec (e_txn x) tid); [congruence|done].
Qed.
End Invariant.

Lemma wallet_ok_bounds w :
  wallet_ok w = true -> 0 <= w_available w <= INT4_MAX /\ 0 <= w_reserved w <= INT4_MAX.
Proof. unfold wallet_ok, in_int4. rewrite !andb_true_iff, !Z.leb_le. lia. Qed.

Lemma wallet_ok_intro w :
  0 <= w_available w <= INT4_MAX -> 0 <= w_reserved w <= INT4_MAX -> wallet_ok w = true.
Proof.
  unfold wallet_ok, in_int4, INT4_MIN. rewrite !andb_true_iff, !Z.leb_le. lia.
Qed.

Lemma int4_pos a : 0 < a <= INT4_MAX -> in_int4 a = true.
Proof. unfold in_int4, INT4_MIN. rewrite andb_true_iff, !Z.leb_le. lia. Qed.

Lemma balance_ok w : wallet_ok w = true -> resultingBalance_ok (balance w) = true.
Proof.
  intros Hw%wallet_ok_bounds. unfold resultingBalance_ok, zint_nonnegative, zint, balance,
    MAX_SAFE_INTEGER, INT4_MAX in *. simpl.
  rewrite !andb_true_iff, !Z.leb_le, Z.eqb_eq. lia.
Qed.

(** What the request schemas guarantee of a request that reaches a handler. *)
Definition request_ok (i : CreditInput) : Prop := movement_ok (movement i) = true.

Lemma entry_ok_intro db x :
  in_int4 (e_amount x) = true -> 0 < e_amount x ->
  e_resAvailable x <> None -> e_resReserved x <> None -> e_wallet x <> None ->
  optP (e_resAvailable x) (fun a => 0 <=? a) = true ->
  optP (e_resReserved x) (fun a => 0 <=? a) = true ->
  existsb (fun y => String.eqb (e_id y) (e_id x)) (ledger db) = false ->
  existsb (fun y => String.eqb (e_txn y) (e_txn x) && (e_no y =? e_no x)) (ledger db) = false ->
  has_txn db (e_txn x) = true -> optP (e_wallet x) (has_wallet db) = true ->
  entry_ok db x = true.
Proof.
  intros Hi Ha Hr1 Hr2 Hw Ho1 Ho2 Hid Hk Ht Hwal. unfold entry_ok.
  rewrite Hi, (proj2 (Z.ltb_lt _ _) Ha), Ho1, Ho2, Hid, Hk, Ht, Hwal.
  by destruct (e_resAvailable x), (e_resReserved x), (e_wallet x).
Qed.

(** The two ledger entries of a fresh transaction, written one after the other. *)
Lemma insert_entries_run db tid e n x1 x2 :
  (forall x, x ∈ ledger db -> e_id x <> e_id x1) -> (forall x, x ∈ ledger db -> e_id x <> e_id x2) ->
  e_id x1 <> e_id x2 -> (forall x, x ∈ ledger db -> e_txn x <> tid) ->
  e_txn x1 = tid -> e_txn x2 = tid -> e_no x1 = 1 -> e_no x2 = 2 ->
  has_txn db tid = true ->
  (forall x, x = x1 \/ x = x2 ->
    in_int4 (e_amount x) = true /\ 0 < e_amount x
    /\ exists a r u, e_resAvailable x = Some a /\ e_resReserved x = Some r /\ e_wallet x = Some u
                    /\ 0 <= a /\ 0 <= r /\ has_wallet db u = true) ->
  insert_entry x1 e (n, db) = Ok (tt, (n, set_ledger (ledger db ++ [x1]) db))
  /\ insert_entry x2 e (n, set_ledger (ledger db ++ [x1]) db)
     = Ok (tt, (n, set_ledger ((ledger db ++ [x1]) ++ [x2]) (set_ledger (ledger db ++ [x1]) db))).
Proof.
  intros Hi1 Hi2 Hne Ht Ht1 Ht2 Hn1 Hn2 Htx Hboth.
  split; apply insert_entry_ok; split; try done.
  - destruct (Hboth x1) as (? & ? & a & r & u & Ha & Hr & Hu & ? & ? & ?); [auto|].
    apply entry_ok_intro; rewrite ?Ha, ?Hr, ?Hu, ?Ht1; simpl; try done; try by apply Z.leb_le.
    + by apply entry_id_ok.
    + apply existsb_false. intros x Hx. destruct (String.eqb_spec (e_txn x) tid); [|done].
      by destruct (Ht x Hx).
  - destruct (Hboth x2) as (? & ? & a & r & u & Ha & Hr & Hu & ? & ? & ?); [auto|].
    apply entry_ok_intro; rewrite ?Ha, ?Hr, ?Hu, ?Ht2; simpl; try done; try by apply Z.leb_le.
    + rewrite existsb_app. simpl. rewrite (entry_id_ok _ (ledger db)) by done.
      by rewrite (proj2 (String.eqb_neq _ _)).
    + rewrite existsb_app. simpl. rewrite Hn1, Hn2. simpl. rewrite andb_false_r, orb_false_r.
      apply existsb_false. intros x Hx. destruct (String.eqb_spec (e_txn x) tid); [|done].
      by destruct (Ht x Hx).
Qed.

Lemma fresh_txn_entries db e n k :
  CreditInv db -> fresh_ids e n db -> (n <= k)%nat ->
  forall x, x ∈ ledger db -> e_txn x <> env_uuid e k.
Proof.
  intros I F Hk x Hx Heq. destruct (inv_refs db I) as (_ & Hr & _). specialize (Hr x Hx).
  rewrite Heq, (fresh_txn _ _ _ F k Hk) in Hr. done.
Qed.

Lemma request_parts i :
  request_ok i ->
  nonempty (ci_orderId i) = true /\ nonempty (ci_requesterId i) = true
  /\ zint_positive (ci_amount i) = true.
Proof. unfold request_ok, movement_ok. simpl. rewrite !andb_true_iff. tauto. Qed.

Lemma no_terminal_conflict db o ty :
  no_terminal db o -> terminal_type ty = true -> op_conflict db o ty = false.
Proof. intros [Hr Ht]. unfold op_conflict. destruct ty; simpl; try done; by rewrite Hr, Ht. Qed.

(** What a terminal request starts from. *)
Lemma lock_and_validate i r db e n c ty :
  active_reservation db i r ->
  lockReservation (ci_orderId i) e (n, db) = Ok (r, (n, db))
  /\ validateReservation r i c ty e (n, db) = Ok (None, (n, db)).
Proof.
  intros (Hr & Hsu & Htx & Hreq & Ham). split.
  - apply lockReservation_ok. split; [done|]. split; [done|]. by rewrite Hsu.
  - unfold validateReservation. rewrite Hsu, Htx, Hreq, Ham, bool_decide_true by done.
    by rewrite String.eqb_refl, Z.eqb_refl.
Qed.

Lemma txn_ok_frame d d' t :
  transactions d' = transactions d -> optP (t_wallet t) (has_wallet d') = true ->
  txn_ok d t = true -> txn_ok d' t = true.
Proof.
  unfold txn_ok, has_txn. intros -> ->. rewrite !andb_true_iff. tauto.
Qed.

Lemma has_txn_new t tid l db :
  t_id t = tid -> has_txn (set_ledger l (set_transactions (transactions db ++ [t]) db)) tid = true.
Proof.
  intros <-. unfold has_txn. simpl. rewrite existsb_app. simpl.
  by rewrite String.eqb_refl, orb_true_r.
Qed.

Lemma released_valid i tid w :
  request_ok i -> zod_uuid tid = true -> wallet_ok w = true ->
  creditsReleasedPayload (ReleasedP (movement i) tid (balance w))
  = Some (ReleasedP (movement i) tid (balance w)).
Proof. intros Hr Hu Hw. unfold creditsReleasedPayload. by rewrite Hr, Hu, (balance_ok w Hw). Qed.

Lemma transferred_valid i c tid w cw :
  request_ok i -> nonempty c = true -> zod_uuid tid = true ->
  wallet_ok w = true -> wallet_ok cw = true ->
  creditsTransferredPayload (TransferredP (movement i) c tid (balance w) (balance cw))
  = Some (TransferredP (movement i) c tid (balance w) (balance cw)).
Proof.
  intros Hr Hc Hu Hw Hcw. unfold creditsTransferredPayload.
  by rewrite Hr, Hc, Hu, (balance_ok w Hw), (balance_ok cw Hcw).
Qed.

(** The two entries of the transaction just written, under its first identifier. *)
Ltac run_entries e n F I :=
  edestruct insert_entries_run with (tid := env_uuid e n) as [He1 He2];
  [..|eapply bind_step; [exact He1|]; eapply bind_step; [exact He2|]];
  [ intros ? ?; apply (fresh_entry _ _ _ F); [lia|done]
  | intros ? ?; apply (fresh_entry _ _ _ F); [lia|done]
  | intros Heq; apply (fresh_inj _ _ _ F) in Heq; lia
  | apply (fresh_txn_entries _ _ _ _ I F); lia
  | reflexivity | reflexivity | reflexivity | reflexivity
  | unfold has_txn; simpl; rewrite existsb_app; simpl; by rewrite String.eqb_refl, orb_true_r
  |
  | clear He1 He2 ].

(** Finalizing the operation claimed above: it is pending, and its transaction exists. *)
Ltac run_finish :=
  eapply bind_step;
  [ eapply update_op_hit; [apply lookup_insert_eq|reflexivity|reflexivity|] |].

Lemma release_run i r w db e n :
  CreditInv db -> fresh_ids e n db -> request_ok i -> active_reservation db i r ->
  no_terminal db (ci_orderId i) -> wallets db !! ci_requesterId i = Some w ->
  in_int4 (w_available w + ci_amount i) = true ->
  exists out n' db', release no_fault i e (n, db) = Ok (Settled out, (n', db')).
Proof.
  intros I F Hreq Hact Hno Hw Hcap.
  pose proof (reserved_backs db I i r w Hact Hno Hw) as Hback.
  pose proof (active_amount_pos db I i r Hact) as Hpos.
  destruct (inv_agrees db I _ _ Hw) as (Hwok & _). pose proof (wallet_ok_bounds _ Hwok) as Hb.
  assert (in_int4 (ci_amount i) = true) as Hint by (apply int4_pos; lia).
  assert (wallet_ok (release_wallet i w (env_now e)) = true) as Hwok'.
  { apply wallet_ok_intro; simpl; [|lia]. unfold in_int4 in Hcap. rewrite andb_true_iff, !Z.leb_le in Hcap. lia. }
  destruct (lock_and_validate i r db e n None OpRelease Hact) as [Hlock Hval].
  do 3 eexists. unfold release.
  eapply bind_step; [exact Hlock|]. run_plain. eapply bind_step; [exact Hval|]. cbv beta iota.
  eapply bind_step; [unfold findTerminalOperation, gets; simpl;
                     destruct Hno as [-> ->]; reflexivity|]. cbv beta iota.
  run_plain.
  eapply bind_step.
  { apply insert_op_ok. split; [|split; [by apply no_terminal_conflict|reflexivity]].
    unfold op_ok. simpl. rewrite Hint. by rewrite (proj2 (Z.ltb_lt 0 _) Hpos). }
  run_plain.
  eapply bind_step; [apply update_wallet_hit; [exact Hw|by apply Z.leb_le|exact Hwok']|]. cbv beta iota.
  run_plain. run_plain.
  eapply bind_step.
  { apply insert_transaction_ok. split; [|reflexivity].
    apply (txn_ok_frame db); [done| |].
    - simpl. unfold has_wallet. simpl. by rewrite lookup_insert_eq.
    - apply terminal_txn_ok; auto. split; [by apply (fresh_txn _ _ _ F)|by apply (fresh_nonempty _ _ _ F)]. }
  run_plain. run_plain. run_plain. cbn [fst snd].
  run_entries e n F I.
  { intros x [->| ->]; simpl; (split; [done|]); (split; [done|]); do 3 eexists;
      repeat (split; [reflexivity || lia|]); unfold has_wallet; simpl; by rewrite lookup_insert_eq. }
  run_plain. unfold finishTerminal. run_finish.
  { unfold op_ok. simpl. rewrite Hint, (proj2 (Z.ltb_lt 0 _) Hpos). simpl.
    unfold has_txn. simpl. rewrite existsb_app. simpl. by rewrite String.eqb_refl, orb_true_r. }
  run_plain. unfold writeReleaseOutcome. eapply bind_step.
  { eapply bind_step; [|reflexivity]. eapply insertOutboxEvent_run; [reflexivity| |].
    - apply (released_valid i _ (release_wallet i w (env_now e))); [done| |done].
      apply (fresh_uuid _ _ _ F). lia.
    - simpl. intros x Hx. apply (fresh_outbox _ _ _ F); [lia|done]. }
  run_plain. reflexivity.
Qed.

Lemma transfer_run i c r w cw db e n :
  CreditInv db -> fresh_ids e n db -> request_ok i -> nonempty c = true ->
  active_reservation db i r -> ci_requesterId i <> c ->
  no_terminal db (ci_orderId i) -> wallets db !! ci_requesterId i = Some w ->
  wallets db !! c = Some cw -> in_int4 (w_available cw + ci_amount i) = true ->
  exists out n' db', transfer no_fault i c e (n, db) = Ok (Settled out, (n', db')).
Proof.
  intros I F Hreq Hc Hact Hne Hno Hw Hcw Hcap.
  pose proof (reserved_backs db I i r w Hact Hno Hw) as Hback.
  pose proof (active_amount_pos db I i r Hact) as Hpos.
  destruct (inv_agrees db I _ _ Hw) as (Hwok & _). pose proof (wallet_ok_bounds _ Hwok) as Hb.
  destruct (inv_agrees db I _ _ Hcw) as (Hcok & _). pose proof (wallet_ok_bounds _ Hcok) as Hcb.
  assert (in_int4 (ci_amount i) = true) as Hint by (apply int4_pos; lia).
  assert (wallet_ok (transfer_debit i w (env_now e)) = true) as Hwok'
    by (apply wallet_ok_intro; simpl; lia).
  assert (wallet_ok (transfer_credit i cw (env_now e)) = true) as Hcok'.
  { apply wallet_ok_intro; simpl; [|lia]. unfold in_int4 in Hcap. rewrite andb_true_iff, !Z.leb_le in Hcap. lia. }
  destruct (lock_and_validate i r db e n (Some c) OpTransfer Hact) as [Hlock Hval].
  do 3 eexists. unfold transfer.
  eapply bind_step; [exact Hlock|]. run_plain. eapply bind_step; [exact Hval|]. cbv beta iota.
  rewrite (proj2 (String.eqb_neq _ _) Hne).
  eapply bind_step; [unfold findTerminalOperation, gets; simpl;
                     destruct Hno as [-> ->]; reflexivity|]. cbv beta iota.
  run_plain.
  assert (has_wallet db c = true) as Hhc by (unfold has_wallet; by rewrite Hcw).
  assert (has_wallet db (ci_requesterId i) = true) as Hhr by (unfold has_wallet; by rewrite Hw).
  unfold id. cbn [snd]. rewrite Hhc, Hhr. run_plain. run_plain. run_plain.
  eapply bind_step.
  { apply insert_op_ok. split; [|split; [by apply no_terminal_conflict|reflexivity]].
    unfold op_ok, has_wallet. simpl. rewrite Hint, Hcw. by rewrite (proj2 (Z.ltb_lt 0 _) Hpos). }
  run_plain.
  eapply bind_step; [apply update_wallet_hit; [exact Hw|by apply Z.leb_le|exact Hwok']|]. cbv beta iota.
  run_plain.
  eapply bind_step; [apply update_wallet_hit;
    [simpl; rewrite lookup_insert_ne by done; exact Hcw|reflexivity|exact Hcok']|]. cbv beta iota.
  run_plain. run_plain.
  eapply bind_step.
  { apply insert_transaction_ok. split; [|reflexivity].
    apply (txn_ok_frame db); [done| |].
    - simpl. unfold has_wallet. simpl. by rewrite lookup_insert_ne, lookup_insert_eq by done.
    - apply terminal_txn_ok; auto. split; [by apply (fresh_txn _ _ _ F)|by apply (fresh_nonempty _ _ _ F)]. }
  run_plain. run_plain. run_plain. cbn [fst snd].
  run_entries e n F I.
  { intros x [->| ->]; simpl; (split; [done|]); (split; [done|]); do 3 eexists;
      repeat (split; [reflexivity || lia|]); unfold has_wallet; simpl;
      [by rewrite lookup_insert_ne, lookup_insert_eq by done|by rewrite lookup_insert_eq]. }
  run_plain. unfold finishTerminal. run_finish.
  { unfold op_ok, has_wallet. simpl. rewrite lookup_insert_eq, Hint, (proj2 (Z.ltb_lt 0 _) Hpos). simpl.
    unfold has_txn. simpl. rewrite existsb_app. simpl. by rewrite String.eqb_refl, orb_true_r. }
  run_plain. unfold writeTransferOutcome. eapply bind_step.
  { eapply bind_step; [|reflexivity]. eapply insertOutboxEvent_run; [reflexivity| |].
    - apply (transferred_valid i c _ (transfer_debit i w (env_now e))
               (transfer_credit i cw (env_now e))); try done.
      apply (fresh_uuid _ _ _ F). lia.
    - simpl. intros x Hx. apply (fresh_outbox _ _ _ F); [lia|done]. }
  run_plain. reflexivity.
Qed.

(** ** A decided reservation answers again *)

Lemma reserve_recorded fault i e n db out n' db' :
  reserve fault i e (n, db) = Ok (out, (n', db')) ->
  exists o, operations db' !! (ci_orderId i, OpReserve) = Some o /\ replay_answer o i = Some out.
Proof.
  intros Hrun. apply reserve_ok in Hrun as (_ & _ & _ & Hcase).
  destruct Hcase as [out' _ Hrep|reason av _ _ Hs|w tid e1 e2 _ _ _ _ _ _ Hs].
  - pose proof (replayOrRejectConflict_same _ _ _ _ _ _ _ Hrep) as (_ & _ & _ & Hops & _).
    rewrite Hops. by apply replay_answered in Hrep as [_ ?].
  - destruct Hs as (_ & _ & _ & Hops & _). rewrite Hops. simpl. rewrite lookup_insert_eq.
    eexists. split; [done|]. unfold replay_answer. simpl. by rewrite String.eqb_refl, Z.eqb_refl.
  - destruct Hs as (_ & _ & _ & Hops & _). rewrite Hops. simpl. rewrite lookup_insert_eq.
    eexists. split; [done|]. unfold replay_answer. simpl. by rewrite String.eqb_refl, Z.eqb_refl.
Qed.

Definition replied (i : CreditInput) (out : ReservationOutcomeT) (db db' : CreditDb) : Prop :=
  exists row, ob_rows (creditOutbox db') = ob_rows (creditOutbox db) ++ [row]
    /\ ob_eventType row = ne_eventType (reply_event i out)
    /\ ob_aggregateId row = ci_orderId i /\ ob_publishedAt row = None.

Lemma writeOutcome_run i out e n db :
  reply_valid i out ->
  (forall r, r ∈ ob_rows (creditOutbox db) -> ob_id r <> env_uuid e n) ->
  exists n' db', writeOutcome i out e (n, db) = Ok (tt, (n', db'))
    /\ same_economy db db' /\ replied i out db db'.
Proof.
  intros (f & p & Hf & Hp) Hfresh. pose proof (insertOutboxEvent_run _ e n db f p Hf Hp Hfresh) as Hi.
  do 2 eexists. split; [|split].
  - destruct out; (eapply bind_step; [exact Hi|reflexivity]).
  - done.
  - eexists. split; [reflexivity|]. by destruct out.
Qed.

Lemma replay_run i o out db e n :
  operations db !! (ci_orderId i, OpReserve) = Some o -> replay_answer o i = Some out ->
  reply_valid i out -> fresh_ids e n db ->
  exists n' db', replayOrRejectConflict i e (n, db) = Ok (out, (n', db'))
    /\ same_economy db db' /\ replied i out db db'.
Proof.
  intros Ho Ha Hv F. unfold replayOrRejectConflict, replay_answer in *.
  unfold bind at 1, gets. cbn [snd]. rewrite Ho.
  destruct (_ || _).
  - injection Ha as <-.
    destruct (writeOutcome_run i (RejectedR CONFLICTING_REQUEST None) e (Datatypes.S n)
      (set_alerts (alerts db ++ [mkAlert (env_uuid e n) (ci_orderId i) OpReserve ConflictingRequest
         (RecordedReservation (o_requester o) (o_amount o))
         (mkReceived None (ci_requesterId i) None (ci_amount i)) (ci_correlationId i) (env_now e)])
         db)) as (n' & db' & Hw & Hs & Hr); [done| |].
    + intros r Hr. apply (fresh_outbox _ _ _ F); [lia|done].
    + exists n', db'. split; [|done].
      run_plain. run_plain.
      eapply bind_step; [apply insert_alert_succeeds; intros x Hx; by apply (fresh_alert _ _ _ F)|].
      eapply bind_step; [exact Hw|reflexivity].
  - assert (forall r, r ∈ ob_rows (creditOutbox db) -> ob_id r <> env_uuid e n) as Hf
      by (intros; by apply (fresh_outbox _ _ _ F)).
    destruct (writeOutcome_run i out e n db Hv Hf) as (n' & db' & Hw & Hs & Hr).
    exists n', db'. split; [|done].
    destruct (o_outcome o); [done|destruct (o_txn o) as [t|]|destruct (o_rejection o) as [r|]];
      simpl in Ha; simplify_eq; by (eapply bind_step; [exact Hw|reflexivity]).
Qed.
End Live.
