(* ===== verification/CreditLifecycle.v ===== *)
(** * CreditLifecycle: what one step of the service can do to the books

    [effect] lists the changes a step of the service may make to the four tables of the economy:
    nothing, or exactly one issue, refusal, reservation, transfer or release, each with the conditions
    under which it happens. [step_effect] is that no step does anything else. From it follow the
    supply ([supply_effect]) and the abstract lifecycle of an order's credit ([life_effect]). *)
From S2P Require Export CreditReads CreditLive.

Definition same_books (d d' : CreditDb) : Prop :=
  wallets d' = wallets d /\ transactions d' = transactions d /\ ledger d' = ledger d
  /\ operations d' = operations d.

Lemma same_economy_books d d' : same_economy d d' -> same_books d d'.
Proof. unfold same_economy, same_books. tauto. Qed.
#[export] Hint Resolve same_economy_books : foc.

(** What a message asks of the books: a wallet's issue, or an operation of an order. *)
Inductive Subject :=
  | OnWallet
  | OnOrder (ty : OperationType) (i : CreditInput) (courier : option string).

(** [P] is what the step may be about. *)
Inductive effect (alloc : Z) (P : Subject -> Prop) (db : CreditDb) : CreditDb -> Prop :=
  | eff_none db' : same_books db db' -> effect alloc P db db'
  | eff_issue u tid e1 e2 at_ db' :
      P OnWallet ->
      wallets db !! u = None -> 0 < alloc -> wallet_ok (mkWallet alloc 0 at_ at_) = true ->
      new_txn_id db tid -> same_books (issue_post db u alloc tid e1 e2 at_) db' ->
      effect alloc P db db'
  | eff_refused i reason av at_ db' :
      P (OnOrder OpReserve i None) ->
      operations db !! (ci_orderId i, OpReserve) = None ->
      same_books (set_operations (<[(ci_orderId i, OpReserve) := rejected_reserve i reason av at_]>
                                    (operations db)) db) db' ->
      effect alloc P db db'
  | eff_reserved i w tid e1 e2 at_ db' :
      P (OnOrder OpReserve i None) ->
      operations db !! (ci_orderId i, OpReserve) = None -> 0 < ci_amount i ->
      wallets db !! ci_requesterId i = Some w -> ci_amount i <= w_available w ->
      wallet_ok (reserve_wallet i w at_) = true -> new_txn_id db tid ->
      same_books (reserve_post db i w tid e1 e2 at_) db' -> effect alloc P db db'
  | eff_transferred i c r rw cw tid e1 e2 at_ db' :
      P (OnOrder OpTransfer i (Some c)) ->
      active_reservation db i r -> ci_requesterId i <> c -> no_terminal db (ci_orderId i) ->
      0 < ci_amount i ->
      wallets db !! ci_requesterId i = Some rw -> wallets db !! c = Some cw ->
      wallet_ok (transfer_debit i rw at_) = true -> wallet_ok (transfer_credit i cw at_) = true ->
      new_txn_id db tid -> same_books (transfer_post db i c rw cw tid e1 e2 at_) db' ->
      effect alloc P db db'
  | eff_released i r w tid e1 e2 at_ db' :
      P (OnOrder OpRelease i None) ->
      active_reservation db i r -> no_terminal db (ci_orderId i) -> 0 < ci_amount i ->
      wallets db !! ci_requesterId i = Some w -> wallet_ok (release_wallet i w at_) = true ->
      new_txn_id db tid -> same_books (release_post db i w tid e1 e2 at_) db' ->
      effect alloc P db db'.

Section Steps.
Context `{Zod} (alloc : Z).

Section Methods.
Context (P : Subject -> Prop).

Lemma issue_effect u e n db b n' db' :
P OnWallet -> issueInitial alloc u e (n, db) = Ok (b, (n', db')) -> effect alloc P db db'.
Proof.
intros HP Hr. apply issue_ok in Hr as [w _ ->|tid e1 e2 ? ? ? ? ?]; [by apply eff_none|].
eapply eff_issue; eauto with foc.
Qed.

Lemma reserve_effect fault i e n db out n' db' :
P (OnOrder OpReserve i None) -> reserve fault i e (n, db) = Ok (out, (n', db')) -> effect alloc P db db'.
Proof.
intros HP Hr. apply reserve_ok in Hr as (Hpos & _ & _ & [out' _ Hrep|reason av Hc _ Hs|w tid e1 e2 Hc]).
- apply replayOrRejectConflict_same in Hrep. apply eff_none. eauto with foc.
- eapply eff_refused; [done| |eauto with foc]. unfold op_conflict in Hc.
  apply orb_false_iff in Hc as [Hn _]. by destruct (operations db !! _).
- eapply eff_reserved; eauto with foc. unfold op_conflict in Hc.
  apply orb_false_iff in Hc as [Hn _]. by destruct (operations db !! _).
Qed.

Lemma transfer_effect fault i c e n db out n' db' :
P (OnOrder OpTransfer i (Some c)) -> transfer fault i c e (n, db) = Ok (out, (n', db')) -> effect alloc P db db'.
Proof.
intros HP Hr. apply transfer_ok in Hr as [| |]; [apply eff_none; eauto with foc..|].
eapply eff_transferred; eauto with foc.
Qed.

Lemma release_effect fault i e n db out n' db' :
P (OnOrder OpRelease i None) -> release fault i e (n, db) = Ok (out, (n', db')) -> effect alloc P db db'.
Proof.
intros HP Hr. apply release_ok in Hr as [| |]; [apply eff_none; eauto with foc..|].
eapply eff_released; eauto with foc.
Qed.

(** Recording the event first changes no books, so a handler's effect is the delivery's. *)
Lemma effect_processed db rows db' :
effect alloc P (set_creditProcessed rows db) db' -> effect alloc P db db'.
Proof.
intros [d Hs|u tid e1 e2 t d ? ? ? ? ? Hs|i rs av t d ? ? Hs|i w tid e1 e2 t d ? ? ? ? ? ? ? Hs
  |i c r rw cw tid e1 e2 t d ? ? ? ? ? ? ? ? ? ? Hs|i r w tid e1 e2 t d ? ? ? ? ? ? ? Hs].
- by apply eff_none.
- by apply (eff_issue _ _ _ u tid e1 e2 t).
- by apply (eff_refused _ _ _ i rs av t).
- by apply (eff_reserved _ _ _ i w tid e1 e2 t).
- by apply (eff_transferred _ _ _ i c r rw cw tid e1 e2 t).
- by apply (eff_released _ _ _ i r w tid e1 e2 t).
Qed.
End Methods.

Lemma effect_weaken (P Q : Subject -> Prop) db db' :
  (forall o, P o -> Q o) -> effect alloc P db db' -> effect alloc Q db db'.
Proof.
  intros HPQ [d Hs|u tid e1 e2 t d ? ? ? ? ? Hs|i rs av t d ? ? Hs|i w tid e1 e2 t d ? ? ? ? ? ? ? Hs
    |i c r rw cw tid e1 e2 t d ? ? ? ? ? ? ? ? ? ? Hs|i r w tid e1 e2 t d ? ? ? ? ? ? ? Hs].
  - by apply eff_none.
  - apply (eff_issue _ _ _ u tid e1 e2 t); auto.
  - apply (eff_refused _ _ _ i rs av t); auto.
  - apply (eff_reserved _ _ _ i w tid e1 e2 t); auto.
  - apply (eff_transferred _ _ _ i c r rw cw tid e1 e2 t); auto.
  - apply (eff_released _ _ _ i r w tid e1 e2 t); auto.
Qed.

Lemma replayable_effect P consumer handler v e db out db' :
  (forall f n db0 n' db1, handler v f e (n, db0) = Ok (tt, (n', db1)) -> effect alloc P db0 db1) ->
  withReplayableInbox consumer handler v e db = (out, db') -> effect alloc P db db'.
Proof.
  intros Hh Hrun. destruct out as [dup|x].
  - apply withReplayableInbox_ok in Hrun as (s1 & n & [->| ->] & Hh1); apply Hh in Hh1; [done|].
    by eapply effect_processed.
  - apply withReplayableInbox_throw in Hrun as ->. by apply eff_none.
Qed.

(** A handler is one call of the repository, after a guard. *)
Ltac handler_call L :=
  repeat match goal with
  | Hr : (if negb (String.eqb ?a ?b) then _ else _) _ _ = Ok _ |- _ =>
      destruct (String.eqb_spec a b); cbn [negb] in Hr; [|discriminate Hr]
  | Hr : match ?x with _ => _ end _ _ = Ok _ |- _ => destruct x eqn:?; try discriminate Hr
  | Hr : (if ?b then _ else _) _ _ = Ok _ |- _ => destruct b; [discriminate Hr|]
  end;
  match goal with
  | Hr : bind _ _ _ _ = Ok _ |- _ =>
      let b := fresh "b" in let n1 := fresh "n" in let db1 := fresh "d" in let Hi := fresh "Hi" in
      apply bind_ok in Hr as (b & [n1 db1] & Hi & Hr); apply ret_ok in Hr as [= -> ->];
      eapply L; [|exact Hi]; simpl; eauto
  end.

(** What a message can be about: an activation issues, the others ask of the order they name. *)
Definition topic (q : CreditQueue) (v : Envelope) (s : Subject) : Prop :=
  match q, s with
  | Activations, OnWallet => True
  | Reservations, OnOrder OpReserve i None => exists m,
      creditReservationRequestedPayload (payload v) = Some (MovementP m)
      /\ aggregateId v = mv_orderId m /\ i = credit_input v m
  | Completions, OnOrder OpTransfer i (Some c) => exists m,
      orderCompletionRequestedPayload (payload v) = Some (CompletionP m c)
      /\ aggregateId v = mv_orderId m /\ i = credit_input v m
  | Releases, OnOrder OpRelease i None => exists m,
      creditReleaseRequestedPayload (payload v) = Some (MovementP m)
      /\ aggregateId v = mv_orderId m /\ i = credit_input v m
  | _, _ => False
  end.

Lemma topic_order q v ty i c : topic q v (OnOrder ty i c) -> ci_orderId i = aggregateId v.
Proof. destruct q, ty, c; simpl; try done; by intros (m & _ & -> & ->). Qed.

Lemma deliver_effect q v e db out db' :
  deliver alloc q v e db = (out, db') -> effect alloc (topic q v) db db'.
Proof.
  destruct q; simpl.
  - intros Hrun. destruct (inbox db !! (WALLET_QUEUE, eventId v)) as [row|] eqn:Hrow.
    + rewrite withInbox_duplicate in Hrun by eauto. injection Hrun as _ <-. by apply eff_none.
    + destruct out as [dup|x]; [|by apply withInbox_throw in Hrun as ->; apply eff_none].
      apply withInbox_first in Hrun as (_ & n & Hh); [|done].
      eapply effect_processed. revert Hh. unfold handle_activation. intros Hh.
      handler_call issue_effect.
  - apply replayable_effect. unfold handle_reservation. intros f n db0 n' db1 Hh.
    handler_call reserve_effect.
  - apply replayable_effect. unfold handle_completion. intros f n db0 n' db1 Hh.
    handler_call transfer_effect.
  - apply replayable_effect. unfold handle_release. intros f n db0 n' db1 Hh.
    handler_call release_effect.
Qed.

Lemma hearing_effect heard db db' :
  credit_step_hearing alloc heard db db' ->
  effect alloc (fun s => exists q v, heard q v /\ topic q v s) db db'.
Proof.
  intros [q v e out db1 Hq Hd|ad tg res corr e out db1 Ht|opts br lk at_ rows r _|
          rt n wt lo li st at_ db1 counts Hp].
  - eapply effect_weaken; [|by eapply deliver_effect]. eauto.
  - apply eff_none. destruct out as [[]|x]; [|by apply transaction_throw in Ht as ->].
    apply transaction_ok in Ht as (n & Hr). unfold auditAdminRead, insert_adminRead, unique_ in Hr.
    by inv_tx.
  - by apply eff_none.
  - apply eff_none. unfold pruneEventTables in Hp. by repeat case_match; simplify_eq.
Qed.

Lemma step_effect db db' : credit_step alloc db db' -> effect alloc (fun _ => True) db db'.
Proof. intros Hs. eapply effect_weaken; [|by eapply hearing_effect]. done. Qed.

(** ** The supply: every wallet was funded once, with the allocation *)

Definition supply (db : CreditDb) : Prop := held db = alloc * Z.of_nat (size (wallets db)).

Lemma supply_effect P db db' : supply db -> effect alloc P db db' -> supply db'.
Proof.
  unfold supply, held. intros Hsup [d Hs|u tid e1 e2 t d _ Hu ? ? ? Hs|i rs av t d ? ? Hs
    |i w tid e1 e2 t d ? ? ? Hw ? ? ? Hs|i c r rw cw tid e1 e2 t d ? ? Hne ? ? Hrw Hcw ? ? ? Hs
    |i r w tid e1 e2 t d ? ? ? ? Hw ? ? Hs]; destruct Hs as (-> & _); simpl.
  - done.
  - rewrite sum_map_insert_None, map_size_insert_None, Hsup by done. simpl. lia.
  - done.
  - rewrite (sum_map_insert_Some _ _ _ _ _ Hw), map_size_insert_Some, Hsup by eauto. simpl. lia.
  - rewrite (sum_map_insert_Some _ _ c cw) by (by rewrite lookup_insert_ne).
    rewrite (sum_map_insert_Some _ _ _ _ _ Hrw).
    rewrite !map_size_insert_Some, Hsup; [simpl; lia|eauto|].
    rewrite lookup_insert_ne by done. eauto.
  - rewrite (sum_map_insert_Some _ _ _ _ _ Hw), map_size_insert_Some, Hsup by eauto. simpl. lia.
Qed.

Lemma reachable_supply db : credit_reachable alloc db -> supply db.
Proof.
  induction 1 as [|db db' _ IH Hstep].
  - unfold supply, held. simpl. rewrite sum_map_empty, map_size_empty. lia.
  - eapply supply_effect; [done|]. by apply step_effect.
Qed.

(** ** The lifecycle of an order's credit *)

Inductive Life := Unseen | Refused | Held | Paid | Returned.

(** What the lifecycle promises: at most one decision, then at most one settlement. *)
Inductive life_step : Life -> Life -> Prop :=
  | life_refuse : life_step Unseen Refused
  | life_hold : life_step Unseen Held
  | life_pay : life_step Held Paid
  | life_return : life_step Held Returned.

(** The lifecycle state a reported status stands for; an undecided reservation stands for none. *)
Definition life_of (s : OrderCreditStatus) : option Life :=
  match cs_status s, cs_detail s with
  | NONE, Some NoneUnknown => Some Unseen
  | NONE, Some NoneRejected => Some Refused
  | CREDIT_RESERVED, _ => Some Held
  | TRANSFERRED, _ => Some Paid
  | RELEASED, _ => Some Returned
  | _, _ => None
  end.

(** The same, read off the operations table. *)
Definition life_ops (ops : gmap (string * OperationType) Op) (o : string) : Life :=
  match ops !! (o, OpRelease), ops !! (o, OpTransfer), ops !! (o, OpReserve) with
  | Some _, _, _ => Returned
  | None, Some _, _ => Paid
  | None, None, Some r => if bool_decide (o_outcome r = Succeeded) then Held else Refused
  | None, None, None => Unseen
  end.

Lemma reference_settled db o ty op :
  CreditInv db -> operations db !! (o, ty) = Some op -> o_outcome op = Succeeded ->
  exists t, reference db ty (Some op) = Some t /\ tr_type t = ty.
Proof.
  intros I Hop Hsu. destruct (inv_ops db I) as (Hops & _ & _).
  destruct (Hops _ _ _ Hop) as (_ & _ & Hmade & _).
  destruct (Hmade Hsu) as (t & Ht & _ & _ & _ & _ & Hid).
  destruct (inv_txns db I) as [_ Hwf]. destruct (Hwf t Ht) as [_ Hne].
  unfold reference, txn_time. rewrite Hsu, Hid, bool_decide_true by done. simpl. rewrite Hne.
  destruct (List.find _ _) as [t'|] eqn:Hfind; [simpl; eauto|].
  exfalso. eapply List.find_none in Hfind; [|by apply list_elem_of_In].
  by rewrite String.eqb_refl in Hfind.
Qed.

Lemma status_life db o :
  CreditInv db -> life_of (orderStatus o db) = Some (life_ops (operations db) o).
Proof.
  intros I. unfold orderStatus, life_ops, terminal_row. destruct (inv_ops db I) as (Hops & _ & _).
  destruct (operations db !! (o, OpRelease)) as [rel|] eqn:Hrel.
  { destruct (Hops _ _ _ Hrel) as (_ & _ & _ & Hterm). destruct Hterm as (Hsu & _); [done|].
    destruct (reference_settled db o OpRelease rel I Hrel Hsu) as (t & -> & Hty). simpl. by rewrite Hty. }
  destruct (operations db !! (o, OpTransfer)) as [tra|] eqn:Htra;
    cbn [fmap option_fmap option_map].
  { destruct (Hops _ _ _ Htra) as (_ & _ & _ & Hterm). destruct Hterm as (Hsu & _); [done|].
    destruct (reference_settled db o OpTransfer tra I Htra Hsu) as (t & -> & Hty). simpl. by rewrite Hty. }
  destruct (operations db !! (o, OpReserve)) as [res|] eqn:Hres; [|done].
  destruct (Hops _ _ _ Hres) as (Hnp & _).
  destruct (o_outcome res) eqn:Hout; [done| |].
  - destruct (reference_settled db o OpReserve res I Hres Hout) as (t & -> & _). done.
  - unfold reference. rewrite Hout. by rewrite bool_decide_false.
Qed.

Lemma life_ops_insert_other ops o o' ty op :
  o <> o' -> life_ops (<[(o', ty) := op]> ops) o = life_ops ops o.
Proof. intros Hne. unfold life_ops. by rewrite !lookup_insert_ne by congruence. Qed.

(** An effect moves an order's lifecycle by at most one of the promised steps. *)
Lemma life_effect P db db' o :
  CreditInv db -> effect alloc P db db' ->
  life_ops (operations db') o = life_ops (operations db) o
  \/ life_step (life_ops (operations db) o) (life_ops (operations db') o).
Proof.
  intros I Heff.
  assert (forall k, operations db !! (k, OpReserve) = None -> no_terminal db k) as Hnone.
  { intros k Hk. destruct (inv_ops db I) as (Hops & _ & _).
    split; match goal with |- ?m = None => destruct m as [x|] eqn:Hx; [exfalso|done] end;
      destruct (Hops _ _ _ Hx) as (_ & _ & _ & Ht); destruct Ht as (_ & _ & r & Hr & _);
      congruence. }
  destruct Heff as [d Hs|u tid e1 e2 t d _ Hu ? ? ? Hs|i rs av t d _ Ho Hs
    |i w tid e1 e2 t d _ Ho ? Hw ? ? ? Hs|i c r rw cw tid e1 e2 t d _ Hact Hne Hno ? Hrw Hcw ? ? ? Hs
    |i r w tid e1 e2 t d _ Hact Hno ? Hw ? ? Hs]; destruct Hs as (_ & _ & _ & ->); simpl; auto;
    (destruct (decide (o = ci_orderId i)) as [->|Hoi];
     [right|left; by apply life_ops_insert_other]).
  - destruct (Hnone _ Ho) as [Hn1 Hn2]. unfold life_ops.
    rewrite lookup_insert_eq, !(lookup_insert_ne _ (_, OpReserve)), Ho, Hn1, Hn2 by done.
    by constructor.
  - destruct (Hnone _ Ho) as [Hn1 Hn2]. unfold life_ops.
    rewrite lookup_insert_eq, !(lookup_insert_ne _ (_, OpReserve)), Ho, Hn1, Hn2 by done.
    by constructor.
  - destruct Hno as [Hn1 Hn2]. destruct Hact as (Hr & Hsu & _). unfold life_ops.
    rewrite lookup_insert_eq, !(lookup_insert_ne _ (_, OpTransfer)), Hn1, Hn2, Hr, Hsu by done.
    by constructor.
  - destruct Hno as [Hn1 Hn2]. destruct Hact as (Hr & Hsu & _). unfold life_ops.
    rewrite lookup_insert_eq, Hn1, Hn2, Hr, Hsu. by constructor.
Qed.
End Steps.
