(* ===== verification/CreditReplies.v ===== *)
(** * CreditReplies: what the Credit Service tells Order, and the books behind it

    Every method of the repository that answers writes its reply in the transaction of the operation
    it reports. [recorded] is what a reply stands for: an operation of the books. [sent_recorded] is
    that a delivery sends nothing else, and [effect_keeps] that a recorded operation is never
    rewritten, so a reply stays true however late it is read. *)
From S2P Require Export CreditLifecycle Outbox.

Section Sent.
Context `{Zod}.

(** The outbox after [ev] was written, as its schema let it through. *)
Definition sent (db db' : CreditDb) (ev : NewOutboxEvent) : Prop :=
  exists row f, assoc (ne_eventType ev) PAYLOAD_SCHEMAS = Some f
    /\ f (ne_payload ev) = Some (ob_payload row)
    /\ ob_eventType row = ne_eventType ev /\ ob_aggregateId row = ne_aggregateId ev
    /\ ob_rows (creditOutbox db') = ob_rows (creditOutbox db) ++ [row].

Lemma insert_sent ev e n db id n' db' :
  insertOutboxEvent ev e (n, db) = Ok (id, (n', db')) -> sent db db' ev.
Proof.
  intros Hi. apply insertOutboxEvent_ok in Hi as (p & f & Hf & Hp & _ & _ & _ & ->).
  exists (new_row id (ob_nextSeq (creditOutbox db)) (env_now e) ev p), f. by repeat split.
Qed.

Lemma writeOutcome_sent i out e n db r n' db' :
  writeOutcome i out e (n, db) = Ok (r, (n', db')) -> sent db db' (reply_event i out).
Proof. unfold writeOutcome. intros Hok. destruct out; inv_effect; by eapply insert_sent. Qed.

Ltac reply_row :=
  repeat match goal with s : nat * CreditDb |- _ => destruct s end;
  match goal with
  | Hw : writeOutcome _ _ _ _ = Ok _ |- _ => apply writeOutcome_sent in Hw; exact Hw
  | Hw : insertOutboxEvent _ _ _ = Ok _ |- _ => apply insert_sent in Hw; exact Hw
  end.

Lemma replay_sent i e n db out n' db' :
  replayOrRejectConflict i e (n, db) = Ok (out, (n', db')) -> sent db db' (reply_event i out).
Proof.
  unfold replayOrRejectConflict. intros Hok. inv_effect.
  destruct (operations db !! _) as [o|]; inv_effect.
  destruct (_ || _); [|destruct (o_outcome o); [|destruct (o_txn o)|destruct (o_rejection o)]];
    inv_effect; reply_row.
Qed.

Lemma reserve_sent fault i e n db out n' db' :
  reserve fault i e (n, db) = Ok (out, (n', db')) -> sent db db' (reply_event i out).
Proof.
  unfold reserve, finishRejection. intros Hrun. inv_effect.
  destruct (op_conflict db (ci_orderId i) OpReserve) eqn:Hc; inv_effect.
  { by eapply replay_sent. }
  destruct (Z.ltb_spec MAX_RESERVATION_AMOUNT (ci_amount i)) as [Hgt|Hle]; inv_effect.
  { inv_finalize. inv_effect. reply_row. }
  match goal with Hu : update_wallet _ _ _ _ _ = Ok _ |- _ =>
    apply update_wallet_ok in Hu; rename Hu into Hup end. simpl in Hup.
  destruct (wallets db !! ci_requesterId i) as [w|] eqn:Hw;
    [|inv_effect; simpl in *; rewrite Hw in *; by inv_effect].
  destruct (Z.leb_spec (ci_amount i) (w_available w)) as [Hav|Hav].
  - cbn beta iota in Hup. destruct Hup as [Hwok Hup]. inv_effect. inv_finalize. inv_effect. reply_row.
  - inv_effect. simpl in *. rewrite Hw in *. inv_effect. inv_finalize. inv_effect. reply_row.
Qed.

(** What a completion or release request was answered with: nothing, or its result. *)
Definition terminal_sent (db db' : CreditDb) (ty : string) (i : CreditInput) (out : TerminalOutcome)
  : Prop :=
  match out with
  | RejectedT _ => creditOutbox db' = creditOutbox db
  | Settled p =>
      sent db db' (mkNewEvent ty (ci_orderId i) p (ci_correlationId i) (Some (ci_causationId i)))
  end.

Lemma writeTransfer_sent i p e n db r n' db' :
  writeTransferOutcome i p e (n, db) = Ok (r, (n', db')) ->
  terminal_sent db db' CREDITS_TRANSFERRED i (Settled p).
Proof. unfold writeTransferOutcome. intros Hok. inv_effect. by eapply insert_sent. Qed.

Lemma writeRelease_sent i p e n db r n' db' :
  writeReleaseOutcome i p e (n, db) = Ok (r, (n', db')) ->
  terminal_sent db db' CREDITS_RELEASED i (Settled p).
Proof. unfold writeReleaseOutcome. intros Hok. inv_effect. by eapply insert_sent. Qed.

Lemma rejectTerminal_sent sty i c ty reason fact e n db r n' db' :
  rejectTerminal i c ty reason fact e (n, db) = Ok (r, (n', db')) -> terminal_sent db db' sty i r.
Proof. intros Hr. by apply rejectTerminal_ok in Hr as (-> & _ & ? & _). Qed.

Lemma replayTransfer_sent ty prior i c e n db out n' db' :
  replayTransferOrReject ty prior i c e (n, db) = Ok (out, (n', db')) ->
  terminal_sent db db' CREDITS_TRANSFERRED i out.
Proof.
  unfold replayTransferOrReject. intros Hok. destruct (_ || _); [by eapply rejectTerminal_sent|].
  destruct (o_outcome prior); inv_effect. destruct (o_result prior) as [p|]; inv_effect.
  destruct (creditsTransferredPayload p); inv_effect. by eapply writeTransfer_sent.
Qed.

Lemma replayRelease_sent ty prior i e n db out n' db' :
  replayReleaseOrReject ty prior i e (n, db) = Ok (out, (n', db')) ->
  terminal_sent db db' CREDITS_RELEASED i out.
Proof.
  unfold replayReleaseOrReject. intros Hok. destruct (_ || _); [by eapply rejectTerminal_sent|].
  destruct (o_outcome prior); inv_effect. destruct (o_result prior) as [p|]; inv_effect.
  destruct (creditsReleasedPayload p); inv_effect. by eapply writeRelease_sent.
Qed.

Lemma transfer_sent fault i c e n db out n' db' :
  transfer fault i c e (n, db) = Ok (out, (n', db')) ->
  terminal_sent db db' CREDITS_TRANSFERRED i out.
Proof.
  unfold transfer, findTerminalOperation. intros Hrun.
  apply bind_ok in Hrun as (r & s1 & Hlock & Hrun). apply lockReservation_ok in Hlock as (-> & Hr & _).
  apply bind_ok in Hrun as (? & s2 & Hf & Hrun). apply at_boundary_ok in Hf as (_ & [= -> ->]).
  apply bind_ok in Hrun as (v & [n1 db1] & Hv & Hrun).
  apply validateReservation_ok in Hv as [(-> & -> & -> & _)|(reason & -> & _ & Hsame)];
    cbn beta iota in Hrun; [|by inv_effect].
  destruct (String.eqb _ _); [by eapply rejectTerminal_sent|].
  apply bind_ok in Hrun as (prior & s3 & Hp & Hrun). apply gets_ok in Hp. injection Hp as _ ->.
  destruct prior as [[ty o]|]; cbn beta iota in Hrun; [by eapply replayTransfer_sent|].
  inv_effect. inv_wallet rw Hrw; inv_effect. inv_wallet cw Hcw; inv_effect. unfold finishTerminal in *.
  inv_finalize. inv_effect.
  match goal with Hw : writeTransferOutcome _ _ _ _ = Ok _ |- _ => apply writeTransfer_sent in Hw; exact Hw end.
Qed.

Lemma release_sent fault i e n db out n' db' :
  release fault i e (n, db) = Ok (out, (n', db')) -> terminal_sent db db' CREDITS_RELEASED i out.
Proof.
  unfold release, findTerminalOperation. intros Hrun.
  apply bind_ok in Hrun as (r & s1 & Hlock & Hrun). apply lockReservation_ok in Hlock as (-> & Hr & _).
  apply bind_ok in Hrun as (? & s2 & Hf & Hrun). apply at_boundary_ok in Hf as (_ & [= -> ->]).
  apply bind_ok in Hrun as (v & [n1 db1] & Hv & Hrun).
  apply validateReservation_ok in Hv as [(-> & -> & -> & _)|(reason & -> & _ & Hsame)];
    cbn beta iota in Hrun; [|by inv_effect].
  apply bind_ok in Hrun as (prior & s3 & Hp & Hrun). apply gets_ok in Hp. injection Hp as _ ->.
  destruct prior as [[ty o]|]; cbn beta iota in Hrun; [by eapply replayRelease_sent|].
  inv_effect. inv_wallet w Hw; inv_effect. unfold finishTerminal in *. inv_finalize. inv_effect.
  match goal with Hr : writeReleaseOutcome _ _ _ _ = Ok _ |- _ => apply writeRelease_sent in Hr; exact Hr end.
Qed.
End Sent.

(** ** The operation a reply reports *)

Definition restates (m : Movement) (r : Op) : Prop :=
  o_requester r = mv_requesterId m /\ o_amount r = mv_amount m.

Definition says (e : OutboxRow) (eventType : string) (m : Movement) (p : Payload) : Prop :=
  ob_eventType e = eventType /\ ob_aggregateId e = mv_orderId m /\ ob_payload e = p.

(** The operations table bears the reply out. *)
Inductive recorded (db : CreditDb) (m : Movement) (e : OutboxRow) : Prop :=
  | rec_reserved r :
      says e CREDITS_RESERVED m (MovementP m) ->
      operations db !! (mv_orderId m, OpReserve) = Some r -> o_outcome r = Succeeded ->
      restates m r -> recorded db m e
  | rec_refused reason av r :
      says e CREDIT_RESERVATION_REJECTED m (RejectedP m reason av) ->
      operations db !! (mv_orderId m, OpReserve) = Some r -> o_outcome r = Rejected ->
      o_rejection r = Some reason -> restates m r -> recorded db m e
  | rec_conflict r :
      says e CREDIT_RESERVATION_REJECTED m (RejectedP m CONFLICTING_REQUEST None) ->
      operations db !! (mv_orderId m, OpReserve) = Some r -> ~ restates m r -> recorded db m e
  | rec_transferred c tid rb cb r :
      says e CREDITS_TRANSFERRED m (TransferredP m c tid rb cb) ->
      operations db !! (mv_orderId m, OpTransfer) = Some r -> restates m r ->
      o_courier r = Some c -> o_txn r = Some tid -> recorded db m e
  | rec_released tid rb r :
      says e CREDITS_RELEASED m (ReleasedP m tid rb) ->
      operations db !! (mv_orderId m, OpRelease) = Some r -> restates m r ->
      o_txn r = Some tid -> recorded db m e.

(** The event type says which report it is. *)
Ltac by_type := 
  intros [] Hty; unfold says in *;
  repeat match goal with Hs : _ /\ _ |- _ => destruct Hs end;
  match goal with
  | Ht : ob_eventType _ = ?t, Hty : ob_eventType _ = ?u |- _ =>
      solve [exfalso; rewrite Ht in Hty; discriminate Hty] || idtac
  end; eauto 10.

Lemma recorded_reserved db m e :
  recorded db m e -> ob_eventType e = CREDITS_RESERVED ->
  ob_aggregateId e = mv_orderId m /\ exists r,
    operations db !! (mv_orderId m, OpReserve) = Some r /\ o_outcome r = Succeeded.
Proof. by_type. Qed.

Lemma recorded_refused db m e :
  recorded db m e -> ob_eventType e = CREDIT_RESERVATION_REJECTED ->
  ob_aggregateId e = mv_orderId m /\ exists r, operations db !! (mv_orderId m, OpReserve) = Some r
    /\ (o_outcome r = Rejected \/ ~ restates m r).
Proof. by_type. Qed.

Lemma recorded_transferred db m e :
  recorded db m e -> ob_eventType e = CREDITS_TRANSFERRED ->
  ob_aggregateId e = mv_orderId m /\ exists c tid rb cb r,
    ob_payload e = TransferredP m c tid rb cb
    /\ operations db !! (mv_orderId m, OpTransfer) = Some r /\ o_txn r = Some tid.
Proof. by_type. Qed.

Lemma recorded_released db m e :
  recorded db m e -> ob_eventType e = CREDITS_RELEASED ->
  ob_aggregateId e = mv_orderId m /\ exists tid rb r,
    ob_payload e = ReleasedP m tid rb
    /\ operations db !! (mv_orderId m, OpRelease) = Some r /\ o_txn r = Some tid.
Proof. by_type. Qed.

Section Recorded.
Context `{Zod}.

Lemma reserve_reply fault i e n db out n' db' :
  reserve fault i e (n, db) = Ok (out, (n', db')) ->
  exists row, ob_rows (creditOutbox db') = ob_rows (creditOutbox db) ++ [row]
    /\ recorded db' (movement i) row.
Proof.
  intros Hrun. destruct (reserve_sent _ _ _ _ _ _ _ _ Hrun) as (row & f & Hf & Hp & Hty & Hag & Hrows).
  destruct (reserve_recorded _ _ _ _ _ _ _ _ Hrun) as (o & Ho & Ha). exists row. split; [done|].
  unfold replay_answer in Ha. destruct (_ || _) eqn:Hm.
  - injection Ha as <-. simpl in *. injection Hf as <-. simpl in Hp.
    destruct (movement_ok _); [|done]. injection Hp as Hp. eapply rec_conflict; [by split|done|].
    intros [E1 E2]. simpl in *. rewrite E1, E2, String.eqb_refl, Z.eqb_refl in Hm. done.
  - rewrite orb_false_iff, !negb_false_iff, String.eqb_eq, Z.eqb_eq in Hm.
    destruct (o_outcome o) eqn:Hout; [done| |].
    + destruct (o_txn o) as [tid|]; [|done]. injection Ha as <-. simpl in *. injection Hf as <-.
      unfold creditsReservedPayload, movement_of in Hp. destruct (movement_ok _); [|done].
      injection Hp as Hp. by eapply rec_reserved.
    + destruct (o_rejection o) as [rs|] eqn:Hrej; [|done]. injection Ha as <-. simpl in *.
      injection Hf as <-.
      assert (exists av, ob_payload row = RejectedP (movement i) rs av) as [av Hpay].
      { revert Hp. simpl. destruct rs; simpl; repeat case_match; intros [= <-]; eauto. }
      by eapply rec_refused.
Qed.

Lemma result_recorded db o ty op tid :
  CreditInv db -> operations db !! (o, ty) = Some op -> ty <> OpReserve -> o_txn op = Some tid ->
  result_of o ty op tid.
Proof. intros I Hop Hty Htx. destruct (inv_ops db I) as (Hops & _). destruct (Hops _ _ _ Hop) as (_ & _ & _ & Ht).
  destruct (Ht Hty) as (_ & Hres & _). auto. Qed.

Lemma terminal_made db i r ty op :
  CreditInv db -> active_reservation db i r -> ty <> OpReserve ->
  operations db !! (ci_orderId i, ty) = Some op ->
  o_requester op = ci_requesterId i /\ o_amount op = ci_amount i /\ exists tid, o_txn op = Some tid.
Proof.
  intros I (Hr & _ & _ & Hreq & Ham) Hty Hop. destruct (inv_ops db I) as (Hops & _).
  destruct (Hops _ _ _ Hop) as (_ & Hshape & _ & Ht). destruct (Ht Hty) as (Hsu & _ & r' & Hr' & _ & E1 & E2).
  simplify_eq. split; [congruence|]. split; [congruence|].
  unfold outcome_shape in Hshape. rewrite Hsu in Hshape. destruct (o_txn op); [eauto|done].
Qed.

Lemma transfer_reply fault i c e n db out n' db' :
  CreditInv db -> transfer fault i c e (n, db) = Ok (out, (n', db')) ->
  creditOutbox db' = creditOutbox db
  \/ exists row, ob_rows (creditOutbox db') = ob_rows (creditOutbox db) ++ [row]
       /\ recorded db' (movement i) row.
Proof.
  intros I Hrun. pose proof (transfer_sent _ _ _ _ _ _ _ _ _ Hrun) as Hsent.
  apply transfer_ok in Hrun. destruct Hrun as [|r o stored result Hact Hne Ho Hsu Hst Hres Hs|r rw cw tid e1 e2 Hact Hne Hno _ _ _ _ _ _ Hs];
    [by left|right..]; destruct Hsent as (row & f & Hf & Hp & Hty & Hag & Hrows); exists row;
    (split; [done|]); destruct Hs as (_ & _ & _ & Hops & _); simpl in Hf, Hp; injection Hf as <-.
  - assert (OpTransfer <> OpReserve) as Hnr by done.
    destruct (terminal_made _ _ _ _ _ I Hact Hnr Ho) as (E1 & E2 & tid & Htx).
    destruct (result_recorded _ _ _ _ _ I Ho Hnr Htx) as (c' & rb & cb & Hc & Hr').
    rewrite Hst in Hr'. injection Hr' as ->. rewrite E1, E2 in Hres.
    simpl in Hres. destruct (_ && _) eqn:Hg; [|done]. injection Hres as <-. simpl in Hp.
    rewrite Hg in Hp. injection Hp as Hp. eapply rec_transferred; [by split|by rewrite Hops|done..].
  - unfold transfer_result, release_result in Hp. simpl in Hp. destruct (_ && _) eqn:Hg; [|done]. injection Hp as Hp.
    eapply rec_transferred; [by split|rewrite Hops; simpl; apply lookup_insert_eq|done..].
Qed.

Lemma release_reply fault i e n db out n' db' :
  CreditInv db -> release fault i e (n, db) = Ok (out, (n', db')) ->
  creditOutbox db' = creditOutbox db
  \/ exists row, ob_rows (creditOutbox db') = ob_rows (creditOutbox db) ++ [row]
       /\ recorded db' (movement i) row.
Proof.
  intros I Hrun. pose proof (release_sent _ _ _ _ _ _ _ _ Hrun) as Hsent.
  apply release_ok in Hrun. destruct Hrun as [|r o stored result Hact Ho Hsu Hst Hres Hs|r w tid e1 e2 Hact Hno _ _ _ _ Hs];
    [by left|right..]; destruct Hsent as (row & f & Hf & Hp & Hty & Hag & Hrows); exists row;
    (split; [done|]); destruct Hs as (_ & _ & _ & Hops & _); simpl in Hf, Hp; injection Hf as <-.
  - assert (OpRelease <> OpReserve) as Hnr by done.
    destruct (terminal_made _ _ _ _ _ I Hact Hnr Ho) as (E1 & E2 & tid & Htx).
    destruct (result_recorded _ _ _ _ _ I Ho Hnr Htx) as (rb & Hr').
    rewrite Hst in Hr'. injection Hr' as ->. rewrite E1, E2 in Hres.
    simpl in Hres. destruct (_ && _) eqn:Hg; [|done]. injection Hres as <-. simpl in Hp.
    rewrite Hg in Hp. injection Hp as Hp. eapply rec_released; [by split|by rewrite Hops|done..].
  - unfold transfer_result, release_result in Hp. simpl in Hp. destruct (_ && _) eqn:Hg; [|done]. injection Hp as Hp.
    eapply rec_released; [by split|rewrite Hops; simpl; apply lookup_insert_eq|done..].
Qed.
End Recorded.

(** ** Deliveries and the service's other steps *)

Section Steps.
Context `{Zod} (alloc : Z).

Lemma effect_keeps P db db' k r :
  effect alloc P db db' -> operations db !! k = Some r -> operations db' !! k = Some r.
Proof.
  intros [d Hs|u tid e1 e2 t d _ Hu ? ? ? Hs|i rs av t d _ Ho Hs|i w tid e1 e2 t d _ Ho ? Hw ? ? ? Hs
    |i c r0 rw cw tid e1 e2 t d _ Hact Hne Hno ? Hrw Hcw ? ? ? Hs|i r0 w tid e1 e2 t d _ Hact Hno ? Hw ? ? Hs];
    destruct Hs as (_ & _ & _ & ->); simpl; auto; intros Hk; (rewrite lookup_insert_ne; [done|]);
    intros <-; try destruct Hno; congruence.
Qed.

Lemma recorded_keeps db db' m e :
  (forall k r, operations db !! k = Some r -> operations db' !! k = Some r) ->
  recorded db m e -> recorded db' m e.
Proof. intros Hk []; eauto using recorded. Qed.

(** Relayed or pruned rows say what they said. *)
Lemma recorded_same db m e e' : same_event e e' -> recorded db m e -> recorded db m e'.
Proof.
  intros (_ & _ & E1 & E2 & E3).
  assert (forall ty p, says e ty m p -> says e' ty m p) as Hs.
  { unfold says. intros ty p. by rewrite E1, E2, E3. }
  intros []; eauto using recorded.
Qed.

(** The replies a message can have: of an operation it asks for. *)
Definition reply_to (q : CreditQueue) (v : Envelope) (db : CreditDb) (row : OutboxRow) : Prop :=
  exists ty i c, topic q v (OnOrder ty i c) /\ recorded db (movement i) row.

Definition replies_only (q : CreditQueue) (v : Envelope) (db db' : CreditDb) : Prop :=
  exists new, ob_rows (creditOutbox db') = ob_rows (creditOutbox db) ++ new
    /\ forall row, row ∈ new -> reply_to q v db' row.

Lemma replies_none q v db db' : creditOutbox db' = creditOutbox db -> replies_only q v db db'.
Proof. intros Hs. exists []. rewrite Hs, app_nil_r. split; [done|]. by intros ? ?%not_elem_of_nil. Qed.

Lemma replies_one q v ty i c db db' :
  topic q v (OnOrder ty i c) ->
  creditOutbox db' = creditOutbox db
  \/ (exists row, ob_rows (creditOutbox db') = ob_rows (creditOutbox db) ++ [row]
        /\ recorded db' (movement i) row) ->
  replies_only q v db db'.
Proof.
  intros Ht [Hs|(row & Hrows & Hrec)]; [by apply replies_none|]. exists [row]. split; [done|].
  intros x Hx. apply list_elem_of_singleton in Hx as ->. by exists ty, i, c.
Qed.

Lemma replayable_replies q consumer handler v e db out db' :
  CreditInv db ->
  (forall f n db0 n' db1, CreditInv db0 -> handler v f e (n, db0) = Ok (tt, (n', db1)) ->
     replies_only q v db0 db1) ->
  withReplayableInbox consumer handler v e db = (out, db') -> replies_only q v db db'.
Proof.
  intros I Hh Hrun. destruct out as [dup|x].
  - apply withReplayableInbox_ok in Hrun as (s1 & n & Hs & Hh1).
    apply Hh in Hh1; [|by destruct Hs as [->| ->]; [|apply same_economy_processed]].
    destruct Hh1 as (new & Hrows & Hnew). exists new. by destruct Hs as [->| ->].
  - apply withReplayableInbox_throw in Hrun as ->. by apply replies_none.
Qed.

Lemma issue_silent u e n db b n' db' :
  issueInitial alloc u e (n, db) = Ok (b, (n', db')) -> creditOutbox db' = creditOutbox db.
Proof.
  unfold issueInitial. intros Hrun. inv_effect. unfold has_wallet in *.
  destruct (wallets db !! u); simpl in *; inv_effect; cbn [negb] in Hrun; by inv_effect.
Qed.

(** The call [Hi] a handler made of its parsed payload. *)
Ltac handled schema Hh :=
  destruct (schema _) as [[]|] eqn:?; try discriminate Hh;
  match type of Hh with context [String.eqb ?a ?b] => destruct (String.eqb_spec a b) end;
  cbn [negb] in Hh; [|discriminate Hh];
  let b := fresh "b" in let Hr := fresh "Hr" in
  apply bind_ok in Hh as (b & [? ?] & Hi & Hr); apply ret_ok in Hr as [= -> ->].

Lemma deliver_replies q v e db out db' :
  CreditInv db -> deliver alloc q v e db = (out, db') -> replies_only q v db db'.
Proof.
  intros I. destruct q; simpl.
  - intros Hrun. destruct (inbox db !! (WALLET_QUEUE, eventId v)) as [row|] eqn:Hrow.
    + rewrite withInbox_duplicate in Hrun by eauto. injection Hrun as _ <-. by apply replies_none.
    + destruct out as [dup|x]; [|by apply withInbox_throw in Hrun as ->; apply replies_none].
      apply withInbox_first in Hrun as (_ & n & Hh); [|done]. unfold handle_activation in Hh.
      destruct (userActivatedPayload _) as [[]|]; try done. destruct (negb _); [done|].
      apply bind_ok in Hh as (b & [n1 db1] & Hi & Hr). apply ret_ok in Hr as [= -> ->].
      apply replies_none. by rewrite (issue_silent _ _ _ _ _ _ _ Hi).
  - apply replayable_replies; [done|]. intros f n db0 n' db1 I0 Hh. unfold handle_reservation in Hh.
    handled creditReservationRequestedPayload Hh. apply reserve_reply in Hi.
    apply (replies_one _ _ OpReserve (credit_input v m) None); [by exists m|by right].
  - apply replayable_replies; [done|]. intros f n db0 n' db1 I0 Hh. unfold handle_completion in Hh.
    handled orderCompletionRequestedPayload Hh. apply transfer_reply in Hi; [|done].
    apply (replies_one _ _ OpTransfer (credit_input v m) (Some courierId)); [by exists m|done].
  - apply replayable_replies; [done|]. intros f n db0 n' db1 I0 Hh. unfold handle_release in Hh.
    handled creditReleaseRequestedPayload Hh. apply release_reply in Hi; [|done].
    apply (replies_one _ _ OpRelease (credit_input v m) None); [by exists m|done].
Qed.

(** A step leaves each event as it was or sends a reply to a message it heard. *)
Lemma hearing_replies heard db db' row :
  CreditInv db -> credit_step_hearing alloc heard db db' -> row ∈ ob_rows (creditOutbox db') ->
  (exists r, r ∈ ob_rows (creditOutbox db) /\ same_event r row)
  \/ exists q v, heard q v /\ reply_to q v db' row.
Proof.
  assert (forall l l' : list OutboxRow, l' = l -> row ∈ l' -> exists r, r ∈ l /\ same_event r row) as Hsame.
  { intros l l' ->. exists row. split; [done|apply same_event_refl]. }
  intros I [q v e out db1 Hq Hd|ad tg res corr e out db1 Ht|opts br lk at_ rows r Hc|
            rt n wt lo li st at_ db1 counts Hp] Hrow.
  - apply deliver_replies in Hd as (new & Hrows & Hnew); [|done]. rewrite Hrows, elem_of_app in Hrow.
    destruct Hrow as [Hrow|Hrow]; [left; by eapply Hsame|right; eauto].
  - left. eapply Hsame; [|exact Hrow]. destruct out as [[]|x]; [|by apply transaction_throw in Ht as ->].
    apply transaction_ok in Ht as (n & Hr). unfold auditAdminRead, insert_adminRead, unique_ in Hr.
    by inv_tx.
  - left. by eapply relayed_events.
  - left. unfold pruneEventTables in Hp.
    destruct (deleteInBatches (outbox_old _ _) _ _ _ _ _ _ _) as [[rows' out]|] eqn:Hd; [|done].
    apply deleteInBatches_spec in Hd as (_ & Hsub & _).
    assert (row ∈ rows') as Hin by (repeat case_match; simplify_eq; done).
    eapply Hsame; [done|]. by eapply elem_of_sublist.
Qed.
End Steps.
