(* ===== verification/CreditTheorems.v ===== *)
(** * CreditTheorems: what the Credit Service promises

    The properties of the closed economy, each of every reachable state or every run, with a
    concrete run that shows its hypotheses hold. *)
From Stdlib Require Import Ascii.
From S2P Require Export CreditLifecycle Envelope.
#[local] Open Scope Z_scope.

Section Promises.
Context `{Zod} (alloc : Z).

(** C2: In every state the service can reach, from an empty database through any sequence of
    deliveries (first, duplicate or failing), admin reads, relay claims and prunes, the service's own
    closed-economy checks and its wallet/ledger comparison report no violation. *)
Theorem economy_closed (db : CreditDb) :
  credit_reachable alloc db -> creditEconomyViolations db = [] /\ walletLedgerViolations db = [].
Proof. intros Hr. by apply CreditInv_checks, (reachable_inv alloc). Qed.

(** In every reachable state all wallets together hold the initial allocation times the number
    of wallets: credits are issued once per wallet and never created or destroyed after that. *)
Theorem supply_fixed (db : CreditDb) :
  credit_reachable alloc db ->
  sum_map (fun w => w_available w + w_reserved w) (wallets db)
  = alloc * Z.of_nat (size (wallets db)).
Proof. apply reachable_supply. Qed.

(** C5: The status the service reports for an order refines the abstract credit lifecycle: it is
    always one of unseen, refused, held, paid and returned, never in flight, and one step of
    the service either leaves it or moves it unseen-refused, unseen-held, held-paid or
    held-returned. *)
Theorem status_refines_lifecycle (db db' : CreditDb) (o : string) :
  credit_reachable alloc db -> credit_step alloc db db' ->
  exists l l', life_of (orderStatus o db) = Some l /\ life_of (orderStatus o db') = Some l'
               /\ (l' = l \/ life_step l l').
Proof.
  intros Hr Hs. pose proof (reachable_inv alloc db Hr) as I.
  pose proof (credit_step_inv alloc db db' I Hs) as I'.
  do 2 eexists. split; [by apply status_life|]. split; [by apply status_life|].
  apply (life_effect alloc (fun _ => True)); [done|]. by apply step_effect.
Qed.

(** C6: A completion request that restates an active reservation, for an unsettled order whose two
    wallets exist, is settled in any reachable state: the recorded reservation is always backed, the
    requester's reserved credits and the courier's available credits move by the amount, every other
    wallet is untouched, and the order then reports as transferred. *)
Theorem transfer_settles (i : CreditInput) (c : string) (r : Op) (w cw : Wallet) (e : Env)
    (n : nat) (db : CreditDb) :
  credit_reachable alloc db -> fresh_ids e n db -> request_ok i -> nonempty c = true ->
  active_reservation db i r -> ci_requesterId i <> c -> no_terminal db (ci_orderId i) ->
  wallets db !! ci_requesterId i = Some w -> wallets db !! c = Some cw ->
  in_int4 (w_available cw + ci_amount i) = true ->
  exists tid n' db',
    transfer no_fault i c e (n, db)
    = Ok (Settled (transfer_result i c tid (transfer_debit i w (env_now e))
                     (transfer_credit i cw (env_now e))), (n', db'))
    /\ wallets db' = <[c := transfer_credit i cw (env_now e)]>
                       (<[ci_requesterId i := transfer_debit i w (env_now e)]> (wallets db))
    /\ life_of (orderStatus (ci_orderId i) db') = Some Paid.
Proof.
  intros Hr F Hok Hc Hact Hne Hno Hw Hcw Hcap. pose proof (reachable_inv alloc db Hr) as I.
  destruct (transfer_run i c r w cw db e n) as (out & n' & db' & Hrun); try done.
  pose proof (transfer_inv db I _ _ _ _ _ _ _ _ Hrun) as I'.
  pose proof (transfer_ok _ _ _ _ _ _ _ _ _ Hrun) as Hcase. inversion Hcase; subst.
  { destruct Hno as [_ Hno]. congruence. }
  match goal with Hs : same_economy _ _ |- _ => destruct Hs as (Hws & _ & _ & Hops & _) end.
  simplify_eq. do 3 eexists. split; [exact Hrun|]. split; [exact Hws|].
  rewrite status_life by done. rewrite Hops. simpl. unfold life_ops.
  destruct Hno as [Hn1 _]. by rewrite lookup_insert_eq, lookup_insert_ne, Hn1.
Qed.

(** A release request that restates an active reservation of an unsettled order is settled in
    any reachable state: the amount moves back from reserved to available in the requester's
    wallet, every other wallet is untouched, and the order then reports as released. *)
Theorem release_settles (i : CreditInput) (r : Op) (w : Wallet) (e : Env) (n : nat)
    (db : CreditDb) :
  credit_reachable alloc db -> fresh_ids e n db -> request_ok i ->
  active_reservation db i r -> no_terminal db (ci_orderId i) ->
  wallets db !! ci_requesterId i = Some w -> in_int4 (w_available w + ci_amount i) = true ->
  exists tid n' db',
    release no_fault i e (n, db)
    = Ok (Settled (release_result i tid (release_wallet i w (env_now e))), (n', db'))
    /\ wallets db' = <[ci_requesterId i := release_wallet i w (env_now e)]> (wallets db)
    /\ life_of (orderStatus (ci_orderId i) db') = Some Returned.
Proof.
  intros Hr F Hok Hact Hno Hw Hcap. pose proof (reachable_inv alloc db Hr) as I.
  destruct (release_run i r w db e n) as (out & n' & db' & Hrun); try done.
  pose proof (release_inv db I _ _ _ _ _ _ _ Hrun) as I'.
  pose proof (release_ok _ _ _ _ _ _ _ _ Hrun) as Hcase. inversion Hcase; subst.
  { destruct Hno as [Hno _]. congruence. }
  match goal with Hs : same_economy _ _ |- _ => destruct Hs as (Hws & _ & _ & Hops & _) end.
  simplify_eq. do 3 eexists. split; [exact Hrun|]. split; [exact Hws|].
  rewrite status_life by done. rewrite Hops. simpl. unfold life_ops. by rewrite lookup_insert_eq.
Qed.

(** Once an order is settled it stays settled: any later reservation, completion or release
    message about it, new or repeated, whatever it asks, leaves the wallets, the transactions, the
    ledger and the operations exactly as they are. *)
Theorem settled_once (q : CreditQueue) (v : Envelope) (e : Env) (db db' : CreditDb)
    (out : outcome bool) (ty : OperationType) (x : Op) :
  credit_reachable alloc db -> ty <> OpReserve -> q <> Activations ->
  operations db !! (aggregateId v, ty) = Some x ->
  deliver alloc q v e db = (out, db') -> same_books db db'.
Proof.
  intros Hr Hty Hq Hx Hd. pose proof (reachable_inv alloc db Hr) as I.
  assert (exists r, operations db !! (aggregateId v, OpReserve) = Some r) as [res Hres].
  { destruct (inv_ops db I) as (Hops & _ & _). destruct (Hops _ _ _ Hx) as (_ & _ & _ & Ht).
    destruct (Ht Hty) as (_ & _ & r & Hres & _). eauto. }
  apply deliver_effect in Hd.
  destruct Hd as [|u ? ? ? ? ? Ho|i ? ? ? ? Ho|i ? ? ? ? ? ? Ho|i ? ? ? ? ? ? ? ? ? Ho ? ? Hno
    |i ? ? ? ? ? ? ? Ho ? Hno]; [done|..]; try (by destruct q); rewrite (topic_order _ _ _ _ _ Ho) in *;
    try congruence; destruct Hno; destruct ty; congruence.
Qed.

(** A reservation request that was answered is answered the same way every time it is delivered
    again, with the same identifiers or new ones: the call succeeds, changes nothing in the economy
    and appends exactly one more copy of the recorded reply. *)
Theorem reserve_redelivered (fault : Boundary -> option Exn) (i : CreditInput) (e : Env) (n : nat)
    (db : CreditDb) (out : ReservationOutcomeT) (n1 : nat) (db1 : CreditDb) (corr cause : string)
    (e' : Env) (m : nat) :
  reserve fault i e (n, db) = Ok (out, (n1, db1)) -> fresh_ids e' m db1 ->
  let i' := mkCreditInput (ci_orderId i) (ci_requesterId i) (ci_amount i) corr cause in
  exists n2 db2, reserve no_fault i' e' (m, db1) = Ok (out, (n2, db2))
    /\ same_economy db1 db2 /\ replied i' out db1 db2.
Proof.
  intros Hrun F i'. destruct (reserve_recorded _ _ _ _ _ _ _ _ Hrun) as (o & Ho & Ha).
  apply reserve_ok in Hrun as (Hpos & Hint & Hv & _).
  assert (reply_valid i' out) as Hv' by (by destruct out).
  destruct (replay_run i' o out db1 e' m Ho Ha Hv' F) as (n2 & db2 & Hrep & Hs & Hr).
  assert (op_conflict db1 (ci_orderId i') OpReserve = true) as Hc
    by (unfold op_conflict; cbn [ci_orderId i']; by rewrite Ho).
  exists n2, db2. split; [|done]. unfold reserve. run_plain. eapply bind_step.
  { apply insert_op_ignore_ok. rewrite Hc. split; [|reflexivity].
    unfold op_ok. simpl. rewrite Hint. by rewrite (proj2 (Z.ltb_lt 0 _) Hpos). }
  exact Hrep.
Qed.

(** A reservation whose amount does not fit a 32-bit integer is not answered with the policy's
    AMOUNT_OUT_OF_RANGE rejection: writing its operation fails, the delivery throws and nothing is
    recorded, so the message is retried and dead-lettered without a reply. *)
Theorem reserve_overflow_unanswered (v : Envelope) (m : Movement) (e : Env) (db : CreditDb) :
  payload v = MovementP m -> movement_ok m = true -> aggregateId v = mv_orderId m ->
  INT4_MAX < mv_amount m ->
  deliver alloc Reservations v e db = (Throw (Sql NumericOutOfRange), db).
Proof.
  intros Hp Hok Ha Hbig. unfold deliver, withReplayableInbox, transaction, processReplayable.
  unfold record_event. unfold bind at 1 2, gets. cbn [snd].
  assert (forall f n s, handle_reservation v f e (n, s) = Throw (Sql NumericOutOfRange)) as Hh.
  { intros f n s. unfold handle_reservation, creditReservationRequestedPayload, movement_of.
    rewrite Hp, Hok. cbn [fmap option_fmap option_map]. rewrite Ha, String.eqb_refl. cbn [negb].
    unfold reserve, bind, now, insert_op_ignore, check_op, width_ok, require. cbn.
    assert (in_int4 (mv_amount m) = false) as ->; [|done].
    unfold in_int4. rewrite andb_false_iff, !Z.leb_gt. lia. }
  destruct (inbox db !! _); simpl; unfold bind; by rewrite Hh.
Qed.

(** ** Reports *)

(** In every reachable state a ledger audit that obtains its lock completes with PASS and no
    mismatch, whoever asks for it, unless it is the scheduled run and the day already has one. *)
Theorem audit_passes (runId : string) (origin : AuditOrigin) (by_ : option string) (stored : bool)
    (at_ : Z) (db : CreditDb) (runs : list AuditRun) :
  credit_reachable alloc db ->
  origin <> SCHEDULED \/ scheduled_on (utc_day at_) runs = false ->
  exists r, runAudit true false stored runId origin by_ at_ db runs = (Ok (Some r), runs ++ [r])
            /\ au_status r = PASS /\ au_mismatchCount r = Some 0%nat.
Proof.
  intros Hr Hday. destruct (CreditInv_checks db (reachable_inv alloc db Hr)) as [Hc Hw].
  assert (length (concat (map (fun nc => (nc.1, nc.2 db)) AUDIT_CHECKS).*2) = 0%nat) as Hnone.
  { unfold AUDIT_CHECKS. unfold creditEconomyViolations, CREDIT_INVARIANTS in Hc. simpl in Hc |- *.
    apply app_eq_nil in Hc as [-> Hc]. apply app_eq_nil in Hc as [-> Hc].
    apply app_eq_nil in Hc as [-> Hc]. apply app_eq_nil in Hc as [-> Hc].
    apply app_eq_nil in Hc as [-> _]. by rewrite Hw. }
  unfold runAudit. cbn [negb]. case_bool_decide as Ho.
  - destruct Hday as [|Hday]; [done|]. rewrite Hday. eexists. split; [reflexivity|].
    unfold completed_run. rewrite Hnone. done.
  - eexists. split; [reflexivity|]. unfold completed_run. rewrite Hnone. done.
Qed.

(** ** The ledger, page by page *)

Lemma activity_ids u db :
  NoDup (t_id <$> transactions db) -> NoDup (li_transactionId <$> activity u db).
Proof.
  unfold activity. generalize (ledger db) as l. intros l.
  assert (forall (ts : list Txn) x, x ∈ (li_transactionId <$> omap (fun t =>
    match last_entry (entries_of u (t_id t) l) with
    | Some y => Some (mkLedgerItem (t_id t) (t_type t) (t_amount t) (t_orderId t) (t_occurredAt t)
        (default 0 (e_resAvailable y)) (default 0 (e_resReserved y))
        (sumZ signed (entries_of u (t_id t) l)))
    | None => None end) ts) -> x ∈ (t_id <$> ts)) as Hsub.
  { intros ts x Hx. apply list_elem_of_fmap in Hx as (y & -> & Hy).
    apply list_elem_of_omap in Hy as (t & Ht & Hy). destruct (last_entry _); simplify_eq.
    simpl. by apply list_elem_of_fmap_2. }
  induction (transactions db) as [|t ts IH]; intros Hnd; [constructor|].
  rewrite fmap_cons, NoDup_cons in Hnd. destruct Hnd as [Hnt Hnd]. simpl.
  destruct (last_entry _); [|by apply IH]. rewrite fmap_cons. constructor; [|by apply IH].
  simpl. intros Hin. by apply Hnt, (Hsub ts).
Qed.

Lemma readLedger_walk fuel u limit cursor db :
  is_Some (wallets db !! u) -> 1 <= limit <= 100 -> cursor <> BadCursor ->
  readLedger fuel u limit cursor db
  = Ok (walk ledger_key newest_first encode_ledger_key fuel (Z.to_nat limit)
          (match cursor with Cursor k => Some k | _ => None end) (ledger_rows u db)).
Proof.
  intros [w Hw] Hlim. revert cursor. induction fuel as [|fuel IH]; intros cursor Hc; [done|].
  cbn [readLedger walk]. unfold ledgerPage, wallet, findWallet, parseLimit. rewrite Hw.
  cbn [fmap option_fmap option_map]. rewrite (proj2 (Z.leb_le 1 limit)) by lia.
  rewrite (proj2 (Z.leb_le limit 100)) by lia. cbn [andb].
  destruct cursor as [| |k]; [|done|]; cbn [decodeCursor lp_nextCursor lp_items]; unfold listLedger;
    (destruct (next_cursor _ _ _) as [k'|]; [|done]); rewrite IH by done;
    by destruct (walk _ _ _ _ _ _ _).
Qed.

(** Following the ledger's page cursors reads every item of a wallet exactly once, newest first,
    provided its transactions' times are whole milliseconds, in every reachable state and for every
    page size the service accepts. *)
Theorem ledger_pages_complete (db : CreditDb) (u : string) (limit : Z) :
  credit_reachable alloc db -> is_Some (wallets db !! u) -> 1 <= limit <= 100 ->
  (forall x, x ∈ activity u db -> iso (li_at x) = li_at x) ->
  exists rows, readLedger (Datatypes.S (length (activity u db))) u limit NoCursor db = Ok (Some rows)
    /\ rows ≡ₚ activity u db
    /\ in_order (fun a b => newest_first (ledger_key a) (ledger_key b)) rows.
Proof.
  intros Hr Hw Hlim Hms. destruct (inv_txns db (reachable_inv alloc db Hr)) as [Hnd _].
  assert (NoDup (ledger_key <$> activity u db)) as Hk.
  { apply (NoDup_fmap_1 snd). rewrite <- list_fmap_compose. by apply activity_ids. }
  exists (ledger_rows u db). rewrite readLedger_walk by done. split.
  - rewrite <- (Permutation_length (order_by_perm (fun a b => newest_first (ledger_key a) (ledger_key b))
                                      (activity u db))).
    f_equal. apply (walk_newest_first ledger_key encode_ledger_key (Z.to_nat limit) (activity u db));
      [lia|done|]. intros x Hx. unfold encode_ledger_key, ledger_key. simpl. by rewrite Hms.
  - split; [apply order_by_perm|by apply newest_first_order].
Qed.
End Promises.

Section Reports.

(** At most one completed scheduled run a day. *)
Definition daily (runs : list AuditRun) : Prop :=
  forall d, (length (List.filter (fun r => bool_decide (au_scheduledDay r = Some d)) runs) <= 1)%nat.

(** Whatever sequence of scheduled, manual and failing audits runs, across replicas and restarts,
    at most one run is recorded as the scheduled run of a UTC day. *)
Theorem audit_daily (acquired fails stored : bool) (runId : string) (origin : AuditOrigin)
    (by_ : option string) (at_ : Z) (db : CreditDb) (runs : list AuditRun) :
  daily runs -> daily (snd (runAudit acquired fails stored runId origin by_ at_ db runs)).
Proof.
  intros Hd. unfold runAudit.
  assert (forall r, au_scheduledDay r = None -> daily (runs ++ [r])) as Hnone.
  { intros r Hr d. rewrite List.filter_app, length_app. simpl. rewrite Hr. simpl.
    specialize (Hd d). lia. }
  destruct fails; simpl; [destruct stored; [by apply Hnone|done]|].
  destruct acquired; simpl; [|done]. case_bool_decide; simpl; [|by apply Hnone].
  destruct (scheduled_on (utc_day at_) runs) eqn:Hs; simpl; [done|].
  intros d. rewrite List.filter_app, length_app. simpl.
  case_bool_decide as Hdd; simpl; [|specialize (Hd d); lia]. injection Hdd as <-.
  unfold scheduled_on in Hs. rewrite existsb_false in Hs.
  assert (List.filter (fun r => bool_decide (au_scheduledDay r = Some (utc_day at_))) runs = []) as ->;
    [|simpl; lia].
  clear Hd Hnone. induction runs as [|r rs IH]; simpl; [done|].
  rewrite Hs by set_solver. apply IH. intros a Ha. apply Hs. set_solver.
Qed.

(** Two alerts about one admin are an hour apart. *)
Definition spaced (raised : list ActivityAlert) : Prop :=
  ForallOrdPairs (fun a b => aa_actor a = aa_actor b ->
                             aa_occurredAt a + hour_micros <= aa_occurredAt b) raised.

Lemma ForallOrdPairs_snoc {A} (R : A -> A -> Prop) l x :
  ForallOrdPairs R l -> (forall y, y ∈ l -> R y x) -> ForallOrdPairs R (l ++ [x]).
Proof.
  induction 1 as [|a l Ha Hl IH]; intros Hx; simpl; [repeat constructor|].
  constructor; [|apply IH; intros; apply Hx; set_solver].
  rewrite Forall_forall in *. intros y Hy. apply elem_of_app in Hy as [Hy|Hy]; [auto|].
  apply list_elem_of_singleton in Hy as ->. apply Hx. set_solver.
Qed.

(** Bulk wallet reads by an admin raise an alert exactly when the admin read at least the
    threshold of distinct wallets in the last hour and has no alert in that hour, and so never two
    within an hour of each other. *)
Theorem bulk_reads_alerted (threshold : Z) (admin : string) (countedAt at_ : Z) (id : string)
    (reads : list AdminRead) (raised : list ActivityAlert) :
  spaced raised ->
  let raised' := afterWalletRead threshold admin countedAt at_ id reads raised in
  spaced raised'
  /\ (raised' <> raised <-> threshold <= walletsInLastHour admin countedAt reads
                           /\ forall a, a ∈ raised -> aa_actor a = admin ->
                                       aa_occurredAt a + hour_micros <= at_).
Proof.
  intros Hs raised'. unfold raised', afterWalletRead.
  assert (alerted_recently admin at_ raised = false <->
          forall a, a ∈ raised -> aa_actor a = admin -> aa_occurredAt a + hour_micros <= at_) as Hrec.
  { unfold alerted_recently. rewrite existsb_false. split; intros Ha a Hin.
    - intros Hact. specialize (Ha a Hin). rewrite Hact, String.eqb_refl in Ha. simpl in Ha.
      apply Z.ltb_ge in Ha. lia.
    - destruct (String.eqb_spec (aa_actor a) admin) as [Heq|]; simpl; [|done].
      apply Z.ltb_ge. specialize (Ha a Hin Heq). lia. }
  destruct (Z.ltb_spec (walletsInLastHour admin countedAt reads) threshold) as [Hlt|Hge].
  { split; [done|]. split; [done|]. intros [? _]. lia. }
  destruct (alerted_recently admin at_ raised) eqn:Ha.
  { split; [done|]. split; [done|]. intros [_ Hno]. by apply Hrec in Hno. }
  rewrite <- Hrec in *. split.
  - apply ForallOrdPairs_snoc; [done|]. intros y Hy Hact. by apply (proj1 Hrec).
  - split; [done|]. intros _ Heq. apply (f_equal length) in Heq.
    rewrite length_app in Heq. simpl in Heq. lia.
Qed.
End Reports.

(** ** Concrete runs *)

Section Demo.
#[local] Existing Instance demo_zod.

Definition activate (id u : string) : Envelope :=
  demo_message id USER_ACTIVATED u (UserActivatedP u 0).
Definition ask (id o u : string) (a : Z) : Envelope :=
  demo_message id CREDIT_RESERVATION_REQUESTED o (MovementP (mkMovement o u a)).

(** Two students with a wallet each, and one order of the first. *)
Definition demo0 : CreditDb :=
  snd (deliver 10 Activations (activate "a1" "alice") (demo_env "a"%char 1000000) empty_credit).
Definition demo1 : CreditDb := snd (deliver 10 Activations (activate "a2" "bob") (demo_env "b"%char 2000000) demo0).
Definition demo2 : CreditDb := snd (deliver 10 Reservations (ask "r1" "o1" "alice" 3) (demo_env "c"%char 3000100) demo1).
(** A second order within the same millisecond. *)
Definition demo3 : CreditDb := snd (deliver 10 Reservations (ask "r2" "o2" "alice" 2) (demo_env "d"%char 3000900) demo2).

Lemma deliver_reachable q v e db :
  credit_reachable 10 db -> credit_reachable 10 (snd (deliver 10 q v e db)).
Proof. intros Hr. eapply reach_step; [done|]. eapply step_deliver; [done|apply surjective_pairing]. Qed.

Lemma demo2_reachable : credit_reachable 10 demo2.
Proof. repeat apply deliver_reachable. apply reach_empty. Qed.
Lemma demo3_reachable : credit_reachable 10 demo3.
Proof. apply deliver_reachable, demo2_reachable. Qed.

Definition untagged (tag : Ascii.ascii) (db : CreditDb) : bool :=
  forallb (fun t => other_tag tag (t_id t)) (transactions db)
  && forallb (fun x => other_tag tag (e_id x)) (ledger db)
  && forallb (fun a => other_tag tag (al_id a)) (alerts db)
  && forallb (fun r => other_tag tag (ob_id r)) (ob_rows (creditOutbox db)).

(** An unused tag gives fresh identifiers for ever. *)
Lemma demo_fresh tag at_ n db : untagged tag db = true -> fresh_ids (demo_env tag at_) n db.
Proof.
  unfold untagged. rewrite !andb_true_iff, !forallb_forall. intros [[[Ht He] Ha] Ho].
  constructor; simpl; try done.
  - intros k l _ _. apply tagged_inj.
  - intros k _. unfold has_txn. apply existsb_false. intros x Hx. apply String.eqb_neq, other_tag_ne.
    by apply Ht, list_elem_of_In.
  - intros k x _ Hx. by apply other_tag_ne, He, list_elem_of_In.
  - intros k x _ Hx. by apply other_tag_ne, Ha, list_elem_of_In.
  - intros k x _ Hx. by apply other_tag_ne, Ho, list_elem_of_In.
Qed.

Lemma economy_closed_witness :
  credit_reachable 10 demo3
  /\ creditEconomyViolations demo3 = [] /\ walletLedgerViolations demo3 = [].
Proof. split; [exact demo3_reachable|]. apply (economy_closed 10), demo3_reachable. Defined.

Lemma supply_fixed_witness :
  credit_reachable 10 demo3
  /\ sum_map (fun w => w_available w + w_reserved w) (wallets demo3) = 10 * 2.
Proof. split; [exact demo3_reachable|]. apply (supply_fixed 10 demo3), demo3_reachable. Defined.

Lemma status_refines_lifecycle_witness :
  exists l l', life_of (orderStatus "o2" demo2) = Some l /\ life_of (orderStatus "o2" demo3) = Some l'
               /\ (l' = l \/ life_step l l').
Proof.
  apply (status_refines_lifecycle 10); [exact demo2_reachable|].
  eapply step_deliver; [done|apply surjective_pairing].
Defined.

Definition demo_settle : CreditInput := mkCreditInput "o1" "alice" 3 "corr" "cause".
Definition demo_op : Op :=
  match operations demo2 !! ("o1", OpReserve) with Some o => o
  | None => mkOp "" None 0 Pending None None None None 0 end.
Definition demo_wallet (u : string) : Wallet := default (mkWallet 0 0 0 0) (wallets demo2 !! u).

Lemma transfer_settles_witness :
  exists tid n' db',
    transfer no_fault demo_settle "bob" (demo_env "e"%char 5000000) (0%nat, demo2)
    = Ok (Settled (transfer_result demo_settle "bob" tid
                     (transfer_debit demo_settle (demo_wallet "alice") 5000000)
                     (transfer_credit demo_settle (demo_wallet "bob") 5000000)), (n', db'))
    /\ wallets db' = <["bob" := transfer_credit demo_settle (demo_wallet "bob") 5000000]>
         (<["alice" := transfer_debit demo_settle (demo_wallet "alice") 5000000]> (wallets demo2))
    /\ life_of (orderStatus "o1" db') = Some Paid.
Proof.
  apply (transfer_settles 10 demo_settle "bob" demo_op (demo_wallet "alice") (demo_wallet "bob")
           (demo_env "e"%char 5000000) 0 demo2); try (vm_compute; reflexivity).
  - exact demo2_reachable.
  - apply demo_fresh. vm_compute. reflexivity.
  - repeat split; vm_compute; reflexivity.
  - discriminate.
  - split; vm_compute; reflexivity.
Defined.

Lemma release_settles_witness :
  exists tid n' db',
    release no_fault demo_settle (demo_env "e"%char 5000000) (0%nat, demo2)
    = Ok (Settled (release_result demo_settle tid
                     (release_wallet demo_settle (demo_wallet "alice") 5000000)), (n', db'))
    /\ wallets db' = <["alice" := release_wallet demo_settle (demo_wallet "alice") 5000000]>
                       (wallets demo2)
    /\ life_of (orderStatus "o1" db') = Some Returned.
Proof.
  apply (release_settles 10 demo_settle demo_op (demo_wallet "alice")
           (demo_env "e"%char 5000000) 0 demo2); try (vm_compute; reflexivity).
  - exact demo2_reachable.
  - apply demo_fresh. vm_compute. reflexivity.
  - repeat split; vm_compute; reflexivity.
  - split; vm_compute; reflexivity.
Defined.

(** The first order, paid; and a release for it that arrives afterwards. *)
Definition complete (id o u c : string) (a : Z) : Envelope :=
  demo_message id ORDER_COMPLETION_REQUESTED o (CompletionP (mkMovement o u a) c).
Definition give_back (id o u : string) (a : Z) : Envelope :=
  demo_message id CREDIT_RELEASE_REQUESTED o (MovementP (mkMovement o u a)).
Definition demo4 : CreditDb :=
  snd (deliver 10 Completions (complete "c1" "o1" "alice" "bob" 3) (demo_env "e"%char 5000000) demo3).
Definition demo_late : outcome bool * CreditDb :=
  deliver 10 Releases (give_back "l1" "o1" "alice" 3) (demo_env "f"%char 6000000) demo4.
Definition demo_paid_op : Op :=
  match operations demo4 !! ("o1", OpTransfer) with Some o => o | None => demo_op end.

Lemma settled_once_witness :
  operations demo4 !! ("o1", OpTransfer) = Some demo_paid_op /\ same_books demo4 (snd demo_late).
Proof.
  split; [vm_compute; reflexivity|].
  apply (settled_once 10 Releases (give_back "l1" "o1" "alice" 3) (demo_env "f"%char 6000000)
           demo4 (snd demo_late) (fst demo_late) OpTransfer demo_paid_op).
  - apply deliver_reachable, demo3_reachable.
  - discriminate.
  - discriminate.
  - vm_compute. reflexivity.
  - unfold demo_late. apply surjective_pairing.
Defined.

Definition demo_request : CreditInput := mkCreditInput "o9" "alice" 4 "corr" "r9".
Definition demo_reserved : outcome (ReservationOutcomeT * (nat * CreditDb)) :=
  reserve no_fault demo_request (demo_env "g"%char 7000000) (0%nat, demo2).
Definition demo_out : ReservationOutcomeT :=
  match demo_reserved with Ok (out, _) => out | Throw _ => ReservedR "" end.
Definition demo_after : nat * CreditDb :=
  match demo_reserved with Ok (_, s) => s | Throw _ => (0%nat, demo2) end.

Lemma reserve_redelivered_witness :
  exists n2 db2, reserve no_fault (mkCreditInput "o9" "alice" 4 "corr2" "r10")
                   (demo_env "h"%char 8000000) (0%nat, snd demo_after) = Ok (demo_out, (n2, db2))
    /\ same_economy (snd demo_after) db2
    /\ replied (mkCreditInput "o9" "alice" 4 "corr2" "r10") demo_out (snd demo_after) db2.
Proof.
  apply (reserve_redelivered no_fault demo_request (demo_env "g"%char 7000000) 0 demo2 demo_out
           (fst demo_after) (snd demo_after) "corr2" "r10" (demo_env "h"%char 8000000) 0).
  - vm_compute. reflexivity.
  - apply demo_fresh. vm_compute. reflexivity.
Defined.

Lemma reserve_overflow_unanswered_witness :
  deliver 10 Reservations (ask "r7" "o7" "alice" 3000000000) (demo_env "e"%char 5000000) demo2
  = (Throw (Sql NumericOutOfRange), demo2).
Proof.
  apply (reserve_overflow_unanswered 10 _ (mkMovement "o7" "alice" 3000000000));
    vm_compute; reflexivity.
Defined.

Lemma audit_passes_witness :
  exists r, runAudit true false true "run" SCHEDULED None 5000000 demo3 []
            = (Ok (Some r), [] ++ [r])
            /\ au_status r = PASS /\ au_mismatchCount r = Some 0%nat.
Proof. apply (audit_passes 10); [exact demo3_reachable|right; reflexivity]. Defined.

Definition demo_run : AuditRun := mkAuditRun "r" SCHEDULED None (Some 0) PASS (Some 0%nat) [].

Lemma audit_daily_witness :
  daily (snd (runAudit true false true "run" SCHEDULED None 5000000 demo3 [demo_run])).
Proof.
  apply audit_daily. intros d. simpl. destruct (bool_decide _); simpl; lia.
Defined.

Definition demo_alert : ActivityAlert := mkActivityAlert "x" "admin" 5 5 0.

Lemma bulk_reads_alerted_witness :
  let raised' := afterWalletRead 1 "admin" 4000000000 4000000000 "y"
                   [mkAdminRead "r" "admin" "alice" WALLET "corr" 3999999999] [demo_alert] in
  spaced raised'
  /\ (raised' <> [demo_alert] <->
      1 <= walletsInLastHour "admin" 4000000000
             [mkAdminRead "r" "admin" "alice" WALLET "corr" 3999999999]
      /\ forall a, a ∈ [demo_alert] -> aa_actor a = "admin" ->
                   aa_occurredAt a + hour_micros <= 4000000000).
Proof. apply bulk_reads_alerted. repeat constructor. Defined.

(** The first order's reservation again, at a whole millisecond. *)
Definition demo_ms : CreditDb :=
  snd (deliver 10 Reservations (ask "r1" "o1" "alice" 3) (demo_env "c"%char 3000000) demo1).

Lemma ledger_pages_complete_witness :
  exists rows, readLedger (Datatypes.S (length (activity "alice" demo_ms))) "alice" 1 NoCursor demo_ms
               = Ok (Some rows)
    /\ rows ≡ₚ activity "alice" demo_ms
    /\ in_order (fun a b => newest_first (ledger_key a) (ledger_key b)) rows.
Proof.
  apply (ledger_pages_complete 10).
  - repeat apply deliver_reachable. apply reach_empty.
  - vm_compute. eauto.
  - lia.
  - assert (forallb (fun x => iso (li_at x) =? li_at x) (activity "alice" demo_ms) = true) as Hall
      by (vm_compute; reflexivity).
    rewrite forallb_forall in Hall. intros x Hx. apply Z.eqb_eq, Hall. by apply list_elem_of_In.
Defined.

(** Where two of a wallet's transactions fall within one millisecond the page cursor, which
    holds the time only to the millisecond, skips the older one: in a state the service reaches,
    reading page after page loses an item of the ledger. *)
Theorem ledger_pages_skip :
  exists db rows, credit_reachable 10 db
    /\ readLedger 10 "alice" 1 NoCursor db = Ok (Some rows)
    /\ length rows = 2%nat /\ length (activity "alice" db) = 3%nat.
Proof.
  exists demo3. eexists. split; [exact demo3_reachable|].
  split; [vm_compute; reflexivity|]. split; vm_compute; reflexivity.
Qed.
End Demo.
