(* ===== verification/OrderMachine.v ===== *)
(** * OrderMachine: the errand's state machine
    (order-service/src/orders/order-state-machine.ts)

    [ORDER_TRANSITIONS] is the code's rule table, rule by rule, and [decideTransition] its first-match
    lookup. Every change of an errand's status but acceptance is decided by it, and acceptance
    follows its rule ([accept_rule]). An absent flag of the context is [false], as every guard reads
    it. *)
From S2P Require Export Catalogue.

Inductive OrderAction :=
  | CREDIT_RESERVED | CREDIT_REJECTED | ACCEPT | CANCEL | REQUESTER_SUSPENDED
  | ACCEPTANCE_DEADLINE_PASSED | RECORD_PICKUP | WITHDRAW | PICKUP_TIMEOUT | COURIER_SUSPENDED
  | RECORD_DELIVERY | REPORT_NON_DELIVERY | DELIVERY_PERIOD_PASSED | CONFIRM_RECEIPT | AUTO_CONFIRM
  | REPORT_NON_RECEIPT | RESOLVE_FOR_COURIER | RESOLVE_FOR_REQUESTER | ADMIN_ASSIGNED
  | ADMIN_UNASSIGNED | TRANSFER_CONFIRMED | RELEASE_CONFIRMED.

#[export] Instance OrderAction_eq_dec : EqDecision OrderAction.
Proof. solve_decision. Defined.

Module Actor.
Inductive OrderActor :=
  | REQUESTER | ASSIGNED_COURIER | OTHER_STUDENT | ADMIN | CREDIT_SERVICE | SYSTEM.

#[export] Instance OrderActor_eq_dec : EqDecision OrderActor.
Proof. solve_decision. Defined.
End Actor.
Notation OrderActor := Actor.OrderActor.
#[export] Existing Instance Actor.OrderActor_eq_dec.

Definition TERMINAL_ORDER_STATUSES : list OrderStatus := [REJECTED; COMPLETED; CANCELLED; EXPIRED].

(** [SUSPENSION_EFFECTS]: the part a participant has, the action tried from each status, the reason. *)
Inductive SuspendedAs := AsRequester | AsCourier.

Definition suspension_reason (part : SuspendedAs) : string :=
  match part with AsRequester => "requester suspended" | AsCourier => "courier suspended" end.

Definition suspension_action (part : SuspendedAs) (status : OrderStatus) : option OrderAction :=
  match part, status with
  | AsRequester, OPEN | AsRequester, ACCEPTED => Some REQUESTER_SUSPENDED
  | AsRequester, PICKED_UP => Some DELIVERY_PERIOD_PASSED
  | AsCourier, ACCEPTED | AsCourier, PICKED_UP => Some COURIER_SUSPENDED
  | _, _ => None
  end.

Inductive Outcome := ForCourier | ForRequester.
Definition RESOLVE_ACTIONS (o : Outcome) : OrderAction :=
  match o with ForCourier => RESOLVE_FOR_COURIER | ForRequester => RESOLVE_FOR_REQUESTER end.

Record TransitionContext := mkContext {
  acceptanceDeadlinePassed : bool;
  deliveryPeriodPassed : bool;
  autoConfirmationPeriodPassed : bool;
  requesterSuspended : bool;
  reasonProvided : bool;
  releaseReason : option OrderStatus }.

Record TransitionDecision := mkDecision {
  to : OrderStatus;
  decidedReason : option OrderStatus;
  emitted : list string }.

#[export] Instance TransitionDecision_eq_dec : EqDecision TransitionDecision.
Proof. solve_decision. Defined.

Record TransitionRule := mkRule {
  from_ : OrderStatus;
  action : OrderAction;
  actors : list OrderActor;
  guard : TransitionContext -> bool;
  decide_ : TransitionDecision }.

Definition statusChanged : list string := [ORDER_STATUS_CHANGED].
Definition completion : list string := [ORDER_COMPLETION_REQUESTED; ORDER_STATUS_CHANGED].
Definition release_ : list string := [CREDIT_RELEASE_REQUESTED; ORDER_STATUS_CHANGED].

Definition moves (s : OrderStatus) : TransitionDecision := mkDecision s None statusChanged.
Definition pays : TransitionDecision := mkDecision COMPLETION_PENDING_CREDIT None completion.
Definition returns (reason : OrderStatus) : TransitionDecision :=
  mkDecision RELEASE_PENDING_CREDIT (Some reason) release_.
Definition always (_ : TransitionContext) : bool := true.

Definition ORDER_TRANSITIONS : list TransitionRule :=
  [mkRule PENDING_CREDIT CREDIT_RESERVED [Actor.CREDIT_SERVICE]
     (fun c => negb (requesterSuspended c)) (moves OPEN);
   mkRule PENDING_CREDIT CREDIT_RESERVED [Actor.CREDIT_SERVICE]
     requesterSuspended (returns CANCELLED);
   mkRule PENDING_CREDIT CREDIT_REJECTED [Actor.CREDIT_SERVICE] always (moves REJECTED);
   mkRule OPEN ACCEPT [Actor.OTHER_STUDENT]
     (fun c => negb (acceptanceDeadlinePassed c)) (moves ACCEPTED);
   mkRule OPEN CANCEL [Actor.REQUESTER] always (returns CANCELLED);
   mkRule OPEN REQUESTER_SUSPENDED [Actor.SYSTEM] always (returns CANCELLED);
   mkRule OPEN ACCEPTANCE_DEADLINE_PASSED [Actor.SYSTEM] always (returns EXPIRED);
   mkRule ACCEPTED RECORD_PICKUP [Actor.ASSIGNED_COURIER] always (moves PICKED_UP);
   mkRule ACCEPTED CANCEL [Actor.REQUESTER] always (returns CANCELLED);
   mkRule ACCEPTED REQUESTER_SUSPENDED [Actor.SYSTEM] always (returns CANCELLED);
   mkRule ACCEPTED WITHDRAW [Actor.ASSIGNED_COURIER]
     (fun c => negb (acceptanceDeadlinePassed c)) (moves OPEN);
   mkRule ACCEPTED WITHDRAW [Actor.ASSIGNED_COURIER] acceptanceDeadlinePassed (returns EXPIRED);
   mkRule ACCEPTED PICKUP_TIMEOUT [Actor.SYSTEM]
     (fun c => negb (acceptanceDeadlinePassed c)) (moves OPEN);
   mkRule ACCEPTED PICKUP_TIMEOUT [Actor.SYSTEM] acceptanceDeadlinePassed (returns EXPIRED);
   mkRule ACCEPTED COURIER_SUSPENDED [Actor.SYSTEM] always (moves OPEN);
   mkRule PICKED_UP RECORD_DELIVERY [Actor.ASSIGNED_COURIER] always (moves DELIVERED);
   mkRule PICKED_UP REPORT_NON_DELIVERY [Actor.REQUESTER] deliveryPeriodPassed (moves DISPUTED);
   mkRule PICKED_UP DELIVERY_PERIOD_PASSED [Actor.SYSTEM]
     (fun c => requesterSuspended c && deliveryPeriodPassed c) (moves DISPUTED);
   mkRule PICKED_UP COURIER_SUSPENDED [Actor.SYSTEM] always (moves DISPUTED);
   mkRule DELIVERED CONFIRM_RECEIPT [Actor.REQUESTER] always pays;
   mkRule DELIVERED AUTO_CONFIRM [Actor.SYSTEM] always pays;
   mkRule DELIVERED REPORT_NON_RECEIPT [Actor.REQUESTER]
     (fun c => negb (autoConfirmationPeriodPassed c)) (moves DISPUTED);
   mkRule DISPUTED RESOLVE_FOR_COURIER [Actor.ADMIN] reasonProvided pays;
   mkRule DISPUTED RESOLVE_FOR_REQUESTER [Actor.ADMIN] reasonProvided (returns CANCELLED);
   mkRule DISPUTED ADMIN_ASSIGNED [Actor.SYSTEM] always (mkDecision DISPUTED None []);
   mkRule DISPUTED ADMIN_UNASSIGNED [Actor.SYSTEM] always (mkDecision DISPUTED None []);
   mkRule COMPLETION_PENDING_CREDIT TRANSFER_CONFIRMED [Actor.CREDIT_SERVICE] always
     (moves COMPLETED);
   mkRule RELEASE_PENDING_CREDIT RELEASE_CONFIRMED [Actor.CREDIT_SERVICE]
     (fun c => bool_decide (releaseReason c = Some CANCELLED)) (moves CANCELLED);
   mkRule RELEASE_PENDING_CREDIT RELEASE_CONFIRMED [Actor.CREDIT_SERVICE]
     (fun c => bool_decide (releaseReason c = Some EXPIRED)) (moves EXPIRED)].

Definition includes (actors_ : list OrderActor) (actor : OrderActor) : bool :=
  existsb (fun a => bool_decide (a = actor)) actors_.

Definition applies (s : OrderStatus) (a : OrderAction) (actor : OrderActor) (c : TransitionContext)
    (r : TransitionRule) : bool :=
  bool_decide (from_ r = s) && bool_decide (action r = a) && includes (actors r) actor && guard r c.

Definition decideTransition (s : OrderStatus) (a : OrderAction) (actor : OrderActor)
    (c : TransitionContext) : option TransitionDecision :=
  decide_ <$> List.find (applies s a actor c) ORDER_TRANSITIONS.

(** [ORDER_TRANSITIONS.some(…)] of the refusal: the action is this actor's in some status. *)
Definition allowedSomewhere (a : OrderAction) (actor : OrderActor) : bool :=
  existsb (fun r => bool_decide (action r = a) && includes (actors r) actor) ORDER_TRANSITIONS.

(** ** The table *)

Lemma decideTransition_rule s a actor c d :
  decideTransition s a actor c = Some d ->
  exists r, r ∈ ORDER_TRANSITIONS /\ from_ r = s /\ action r = a /\ includes (actors r) actor = true
    /\ guard r c = true /\ decide_ r = d.
Proof.
  unfold decideTransition. destruct (List.find _ _) as [r|] eqn:Hf; [|done]. intros [= <-].
  apply find_some in Hf as [Hin Hap]. exists r. unfold applies in Hap.
  rewrite !andb_true_iff, !bool_decide_eq_true in Hap. destruct Hap as [[[? ?] ?] ?].
  repeat split; auto. by apply list_elem_of_In.
Qed.

(** A property of every rule is decided by reading the table. *)
Lemma rules_forall (P : TransitionRule -> Prop) :
  Forall P ORDER_TRANSITIONS ->
  forall s a actor c d, decideTransition s a actor c = Some d ->
    exists r, P r /\ from_ r = s /\ action r = a /\ includes (actors r) actor = true
      /\ guard r c = true /\ decide_ r = d.
Proof.
  intros HP s a actor c d Hd. apply decideTransition_rule in Hd as (r & Hin & Hr).
  exists r. rewrite Forall_forall in HP. auto.
Qed.

(** Two rules that could both be tried for one command cannot both apply. *)
Definition exclusive (r1 r2 : TransitionRule) : Prop :=
  forall s a actor c, applies s a actor c r1 = true -> applies s a actor c r2 = true -> False.

Definition same_command (r1 r2 : TransitionRule) : bool :=
  bool_decide (from_ r1 = from_ r2) && bool_decide (action r1 = action r2).

Lemma other_command r1 r2 : same_command r1 r2 = false -> exclusive r1 r2.
Proof.
  unfold same_command, exclusive, applies. intros Hno s a actor c.
  rewrite !andb_true_iff, !bool_decide_eq_true. intros [[[H1 H2] _] _] [[[H3 H4] _] _].
  apply andb_false_iff in Hno as [Hno|Hno]; apply bool_decide_eq_false in Hno; congruence.
Qed.

Lemma other_guard r1 r2 : (forall c, guard r1 c && guard r2 c = false) -> exclusive r1 r2.
Proof.
  intros Hno s a actor c. unfold applies. rewrite !andb_true_iff. intros [_ H1] [_ H2].
  specialize (Hno c). by rewrite H1, H2 in Hno.
Qed.

Lemma rules_exclusive : ForallOrdPairs exclusive ORDER_TRANSITIONS.
Proof.
  unfold ORDER_TRANSITIONS.
  repeat first [ constructor | apply other_command; reflexivity
               | apply other_guard; intros [adp dp ap rs rp rr]; simpl ].
  all: first [by destruct rs | by destruct adp | by repeat case_bool_decide; simplify_eq].
Qed.

(** The rules' order is immaterial: whatever rule applies is the one that decides. *)
Lemma decideTransition_unique r s a actor c :
  r ∈ ORDER_TRANSITIONS -> applies s a actor c r = true ->
  decideTransition s a actor c = Some (decide_ r).
Proof.
  unfold decideTransition. generalize rules_exclusive. induction 1 as [|x l Hx _ IH]; [set_solver|].
  intros Hin Hap. simpl. destruct (applies s a actor c x) eqn:Hax.
  - apply elem_of_cons in Hin as [->|Hin]; [done|]. exfalso. rewrite Forall_forall in Hx.
    by eapply (Hx r Hin).
  - apply elem_of_cons in Hin as [->|Hin]; [congruence|auto].
Qed.

(** No rule leaves a final status. *)
Lemma terminal_final s a actor c : s ∈ TERMINAL_ORDER_STATUSES -> decideTransition s a actor c = None.
Proof.
  intros Hs. destruct (decideTransition s a actor c) as [d|] eqn:Hd; [exfalso|done].
  apply (rules_forall (fun r => from_ r ∉ TERMINAL_ORDER_STATUSES)) in Hd as (r & Hr & <- & _);
    [done|].
  unfold ORDER_TRANSITIONS. repeat constructor; by apply (bool_decide_unpack _).
Qed.

(** What each kind of decision sends. *)
Definition sends_right (r : TransitionRule) : Prop :=
  let d := decide_ r in
  emitted d = (if bool_decide (to d = from_ r) then []
               else if bool_decide (to d = COMPLETION_PENDING_CREDIT) then completion
               else if bool_decide (to d = RELEASE_PENDING_CREDIT) then release_
               else statusChanged)
  /\ (is_some (decidedReason d) = bool_decide (to d = RELEASE_PENDING_CREDIT))
  /\ optP (decidedReason d) (fun s => bool_decide (s = CANCELLED) || bool_decide (s = EXPIRED)) = true.

Lemma rules_send : Forall sends_right ORDER_TRANSITIONS.
Proof. unfold ORDER_TRANSITIONS, sends_right. repeat constructor. Qed.

Lemma decision_sends s a actor c d :
  decideTransition s a actor c = Some d ->
  emitted d = (if bool_decide (to d = s) then []
               else if bool_decide (to d = COMPLETION_PENDING_CREDIT) then completion
               else if bool_decide (to d = RELEASE_PENDING_CREDIT) then release_
               else statusChanged)
  /\ (is_some (decidedReason d) = bool_decide (to d = RELEASE_PENDING_CREDIT))
  /\ optP (decidedReason d) (fun s => bool_decide (s = CANCELLED) || bool_decide (s = EXPIRED)) = true.
Proof.
  intros Hd. apply (rules_forall sends_right rules_send) in Hd as (r & Hr & <- & _ & _ & _ & <-).
  exact Hr.
Qed.

(** Acceptance, which the repository decides in one statement, is the table's own rule. *)
Lemma accept_rule s actor c :
  decideTransition s ACCEPT actor c
  = if bool_decide (s = OPEN) && bool_decide (actor = Actor.OTHER_STUDENT)
       && negb (acceptanceDeadlinePassed c)
    then Some (moves ACCEPTED) else None.
Proof.
  destruct c as [adp dp ap rs rp rr]. unfold decideTransition, applies.
  destruct s; try reflexivity. destruct actor; try reflexivity. by destruct adp.
Qed.

(** The Credit Service alone ends an errand, opens one or rejects one. *)
Definition only_credit_closes (r : TransitionRule) : Prop :=
  to (decide_ r) ∈ TERMINAL_ORDER_STATUSES \/ from_ r = PENDING_CREDIT
    \/ from_ r = COMPLETION_PENDING_CREDIT \/ from_ r = RELEASE_PENDING_CREDIT ->
  actors r = [Actor.CREDIT_SERVICE].

Lemma rules_credit_closes : Forall only_credit_closes ORDER_TRANSITIONS.
Proof.
  unfold ORDER_TRANSITIONS, only_credit_closes, TERMINAL_ORDER_STATUSES.
  repeat constructor; simpl; rewrite ?elem_of_cons, ?elem_of_nil; intros; destruct_or?; done.
Qed.
