(* ===== verification/OrderSchema.v ===== *)
(** * OrderSchema: the Order Service's tables (order-service/src/db/schema.ts, orders/types.ts)

    A row of [orders] is an [OrderRow], with the one column its reads leave out beside it
    ([Stored]); times are microseconds and a read cuts them to milliseconds ([mapOrder]). Every
    constraint a statement can meet is a named check; CHECKs run in the order of their names, as
    PostgreSQL evaluates them. The append-only tables have no operation but insertion. *)
From S2P Require Export Text Inbox OrderMachine.

Record OrderItem := mkItem { i_name : string; i_quantity : Z; i_note : option string }.

Record SupplierSnapshot := mkSupplier {
  s_supplierId : string; s_name : string; s_type : string; s_building : string; s_floor : string;
  s_locationDescription : string }.

Record OrderRow := mkOrder {
  or_orderId : string;
  or_requesterId : string;
  or_courierId : option string;
  or_referredAdminId : option string;
  or_supplier : SupplierSnapshot;
  or_items : list OrderItem;
  or_deliveryZone : string;
  or_deliveryInstructions : string;
  or_reward : Z;
  or_status : OrderStatus;
  or_releaseReason : option OrderStatus;
  or_rejectionReason : option ReservationRejection;
  or_availableAtRejection : option Z;
  or_version : Z;
  or_acceptanceDeadlineAt : option Z;
  or_acceptedAt : option Z;
  or_pickedUpAt : option Z;
  or_deliveredAt : option Z;
  or_nonDeliveryReportAt : option Z;
  or_autoConfirmAt : option Z;
  or_completionRequestedAt : option Z;
  or_completedAt : option Z;
  or_releaseRequestedAt : option Z;
  or_releasedAt : option Z;
  or_creditTransactionId : option string;
  or_createdAt : Z;
  or_updatedAt : Z }.

(** A stored row: the selected columns, and [requester_suspended_at]. *)
Record Stored := mkStored { st_row : OrderRow; st_requesterSuspendedAt : option Z }.

(** The columns a statement of the service can set on an existing row. *)
Inductive Column :=
  | Status (v : OrderStatus)
  | Version (v : Z)
  | UpdatedAt (v : Z)
  | CourierId (v : option string)
  | ReferredAdminId (v : option string)
  | ReleaseReasonC (v : OrderStatus)
  | RejectionReason (v : option ReservationRejection)
  | AvailableAtRejection (v : option Z)
  | AcceptanceDeadlineAt (v : Z)
  | AcceptedAt (v : option Z)
  | PickedUpAt (v : Z)
  | DeliveredAt (v : Z)
  | NonDeliveryReportAt (v : Z)
  | AutoConfirmAt (v : Z)
  | CompletionRequestedAt (v : Z)
  | CompletedAt (v : Z)
  | ReleaseRequestedAt (v : Z)
  | ReleasedAt (v : Z)
  | CreditTransactionId (v : string).

Definition set_column (r : OrderRow) (c : Column) : OrderRow :=
  let 'mkOrder id req cour adm sup items zone instr reward st rel rej avail ver dl acc pick deliv
         ndr auto compr comp relr reld txn crea upd := r in
  match c with
  | Status v => mkOrder id req cour adm sup items zone instr reward v rel rej avail ver dl acc pick
      deliv ndr auto compr comp relr reld txn crea upd
  | Version v => mkOrder id req cour adm sup items zone instr reward st rel rej avail v dl acc pick
      deliv ndr auto compr comp relr reld txn crea upd
  | UpdatedAt v => mkOrder id req cour adm sup items zone instr reward st rel rej avail ver dl acc
      pick deliv ndr auto compr comp relr reld txn crea v
  | CourierId v => mkOrder id req v adm sup items zone instr reward st rel rej avail ver dl acc pick
      deliv ndr auto compr comp relr reld txn crea upd
  | ReferredAdminId v => mkOrder id req cour v sup items zone instr reward st rel rej avail ver dl
      acc pick deliv ndr auto compr comp relr reld txn crea upd
  | ReleaseReasonC v => mkOrder id req cour adm sup items zone instr reward st (Some v) rej avail ver
      dl acc pick deliv ndr auto compr comp relr reld txn crea upd
  | RejectionReason v => mkOrder id req cour adm sup items zone instr reward st rel v avail ver dl
      acc pick deliv ndr auto compr comp relr reld txn crea upd
  | AvailableAtRejection v => mkOrder id req cour adm sup items zone instr reward st rel rej v ver dl
      acc pick deliv ndr auto compr comp relr reld txn crea upd
  | AcceptanceDeadlineAt v => mkOrder id req cour adm sup items zone instr reward st rel rej avail ver
      (Some v) acc pick deliv ndr auto compr comp relr reld txn crea upd
  | AcceptedAt v => mkOrder id req cour adm sup items zone instr reward st rel rej avail ver dl v pick
      deliv ndr auto compr comp relr reld txn crea upd
  | PickedUpAt v => mkOrder id req cour adm sup items zone instr reward st rel rej avail ver dl acc
      (Some v) deliv ndr auto compr comp relr reld txn crea upd
  | DeliveredAt v => mkOrder id req cour adm sup items zone instr reward st rel rej avail ver dl acc
      pick (Some v) ndr auto compr comp relr reld txn crea upd
  | NonDeliveryReportAt v => mkOrder id req cour adm sup items zone instr reward st rel rej avail ver
      dl acc pick deliv (Some v) auto compr comp relr reld txn crea upd
  | AutoConfirmAt v => mkOrder id req cour adm sup items zone instr reward st rel rej avail ver dl acc
      pick deliv ndr (Some v) compr comp relr reld txn crea upd
  | CompletionRequestedAt v => mkOrder id req cour adm sup items zone instr reward st rel rej avail
      ver dl acc pick deliv ndr auto (Some v) comp relr reld txn crea upd
  | CompletedAt v => mkOrder id req cour adm sup items zone instr reward st rel rej avail ver dl acc
      pick deliv ndr auto compr (Some v) relr reld txn crea upd
  | ReleaseRequestedAt v => mkOrder id req cour adm sup items zone instr reward st rel rej avail ver
      dl acc pick deliv ndr auto compr comp (Some v) reld txn crea upd
  | ReleasedAt v => mkOrder id req cour adm sup items zone instr reward st rel rej avail ver dl acc
      pick deliv ndr auto compr comp relr (Some v) txn crea upd
  | CreditTransactionId v => mkOrder id req cour adm sup items zone instr reward st rel rej avail ver
      dl acc pick deliv ndr auto compr comp relr reld (Some v) crea upd
  end.

(** [{ ...a, ...b }]: a later column wins. *)
Definition set_columns (cs : list Column) (r : OrderRow) : OrderRow := foldl set_column r cs.

(** [mapOrder]: every time is read as a [Date]. *)
Definition mapOrder (r : OrderRow) : OrderRow :=
  mkOrder (or_orderId r) (or_requesterId r) (or_courierId r) (or_referredAdminId r) (or_supplier r)
    (or_items r) (or_deliveryZone r) (or_deliveryInstructions r) (or_reward r) (or_status r)
    (or_releaseReason r) (or_rejectionReason r) (or_availableAtRejection r) (or_version r)
    (iso <$> or_acceptanceDeadlineAt r) (iso <$> or_acceptedAt r) (iso <$> or_pickedUpAt r)
    (iso <$> or_deliveredAt r) (iso <$> or_nonDeliveryReportAt r) (iso <$> or_autoConfirmAt r)
    (iso <$> or_completionRequestedAt r) (iso <$> or_completedAt r)
    (iso <$> or_releaseRequestedAt r) (iso <$> or_releasedAt r) (or_creditTransactionId r)
    (iso (or_createdAt r)) (iso (or_updatedAt r)).

(** ** The other tables *)

Inductive HistoryAction := Create | Did (a : OrderAction).
Inductive HistoryActor :=
  | ByRequester | ByCourier | ByStudent | ByAdmin | ByCredit | BySystem.

#[export] Instance HistoryAction_eq_dec : EqDecision HistoryAction.
Proof. solve_decision. Defined.
#[export] Instance HistoryActor_eq_dec : EqDecision HistoryActor.
Proof. solve_decision. Defined.

Record History := mkHistory {
  h_id : string; h_orderId : string; h_previous : option OrderStatus; h_new : OrderStatus;
  h_action : HistoryAction; h_actorType : HistoryActor; h_actorId : option string;
  h_reason : option string; h_version : Z; h_occurredAt : Z }.

Record Receipt := mkReceipt {
  rc_orderId : string; rc_requesterId : string; rc_courierId : string; rc_supplier : SupplierSnapshot;
  rc_items : list OrderItem; rc_reward : Z; rc_transactionId : string; rc_createdAt : Z;
  rc_acceptedAt : Z; rc_pickedUpAt : Z; rc_deliveredAt : option Z; rc_completionRequestedAt : Z;
  rc_completedAt : Z }.

Inductive AlertKind := CREDIT_WAIT_EXCEEDED | CREDIT_STATE_CONFLICT | REFERRAL_UNASSIGNED.
#[export] Instance AlertKind_eq_dec : EqDecision AlertKind.
Proof. solve_decision. Defined.

(** What the Credit Service answers about an order ([creditStatusSchema]). *)
Inductive CreditState := CreditNone | CreditReserved | CreditReleased | CreditTransferred.
Inductive CreditDetail := CreditUnknown | CreditInFlight | CreditRejected.
#[export] Instance CreditState_eq_dec : EqDecision CreditState.
Proof. solve_decision. Defined.

Inductive AlertDetail :=
  | WaitDetail (createdAt : Z) (requesterId : string)
  | ConflictDetail (orderStatus : OrderStatus) (creditStatus : option CreditState)
  | ReferralDetail (activeAdmins : Z).
Record OrderAlert := mkOrderAlert {
  oa_orderId : string; oa_kind : AlertKind; oa_raisedAt : Z; oa_detail : AlertDetail }.

Inductive RecordedAction := REISSUED | ALERTED | CREDIT_UNAVAILABLE.
#[export] Instance RecordedAction_eq_dec : EqDecision RecordedAction.
Proof. solve_decision. Defined.

Record Attempt := mkAttempt {
  at_id : string; at_runId : string; at_orderId : string; at_status : OrderStatus; at_version : Z;
  at_creditStatus : option CreditState; at_creditDetail : option CreditDetail;
  at_action : RecordedAction; at_reissued : option string; at_attemptedAt : Z }.

(** A row of either table of idempotency keys, under its caller and key. *)
Record KeyRow := mkKeyRow { k_orderId : string; k_requestHash : string; k_createdAt : Z }.

Record OrderDb := mkOrderDb {
  orders : gmap string Stored;
  history : list History;
  receipts : list Receipt;
  orderAlerts : list OrderAlert;
  attempts : list Attempt;
  creationKeys : gmap (string * string) KeyRow;
  commandKeys : gmap (string * string) KeyRow;
  orderProcessed : InboxTable;
  orderOutbox : Outbox }.

Definition empty_order_db : OrderDb := mkOrderDb ∅ [] [] [] [] ∅ ∅ ∅ empty_outbox.

Definition set_orders v d := mkOrderDb v (history d) (receipts d) (orderAlerts d) (attempts d)
  (creationKeys d) (commandKeys d) (orderProcessed d) (orderOutbox d).
Definition set_history v d := mkOrderDb (orders d) v (receipts d) (orderAlerts d) (attempts d)
  (creationKeys d) (commandKeys d) (orderProcessed d) (orderOutbox d).
Definition set_receipts v d := mkOrderDb (orders d) (history d) v (orderAlerts d) (attempts d)
  (creationKeys d) (commandKeys d) (orderProcessed d) (orderOutbox d).
Definition set_orderAlerts v d := mkOrderDb (orders d) (history d) (receipts d) v (attempts d)
  (creationKeys d) (commandKeys d) (orderProcessed d) (orderOutbox d).
Definition set_attempts v d := mkOrderDb (orders d) (history d) (receipts d) (orderAlerts d) v
  (creationKeys d) (commandKeys d) (orderProcessed d) (orderOutbox d).
Definition set_creationKeys v d := mkOrderDb (orders d) (history d) (receipts d) (orderAlerts d)
  (attempts d) v (commandKeys d) (orderProcessed d) (orderOutbox d).
Definition set_commandKeys v d := mkOrderDb (orders d) (history d) (receipts d) (orderAlerts d)
  (attempts d) (creationKeys d) v (orderProcessed d) (orderOutbox d).
Definition set_orderProcessed v d := mkOrderDb (orders d) (history d) (receipts d) (orderAlerts d)
  (attempts d) (creationKeys d) (commandKeys d) v (orderOutbox d).
Definition set_orderOutbox v d := mkOrderDb (orders d) (history d) (receipts d) (orderAlerts d)
  (attempts d) (creationKeys d) (commandKeys d) (orderProcessed d) v.

#[export] Instance OrderDb_HasOutbox : HasOutbox OrderDb :=
  {| outbox := orderOutbox; set_outbox := set_orderOutbox;
     outbox_set_outbox := fun _ _ => eq_refl |}.
#[export] Instance OrderDb_HasInbox : HasInbox OrderDb :=
  {| inbox := orderProcessed; set_inbox := set_orderProcessed;
     inbox_set_inbox := fun _ _ => eq_refl |}.

Notation OrderM := (M OrderDb).

(** ** Constraints of [orders] *)

Definition needs_courier : list OrderStatus :=
  [ACCEPTED; PICKED_UP; DELIVERED; DISPUTED; COMPLETION_PENDING_CREDIT; COMPLETED].

Definition between (a b z : Z) : bool := (a <=? z) && (z <=? b).

Definition order_checks (r : OrderRow) : list (string * bool) :=
  [("orders_completed_shape", bool_decide (or_status r <> COMPLETED)
      || is_some (or_completedAt r) && is_some (or_creditTransactionId r));
   ("orders_courier_shape",
      bool_decide (or_status r ∉ needs_courier) || is_some (or_courierId r));
   ("orders_delivered_shape",
      bool_decide (or_status r <> DELIVERED) || is_some (or_autoConfirmAt r));
   ("orders_delivery_instructions_len",
      between 1 1000 (Z.of_nat (char_length (or_deliveryInstructions r))));
   ("orders_delivery_zone_len", between 1 200 (Z.of_nat (char_length (or_deliveryZone r))));
   ("orders_items_array", (0 <? length (or_items r))%nat);
   ("orders_picked_up_shape",
      bool_decide (or_status r <> PICKED_UP) || is_some (or_nonDeliveryReportAt r));
   ("orders_rejection_shape",
      Bool.eqb (bool_decide (or_status r = REJECTED)) (is_some (or_rejectionReason r)));
   ("orders_release_reason_shape", optP (or_releaseReason r)
      (fun s => bool_decide (s = CANCELLED) || bool_decide (s = EXPIRED)));
   ("orders_released_shape", bool_decide (or_status r ∉ [CANCELLED; EXPIRED])
      || is_some (or_releasedAt r) && is_some (or_creditTransactionId r)
         && is_some (or_releaseReason r));
   ("orders_reward_range", between 1 5 (or_reward r));
   ("orders_version_positive", 1 <=? or_version r)].

Definition order_ok (r : OrderRow) : bool := forallb snd (order_checks r).

Section Tables.
Context `{Pg}.

(** A parameter of type [uuid]. *)
Definition as_uuid (id : string) (column : string) : OrderM unit :=
  require (pg_uuid id) (Sql (InvalidText column)).

Definition check_order (r : OrderRow) : OrderM unit :=
  width_ok (or_reward r) ;;;
  width_ok (or_version r) ;;;
  require (optP (or_availableAtRejection r) in_int4) (Sql NumericOutOfRange) ;;;
  require (optP (or_creditTransactionId r) pg_uuid) (Sql (InvalidText "credit_transaction_id")) ;;;
  mapM_ (fun nb => check_ nb.2 nb.1) (order_checks r).

Definition insert_order (r : OrderRow) : OrderM unit :=
  as_uuid (or_orderId r) "order_id" ;;;
  check_order r ;;;
  let! db := gets id in
  unique_ (negb (is_some (orders db !! or_orderId r))) "orders_pkey" ;;;
  modify (set_orders (<[or_orderId r := mkStored r None]> (orders db))).

(** [UPDATE orders SET … WHERE order_id = $1 AND cond RETURNING …]. *)
Definition update_order (orderId : string) (cond : OrderRow -> bool) (cs : OrderRow -> list Column)
  : OrderM (option OrderRow) :=
  as_uuid orderId "order_id" ;;;
  let! db := gets id in
  match orders db !! orderId with
  | Some (mkStored r mark) =>
      if cond r then
        let r' := set_columns (cs r) r in
        check_order r' ;;;
        modify (set_orders (<[orderId := mkStored r' mark]> (orders db))) ;;;
        ret (Some r')
      else ret None
  | None => ret None
  end.

Definition insert_history (h : History) : OrderM unit :=
  width_ok (h_version h) ;;;
  let! db := gets id in
  unique_ (negb (existsb (fun x => String.eqb (h_id x) (h_id h)) (history db)))
    "order_status_history_pkey" ;;;
  unique_ (negb (existsb (fun x => String.eqb (h_orderId x) (h_orderId h)
                                   && (h_version x =? h_version h)) (history db)))
    "order_history_order_version_key" ;;;
  references_ (is_some (orders db !! h_orderId h)) "order_status_history_order_id_fk" ;;;
  modify (set_history (history db ++ [h])).

Definition insert_receipt (r : Receipt) : OrderM unit :=
  width_ok (rc_reward r) ;;;
  check_ (between 1 5 (rc_reward r)) "order_receipts_reward_range" ;;;
  let! db := gets id in
  unique_ (negb (existsb (fun x => String.eqb (rc_orderId x) (rc_orderId r)) (receipts db)))
    "order_receipts_pkey" ;;;
  unique_ (negb (existsb (fun x => String.eqb (rc_transactionId x) (rc_transactionId r)) (receipts db)))
    "order_receipts_credit_transaction_id_unique" ;;;
  references_ (is_some (orders db !! rc_orderId r)) "order_receipts_order_id_fk" ;;;
  modify (set_receipts (receipts db ++ [r])).

(** [INSERT INTO order_operator_alerts … ON CONFLICT (order_id, kind) DO NOTHING RETURNING]. *)
Definition has_alert (db : OrderDb) (orderId : string) (kind : AlertKind) : bool :=
  existsb (fun a => String.eqb (oa_orderId a) orderId && bool_decide (oa_kind a = kind))
    (orderAlerts db).

Definition insert_order_alert (a : OrderAlert) : OrderM bool :=
  let! db := gets id in
  if has_alert db (oa_orderId a) (oa_kind a) then ret false
  else references_ (is_some (orders db !! oa_orderId a)) "order_operator_alerts_order_id_fk" ;;;
       modify (set_orderAlerts (orderAlerts db ++ [a])) ;;; ret true.

Definition insert_attempt (a : Attempt) : OrderM unit :=
  width_ok (at_version a) ;;;
  check_ (Bool.eqb (bool_decide (at_action a = REISSUED)) (is_some (at_reissued a)))
    "order_reconciliation_reissue_shape" ;;;
  let! db := gets id in
  unique_ (negb (existsb (fun x => String.eqb (at_id x) (at_id a)) (attempts db)))
    "order_reconciliation_attempts_pkey" ;;;
  references_ (is_some (orders db !! at_orderId a)) "order_reconciliation_attempts_order_id_fk" ;;;
  modify (set_attempts (attempts db ++ [a])).

Definition insert_creation_key (who key orderId hash : string) : OrderM unit :=
  let! db := gets id in
  let! at_ := now in
  unique_ (negb (is_some (creationKeys db !! (who, key)))) "order_idempotency_keys_pkey" ;;;
  references_ (is_some (orders db !! orderId)) "order_idempotency_keys_order_id_fk" ;;;
  modify (set_creationKeys (<[(who, key) := mkKeyRow orderId hash at_]> (creationKeys db))).

Definition insert_command_key (who key orderId hash : string) : OrderM unit :=
  as_uuid orderId "order_id" ;;;
  let! db := gets id in
  let! at_ := now in
  unique_ (negb (is_some (commandKeys db !! (who, key)))) "order_command_idempotency_keys_pkey" ;;;
  references_ (is_some (orders db !! orderId)) "order_command_idempotency_keys_order_id_fk" ;;;
  modify (set_commandKeys (<[(who, key) := mkKeyRow orderId hash at_]> (commandKeys db))).
End Tables.
