(* ===== verification/OrderRepository.v ===== *)
(** * OrderRepository: the Order Service's writes (order-service/src/orders/orders.repository.ts)

    [createPending], [acceptUsing] and [transitionUsing] are the three statements sequences that
    change an errand; [withCommandKey] runs a command once per Idempotency-Key; the rest are the
    scheduler's and the reconciler's writes. A query that locks rows reads them as they are, since
    a transaction's effect is atomic. [date_now] is the process's clock, [now] the database's. *)
From S2P Require Export OrderSchema.

(** The configured periods, in milliseconds. *)
Record Periods := mkPeriods {
  ACCEPTANCE_WINDOW_MS : Z; DELIVERY_PERIOD_MS : Z; AUTO_CONFIRM_MS : Z }.

Definition later (at_ ms : Z) : Z := at_ + ms * 1000.

(** ** Commands *)

Inductive CommandActor :=
  | User (id : string) (isAdmin : bool)
  | System (id : option string)
  | CreditService.

Definition actor_id (a : CommandActor) : option string :=
  match a with User u _ => Some u | System i => i | CreditService => Some "credit-service" end.

(** A requester or courier acts as that participant even if they are also an administrator. *)
Definition resolveActor (order : OrderRow) (actor : CommandActor) : OrderActor :=
  match actor with
  | System _ => Actor.SYSTEM
  | CreditService => Actor.CREDIT_SERVICE
  | User u isAdmin =>
      if String.eqb u (or_requesterId order) then Actor.REQUESTER
      else if match or_courierId order with Some c => String.eqb u c | None => false end
      then Actor.ASSIGNED_COURIER
      else if isAdmin then Actor.ADMIN else Actor.OTHER_STUDENT
  end.

Definition HISTORY_ACTOR (a : OrderActor) : HistoryActor :=
  match a with
  | Actor.REQUESTER => ByRequester | Actor.ASSIGNED_COURIER => ByCourier
  | Actor.OTHER_STUDENT => ByStudent | Actor.ADMIN => ByAdmin
  | Actor.CREDIT_SERVICE => ByCredit | Actor.SYSTEM => BySystem
  end.

Record TransitionCommand := mkCommand {
  tc_orderId : string;
  tc_action : OrderAction;
  tc_actor : CommandActor;
  tc_expectedVersion : option Z;
  tc_correlationId : string;
  tc_causationId : option string;
  tc_now : option Z;
  tc_verify : OrderRow -> option Exn;
  tc_patch : list Column;
  tc_reason : option string;
  tc_requesterSuspended : bool;
  tc_afterApply : OrderRow -> OrderM unit }.

Inductive Refusal := NOT_FOUND | FORBIDDEN | INVALID_STATE | VERSION_CONFLICT.
#[export] Instance Refusal_eq_dec : EqDecision Refusal.
Proof. solve_decision. Defined.

Inductive TransitionResult :=
  | Applied (order : OrderRow) (decision : TransitionDecision)
  | Rejected (reason : Refusal) (order : option OrderRow).

Inductive Acceptance := Accepted (order : OrderRow) | NotAccepted (order : option OrderRow).

(** [new Date(deadline) <= now], of a deadline that may be missing. *)
Definition passed (deadline : option Z) (now_ : Z) : bool :=
  match deadline with Some d => d <=? now_ | None => false end.

Definition transition_context (cmd : TransitionCommand) (order : OrderRow) (now_ : Z)
  : TransitionContext :=
  mkContext (passed (or_acceptanceDeadlineAt order) now_)
    (passed (or_nonDeliveryReportAt order) now_)
    (passed (or_autoConfirmAt order) now_)
    (tc_requesterSuspended cmd)
    (match tc_reason cmd with Some r => nonempty (trim r) | None => false end)
    (or_releaseReason order).

Section Patch.
Context (periods : Periods).

Definition noCourier : list Column := [CourierId None; AcceptedAt None].

(** A missing deadline or acceptance time reads as [Date.parse(null)], which makes an invalid date:
    the statement would not run. *)
Definition timestampPatch (a : OrderAction) (d : TransitionDecision) (at_ : Z) (order : OrderRow)
  : outcome (list Column) :=
  let courierRemoved :=
    if bool_decide (a = WITHDRAW) || bool_decide (a = PICKUP_TIMEOUT) then noCourier else [] in
  if bool_decide (a = COURIER_SUSPENDED) && bool_decide (to d = OPEN) then
    match or_acceptanceDeadlineAt order, or_acceptedAt order with
    | Some deadline, Some accepted =>
        Ok (noCourier ++ [AcceptanceDeadlineAt (deadline + (at_ - accepted))])
    | _, _ => Throw (Failure "Invalid time value")
    end
  else Ok (
  if bool_decide (a = RECORD_PICKUP) then
    [PickedUpAt at_; NonDeliveryReportAt (later at_ (DELIVERY_PERIOD_MS periods))]
  else if bool_decide (a = CREDIT_RESERVED) && bool_decide (to d = OPEN) then
    [AcceptanceDeadlineAt (later at_ (ACCEPTANCE_WINDOW_MS periods))]
  else if bool_decide (a = RECORD_DELIVERY) then
    [DeliveredAt at_; AutoConfirmAt (later at_ (AUTO_CONFIRM_MS periods))]
  else if bool_decide (to d = COMPLETION_PENDING_CREDIT) then [CompletionRequestedAt at_]
  else if bool_decide (to d = COMPLETED) then [CompletedAt at_]
  else if bool_decide (to d = RELEASE_PENDING_CREDIT) then courierRemoved ++ [ReleaseRequestedAt at_]
  else if bool_decide (to d = CANCELLED) || bool_decide (to d = EXPIRED) then [ReleasedAt at_]
  else courierRemoved).
End Patch.

(** ** Events *)

Definition movement (order : OrderRow) : Movement :=
  mkMovement (or_orderId order) (or_requesterId order) (or_reward order).

Definition status_payload (order : OrderRow) (previous : option OrderStatus) (at_ : Z) : Payload :=
  StatusChangedP (or_orderId order) previous (or_status order) at_ (Some (or_version order)).

Definition emittedEvent (eventType : string) (before after : OrderRow) (at_ : Z) : outcome Payload :=
  if String.eqb eventType ORDER_STATUS_CHANGED then
    Ok (status_payload after (Some (or_status before)) at_)
  else if String.eqb eventType ORDER_COMPLETION_REQUESTED then
    match keep nonempty (or_courierId after) with
    | Some c => Ok (CompletionP (movement after) c)
    | None => Throw (Failure "completion requested without an assigned courier")
    end
  else if String.eqb eventType CREDIT_RELEASE_REQUESTED then Ok (MovementP (movement after))
  else Throw (Failure "transition emits an uncatalogued event").

Definition creditRequest (order : OrderRow) : outcome (string * Payload) :=
  match or_status order with
  | PENDING_CREDIT => Ok (CREDIT_RESERVATION_REQUESTED, MovementP (movement order))
  | COMPLETION_PENDING_CREDIT =>
      match emittedEvent ORDER_COMPLETION_REQUESTED order order (or_updatedAt order) with
      | Ok p => Ok (ORDER_COMPLETION_REQUESTED, p) | Throw x => Throw x end
  | RELEASE_PENDING_CREDIT =>
      match emittedEvent CREDIT_RELEASE_REQUESTED order order (or_updatedAt order) with
      | Ok p => Ok (CREDIT_RELEASE_REQUESTED, p) | Throw x => Throw x end
  | _ => Throw (Failure "order is not waiting on a Credit request")
  end.

(** ** Creation *)

Inductive CreationBoundary :=
  | OrderWritten | HistoryWritten | IdempotencyWritten | StatusOutboxWritten | ReservationOutboxWritten.

Definition no_order_fault (_ : CreationBoundary) : OrderM unit := ret tt.

Record CreatePendingInput := mkCreateInput {
  ci_requesterId : string;
  ci_supplier : SupplierSnapshot;
  ci_items : list OrderItem;
  ci_deliveryZone : string;
  ci_deliveryInstructions : string;
  ci_reward : Z;
  ci_idempotencyKey : string;
  ci_requestHash : string;
  ci_correlationId : string }.

Definition pending_row (orderId : string) (input : CreatePendingInput) (at_ : Z) : OrderRow :=
  mkOrder orderId (ci_requesterId input) None None (ci_supplier input) (ci_items input)
    (ci_deliveryZone input) (ci_deliveryInstructions input) (ci_reward input) PENDING_CREDIT None None
    None 1 None None None None None None None None None None None at_ at_.

Section Repository.
Context `{Zod} `{Pg} (periods : Periods).

Definition findByIdUsing (orderId : string) : OrderM (option OrderRow) :=
  as_uuid orderId "order_id" ;;;
  gets (fun db => mapOrder <$> (st_row <$> orders db !! orderId)).

Definition createPending (fault : CreationBoundary -> OrderM unit) (input : CreatePendingInput)
    (date_now : Z) : OrderM (OrderRow * bool) :=
  let! keys := gets creationKeys in
  match keys !! (ci_requesterId input, ci_idempotencyKey input) with
  | Some k =>
      require (String.eqb (k_requestHash k) (ci_requestHash input)) IdempotencyKeyReused ;;;
      let! found := findByIdUsing (k_orderId k) in
      match found with
      | Some order => ret (order, true)
      | None => throw (Failure "Idempotency record references a missing order.")
      end
  | None =>
      let! orderId := randomUUID in
      let! historyId := randomUUID in
      let occurredAt := iso date_now in
      insert_order (pending_row orderId input occurredAt) ;;;
      fault OrderWritten ;;;
      insert_history (mkHistory historyId orderId None PENDING_CREDIT Create ByRequester
        (Some (ci_requesterId input)) None 1 occurredAt) ;;;
      fault HistoryWritten ;;;
      insert_creation_key (ci_requesterId input) (ci_idempotencyKey input) orderId
        (ci_requestHash input) ;;;
      fault IdempotencyWritten ;;;
      insertOutboxEvent (mkNewEvent ORDER_STATUS_CHANGED orderId
        (StatusChangedP orderId None PENDING_CREDIT occurredAt (Some 1))
        (ci_correlationId input) None) ;;;
      fault StatusOutboxWritten ;;;
      insertOutboxEvent (mkNewEvent CREDIT_RESERVATION_REQUESTED orderId
        (MovementP (mkMovement orderId (ci_requesterId input) (ci_reward input)))
        (ci_correlationId input) None) ;;;
      fault ReservationOutboxWritten ;;;
      let! found := findByIdUsing orderId in
      match found with
      | Some order => ret (order, false)
      | None => throw (Failure "Newly inserted order could not be read.")
      end
  end.

(** ** Idempotency keys of commands *)

Record CommandKey := mkCommandKey {
  ck_callerId : string; ck_idempotencyKey : string; ck_requestHash : string; ck_orderId : string }.

Definition withCommandKey {T : Type} (key : CommandKey) (run : OrderM T) : OrderM (T + OrderRow) :=
  let! keys := gets commandKeys in
  match keys !! (ck_callerId key, ck_idempotencyKey key) with
  | Some k =>
      require (String.eqb (k_requestHash k) (ck_requestHash key)) IdempotencyKeyReused ;;;
      let! found := findByIdUsing (k_orderId k) in
      match found with
      | Some order => ret (inr order)
      | None => throw (Failure "Idempotency record references a missing order.")
      end
  | None =>
      let! applied := run in
      insert_command_key (ck_callerId key) (ck_idempotencyKey key) (ck_orderId key)
        (ck_requestHash key) ;;;
      ret (inl applied)
  end.

(** ** Acceptance *)

Definition acceptable (courierId : string) (expectedVersion at_ : Z) (r : OrderRow) : bool :=
  bool_decide (or_status r = OPEN) && (or_version r =? expectedVersion)
  && negb (String.eqb (or_requesterId r) courierId)
  && match or_acceptanceDeadlineAt r with Some d => at_ <? d | None => false end.

Definition accept_columns (courierId : string) (at_ : Z) (r : OrderRow) : list Column :=
  [CourierId (Some courierId); Status ACCEPTED; Version (or_version r + 1); AcceptedAt (Some at_);
   UpdatedAt at_].

Definition acceptUsing (orderId courierId : string) (expectedVersion : Z) (correlationId : string)
  : OrderM Acceptance :=
  let! at_ := now in
  width_ok expectedVersion ;;;
  let! updated := update_order orderId (acceptable courierId expectedVersion at_)
                    (accept_columns courierId at_) in
  match updated with
  | None => let! found := findByIdUsing orderId in ret (NotAccepted found)
  | Some stored =>
      let order := mapOrder stored in
      let! historyId := randomUUID in
      insert_history (mkHistory historyId orderId (Some OPEN) ACCEPTED (Did ACCEPT) ByStudent
        (Some courierId) None (or_version order) (or_updatedAt order)) ;;;
      insertOutboxEvent (mkNewEvent ORDER_STATUS_CHANGED orderId
        (StatusChangedP orderId (Some OPEN) ACCEPTED (or_updatedAt order) (Some (or_version order)))
        correlationId None) ;;;
      ret (Accepted order)
  end.

(** ** Every other transition *)

Definition emit (cmd : TransitionCommand) (before after : OrderRow) (at_ : Z) (eventType : string)
  : OrderM unit :=
  let! p := lift_outcome (emittedEvent eventType before after at_) in
  insertOutboxEvent (mkNewEvent eventType (or_orderId before) p (tc_correlationId cmd)
    (tc_causationId cmd)) ;;;
  ret tt.

(** The columns written with a decision: the status, its times, then the command's own. *)
Definition decision_columns (cmd : TransitionCommand) (d : TransitionDecision) (at_ : Z)
    (order : OrderRow) (times : list Column) : list Column :=
  [Status (to d); Version (or_version order + 1); UpdatedAt at_]
  ++ match decidedReason d with Some r => [ReleaseReasonC r] | None => [] end
  ++ times ++ tc_patch cmd.

Definition apply_decision (cmd : TransitionCommand) (actor : OrderActor) (d : TransitionDecision)
    (at_ : Z) (order : OrderRow) : OrderM TransitionResult :=
  let! times := lift_outcome (timestampPatch periods (tc_action cmd) d at_ order) in
  let! updated := update_order (or_orderId order) (fun r => or_version r =? or_version order)
                    (fun _ => decision_columns cmd d at_ order times) in
  match updated with
  | None => ret (Rejected VERSION_CONFLICT (Some order))
  | Some stored =>
      let next := mapOrder stored in
      let! historyId := randomUUID in
      insert_history (mkHistory historyId (or_orderId order) (Some (or_status order))
        (or_status next) (Did (tc_action cmd)) (HISTORY_ACTOR actor) (actor_id (tc_actor cmd))
        (trim <$> tc_reason cmd) (or_version next) at_) ;;;
      tc_afterApply cmd next ;;;
      mapM_ (emit cmd order next at_) (emitted d) ;;;
      ret (Applied next d)
  end.

Definition transitionUsing (cmd : TransitionCommand) : OrderM TransitionResult :=
  let! found := findByIdUsing (tc_orderId cmd) in
  match found with
  | None => ret (Rejected NOT_FOUND None)
  | Some order =>
      let actor := resolveActor order (tc_actor cmd) in
      let! clock := now in
      let now_ := default (iso clock) (tc_now cmd) in
      match decideTransition (or_status order) (tc_action cmd) actor
              (transition_context cmd order now_) with
      | None =>
          ret (Rejected (if allowedSomewhere (tc_action cmd) actor then INVALID_STATE else FORBIDDEN)
                 (Some order))
      | Some d =>
          if match tc_expectedVersion cmd with
             | Some v => negb (v =? or_version order) | None => false end
          then ret (Rejected VERSION_CONFLICT (Some order))
          else match tc_verify cmd order with
               | Some x => throw x
               | None => apply_decision cmd actor d now_ order
               end
      end
  end.
End Repository.
