(* ===== verification/OrderQueries.v ===== *)
(** * OrderQueries: the repository's reads, and the scheduler's and reconciler's writes
    (order-service/src/orders/orders.repository.ts)

    A read is a function of the tables. [LIMIT] is [take], [ORDER BY] is [order_by], a lateral
    [count(…)] the length of a filtered list. Administrators' identifiers are compared as bytes. *)
From S2P Require Export OrderRepository Paging.

(** ** Scans of [orders] *)

Definition order_list (db : OrderDb) : list Stored := (map_to_list (orders db)).*2.

Definition mapStored (s : Stored) : OrderRow := mapOrder (st_row s).

(** [ORDER BY time, order_id]. *)
Definition by_time (time : OrderRow -> Z) (a b : Stored) : bool :=
  key_before (time (st_row a), or_orderId (st_row a)) (time (st_row b), or_orderId (st_row b)).

(** [SELECT … WHERE cond ORDER BY time, order_id LIMIT n]. *)
Definition scan (cond : Stored -> bool) (time : OrderRow -> Z) (limit : nat) (db : OrderDb)
  : list Stored :=
  take limit (order_by (by_time time) (List.filter cond (order_list db))).

Definition order_ids (rows : list Stored) : list string := (fun s => or_orderId (st_row s)) <$> rows.

Definition has_status (st : OrderStatus) (s : Stored) : bool := bool_decide (or_status (st_row s) = st).
Definition due (deadline : option Z) (at_ : Z) : bool :=
  match deadline with Some d => d <=? at_ | None => false end.

(** ** What the scheduler looks for *)

Definition findOverdueOpen (now_ : Z) (limit : nat) (db : OrderDb) : list string :=
  order_ids (scan (fun s => has_status OPEN s && due (or_acceptanceDeadlineAt (st_row s)) now_)
               (fun r => default 0 (or_acceptanceDeadlineAt r)) limit db).

Definition findPickupOverdue (cutoff : Z) (limit : nat) (db : OrderDb) : list string :=
  order_ids (scan (fun s => has_status ACCEPTED s && due (or_acceptedAt (st_row s)) cutoff)
               (fun r => default 0 (or_acceptedAt r)) limit db).

Definition findAutoConfirmDue (now_ : Z) (limit : nat) (db : OrderDb) : list string :=
  order_ids (scan (fun s => has_status DELIVERED s && due (or_autoConfirmAt (st_row s)) now_)
               (fun r => default 0 (or_autoConfirmAt r)) limit db).

Definition findDeliveryOverdue (now_ : Z) (limit : nat) (db : OrderDb) : list (string * string) :=
  (fun s => (or_orderId (st_row s), or_requesterId (st_row s))) <$>
    scan (fun s => has_status PICKED_UP s && is_some (st_requesterSuspendedAt s)
                   && due (or_nonDeliveryReportAt (st_row s)) now_)
      (fun r => default 0 (or_nonDeliveryReportAt r)) limit db.

Definition anyDisputed (db : OrderDb) : bool := existsb (has_status DISPUTED) (order_list db).

Definition listDisputesToRefer (adminIds : list string) (limit : nat) (db : OrderDb)
  : list (string * option string) :=
  (fun s => (or_orderId (st_row s), or_referredAdminId (st_row s))) <$>
    scan (fun s => has_status DISPUTED s
                   && match or_referredAdminId (st_row s) with
                      | None => true | Some a => negb (existsb (String.eqb a) adminIds) end)
      or_updatedAt limit db.

(** Everyone who was ever the errand's requester or courier. *)
Definition participants (orderId : string) (db : OrderDb) : list string :=
  match orders db !! orderId with
  | Some s => or_requesterId (st_row s)
                :: match or_courierId (st_row s) with Some c => [c] | None => [] end
  | None => []
  end
  ++ omap (fun h => if String.eqb (h_orderId h) orderId && bool_decide (h_action h = Did ACCEPT)
                    then h_actorId h else None) (history db).

(** [count(…) FILTER (WHERE status = 'DISPUTED'), count(…), admin_id]: the order of [leastReferred]. *)
Definition referrals (admin : string) (db : OrderDb) : list Stored :=
  List.filter (fun s => bool_decide (or_referredAdminId (st_row s) = Some admin)) (order_list db).
Definition referral_load (db : OrderDb) (admin : string) : Z * Z :=
  (Z.of_nat (length (List.filter (has_status DISPUTED) (referrals admin db))),
   Z.of_nat (length (referrals admin db))).
Definition less_referred (db : OrderDb) (a b : string) : bool :=
  let '(d1, n1) := referral_load db a in
  let '(d2, n2) := referral_load db b in
  (d1 <? d2) || ((d1 =? d2) && ((n1 <? n2) || ((n1 =? n2) && String.ltb a b))).

(** [result.rows[0]!.admin_id]: an empty list has no first row. *)
Definition leastReferred (adminIds : list string) (db : OrderDb) : outcome string :=
  match order_by (less_referred db) (remove_dups adminIds) with
  | a :: _ => Ok a
  | [] => Throw (Failure "Cannot read properties of undefined")
  end.

(** ** Writes beside the transitions *)

Section Writes.
Context `{Zod} `{Pg}.

Definition insertReceipt (order : OrderRow) : OrderM unit :=
  match or_courierId order, or_creditTransactionId order, or_acceptedAt order, or_pickedUpAt order,
        or_completionRequestedAt order, or_completedAt order with
  | Some c, Some t, Some acc, Some pick, Some compr, Some comp =>
      insert_receipt (mkReceipt (or_orderId order) (or_requesterId order) c (or_supplier order)
        (or_items order) (or_reward order) t (or_createdAt order) acc pick (or_deliveredAt order)
        compr comp)
  | _, _, _, _, _, _ => throw (Sql (NotNullViolation "order_receipts"))
  end.

Definition raiseAlert (orderId : string) (kind : AlertKind) (detail : AlertDetail) : OrderM bool :=
  as_uuid orderId "order_id" ;;;
  let! at_ := now in
  insert_order_alert (mkOrderAlert orderId kind at_ detail).

(** [UPDATE orders SET requester_suspended_at = …]: no other column moves. *)
Definition set_mark (cond : OrderRow -> bool) (orderId : string) (mark : option Z) : OrderM unit :=
  as_uuid orderId "order_id" ;;;
  modify (fun db =>
    match orders db !! orderId with
    | Some (mkStored r m) =>
        if cond r then set_orders (<[orderId := mkStored r mark]> (orders db)) db else db
    | None => db
    end).

Definition noteRequesterSuspended (orderId : string) : OrderM unit :=
  let! at_ := now in set_mark (fun _ => true) orderId (Some at_).

Definition clearRequesterSuspended (orderId : string) : OrderM unit :=
  set_mark (fun r => bool_decide (or_status r = PICKED_UP)) orderId None.

(** One insertion for every order that has waited too long and has no alert yet; the answer is the
    alerts this statement inserted. *)
Definition waits_for_credit (cutoff : Z) (s : Stored) : bool :=
  has_status PENDING_CREDIT s && (or_createdAt (st_row s) <=? cutoff).

Definition raiseCreditWaitAlerts (cutoff : Z) (limit : nat) : OrderM (list OrderAlert) :=
  let! db := gets id in
  let! at_ := now in
  let found := scan (fun s => waits_for_credit cutoff s
                              && negb (has_alert db (or_orderId (st_row s)) CREDIT_WAIT_EXCEEDED))
                 or_createdAt limit db in
  let raised := (fun s => mkOrderAlert (or_orderId (st_row s)) CREDIT_WAIT_EXCEEDED at_
                            (WaitDetail (or_createdAt (st_row s)) (or_requesterId (st_row s))))
                  <$> found in
  modify (fun db => set_orderAlerts (orderAlerts db ++ raised) db) ;;;
  ret raised.

(** [lockActiveErrandsOf], in [order_id] order. *)
Definition lockable (userId : string) (s : Stored) : bool :=
  let r := st_row s in
  (String.eqb (or_requesterId r) userId
   && (bool_decide (or_status r = PENDING_CREDIT) || is_some (suspension_action AsRequester (or_status r))))
  || (bool_decide (or_courierId r = Some userId) && is_some (suspension_action AsCourier (or_status r))).

Definition lockActiveErrandsOf (userId : string) (db : OrderDb) : list OrderRow :=
  mapStored <$> order_by (fun a b => String.ltb (or_orderId (st_row a)) (or_orderId (st_row b)))
                  (List.filter (lockable userId) (order_list db)).

Definition reservationAppliedAt (orderId : string) (db : OrderDb) : option Z :=
  h_version <$> List.find (fun h => String.eqb (h_orderId h) orderId
                                    && bool_decide (h_action h = Did CREDIT_RESERVED)) (history db).

(** ** Reconciliation *)

Definition waiting_since (r : OrderRow) : option Z :=
  match or_status r with
  | PENDING_CREDIT => Some (or_createdAt r)
  | COMPLETION_PENDING_CREDIT => or_completionRequestedAt r
  | RELEASE_PENDING_CREDIT => or_releaseRequestedAt r
  | _ => None
  end.

Definition attempted_since (orderId : string) (t : Z) (db : OrderDb) : bool :=
  existsb (fun a => String.eqb (at_orderId a) orderId && (t <? at_attemptedAt a)) (attempts db).

Definition unsent_request (orderId : string) (db : OrderDb) : bool :=
  existsb (fun e => String.eqb (ob_aggregateId e) orderId && unpublished e
                    && existsb (String.eqb (ob_eventType e))
                         [CREDIT_RESERVATION_REQUESTED; ORDER_COMPLETION_REQUESTED;
                          CREDIT_RELEASE_REQUESTED]) (ob_rows (orderOutbox db)).

Record Candidate := mkCandidate { cd_orderId : string; cd_status : OrderStatus; cd_version : Z }.

Definition findReconciliationCandidates (staleAfterMs retryAfterMs : Z) (limit : nat) (at_ : Z)
    (db : OrderDb) : list Candidate :=
  (fun s => mkCandidate (or_orderId (st_row s)) (or_status (st_row s)) (or_version (st_row s))) <$>
    scan (fun s => due (waiting_since (st_row s)) (at_ - staleAfterMs * 1000)
                   && negb (attempted_since (or_orderId (st_row s)) (at_ - retryAfterMs * 1000) db)
                   && negb (unsent_request (or_orderId (st_row s)) db))
      or_updatedAt limit db.

Inductive ReconcileAction := REISSUE | ALERT | CREDIT_DOWN.

Definition repairable (s : OrderStatus) : list CreditState :=
  match s with
  | PENDING_CREDIT => [CreditNone; CreditReserved]
  | COMPLETION_PENDING_CREDIT => [CreditReserved; CreditTransferred]
  | RELEASE_PENDING_CREDIT => [CreditReserved; CreditReleased]
  | _ => []
  end.

Definition reconciliationDecision (s : OrderStatus) (credit : CreditState) : ReconcileAction :=
  if existsb (fun c => bool_decide (c = credit)) (repairable s) then REISSUE else ALERT.

Record ReconcileInput := mkReconcile {
  ri_observed : Candidate; ri_runId : string; ri_retryAfterMs : Z;
  ri_credit : option (CreditState * option CreditDetail); ri_action : ReconcileAction;
  ri_correlationId : string }.

Definition recorded_action (a : ReconcileAction) : RecordedAction :=
  match a with REISSUE => REISSUED | ALERT => ALERTED | CREDIT_DOWN => CREDIT_UNAVAILABLE end.

(** [held]: another transaction holds the row, which [SKIP LOCKED] passes over. The answer is what
    was recorded, the re-issued event and whether an alert was raised. *)
Definition recordReconciliation (held : bool) (input : ReconcileInput)
  : OrderM (option (RecordedAction * option string * bool)) :=
  let o := cd_orderId (ri_observed input) in
  let! found := findByIdUsing o in
  match (if held then None else found) with
  | None => ret None
  | Some order =>
      if negb (bool_decide (or_status order = cd_status (ri_observed input))
               && (or_version order =? cd_version (ri_observed input)))
      then ret None else
      let! at_ := now in
      let! db := gets id in
      if attempted_since o (at_ - ri_retryAfterMs input * 1000) db then ret None else
      let! done_ :=
        match ri_action input with
        | REISSUE =>
            let! req := lift_outcome (creditRequest order) in
            let! eventId := insertOutboxEvent (mkNewEvent req.1 (or_orderId order) req.2
                              (ri_correlationId input) None) in
            ret (Some eventId, false)
        | ALERT =>
            let! raised := raiseAlert (or_orderId order) CREDIT_STATE_CONFLICT
                             (ConflictDetail (or_status order) (fst <$> ri_credit input)) in
            ret (None, raised)
        | CREDIT_DOWN => ret (None, false)
        end in
      let action_ := recorded_action (ri_action input) in
      let! attemptId := randomUUID in
      insert_attempt (mkAttempt attemptId (ri_runId input) (or_orderId order) (or_status order)
        (or_version order) (fst <$> ri_credit input)
        (match ri_credit input with Some (_, d) => d | None => None end) action_ done_.1 at_) ;;;
      ret (Some (action_, done_.1, done_.2))
  end.
End Writes.

(** ** What the API and operators read *)

(** [ORDER BY acceptance_deadline_at, created_at, order_id]. *)
Definition OpenKey : Type := Z * TimeKey.
Definition open_key (s : Stored) : OpenKey :=
  (default 0 (or_acceptanceDeadlineAt (st_row s)), (or_createdAt (st_row s), or_orderId (st_row s))).
Definition open_before (a b : OpenKey) : bool :=
  (a.1 <? b.1) || ((a.1 =? b.1) && key_before a.2 b.2).

Record OpenOrdersQuery := mkOpenQuery {
  oq_pickupBuilding : option string; oq_minReward : option Z; oq_limit : nat;
  oq_after : option OpenKey }.

Record OpenOrderSummary := mkSummary {
  os_orderId : string; os_supplier : SupplierSnapshot; os_itemSummary : list (string * Z);
  os_deliveryZone : string; os_reward : Z; os_version : Z; os_acceptanceDeadlineAt : Z;
  os_timeRemainingSeconds : Z; os_createdAt : Z }.

Section Reads.
Context `{Pg}.

Definition open_filter (callerId : string) (q : OpenOrdersQuery) (now_ : Z) (s : Stored) : bool :=
  let r := st_row s in
  has_status OPEN s
  && match or_acceptanceDeadlineAt r with Some d => now_ <? d | None => false end
  && negb (String.eqb (or_requesterId r) callerId)
  && optP (oq_pickupBuilding q)
       (fun b => String.eqb (pg_lower (s_building (or_supplier r))) (pg_lower b))
  && optP (oq_minReward q) (fun m => m <=? or_reward r).

Definition open_rows (callerId : string) (q : OpenOrdersQuery) (now_ : Z) (db : OrderDb)
  : list Stored :=
  order_by (fun a b => open_before (open_key a) (open_key b))
    (List.filter (open_filter callerId q now_) (order_list db)).

(** [Math.max(0, Math.ceil((deadline - now) / 1000))], of instants cut to milliseconds. *)
Definition timeRemainingSeconds (deadline now_ : Z) : Z := Z.max 0 (- ((now_ - deadline) / 1000000)).

Definition summary (now_ : Z) (s : Stored) : OpenOrderSummary :=
  let o := mapStored s in
  let deadline := default 0 (or_acceptanceDeadlineAt o) in
  mkSummary (or_orderId o) (or_supplier o) ((fun i => (i_name i, i_quantity i)) <$> or_items o)
    (or_deliveryZone o) (or_reward o) (or_version o) deadline (timeRemainingSeconds deadline now_)
    (or_createdAt o).

(** [now_] is the process's clock, a [Date]. *)
Definition listOpen (callerId : string) (q : OpenOrdersQuery) (now_ : Z) (db : OrderDb)
  : list OpenOrderSummary * option OpenKey :=
  let p := page open_key open_before (oq_limit q) (oq_after q) (open_rows callerId q now_ db) in
  (summary now_ <$> p.1, next_cursor open_key id p).

Inductive Part := PartRequester | PartCourier.
#[export] Instance Part_eq_dec : EqDecision Part.
Proof. solve_decision. Defined.

Record MyOrdersQuery := mkMyQuery {
  mq_role : option Part; mq_active : option bool; mq_limit : nat; mq_after : option TimeKey }.

(** [ORDER BY updated_at DESC, order_id]. *)
Definition mine_key (s : Stored) : TimeKey := (or_updatedAt (st_row s), or_orderId (st_row s)).
Definition mine_before (a b : TimeKey) : bool :=
  (b.1 <? a.1) || ((a.1 =? b.1) && String.ltb a.2 b.2).

Definition is_terminal_status (s : OrderStatus) : bool := bool_decide (s ∈ TERMINAL_ORDER_STATUSES).

Definition mine_filter (userId : string) (q : MyOrdersQuery) (s : Stored) : bool :=
  let r := st_row s in
  let requested := String.eqb (or_requesterId r) userId in
  let carried := bool_decide (or_courierId r = Some userId) in
  match mq_role q with
  | Some PartRequester => requested
  | Some PartCourier => carried
  | None => requested || carried
  end
  && optP (mq_active q) (fun a => Bool.eqb (negb (is_terminal_status (or_status r))) a).

Definition mine_rows (userId : string) (q : MyOrdersQuery) (db : OrderDb) : list Stored :=
  order_by (fun a b => mine_before (mine_key a) (mine_key b))
    (List.filter (mine_filter userId q) (order_list db)).

Definition listMine (userId : string) (q : MyOrdersQuery) (db : OrderDb)
  : list OrderRow * option TimeKey :=
  let p := page mine_key mine_before (mq_limit q) (mq_after q) (mine_rows userId q db) in
  (mapStored <$> p.1, next_cursor mine_key id p).

Record AdminOrdersQuery := mkAdminQuery {
  aq_requesterId : option string; aq_courierId : option string; aq_status : option (list OrderStatus);
  aq_before : option string; aq_page : nat; aq_pageSize : nat }.

Definition created_key (s : Stored) : TimeKey := (or_createdAt (st_row s), or_orderId (st_row s)).

Definition admin_filter (q : AdminOrdersQuery) (db : OrderDb) (s : Stored) : bool :=
  let r := st_row s in
  optP (aq_requesterId q) (fun u => String.eqb (or_requesterId r) u)
  && optP (aq_courierId q) (fun u => bool_decide (or_courierId r = Some u))
  && optP (aq_status q) (fun l => bool_decide (or_status r ∈ l))
  && optP (aq_before q) (fun o => match orders db !! o with
                                  | Some x => key_before (created_key s) (created_key x)
                                  | None => false end).

(** The page, and how many rows the filter has. *)
Definition listForAdmin (q : AdminOrdersQuery) (db : OrderDb) : list OrderRow * nat :=
  let found := List.filter (admin_filter q db) (order_list db) in
  let sorted := order_by (fun a b => newest_first (created_key a) (created_key b)) found in
  (mapStored <$> take (aq_pageSize q) (drop ((aq_page q - 1) * aq_pageSize q) sorted), length found).

Record ChatView := mkChatView {
  cv_status : OrderStatus; cv_version : Z; cv_requesterId : string; cv_courierId : option string;
  cv_endedAt : option Z }.

(** An order's history, by version. *)
Definition history_of (orderId : string) (db : OrderDb) : list History :=
  order_by (fun a b => h_version a <? h_version b)
    (List.filter (fun h => String.eqb (h_orderId h) orderId) (history db)).

Definition findForChat (orderId : string) (db : OrderDb) : option ChatView :=
  (fun s => mkChatView (or_status (st_row s)) (or_version (st_row s)) (or_requesterId (st_row s))
              (or_courierId (st_row s))
              ((fun h => iso (h_occurredAt h)) <$>
                 List.find (fun h => is_terminal_status (h_new h)) (history_of orderId db)))
    <$> orders db !! orderId.

Definition map_history (h : History) : History :=
  mkHistory (h_id h) (h_orderId h) (h_previous h) (h_new h) (h_action h) (h_actorType h) (h_actorId h)
    (h_reason h) (h_version h) (iso (h_occurredAt h)).

Definition findHistory (orderId : string) (db : OrderDb) : list History :=
  map_history <$> history_of orderId db.

Definition findReceipt (orderId : string) (db : OrderDb) : option Receipt :=
  List.find (fun r => String.eqb (rc_orderId r) orderId) (receipts db).

Definition findIdempotent (requesterId key : string) (db : OrderDb) : option (string * OrderRow) :=
  match creationKeys db !! (requesterId, key) with
  | Some k => (fun s => (k_requestHash k, mapStored s)) <$> orders db !! k_orderId k
  | None => None
  end.

(** The action that disputed an errand: its last entry into DISPUTED from another status. *)
Definition referred_by (orderId : string) (db : OrderDb) : option HistoryAction :=
  h_action <$> List.find (fun h => bool_decide (h_new h = DISPUTED)
                                   && bool_decide (h_previous h <> Some DISPUTED))
                 (rev (history_of orderId db)).

Definition listReferred (adminId : string) (limit : nat) (db : OrderDb)
  : list (OrderRow * option HistoryAction) :=
  (fun s => (mapStored s, referred_by (or_orderId (st_row s)) db)) <$>
    scan (fun s => has_status DISPUTED s
                   && match or_referredAdminId (st_row s) with
                      | None => true | Some a => String.eqb a adminId end)
      or_updatedAt limit db.

Definition is_decision (h : History) : bool :=
  bool_decide (h_action h = Did RESOLVE_FOR_COURIER) || bool_decide (h_action h = Did RESOLVE_FOR_REQUESTER).

Definition listDecisions (limit : nat) (db : OrderDb) : list History :=
  map_history <$> take limit
    (order_by (fun a b => mine_before (h_occurredAt a, h_id a) (h_occurredAt b, h_id b))
       (List.filter is_decision (history db))).

Definition wait_alert_raised (orderId : string) (db : OrderDb) : option Z :=
  oa_raisedAt <$> List.find (fun a => String.eqb (oa_orderId a) orderId
                                      && bool_decide (oa_kind a = CREDIT_WAIT_EXCEEDED)) (orderAlerts db).

Definition listCreditWaitExceeded (cutoff : Z) (limit : nat) (db : OrderDb)
  : list (OrderRow * option Z) :=
  (fun s => (mapStored s, iso <$> wait_alert_raised (or_orderId (st_row s)) db)) <$>
    scan (waits_for_credit cutoff) or_createdAt limit db.

Definition findStalePendingCredit (cutoff : Z) (limit : nat) (db : OrderDb) : list (string * Z) :=
  (fun s => (or_orderId (st_row s), iso (or_createdAt (st_row s)))) <$>
    scan (waits_for_credit cutoff) or_createdAt limit db.

Definition listReconciliationAttempts (limit : nat) (db : OrderDb) : list Attempt :=
  take limit (order_by (fun a b => mine_before (at_attemptedAt a, at_id a) (at_attemptedAt b, at_id b))
    (attempts db)).
End Reads.
