(* ===== verification/OrderService.v ===== *)
(** * OrderService: what the API lets a caller see and do (order-service/src/orders/orders.service.ts)

    A command answers a view or an [ApiException] and leaves the tables as its transaction does.
    Reads that a command makes before its transaction are taken of a state [seen], which another
    transaction may have changed since. The Supplier Service's answer and the request digest are
    parameters. *)
From S2P Require Export OrderQueries.

Record Caller := mkCaller { userId : string; isAdmin : bool }.

(** ** Views *)

Record OrderView := mkView {
  v_orderId : string;
  v_supplier : SupplierSnapshot;
  v_items : list OrderItem;
  v_deliveryZone : string;
  v_reward : Z;
  v_status : OrderStatus;
  v_version : Z;
  v_acceptanceDeadlineAt : option Z;
  v_createdAt : Z;
  v_updatedAt : Z;
  v_serverTime : Z;
  v_requesterId : option string;
  v_courierId : option string;
  v_deliveryInstructions : option string;
  v_nonDeliveryReportAt : option Z;
  v_autoConfirmAt : option Z;
  v_releaseReason : option OrderStatus;
  v_rejection : option (ReservationRejection * option Z) }.

Definition public_item (i : OrderItem) : OrderItem := mkItem (i_name i) (i_quantity i) None.

Definition guarded {A} (b : bool) (o : option A) : option A := if b then o else None.

Definition is_requester (order : OrderRow) (caller : Caller) : bool :=
  String.eqb (userId caller) (or_requesterId order).
Definition is_courier (order : OrderRow) (caller : Caller) : bool :=
  bool_decide (or_courierId order = Some (userId caller)).
Definition is_referred_admin (order : OrderRow) (caller : Caller) : bool :=
  isAdmin caller && bool_decide (or_referredAdminId order = Some (userId caller)).
Definition can_read_private (order : OrderRow) (caller : Caller) : bool :=
  is_requester order caller || is_courier order caller || is_referred_admin order caller.

Definition has_status_of (order : OrderRow) (s : OrderStatus) : bool := bool_decide (or_status order = s).

(** Empty text and a missing value are both falsy. *)
Definition truthy (o : option string) : option string := keep nonempty o.

(** [newDate] is the process's clock when the view is built, told to the client as [serverTime]. *)
Definition projectOrder (newDate : Z) (order : OrderRow) (caller : Caller) : option OrderView :=
  let private := can_read_private order caller in
  if (has_status_of order PENDING_CREDIT || has_status_of order REJECTED)
     && negb (is_requester order caller) && negb (is_referred_admin order caller)
  then None
  else Some (mkView (or_orderId order) (or_supplier order)
    (if private then or_items order else public_item <$> or_items order)
    (or_deliveryZone order) (or_reward order) (or_status order) (or_version order)
    (or_acceptanceDeadlineAt order) (or_createdAt order) (or_updatedAt order) newDate
    (guarded private (Some (or_requesterId order)))
    (guarded private (truthy (or_courierId order)))
    (guarded private (Some (or_deliveryInstructions order)))
    (guarded (private && has_status_of order PICKED_UP) (or_nonDeliveryReportAt order))
    (guarded (private && has_status_of order DELIVERED) (or_autoConfirmAt order))
    (guarded (private && has_status_of order RELEASE_PENDING_CREDIT) (or_releaseReason order))
    (guarded (has_status_of order REJECTED && private)
       ((fun r => (r, or_availableAtRejection order)) <$> or_rejectionReason order))).

Definition publicOrderView (newDate : Z) (order : OrderRow) : OrderView :=
  mkView (or_orderId order) (or_supplier order) (public_item <$> or_items order)
    (or_deliveryZone order) (or_reward order) (or_status order) (or_version order)
    (or_acceptanceDeadlineAt order) (or_createdAt order) (or_updatedAt order) newDate
    None None None None None None None.

Definition shows_private (v : OrderView) : bool := is_some (truthy (v_deliveryInstructions v)).

(** What a history entry shows: the action, or the one name every system move has. *)
Inductive ShownAction := Shown (a : HistoryAction) | SYSTEM_OUTCOME.
Record HistoryView := mkHistoryView {
  hv_previous : option OrderStatus; hv_new : OrderStatus; hv_action : ShownAction;
  hv_actorType : HistoryActor; hv_actorId : option string; hv_reason : option string;
  hv_version : Z; hv_occurredAt : Z }.

Definition show_history (h : History) : HistoryView :=
  mkHistoryView (h_previous h) (h_new h) (Shown (h_action h)) (h_actorType h) (h_actorId h)
    (h_reason h) (h_version h) (h_occurredAt h).

Definition SUSPENSION_REASONS : list string :=
  [suspension_reason AsRequester; suspension_reason AsCourier].

Definition asParticipantSees (v : HistoryView) : HistoryView :=
  let creditForSuspension :=
    bool_decide (hv_actorType v = ByCredit)
    && match hv_reason v with Some r => existsb (String.eqb r) SUSPENSION_REASONS | None => false end in
  if bool_decide (hv_actorType v <> BySystem) && negb creditForSuspension then v
  else mkHistoryView (hv_previous v) (hv_new v) SYSTEM_OUTCOME BySystem None None (hv_version v)
         (hv_occurredAt v).

(** ** Reads *)

Definition notFound : Exn := ApiException 404 "NOT_FOUND".
Definition read_order (orderId : string) (db : OrderDb) : option OrderRow := mapStored <$> orders db !! orderId.

Definition getById (newDate : Z) (orderId : string) (caller : Caller) (privateView : bool) (db : OrderDb)
  : outcome OrderView :=
  match read_order orderId db with
  | None => Throw notFound
  | Some order =>
      match projectOrder newDate order caller with
      | None => Throw notFound
      | Some v => if privateView && negb (shows_private v)
                  then Throw (ApiException 403 "PRIVATE_ORDER_FORBIDDEN") else Ok v
      end
  end.

Definition history_view (newDate : Z) (orderId : string) (caller : Caller) (db : OrderDb)
  : outcome (list HistoryView) :=
  match read_order orderId db with
  | None => Throw notFound
  | Some order =>
      match projectOrder newDate order caller with
      | None => Throw notFound
      | Some v =>
          if negb (shows_private v) then Throw (ApiException 403 "PRIVATE_ORDER_FORBIDDEN")
          else let entries := show_history <$> findHistory orderId db in
               Ok (if is_referred_admin order caller then entries else asParticipantSees <$> entries)
      end
  end.

Definition receipt (newDate : Z) (orderId : string) (caller : Caller) (db : OrderDb) : outcome Receipt :=
  match read_order orderId db with
  | None => Throw notFound
  | Some order =>
      match projectOrder newDate order caller with
      | None => Throw notFound
      | Some v =>
          if negb (shows_private v) then Throw (ApiException 403 "PRIVATE_ORDER_FORBIDDEN")
          else match findReceipt orderId db with
               | Some r => Ok r
               | None => Throw (ApiException 404 "RECEIPT_NOT_FOUND")
               end
      end
  end.

Definition listMineView (newDate : Z) (caller : Caller) (q : MyOrdersQuery) (db : OrderDb)
  : list (OrderView * Part) * option TimeKey :=
  let '(rows, next) := listMine (userId caller) q db in
  (omap (fun order => (fun v => (v, if is_requester order caller then PartRequester else PartCourier))
                        <$> projectOrder newDate order caller) rows, next).

Definition listForAdminView (newDate : Z) (q : AdminOrdersQuery) (db : OrderDb) : list OrderView * nat :=
  let '(rows, total) := listForAdmin q db in (publicOrderView newDate <$> rows, total).

Definition referred (newDate : Z) (caller : Caller) (limit : nat) (db : OrderDb)
  : list (OrderView * option HistoryAction * bool) :=
  omap (fun '(order, by_) =>
          (fun v => (v, by_, bool_decide (or_referredAdminId order = Some (userId caller))))
            <$> projectOrder newDate order caller) (listReferred (userId caller) limit db).

(** ** Commands *)

Record CreateOrderInput := mkCreateOrder {
  co_supplierId : string; co_items : list OrderItem; co_deliveryZone : string;
  co_deliveryInstructions : string; co_reward : Z }.

(** The requests an Idempotency-Key can stand for; an absent reason is left out of the digest. *)
Inductive HashedRequest :=
  | CreateRequest (input : CreateOrderInput)
  | CommandRequest (orderId : string) (action : OrderAction) (expectedVersion : Z)
      (reason : option string).

Section Service.
Context `{Zod} `{Pg} (periods : Periods) (hashRequest : HashedRequest -> string).

Definition idempotencyReused : Exn := ApiException 422 "IDEMPOTENCY_KEY_REUSED".

Definition rename_reuse {A} (o : outcome A) : outcome A :=
  match o with Throw IdempotencyKeyReused => Throw idempotencyReused | _ => o end.

(** [once]: with no key the command runs in a transaction of its own, and its answer is decided after
    that transaction. With one, the answer is decided inside it, so a refusal undoes it. *)
Definition once {T} (newDate : Z) (caller : Caller) (key : option string) (request : HashedRequest) (orderId : string)
    (run : OrderM T) (answer : T -> outcome OrderView) (e : Env) (db : OrderDb)
  : outcome OrderView * OrderDb :=
  match key with
  | None =>
      match transaction run e db with
      | (Ok t, db') => (answer t, db')
      | (Throw x, db') => (Throw x, db')
      end
  | Some k =>
      match transaction (withCommandKey (mkCommandKey (userId caller) k (hashRequest request) orderId)
                           (let! t := run in lift_outcome (answer t))) e db with
      | (Ok (inl v), db') => (Ok v, db')
      | (Ok (inr order), db') =>
          (match projectOrder newDate order caller with Some v => Ok v | None => Throw notFound end, db')
      | (Throw x, db') => (rename_reuse (Throw x), db')
      end
  end.

(** The deadline is compared with the process's clock once the refusal is put into words. *)
Definition acceptance (newDate : Z) (caller : Caller) (attempt : Acceptance) : outcome OrderView :=
  match attempt with
  | Accepted order =>
      match projectOrder newDate order caller with Some v => Ok v | None => Throw notFound end
  | NotAccepted None => Throw notFound
  | NotAccepted (Some current) =>
      match projectOrder newDate current caller with
      | None => Throw notFound
      | Some _ =>
          if is_requester current caller then Throw (ApiException 403 "SELF_ACCEPTANCE_FORBIDDEN")
          else if negb (has_status_of current OPEN) then Throw (ApiException 409 "ORDER_NOT_OPEN")
          else if match or_acceptanceDeadlineAt current with Some d => d <=? newDate | None => true end
          then Throw (ApiException 409 "ACCEPTANCE_DEADLINE_PASSED")
          else Throw (ApiException 409 "ORDER_CHANGED")
      end
  end.

Definition accept_order (orderId : string) (expectedVersion : Z) (caller : Caller)
    (correlationId : string) (key : option string) (newDate : Z) (e : Env) (db : OrderDb)
  : outcome OrderView * OrderDb :=
  once newDate caller key (CommandRequest orderId ACCEPT expectedVersion None) orderId
    (acceptUsing orderId (userId caller) expectedVersion correlationId)
    (acceptance newDate caller) e db.

(** [DEADLINE_REFUSALS]. *)
Definition deadline_refusal (a : OrderAction) (s : OrderStatus) : option string :=
  match a, s with
  | REPORT_NON_DELIVERY, PICKED_UP => Some "DELIVERY_PERIOD_NOT_PASSED"
  | REPORT_NON_RECEIPT, DELIVERED => Some "AUTO_CONFIRMATION_PASSED"
  | _, _ => None
  end.

Definition answer (newDate : Z) (action_ : OrderAction) (caller : Caller) (result : TransitionResult)
  : outcome OrderView :=
  match result with
  | Applied order _ =>
      match projectOrder newDate order caller with Some v => Ok v | None => Throw notFound end
  | Rejected _ None => Throw notFound
  | Rejected reason (Some order) =>
      match projectOrder newDate order caller with
      | None => Throw notFound
      | Some _ =>
          match reason with
          | FORBIDDEN => Throw (ApiException 403 "ACTION_FORBIDDEN")
          | VERSION_CONFLICT => Throw (ApiException 409 "ORDER_CHANGED")
          | _ => match deadline_refusal action_ (or_status order) with
                 | Some code => Throw (ApiException 409 code)
                 | None => Throw (ApiException 409 "INVALID_ORDER_STATE")
                 end
          end
      end
  end.

Definition user_command (orderId : string) (action_ : OrderAction) (expectedVersion : Z)
    (caller : Caller) (correlationId : string) (verify : OrderRow -> option Exn)
    (reason : option string) : TransitionCommand :=
  mkCommand orderId action_ (User (userId caller) (isAdmin caller)) (Some expectedVersion)
    correlationId None None verify [] reason false (fun _ => ret tt).

Definition command (newDate : Z) (orderId : string) (action_ : OrderAction) (expectedVersion : Z) (caller : Caller)
    (correlationId : string) (verify : OrderRow -> option Exn) (reason : option string)
    (key : option string) (e : Env) (db : OrderDb) : outcome OrderView * OrderDb :=
  once newDate caller key (CommandRequest orderId action_ expectedVersion reason) orderId
    (transitionUsing periods
       (user_command orderId action_ expectedVersion caller correlationId verify reason))
    (answer newDate action_ caller) e db.

Definition not_referred (caller : Caller) (current : OrderRow) : option Exn :=
  if bool_decide (or_referredAdminId current = Some (userId caller)) then None
  else Some (ApiException 403 "NOT_REFERRED_ADMIN").

Definition resolve (newDate : Z) (orderId : string) (outcome_ : Outcome) (reason : string) (expectedVersion : Z)
    (caller : Caller) (correlationId : string) (key : option string) (seen : OrderDb) (e : Env)
    (db : OrderDb) : outcome OrderView * OrderDb :=
  match read_order orderId seen with
  | None => (Throw notFound, db)
  | Some order =>
      match projectOrder newDate order caller with
      | None => (Throw notFound, db)
      | Some _ =>
          if existsb (String.eqb (userId caller)) (participants orderId seen)
          then (Throw (ApiException 403 "CONFLICT_OF_INTEREST"), db)
          else command newDate orderId (RESOLVE_ACTIONS outcome_) expectedVersion caller correlationId
                 (not_referred caller) (Some reason) key e db
      end
  end.

(** [supplier]: what the Supplier Service's lookup of this input gave, asked only when there is no
    recorded order. *)
Definition create (input : CreateOrderInput) (key : string) (caller : Caller) (correlationId : string)
    (supplier : outcome SupplierSnapshot) (newDate : Z) (seen : OrderDb) (e : Env) (db : OrderDb)
  : outcome (OrderView * bool) * OrderDb :=
  let hash := hashRequest (CreateRequest input) in
  match findIdempotent (userId caller) key seen with
  | Some (recorded, order) =>
      (if negb (String.eqb recorded hash) then Throw idempotencyReused
       else match projectOrder newDate order caller with
            | Some v => Ok (v, true) | None => Throw notFound end, db)
  | None =>
      match supplier with
      | Throw x => (Throw x, db)
      | Ok snapshot =>
          match transaction (createPending no_order_fault
                  (mkCreateInput (userId caller) snapshot (co_items input) (co_deliveryZone input)
                     (co_deliveryInstructions input) (co_reward input) key hash correlationId)
                  newDate) e db with
          | (Ok (order, replayed), db') =>
              (match projectOrder newDate order caller with
               | Some v => Ok (v, replayed) | None => Throw notFound end, db')
          | (Throw x, db') => (rename_reuse (Throw x), db')
          end
      end
  end.
End Service.

(** ** The Supplier Service's lookup (supplier.client.ts) *)

(** What [fetch] gave: no answer, a status that is not a success, a body that is not JSON, one its
    schema refuses, or one it takes. *)
Inductive SupplierResponse :=
  | NoResponse
  | BadStatus (status : Z)
  | NotJson
  | BadBody
  | SupplierBody (s : SupplierSnapshot) (active : bool).

Definition getActive (supplierId : string) (r : SupplierResponse) : outcome SupplierSnapshot :=
  match r with
  | NoResponse => Throw (ApiException 503 "SUPPLIER_SERVICE_UNAVAILABLE")
  | BadStatus 404 => Throw (ApiException 422 "INVALID_SUPPLIER")
  | BadStatus _ => Throw (ApiException 503 "SUPPLIER_SERVICE_UNAVAILABLE")
  | NotJson => Throw (Failure "SyntaxError")
  | BadBody => Throw (ApiException 503 "SUPPLIER_CONTRACT_INVALID")
  | SupplierBody s active =>
      if negb (String.eqb (s_supplierId s) supplierId)
      then Throw (ApiException 503 "SUPPLIER_CONTRACT_INVALID")
      else if active then Ok s else Throw (ApiException 422 "INVALID_SUPPLIER")
  end.
