(* ===== verification/OrderWorkers.v ===== *)
(** * OrderWorkers: what moves errands besides their users

    The Order Service's consumers (reservation-results.consumer.ts, credit-terminal-results.consumer.ts,
    user-suspensions.consumer.ts), its scheduler (orders/lifecycle.scheduler.ts) and its reconciler
    (orders/credit-reconciler.ts). The User Service and Credit are asked over HTTP: what they answer
    is a parameter. A sweep is many transactions; between any two of them [world] is what others do. *)
From S2P Require Export OrderService.

(** ** The User Service, asked (user-directory.client.ts) *)

Inductive DirectoryResponse (A : Type) :=
  | DirectoryNoResponse
  | DirectoryBadStatus (status : Z)
  | DirectoryBadBody
  | DirectoryBody (a : A).
Arguments DirectoryNoResponse {A}.
Arguments DirectoryBadStatus {A} status.
Arguments DirectoryBadBody {A}.
Arguments DirectoryBody {A} a.

Definition directory_get {A} (r : DirectoryResponse A) : outcome A :=
  match r with DirectoryBody a => Ok a | _ => Throw DirectoryUnavailable end.

Inductive LookupStatus := LookupPending | LookupActive | LookupSuspended.
#[export] Instance LookupStatus_eq_dec : EqDecision LookupStatus.
Proof. solve_decision. Defined.
Record Lookup := mkLookup { lu_exists : bool; lu_status : option LookupStatus }.

Record Directory := mkDirectory {
  d_user : string -> DirectoryResponse Lookup; d_admins : DirectoryResponse (list string) }.

Definition isSuspended (dir : Directory) (u : string) : outcome bool :=
  match directory_get (d_user dir u) with
  | Ok body => Ok (lu_exists body && bool_decide (lu_status body = Some LookupSuspended))
  | Throw x => Throw x
  end.

Definition listAdmins (dir : Directory) : outcome (list string) := directory_get (d_admins dir).

(** ** Consumers *)

Definition RESERVATION_RESULTS_QUEUE := "foc.order.reservation-results".
Definition TRANSFER_RESULTS_QUEUE := "foc.order.transfer-results".
Definition RELEASE_RESULTS_QUEUE := "foc.order.release-results".
Definition USER_SUSPENSIONS_QUEUE := "foc.order.user-suspensions".

(** A command of the Credit Service's reply [v], with what varies. *)
Definition credit_command (v : Envelope) (orderId : string) (a : OrderAction) (patch : list Column)
    (verify : OrderRow -> option Exn) (reason : option string) (suspended : bool)
    (afterApply : OrderRow -> OrderM unit) : TransitionCommand :=
  mkCommand orderId a CreditService None (correlationId v) (Some (eventId v)) None verify patch reason
    suspended afterApply.

Definition no_verify (_ : OrderRow) : option Exn := None.
Definition no_after (_ : OrderRow) : OrderM unit := ret tt.

(** The union takes a rejection first: a rejection also satisfies the looser shape. *)
Definition resultPayload (p : Payload) : option Payload :=
  match creditReservationRejectedPayload p with
  | Some q => Some q
  | None => creditsReservedPayload p
  end.

(** The reason and balance a reply carries, absent from one that is no rejection. *)
Definition rejection_of (p : Payload) : option ReservationRejection * option Z :=
  match p with RejectedP _ reason available => (Some reason, available) | _ => (None, None) end.

Definition rejection_repeats (p : Payload) (order : OrderRow) : bool :=
  bool_decide (or_status order = REJECTED)
  && bool_decide (or_rejectionReason order = (rejection_of p).1 /\ is_Some (rejection_of p).1)
  && bool_decide (or_availableAtRejection order = (rejection_of p).2).

Section Consumers.
Context `{Zod} `{Pg} (periods : Periods) (dir : Directory).

(** The requester is asked about only while the answer decides the outcome. *)
Definition reservation_suspends (order : OrderRow) : outcome bool :=
  if bool_decide (or_status order = PENDING_CREDIT) then isSuspended dir (or_requesterId order)
  else Ok false.

Definition handle_reservation_result (v : Envelope) : OrderM unit :=
  match resultPayload (payload v) with
  | Some p =>
      match movement_of p with
      | None => throw (Unparseable "payload invalid")
      | Some m =>
          if negb (String.eqb (aggregateId v) (mv_orderId m))
          then throw (Unparseable "aggregateId does not match reservation orderId") else
          let! found := findByIdUsing (mv_orderId m) in
          match found with
          | None => throw (Unparseable "reservation result names an unknown order")
          | Some order =>
              if negb (String.eqb (or_requesterId order) (mv_requesterId m)
                       && (or_reward order =? mv_amount m))
              then throw (Unparseable "reservation result does not match the recorded request")
              else if String.eqb (eventType v) CREDITS_RESERVED then
                let! suspended := lift_outcome (reservation_suspends order) in
                let! result := transitionUsing periods
                  (credit_command v (mv_orderId m) CREDIT_RESERVED [] no_verify
                     (if suspended then Some (suspension_reason AsRequester) else None) suspended
                     no_after) in
                match result with
                | Applied _ _ => ret tt
                | Rejected _ _ =>
                    if bool_decide (or_status order = REJECTED)
                    then throw (Unparseable "reservation result cannot move order")
                    else let! appliedAt := gets (reservationAppliedAt (mv_orderId m)) in
                         match appliedAt with
                         | Some n => if n <? or_version order
                                     then throw (Stale "reservation confirmation was applied")
                                     else ret tt
                         | None => ret tt
                         end
                end
              else
                let! result := transitionUsing periods
                  (credit_command v (mv_orderId m) CREDIT_REJECTED
                     [RejectionReason (rejection_of p).1; AvailableAtRejection (rejection_of p).2]
                     no_verify None false no_after) in
                match result with
                | Applied _ _ => ret tt
                | Rejected _ _ =>
                    require (rejection_repeats p order)
                      (Unparseable "reservation result cannot move order")
                end
          end
      end
  | None => throw (Unparseable "payload invalid")
  end.

Definition release_matches (m : Movement) (order : OrderRow) : bool :=
  String.eqb (or_requesterId order) (mv_requesterId m) && (or_reward order =? mv_amount m).

Definition transfer_matches (m : Movement) (courierId : string) (order : OrderRow) : bool :=
  String.eqb (or_requesterId order) (mv_requesterId m)
  && bool_decide (or_courierId order = Some courierId) && (or_reward order =? mv_amount m).

Definition unless (b : bool) (x : Exn) : option Exn := if b then None else Some x.

(** A confirmation already recorded: the order is closed with the same transaction and facts. *)
Definition release_duplicate (m : Movement) (transactionId : string) (order : option OrderRow) : bool :=
  match order with
  | Some o => (bool_decide (or_status o = CANCELLED) || bool_decide (or_status o = EXPIRED))
              && bool_decide (or_creditTransactionId o = Some transactionId) && release_matches m o
  | None => false
  end.

Definition transfer_duplicate (m : Movement) (courierId transactionId : string)
    (order : option OrderRow) : bool :=
  match order with
  | Some o => bool_decide (or_status o = COMPLETED)
              && bool_decide (or_creditTransactionId o = Some transactionId)
              && transfer_matches m courierId o
  | None => false
  end.

Definition handleRelease (v : Envelope) : OrderM bool :=
  match creditsReleasedPayload (payload v) with
  | Some (ReleasedP m transactionId _) =>
      if negb (String.eqb (aggregateId v) (mv_orderId m))
      then throw (Unparseable "aggregateId does not match the released orderId") else
      let! result := transitionUsing periods
        (credit_command v (mv_orderId m) RELEASE_CONFIRMED [CreditTransactionId transactionId]
           (fun order => unless (release_matches m order)
                           (Unparseable "release does not match the requested release"))
           None false no_after) in
      match result with
      | Applied _ _ => ret true
      | Rejected _ order =>
          require (release_duplicate m transactionId order)
            (Unparseable "release confirmation cannot close order") ;;;
          ret false
      end
  | _ => throw (Unparseable "payload invalid")
  end.

Definition handleTransfer (v : Envelope) : OrderM bool :=
  match creditsTransferredPayload (payload v) with
  | Some (TransferredP m courierId transactionId _ _) =>
      if negb (String.eqb (aggregateId v) (mv_orderId m))
      then throw (Unparseable "aggregateId does not match the transferred orderId") else
      let! result := transitionUsing periods
        (credit_command v (mv_orderId m) TRANSFER_CONFIRMED [CreditTransactionId transactionId]
           (fun order => unless (transfer_matches m courierId order)
                           (Unparseable "transfer does not match the requested completion"))
           None false insertReceipt) in
      match result with
      | Applied _ _ => ret true
      | Rejected _ order =>
          require (transfer_duplicate m courierId transactionId order)
            (Unparseable "transfer confirmation cannot complete order") ;;;
          ret false
      end
  | _ => throw (Unparseable "payload invalid")
  end.

(** One errand of a suspended user. *)
Definition suspend_errand (v : Envelope) (u : string) (order : OrderRow) : OrderM unit :=
  let asRequester := String.eqb (or_requesterId order) u in
  let part := if asRequester then AsRequester else AsCourier in
  match suspension_action part (or_status order) with
  | None => ret tt
  | Some a =>
      let! result := transitionUsing periods
        (mkCommand (or_orderId order) a (System (Some "user-suspensions")) None (correlationId v)
           (Some (eventId v)) None no_verify [] (Some (suspension_reason part)) asRequester no_after) in
      match result with
      | Applied _ _ => ret tt
      | Rejected _ _ =>
          if asRequester && bool_decide (or_status order = PICKED_UP)
          then noteRequesterSuspended (or_orderId order) else ret tt
      end
  end.

Definition handle_suspension (v : Envelope) : OrderM unit :=
  match userStatusChangedPayload (payload v) with
  | Some (UserStatusChangedP u _ _ _) =>
      let! suspended := lift_outcome (isSuspended dir u) in
      if suspended then
        let! errands := gets (lockActiveErrandsOf u) in
        mapM_ (suspend_errand v u) errands
      else ret tt
  | _ => throw (Unparseable "payload invalid")
  end.

(** The four subscriptions, each through the inbox. *)
Inductive OrderQueue := ReservationResults | TransferResults | ReleaseResults | UserSuspensions.

Definition deliver_order (q : OrderQueue) (v : Envelope) (e : Env) (db : OrderDb)
  : outcome bool * OrderDb :=
  match q with
  | ReservationResults => withInbox RESERVATION_RESULTS_QUEUE handle_reservation_result v e db
  | TransferResults =>
      withInbox TRANSFER_RESULTS_QUEUE (fun v => handleTransfer v ;;; ret tt) v e db
  | ReleaseResults =>
      withInbox RELEASE_RESULTS_QUEUE (fun v => handleRelease v ;;; ret tt) v e db
  | UserSuspensions => withInbox USER_SUSPENSIONS_QUEUE handle_suspension v e db
  end.
End Consumers.

(** ** Many transactions: the scheduler and the reconciler

    A run's state is how many statements and transactions there were so far, the tables, and the
    counts it reports. The [k]-th runs in its own environment, on what [world k] made of the tables
    since the one before. *)
Record Run (R : Type) := mkRunState { run_k : nat; run_db : OrderDb; run_counts : R }.
Arguments mkRunState {R} run_k run_db run_counts.
Arguments run_k {R} r.
Arguments run_db {R} r.
Arguments run_counts {R} r.

Section Worker.
Context {R : Type}.

Definition W (A : Type) : Type := Run R -> outcome A * Run R.

Definition w_ret {A} (a : A) : W A := fun s => (Ok a, s).
Definition w_throw {A} (x : Exn) : W A := fun s => (Throw x, s).
Definition w_bind {A B} (m : W A) (k : A -> W B) : W B :=
  fun s => match m s with (Ok a, s') => k a s' | (Throw x, s') => (Throw x, s') end.

(** [try … catch]: what the block did before it threw stays done. *)
Definition w_catch {A} (m : W A) (h : Exn -> W A) : W A :=
  fun s => match m s with (Ok a, s') => (Ok a, s') | (Throw x, s') => h x s' end.

Definition w_lift {A} (o : outcome A) : W A := fun s => (o, s).

Definition w_count (f : R -> R) : W unit :=
  fun s => (Ok tt, mkRunState (run_k s) (run_db s) (f (run_counts s))).

(** [for (const a of l) await f(a)]. *)
Fixpoint w_for {A} (f : A -> W unit) (l : list A) : W unit :=
  match l with
  | [] => w_ret tt
  | a :: l' => w_bind (f a) (fun _ => w_for f l')
  end.
End Worker.
Arguments W R A : clear implicits.

Notation "'wlet!' x ':=' m 'in' k" := (w_bind m (fun x => k))
  (at level 10, x name, m at level 100, k at level 200) : tx_scope.

Section Sweep.
Context `{Zod} `{Pg} (periods : Periods) (envs : nat -> Env) (world : nat -> OrderDb -> OrderDb)
  (corr : nat -> string).

Definition w_tx {R A} (m : OrderM A) : W R A := fun s =>
  let '(r, db') := transaction m (envs (run_k s)) (world (run_k s) (run_db s)) in
  (r, mkRunState (Datatypes.S (run_k s)) db' (run_counts s)).

(** A read, which may use the database's clock. *)
Definition w_read {R A} (f : Z -> OrderDb -> A) : W R A := fun s =>
  let db' := world (run_k s) (run_db s) in
  (Ok (f (env_now (envs (run_k s))) db'), mkRunState (Datatypes.S (run_k s)) db' (run_counts s)).

Record SchedulerOptions := mkScheduler {
  pickupTimeoutMs : Z; creditWaitTimeoutMs : Z; so_batchSize : nat }.

Record SweepResult := mkSweep {
  expired : nat; pickupTimedOut : nat; autoConfirmed : nat; undeliveredReferred : nat; skipped : nat;
  creditWaitAlerts : nat; adminsAssigned : nat; adminsUnassigned : nat; referralAlerts : nat }.

Definition no_sweep : SweepResult := mkSweep 0 0 0 0 0 0 0 0 0.

(** [result[key] += n]. *)
Inductive Count :=
  | Expired | PickupTimedOut | AutoConfirmed | UndeliveredReferred | Skipped | CreditWaitAlerts
  | AdminsAssigned | AdminsUnassigned | ReferralAlerts.

Definition bump (c : Count) (n : nat) (r : SweepResult) : SweepResult :=
  let 'mkSweep ex pt ac ur sk cw aa au ra := r in
  match c with
  | Expired => mkSweep (ex + n) pt ac ur sk cw aa au ra
  | PickupTimedOut => mkSweep ex (pt + n) ac ur sk cw aa au ra
  | AutoConfirmed => mkSweep ex pt (ac + n) ur sk cw aa au ra
  | UndeliveredReferred => mkSweep ex pt ac (ur + n) sk cw aa au ra
  | Skipped => mkSweep ex pt ac ur (sk + n) cw aa au ra
  | CreditWaitAlerts => mkSweep ex pt ac ur sk (cw + n) aa au ra
  | AdminsAssigned => mkSweep ex pt ac ur sk cw (aa + n) au ra
  | AdminsUnassigned => mkSweep ex pt ac ur sk cw aa (au + n) ra
  | ReferralAlerts => mkSweep ex pt ac ur sk cw aa au (ra + n)
  end.

Definition timer_command (orderId : string) (a : OrderAction) (now_ : Z) (k : nat)
    (verify : OrderRow -> option Exn) (patch : list Column) (reason : option string)
    (suspended : bool) : TransitionCommand :=
  mkCommand orderId a (System (Some "lifecycle-scheduler")) None ("scheduler-" ++ corr k) None
    (Some now_) verify patch reason suspended no_after.

(** [fire]: whether the timer took effect; one no longer due is skipped. *)
Definition fire (orderId : string) (a : OrderAction) (now_ : Z) (verify : OrderRow -> option Exn)
    (patch : list Column) (reason : option string) (suspended : bool) : W SweepResult bool :=
  fun s =>
    w_catch (w_bind (w_tx (transitionUsing periods
                      (timer_command orderId a now_ (run_k s) verify patch reason suspended)))
               (fun out => w_ret (match out with Applied _ _ => true | Rejected _ _ => false end)))
      (fun x => match x with NotDue => w_ret false | _ => w_throw x end) s.

Definition not_due (b : bool) : option Exn := if b then Some NotDue else None.

(** A timer's [verify]: the deadline as the locked row holds it. *)
Definition still_due (deadline : OrderRow -> option Z) (t : Z) (order : OrderRow) : option Exn :=
  not_due (match deadline order with Some d => t <? d | None => true end).

Definition fire_one (a : OrderAction) (now_ t : Z) (deadline : OrderRow -> option Z) (c : Count)
    (o : string) : W SweepResult unit :=
  wlet! applied := fire o a now_ (still_due deadline t) [] None false in
  w_count (bump (if applied : bool then c else Skipped) 1).

Definition refer_undelivered (dir : Directory) (now_ : Z) (oq : string * string)
  : W SweepResult unit :=
  wlet! suspended := w_lift (isSuspended dir oq.2) in
  if suspended : bool then
    wlet! applied := fire oq.1 DELIVERY_PERIOD_PASSED now_ no_verify []
                       (Some (suspension_reason AsRequester)) true in
    w_count (bump (if applied : bool then UndeliveredReferred else Skipped) 1)
  else w_tx (clearRequesterSuspended oq.1).

Definition referUndelivered (dir : Directory) (now_ : Z) (limit : nat) : W SweepResult unit :=
  wlet! found := w_read (fun _ => findDeliveryOverdue now_ limit) in
  w_for (refer_undelivered dir now_) found.

Definition refer_dispute (admins : list string) (now_ : Z) (d : string * option string)
  : W SweepResult unit :=
  wlet! cleared :=
    match d.2 with
    | Some heldBy =>
        fire d.1 ADMIN_UNASSIGNED now_
          (fun order => not_due (bool_decide (or_referredAdminId order <> Some heldBy)))
          [ReferredAdminId None] (Some heldBy) false
    | None => w_ret true
    end in
  if negb cleared then w_ret tt else
  wlet! _ := w_count (if is_some d.2 then bump AdminsUnassigned 1 else id) in
  wlet! took_part := w_read (fun _ => participants d.1) in
  let eligible := List.filter (fun a => negb (existsb (String.eqb a) took_part)) admins in
  match eligible with
  | [] =>
      wlet! raised := w_tx (raiseAlert d.1 REFERRAL_UNASSIGNED
                              (ReferralDetail (Z.of_nat (length admins)))) in
      w_count (if raised : bool then bump ReferralAlerts 1 else id)
  | _ =>
      wlet! chosen := w_read (fun _ => leastReferred eligible) in
      wlet! adminId := w_lift chosen in
      wlet! assigned := fire d.1 ADMIN_ASSIGNED now_
        (fun order => not_due (is_some (or_referredAdminId order)))
        [ReferredAdminId (Some adminId)] (Some adminId) false in
      w_count (if assigned : bool then bump AdminsAssigned 1 else id)
  end.

Definition referDisputes (dir : Directory) (now_ : Z) (limit : nat) : W SweepResult unit :=
  wlet! any := w_read (fun _ => anyDisputed) in
  if negb any then w_ret tt else
  wlet! admins := w_lift (listAdmins dir) in
  match admins with
  | [] => w_ret tt
  | _ =>
      wlet! found := w_read (fun _ => listDisputesToRefer admins limit) in
      w_for (refer_dispute admins now_) found
  end.

(** A failed lookup ends its own referrals alone. *)
Definition unless_down (m : W SweepResult unit) : W SweepResult unit :=
  w_catch m (fun x => match x with DirectoryUnavailable => w_ret tt | _ => w_throw x end).

Definition sweep (options : SchedulerOptions) (dir : Directory) : W SweepResult unit :=
  wlet! now_ := w_read (fun at_ _ => iso at_) in
  let limit := so_batchSize options in
  wlet! overdue := w_read (fun _ => findOverdueOpen now_ limit) in
  wlet! _ := w_for (fire_one ACCEPTANCE_DEADLINE_PASSED now_ now_ or_acceptanceDeadlineAt Expired) overdue in
  let cutoff := now_ - pickupTimeoutMs options * 1000 in
  wlet! late := w_read (fun _ => findPickupOverdue cutoff limit) in
  wlet! _ := w_for (fire_one PICKUP_TIMEOUT now_ cutoff or_acceptedAt PickupTimedOut) late in
  wlet! unconfirmed := w_read (fun _ => findAutoConfirmDue now_ limit) in
  wlet! _ := w_for (fire_one AUTO_CONFIRM now_ now_ or_autoConfirmAt AutoConfirmed) unconfirmed in
  wlet! raised := w_tx (raiseCreditWaitAlerts (now_ - creditWaitTimeoutMs options * 1000) limit) in
  wlet! _ := w_count (bump CreditWaitAlerts (length raised)) in
  wlet! _ := unless_down (referUndelivered dir now_ limit) in
  unless_down (referDisputes dir now_ limit).

(** ** The reconciler *)

(** [CreditStatusClient.status]: [None] for every failure, which is [CreditUnavailableError]. *)
Inductive CreditResponse :=
  | CreditNoResponse
  | CreditBadStatus (status : Z)
  | CreditBadBody
  | CreditBody (orderId : string) (status : CreditState) (detail : option CreditDetail).

Definition credit_status (orderId : string) (r : CreditResponse)
  : outcome (CreditState * option CreditDetail) :=
  match r with
  | CreditBody o st d => if String.eqb o orderId then Ok (st, d) else Throw CreditUnavailable
  | _ => Throw CreditUnavailable
  end.

Record ReconcilerOptions := mkReconciler {
  staleAfterMs : Z; retryAfterMs : Z; ro_batchSize : nat }.

Record ReconciliationRun := mkRun {
  rr_candidates : nat; rr_reissued : nat; rr_alerted : nat; rr_unavailable : nat; rr_skipped : nat }.

Definition count_run (recorded : option (RecordedAction * option string * bool))
    (m : ReconciliationRun) : ReconciliationRun :=
  let 'mkRun c r a u s := m in
  match recorded with
  | None => mkRun c r a u (s + 1)
  | Some (REISSUED, _, _) => mkRun c (r + 1) a u s
  | Some (ALERTED, _, _) => mkRun c r (a + 1) u s
  | Some (CREDIT_UNAVAILABLE, _, _) => mkRun c r a (u + 1) s
  end.

(** [credit o]: what the Credit Service answers about order [o]; [held k]: whether another run holds
    the row at the [k]-th transaction. *)
Definition reconcile_one (options : ReconcilerOptions) (runId : string)
    (credit : string -> CreditResponse) (held : nat -> bool) (cand : Candidate)
  : W ReconciliationRun unit :=
  fun s =>
    let answer_ := match credit_status (cd_orderId cand) (credit (cd_orderId cand)) with
                   | Ok c => Some c | Throw _ => None end in
    let action_ := match answer_ with
                   | Some c => reconciliationDecision (cd_status cand) c.1 | None => CREDIT_DOWN end in
    w_bind (w_tx (recordReconciliation (held (run_k s))
              (mkReconcile cand runId (retryAfterMs options) answer_ action_ ("reconcile-" ++ runId))))
      (fun recorded => w_count (count_run recorded)) s.

Definition reconcile (options : ReconcilerOptions) (runId : string) (credit : string -> CreditResponse)
    (held : nat -> bool) : W ReconciliationRun unit :=
  wlet! candidates := w_read (findReconciliationCandidates (staleAfterMs options) (retryAfterMs options)
                                (ro_batchSize options)) in
  wlet! _ := w_count (fun _ => mkRun (length candidates) 0 0 0 0) in
  w_for (reconcile_one options runId credit held) candidates.
End Sweep.
