(* ===== verification/OrderFacts.v ===== *)
(** * OrderFacts: what the Order Service's statements do

    Inversion of each statement, and what no statement changes. *)
From S2P Require Export OrderWorkers Outbox.

(** ** Columns that never change *)

Definition same_errand (a b : OrderRow) : Prop :=
  or_orderId a = or_orderId b /\ or_requesterId a = or_requesterId b /\ or_reward a = or_reward b
  /\ or_supplier a = or_supplier b /\ or_items a = or_items b /\ or_deliveryZone a = or_deliveryZone b
  /\ or_deliveryInstructions a = or_deliveryInstructions b /\ or_createdAt a = or_createdAt b.

Lemma same_errand_refl r : same_errand r r.
Proof. by repeat split. Qed.

Lemma same_errand_trans a b c : same_errand a b -> same_errand b c -> same_errand a c.
Proof. unfold same_errand. intuition congruence. Qed.

Lemma set_columns_same cs r : same_errand r (set_columns cs r).
Proof.
  unfold set_columns. revert r. induction cs as [|c cs IH]; intros r; simpl; [apply same_errand_refl|].
  eapply same_errand_trans; [|apply IH]. destruct r, c; by repeat split.
Qed.

Lemma set_columns_app cs ds r : set_columns (cs ++ ds) r = set_columns ds (set_columns cs r).
Proof. apply foldl_app. Qed.

(** ** Statements *)

Section Statements.
Context `{Pg}.

Definition row_writable (r : OrderRow) : bool :=
  in_int4 (or_reward r) && in_int4 (or_version r) && optP (or_availableAtRejection r) in_int4
  && optP (or_creditTransactionId r) pg_uuid && order_ok r.

Lemma mapM_check_ok (l : list (string * bool)) e (s : nat * OrderDb) x :
  mapM_ (fun nb => check_ nb.2 nb.1) l e s = Ok x <-> forallb snd l = true /\ x = (tt, s).
Proof.
  revert s x. induction l as [|[nm b] l IH]; intros s x; simpl.
  { rewrite ret_ok. naive_solver. }
  unfold check_ at 1. rewrite bind_ok. setoid_rewrite require_ok. rewrite andb_true_iff.
  split; [intros (a & s' & [Hb [= _ ->]] & Hr); apply IH in Hr; naive_solver|].
  intros [[Hb Hl] ->]. exists tt, s. rewrite IH. auto.
Qed.

Lemma check_order_ok r e (s : nat * OrderDb) x :
  check_order r e s = Ok x <-> row_writable r = true /\ x = (tt, s).
Proof.
  unfold check_order, row_writable, width_ok, order_ok. rewrite !andb_true_iff. split.
  - intros Hc. do 4 (apply bind_ok in Hc as ([] & ? & Hq & Hc); apply require_ok in Hq as [? [= ->]]).
    apply mapM_check_ok in Hc as [? ->]. by repeat split.
  - intros [[[[[H1 H2] H3] H4] H5] ->].
    unfold bind, require. rewrite H1, H2, H3, H4. by apply mapM_check_ok.
Qed.

Lemma insert_order_ok r e n (db : OrderDb) x :
  insert_order r e (n, db) = Ok x <->
  pg_uuid (or_orderId r) = true /\ row_writable r = true /\ orders db !! or_orderId r = None
  /\ x = (tt, (n, set_orders (<[or_orderId r := mkStored r None]> (orders db)) db)).
Proof.
  unfold insert_order, as_uuid, unique_. split.
  - intros Hi. apply bind_ok in Hi as ([] & ? & Hq & Hi). apply require_ok in Hq as [? [= ->]].
    apply bind_ok in Hi as ([] & ? & Hq & Hi). apply check_order_ok in Hq as [? [= ->]].
    apply bind_ok in Hi as (d & ? & Hq & Hi). apply gets_ok in Hq as [= -> ->].
    apply bind_ok in Hi as ([] & ? & Hq & Hi). apply require_ok in Hq as [Hn [= ->]].
    apply modify_ok in Hi as ->. simpl in *. unfold id in *.
    destruct (orders db !! or_orderId r); [done|]. auto.
  - intros (Hu & Hw & Hn & ->). unfold bind at 1, require. rewrite Hu. unfold ret at 1.
    unfold bind at 1. rewrite (proj2 (check_order_ok r e (n, db) (tt, (n, db)))) by done.
    unfold bind, gets, id. simpl. rewrite Hn. done.
Qed.

Lemma update_order_Some id_ cond cs e n (db : OrderDb) r mark :
  pg_uuid id_ = true -> orders db !! id_ = Some (mkStored r mark) -> cond r = true ->
  row_writable (set_columns (cs r) r) = true ->
  update_order id_ cond cs e (n, db)
  = Ok (Some (set_columns (cs r) r),
        (n, set_orders (<[id_ := mkStored (set_columns (cs r) r) mark]> (orders db)) db)).
Proof.
  intros Hu Hr Hc Hw. unfold update_order, as_uuid, bind at 1, require. rewrite Hu. unfold ret at 1.
  unfold bind at 1, gets, id. simpl. rewrite Hr, Hc. unfold bind at 1.
  by rewrite (proj2 (check_order_ok _ e (n, db) (tt, (n, db)))).
Qed.

Lemma update_order_ok id_ cond cs e n (db : OrderDb) res n' db' :
  update_order id_ cond cs e (n, db) = Ok (res, (n', db')) ->
  n' = n /\ pg_uuid id_ = true
  /\ ((res = None /\ db' = db /\ forall r m, orders db !! id_ = Some (mkStored r m) -> cond r = false)
      \/ exists r mark, orders db !! id_ = Some (mkStored r mark) /\ cond r = true
           /\ res = Some (set_columns (cs r) r) /\ row_writable (set_columns (cs r) r) = true
           /\ db' = set_orders (<[id_ := mkStored (set_columns (cs r) r) mark]> (orders db)) db).
Proof.
  unfold update_order, as_uuid. intros Hu.
  apply bind_ok in Hu as ([] & ? & Hq & Hu). apply require_ok in Hq as [Hid [= ->]].
  apply bind_ok in Hu as (d & ? & Hq & Hu). apply gets_ok in Hq as [= -> ->]. unfold id in Hu.
  simpl in Hu. destruct (orders db !! id_) as [[r mark]|] eqn:Hr.
  2:{ apply ret_ok in Hu as [= -> -> ->]. repeat split; auto. left. repeat split; auto; naive_solver. }
  destruct (cond r) eqn:Hc.
  2:{ apply ret_ok in Hu as [= -> -> ->]. repeat split; auto. left. repeat split; auto; naive_solver. }
  apply bind_ok in Hu as ([] & ? & Hq & Hu). apply check_order_ok in Hq as [Hw [= ->]].
  apply bind_ok in Hu as ([] & ? & Hq & Hu). apply modify_ok in Hq as [= ->].
  apply ret_ok in Hu as [= -> -> ->]. repeat split; auto. right. exists r, mark. auto.
Qed.

Lemma insert_history_ok h e n (db : OrderDb) x :
  insert_history h e (n, db) = Ok x <->
  in_int4 (h_version h) = true
  /\ (forall y, y ∈ history db -> h_id y <> h_id h)
  /\ (forall y, y ∈ history db -> h_orderId y = h_orderId h -> h_version y <> h_version h)
  /\ is_Some (orders db !! h_orderId h)
  /\ x = (tt, (n, set_history (history db ++ [h]) db)).
Proof.
  unfold insert_history. unfold_checks.
  assert (forall f : History -> bool, negb (existsb f (history db)) = true
    <-> forall y, y ∈ history db -> f y = false) as Hex.
  { intros f. rewrite negb_true_iff. apply existsb_false. }
  split.
  - intros Hi. inv_tx. unfold id in *. repeat split; auto.
    + intros y Hy Heq. rewrite Hex in *. match goal with K : forall y, _ -> String.eqb (h_id y) _ = false |- _ =>
        specialize (K y Hy); apply String.eqb_neq in K; done end.
    + intros y Hy Ho Hv. rewrite Hex in *.
      match goal with K : forall y, _ -> String.eqb (h_orderId y) _ && _ = false |- _ =>
        specialize (K y Hy); rewrite Ho, String.eqb_refl, Hv, Z.eqb_refl in K; done end.
    + destruct (orders db !! h_orderId h); [done|discriminate].
  - intros (Hw & H1 & H2 & [st Hst] & ->).
    unfold bind, gets, id, require. simpl. rewrite Hw. simpl.
    rewrite (proj2 (Hex _)) by (intros y Hy; apply String.eqb_neq; auto).
    simpl. rewrite (proj2 (Hex _)).
    2:{ intros y Hy. destruct (String.eqb_spec (h_orderId y) (h_orderId h)); [|done].
        simpl. apply Z.eqb_neq. auto. }
    simpl. rewrite Hst. done.
Qed.

Lemma findByIdUsing_ok id_ e n (db : OrderDb) x :
  findByIdUsing id_ e (n, db) = Ok x <->
  pg_uuid id_ = true /\ x = (mapOrder <$> (st_row <$> orders db !! id_), (n, db)).
Proof.
  unfold findByIdUsing, as_uuid. rewrite bind_ok. setoid_rewrite require_ok. split.
  - intros (a & s & [Hu [= -> ->]] & Hg). apply gets_ok in Hg as ->. auto.
  - intros [Hu ->]. exists tt, (n, db). split; [done|]. by apply gets_ok.
Qed.
End Statements.

(** ** What a read keeps *)

Lemma mapOrder_same r : or_status (mapOrder r) = or_status r /\ or_version (mapOrder r) = or_version r
  /\ or_orderId (mapOrder r) = or_orderId r /\ or_requesterId (mapOrder r) = or_requesterId r
  /\ or_courierId (mapOrder r) = or_courierId r /\ or_reward (mapOrder r) = or_reward r.
Proof. by repeat split. Qed.

Lemma movement_mapOrder r : movement (mapOrder r) = movement r.
Proof. done. Qed.

Lemma movement_same a b : same_errand a b -> movement b = movement a.
Proof. intros (? & ? & ? & _). unfold movement. congruence. Qed.

(** ** OrderRow: one errand, from decision to decision

    [row_inv] is what holds of every stored errand, beyond the constraints of its table. [step_row]
    shows that a decision of the transition table keeps it, and that no constraint of the table ever
    refuses one: the cases of the table are gone through here, once. *)

(** ** One errand *)

Definition status_in (r : OrderRow) (l : list OrderStatus) : bool := bool_decide (or_status r ∈ l).
Definition implb_ (a b : bool) : bool := negb a || b.

Definition after_pickup : list OrderStatus :=
  [PICKED_UP; DELIVERED; DISPUTED; COMPLETION_PENDING_CREDIT; COMPLETED].
Definition paying : list OrderStatus := [COMPLETION_PENDING_CREDIT; COMPLETED].
Definition refunding : list OrderStatus := [RELEASE_PENDING_CREDIT; CANCELLED; EXPIRED].
Definition disputed_or_after : list OrderStatus := DISPUTED :: paying ++ refunding.

(** What every stored errand satisfies: the constraints of its table, the times its status needs, no
    courier while it is open, none that is its requester, no referred administrator before a dispute,
    and what Credit answered only on the errand it closed. *)
Definition row_inv (r : OrderRow) : bool :=
  order_ok r
  && implb_ (status_in r after_pickup) (is_some (or_pickedUpAt r) && is_some (or_acceptedAt r))
  && implb_ (status_in r [OPEN; ACCEPTED]) (is_some (or_acceptanceDeadlineAt r))
  && implb_ (status_in r [ACCEPTED])
       (match or_acceptedAt r, or_acceptanceDeadlineAt r with
        | Some a, Some d => a <? d | _, _ => false end)
  && implb_ (status_in r paying) (is_some (or_completionRequestedAt r))
  && implb_ (status_in r [RELEASE_PENDING_CREDIT]) (is_some (or_releaseReason r))
  && optP (or_courierId r) (fun c => negb (String.eqb c (or_requesterId r)))
  && implb_ (is_some (or_referredAdminId r)) (status_in r disputed_or_after)
  && implb_ (status_in r [PENDING_CREDIT; REJECTED; OPEN]) (negb (is_some (or_courierId r)))
  && implb_ (is_some (or_availableAtRejection r)) (status_in r [REJECTED])
  && implb_ (is_some (or_creditTransactionId r)) (status_in r [COMPLETED; CANCELLED; EXPIRED]).

(** The columns of a command's own each action may write. *)
Definition patch_ok (a : OrderAction) (patch : list Column) : Prop :=
  match a with
  | CREDIT_REJECTED => exists why available,
      patch = [RejectionReason why; AvailableAtRejection available]
  | TRANSFER_CONFIRMED | RELEASE_CONFIRMED => exists t, patch = [CreditTransactionId t]
  | ADMIN_ASSIGNED => exists admin, patch = [ReferredAdminId (Some admin)]
  | ADMIN_UNASSIGNED => patch = [ReferredAdminId None]
  | ACCEPT => False
  | _ => patch = []
  end.

(** A rejection without a reason is the one reply the table's own constraint stops. *)
Definition patch_full (patch : list Column) : bool :=
  forallb (fun c => match c with RejectionReason None => false | _ => true end) patch.

Definition step_columns (d : TransitionDecision) (at_ : Z) (order : OrderRow) (times patch : list Column)
  : list Column :=
  [Status (to d); Version (or_version order + 1); UpdatedAt at_]
  ++ match decidedReason d with Some r => [ReleaseReasonC r] | None => [] end ++ times ++ patch.

(** The context a row's own columns give a decision. *)
Definition reads_release (c : TransitionContext) (r : OrderRow) : Prop :=
  releaseReason c = or_releaseReason r.

Ltac split_row :=
  repeat match goal with
  | H : _ && _ = true |- _ => apply andb_true_iff in H as [? H]
  | H : exists _, _ |- _ => destruct H as [? H]
  end.


(** The fields of a row given in full, and the tests on its status decided. *)
Ltac row_fields :=
  cbn [or_orderId or_requesterId or_courierId or_referredAdminId or_supplier or_items or_deliveryZone
    or_deliveryInstructions or_reward or_status or_releaseReason or_rejectionReason
    or_availableAtRejection or_version or_acceptanceDeadlineAt or_acceptedAt or_pickedUpAt or_deliveredAt
    or_nonDeliveryReportAt or_autoConfirmAt or_completionRequestedAt or_completedAt
    or_releaseRequestedAt or_releasedAt or_creditTransactionId or_createdAt or_updatedAt] in *.

Ltac decide_closed :=
  repeat match goal with
  | |- context [bool_decide ?P] =>
      let b := eval vm_compute in (bool_decide P) in
      match b with true => idtac | false => idtac end; change (bool_decide P) with b
  | H : context [bool_decide ?P] |- _ =>
      let b := eval vm_compute in (bool_decide P) in
      match b with true => idtac | false => idtac end; change (bool_decide P) with b in H
  end.

Section Row.
Context (periods : Periods).

(** A decision writes a row that keeps the invariant, and, with the patch in full, one no constraint
    refuses: the table's checks never block a transition the rules allow. *)
Lemma step_row a actor c d at_ r times patch :
  row_inv r = true -> decideTransition (or_status r) a actor c = Some d -> reads_release c r ->
  timestampPatch periods a d at_ (mapOrder r) = Ok times -> patch_ok a patch ->
  let r' := set_columns (step_columns d at_ r times patch) r in
  (patch_full patch = true -> order_ok r' = true) /\ (order_ok r' = true -> row_inv r' = true).
Proof.
  intros Hinv Hd Hrel Ht Hp r'. subst r'. apply decideTransition_rule in Hd as (rule & Hin & Hf & Ha & _ & Hg & <-).
  unfold ORDER_TRANSITIONS in Hin. repeat rewrite elem_of_cons in Hin. rewrite elem_of_nil in Hin.
  destruct_or? Hin; try done; subst rule; simpl in Hg, Hf, Ha; subst a; simpl in Hp; try done;
    split_row; subst; unfold timestampPatch in Ht; simpl in Ht.
  all: repeat match type of Ht with context [match ?o with _ => _ end] => destruct o eqn:? end; simplify_eq.
  all: destruct r as [id req cour adm sup items zone instr reward st rel rej avail ver dl acc pick deliv
    ndr auto compr comp relr reld txn crea upd]; unfold reads_release in Hrel;
    simpl in Hf, Hrel, Hinv; subst st.
  all: unfold step_columns, set_columns; simpl.
  all: unfold row_inv, order_ok, order_checks, implb_, status_in in Hinv |- *.
  all: row_fields; decide_closed.
  all: simpl in Hinv |- *.
  all: assert ((1 <=? ver) = true -> (1 <=? ver + 1) = true) as Hver
    by (rewrite !Z.leb_le; lia).
  all: destruct rej, cour, adm; simpl in Hinv |- *; rewrite ?andb_true_r, ?andb_false_r in Hinv; try discriminate Hinv.
  all: rewrite ?orb_true_r, ?orb_false_r, ?andb_true_r, ?andb_true_iff in Hinv; destruct_and? Hinv;
    rewrite ?orb_true_r, ?orb_false_r, ?andb_true_r, ?andb_false_r.
  all: split; [intros Hfull|intros Hok]; rewrite ?andb_true_iff in *; destruct_and?; repeat split; auto.
  - match goal with x : option ReservationRejection |- _ => by destruct x end.
  - by destruct acc.
Qed.
End Row.

(** ** OrderRowFacts: creation and acceptance of one errand, and what its invariant gives

    Beside [step_row]: the row a creation writes, the row an acceptance writes, and the consequences
    of [row_inv] the other files use. *)

Lemma row_inv_spec r :
  row_inv r = true <->
  order_ok r = true
  /\ (or_status r ∈ after_pickup -> is_Some (or_pickedUpAt r) /\ is_Some (or_acceptedAt r))
  /\ (or_status r ∈ [OPEN; ACCEPTED] -> is_Some (or_acceptanceDeadlineAt r))
  /\ (or_status r = ACCEPTED -> exists a d,
        or_acceptedAt r = Some a /\ or_acceptanceDeadlineAt r = Some d /\ a < d)
  /\ (or_status r ∈ paying -> is_Some (or_completionRequestedAt r))
  /\ (or_status r = RELEASE_PENDING_CREDIT -> is_Some (or_releaseReason r))
  /\ (forall c, or_courierId r = Some c -> c <> or_requesterId r)
  /\ (is_Some (or_referredAdminId r) -> or_status r ∈ disputed_or_after)
  /\ (or_status r ∈ [PENDING_CREDIT; REJECTED; OPEN] -> or_courierId r = None)
  /\ (is_Some (or_availableAtRejection r) -> or_status r = REJECTED)
  /\ (is_Some (or_creditTransactionId r) -> or_status r ∈ [COMPLETED; CANCELLED; EXPIRED]).
Proof.
  assert (forall b c, implb_ b c = true <-> (b = true -> c = true)) as Himp.
  { intros [] []; unfold implb_; simpl; naive_solver. }
  assert (forall A (o : option A), is_some o = true <-> is_Some o) as Hsome.
  { intros A [x|]; simpl; split; [eauto|done|done|by intros [? ?]]. }
  unfold row_inv, status_in. rewrite !andb_true_iff, !Himp, !bool_decide_eq_true, !Hsome.
  rewrite andb_true_iff, !Hsome.
  assert (or_status r ∈ [ACCEPTED] <-> or_status r = ACCEPTED) as -> by set_solver.
  assert (or_status r ∈ [REJECTED] <-> or_status r = REJECTED) as -> by set_solver.
  assert (or_status r ∈ [RELEASE_PENDING_CREDIT] <-> or_status r = RELEASE_PENDING_CREDIT) as ->
    by set_solver.
  assert ((match or_acceptedAt r, or_acceptanceDeadlineAt r with
           | Some a, Some d => a <? d | _, _ => false end) = true <->
          exists a d, or_acceptedAt r = Some a /\ or_acceptanceDeadlineAt r = Some d /\ a < d) as ->.
  { destruct (or_acceptedAt r), (or_acceptanceDeadlineAt r); rewrite ?Z.ltb_lt; naive_solver. }
  assert (optP (or_courierId r) (fun c => negb (String.eqb c (or_requesterId r))) = true <->
          forall c, or_courierId r = Some c -> c <> or_requesterId r) as ->.
  { destruct (or_courierId r); simpl; [|naive_solver].
    rewrite negb_true_iff, String.eqb_neq. naive_solver. }
  assert (negb (is_some (or_courierId r)) = true <-> or_courierId r = None) as ->.
  { destruct (or_courierId r); naive_solver. }
  tauto.
Qed.

Lemma pending_row_inv id_ input at_ :
  order_ok (pending_row id_ input at_) = true -> row_inv (pending_row id_ input at_) = true.
Proof. intros Hok. unfold row_inv. by rewrite Hok. Qed.

Lemma accept_row c ver at_ r :
  row_inv r = true -> acceptable c ver at_ r = true ->
  let r' := set_columns (accept_columns c at_ r) r in
  order_ok r' = true /\ row_inv r' = true.
Proof.
  intros Hinv Hacc. unfold acceptable in Hacc. rewrite !andb_true_iff, bool_decide_eq_true in Hacc.
  destruct Hacc as [[[Hst _] Hne] Hd].
  destruct r as [id_ req cour adm sup items zone instr reward st rel rej avail v dl acc pick deliv
    ndr auto_ compr comp relr reld txn crea upd]. simpl in Hst, Hne, Hd. subst st.
  destruct dl as [dl|]; [|done]. unfold accept_columns, set_columns. simpl.
  unfold row_inv, order_ok, order_checks, implb_, status_in in Hinv |- *. simpl in Hinv |- *.
  destruct rej, adm; simpl in *; rewrite ?andb_true_r, ?andb_false_r in *; try discriminate.
  rewrite ?andb_true_iff in *. destruct_and?.
  assert ((1 <=? v + 1) = true) by (rewrite Z.leb_le in *; lia).
  assert (negb (String.eqb c req) = true) by by rewrite String.eqb_sym.
  repeat split; auto.
Qed.
