(* ===== verification/OrderEffects.v ===== *)
(** * OrderEffects: every way the Order Service's tables change

    [change] lists them: an errand is created, accepted, or moved by a decision of the transition
    table, with its history entry, its events and, on completion, its receipt, all at once; anything
    else leaves errands, history and receipts alone ([frame]). Each operation of the repository is
    shown to be one of these or to change nothing. *)
From S2P Require Export OrderFacts.

(** ** Columns a decision leaves alone *)

Lemma set_columns_keeps {A} (f : OrderRow -> A) (keeps : Column -> bool) cs r :
  (forall r c, keeps c = true -> f (set_column r c) = f r) -> forallb keeps cs = true ->
  f (set_columns cs r) = f r.
Proof.
  intros Hf. unfold set_columns. revert r. induction cs as [|c cs IH]; intros r; simpl; [done|].
  rewrite andb_true_iff. intros [Hc Hcs]. rewrite IH by done. auto.
Qed.

Definition keeps_status (c : Column) : bool :=
  match c with Status _ | Version _ => false | _ => true end.
Definition keeps_courier (c : Column) : bool := match c with CourierId _ => false | _ => true end.
Definition keeps_admin (c : Column) : bool := match c with ReferredAdminId _ => false | _ => true end.

Section Step.
Context (periods : Periods).

Definition loses_courier (a : OrderAction) : bool :=
  bool_decide (a = WITHDRAW) || bool_decide (a = PICKUP_TIMEOUT) || bool_decide (a = COURIER_SUSPENDED).

Lemma times_keep a d at_ order times :
  timestampPatch periods a d at_ order = Ok times ->
  forallb keeps_status times = true /\ forallb keeps_admin times = true
  /\ (loses_courier a = false -> forallb keeps_courier times = true)
  /\ (forallb keeps_courier times = true
      \/ exists rest, times = CourierId None :: rest /\ forallb keeps_courier rest = true).
Proof.
  unfold timestampPatch, loses_courier, noCourier. intros Ht.
  repeat match type of Ht with context [bool_decide ?P] => destruct (bool_decide P) end; simpl in Ht;
    repeat case_match; simplify_eq; simpl; rewrite ?orb_true_r; repeat split; auto; try done; right; eexists; split; reflexivity.
Qed.

Lemma patch_keeps a patch :
  patch_ok a patch ->
  forallb keeps_status patch = true /\ forallb keeps_courier patch = true
  /\ (a <> ADMIN_ASSIGNED -> a <> ADMIN_UNASSIGNED -> forallb keeps_admin patch = true).
Proof. destruct a; simpl; intros Hp; try done; split_row; by subst patch. Qed.

(** The row a decision writes: its status, the next version, its courier or none. *)
Lemma step_fields a d at_ r times patch :
  timestampPatch periods a d at_ (mapOrder r) = Ok times -> patch_ok a patch ->
  let r' := set_columns (step_columns d at_ r times patch) r in
  or_status r' = to d /\ or_version r' = or_version r + 1
  /\ (or_courierId r' = or_courierId r \/ or_courierId r' = None)
  /\ (loses_courier a = false -> or_courierId r' = or_courierId r)
  /\ (a <> ADMIN_ASSIGNED -> a <> ADMIN_UNASSIGNED -> or_referredAdminId r' = or_referredAdminId r)
  /\ (a = ADMIN_ASSIGNED -> forall admin, patch = [ReferredAdminId (Some admin)] ->
        or_referredAdminId r' = Some admin)
  /\ (a = ADMIN_UNASSIGNED -> or_referredAdminId r' = None).
Proof.
  intros Ht Hp r'. destruct (times_keep _ _ _ _ _ Ht) as (Hs & Ha & Hc & Hc').
  destruct (patch_keeps _ _ Hp) as (Hps & Hpc & Hpa).
  set (reason := match decidedReason d with Some x => [ReleaseReasonC x] | None => [] end).
  assert (r' = set_columns patch (set_columns times (set_columns reason
     (set_columns [Status (to d); Version (or_version r + 1); UpdatedAt at_] r)))) as Heq.
  { unfold r', step_columns. by rewrite !set_columns_app. }
  set (r0 := set_columns [Status (to d); Version (or_version r + 1); UpdatedAt at_] r) in *.
  assert (or_status r0 = to d /\ or_version r0 = or_version r + 1 /\ or_courierId r0 = or_courierId r
          /\ or_referredAdminId r0 = or_referredAdminId r) as (H1 & H2 & H3 & H4).
  { unfold r0. clear. by destruct r. }
  set (r1 := set_columns reason r0) in *.
  assert (or_status r1 = to d /\ or_version r1 = or_version r + 1 /\ or_courierId r1 = or_courierId r
          /\ or_referredAdminId r1 = or_referredAdminId r) as (K1 & K2 & K3 & K4).
  { unfold r1, reason. destruct (decidedReason d); [|done]. unfold set_columns. simpl. by destruct r0. }
  assert (forall cs x, forallb keeps_status cs = true ->
            or_status (set_columns cs x) = or_status x /\ or_version (set_columns cs x) = or_version x)
    as Hkeep.
  { intros cs x Hk. split; by apply (set_columns_keeps _ keeps_status); [intros [] []|]. }
  assert (forall cs x, forallb keeps_courier cs = true ->
            or_courierId (set_columns cs x) = or_courierId x) as Hkc.
  { intros cs x Hk. by apply (set_columns_keeps _ keeps_courier); [intros [] []|]. }
  assert (forall cs x, forallb keeps_admin cs = true ->
            or_referredAdminId (set_columns cs x) = or_referredAdminId x) as Hka.
  { intros cs x Hk. by apply (set_columns_keeps _ keeps_admin); [intros [] []|]. }
  rewrite Heq. destruct (Hkeep patch (set_columns times r1) Hps) as [-> ->].
  destruct (Hkeep times r1 Hs) as [-> ->]. rewrite (Hkc patch) by done. repeat split; auto.
  - destruct Hc' as [Hk|(rest & -> & Hk)]; [left; by rewrite Hkc|]. right.
    change (CourierId None :: rest) with ([CourierId None] ++ rest). rewrite set_columns_app, Hkc by done.
    unfold set_columns. simpl. by destruct r1.
  - intros Hl. rewrite Hkc by auto. done.
  - intros. rewrite !Hka by auto. done.
  - intros _ admin ->. unfold set_columns at 1. simpl. by destruct (set_columns times r1).
  - intros ->. simpl in Hp. subst patch. unfold set_columns at 1. simpl. by destruct (set_columns times r1).
Qed.
End Step.

(** ** Events *)

Section Effects.
Context `{Zod} `{Pg} (periods : Periods).

(** An outbox row that holds the event a decision sends. *)
Definition event_row (before after : OrderRow) (at_ : Z) (eventType : string) (e : OutboxRow) : Prop :=
  ob_eventType e = eventType /\ ob_aggregateId e = or_orderId before
  /\ emittedEvent eventType before after at_ = Ok (ob_payload e).

(** Validation keeps what the service itself sends. *)
Lemma schema_keeps ty before after at_ p f q :
  emittedEvent ty before after at_ = Ok p -> assoc ty PAYLOAD_SCHEMAS = Some f -> f p = Some q -> q = p.
Proof.
  unfold emittedEvent. intros He Hf Hq.
  destruct (String.eqb_spec ty ORDER_STATUS_CHANGED) as [->|_].
  { injection He as <-. change (Some orderStatusChangedPayload = Some f) in Hf. injection Hf as <-. simpl in Hq. by case_match; simplify_eq. }
  destruct (String.eqb_spec ty ORDER_COMPLETION_REQUESTED) as [->|_].
  { destruct (keep _ _) as [c|]; [|done]. injection He as <-.
    change (Some orderCompletionRequestedPayload = Some f) in Hf. injection Hf as <-.
    unfold orderCompletionRequestedPayload in Hq. cbv beta iota in Hq. destruct (_ && _); congruence. }
  destruct (String.eqb_spec ty CREDIT_RELEASE_REQUESTED) as [->|_]; [|done].
  injection He as <-. change (Some creditReleaseRequestedPayload = Some f) in Hf. injection Hf as <-.
  unfold creditReleaseRequestedPayload, movement_of in Hq. cbv beta iota in Hq.
  destruct (movement_ok _); simpl in Hq; congruence.
Qed.

Lemma emit_all cmd before after at_ types e n (db : OrderDb) n' db' :
  mapM_ (emit cmd before after at_) types e (n, db) = Ok (tt, (n', db')) ->
  exists o new, db' = set_orderOutbox o db /\ ob_rows o = ob_rows (orderOutbox db) ++ new
    /\ Forall2 (event_row before after at_) types new.
Proof.
  revert n db. induction types as [|ty types IH]; intros n db; simpl; intros Hm.
  { apply ret_ok in Hm as [= -> ->]. exists (orderOutbox db), []. rewrite app_nil_r.
    split; [by destruct db|]. by split; [|constructor]. }
  apply bind_ok in Hm as ([] & [n1 db1] & He & Hm). unfold emit in He.
  apply bind_ok in He as (p & s & Hp & He). unfold lift_outcome in Hp.
  destruct (emittedEvent ty before after at_) as [p'|x] eqn:Hev; [|done].
  apply ret_ok in Hp as [= -> ->]. apply bind_ok in He as (id_ & [n2 db2] & Hi & He).
  apply ret_ok in He as [= -> ->].
  apply insertOutboxEvent_ok in Hi as (q & f & Hf & Hq & _ & _ & _ & ->).
  cbn [ne_eventType ne_payload] in Hf, Hq. pose proof (schema_keeps _ _ _ _ _ _ _ Hev Hf Hq) as ->.
  destruct (IH _ _ Hm) as (o & new & -> & Ho & Hall). simpl in Ho.
  eexists o, (_ :: new). split; [by destruct db|]. split; [rewrite Ho; by rewrite <- app_assoc|].
  constructor; [|done]. by repeat split.
Qed.

(** ** The ways the tables change *)

Definition entries (orderId : string) (db : OrderDb) : list History :=
  List.filter (fun h => String.eqb (h_orderId h) orderId) (history db).

(** The tables after an errand moved: its row, a history entry, receipts and events. *)
Definition written (db : OrderDb) (orderId : string) (st : Stored) (h : History) (rs : list Receipt)
    (o : Outbox) : OrderDb :=
  mkOrderDb (<[orderId := st]> (orders db)) (history db ++ [h]) (receipts db ++ rs) (orderAlerts db)
    (attempts db) (creationKeys db) (commandKeys db) (orderProcessed db) o.

(** Who may be referred, and who decides. *)
Definition actor_ok (db : OrderDb) (orderId : string) (r : OrderRow) (a : OrderAction)
    (patch : list Column) (who : option string) : Prop :=
  (a = ADMIN_ASSIGNED -> forall admin, patch = [ReferredAdminId (Some admin)] ->
     admin ∉ participants orderId db)
  /\ (a = RESOLVE_FOR_COURIER \/ a = RESOLVE_FOR_REQUESTER ->
        is_Some who /\ or_referredAdminId r = who).

(** The receipt of a completed errand, as its row was read. *)
Definition receipt_of (rc : Receipt) (r : OrderRow) : Prop :=
  rc_orderId rc = or_orderId r /\ rc_requesterId rc = or_requesterId r
  /\ Some (rc_courierId rc) = or_courierId r /\ rc_supplier rc = or_supplier r
  /\ rc_items rc = or_items r /\ rc_reward rc = or_reward r
  /\ Some (rc_transactionId rc) = or_creditTransactionId r.

Record decided (db : OrderDb) (orderId : string) (st : Stored) (a : OrderAction) (actor : OrderActor)
    (c : TransitionContext) (d : TransitionDecision) (at_ : Z) (times patch : list Column)
    (r' : OrderRow) (h : History) (rs : list Receipt) (new : list OutboxRow) : Prop := mkDecided {
  dc_found : orders db !! orderId = Some st;
  dc_decision : decideTransition (or_status (st_row st)) a actor c = Some d;
  dc_context : reads_release c (st_row st);
  dc_times : timestampPatch periods a d at_ (mapOrder (st_row st)) = Ok times;
  dc_patch : patch_ok a patch;
  dc_row : r' = set_columns (step_columns d at_ (st_row st) times patch) (st_row st);
  dc_ok : order_ok r' = true;
  dc_entry : h_orderId h = orderId /\ h_previous h = Some (or_status (st_row st)) /\ h_new h = to d
    /\ h_action h = Did a /\ h_actorType h = HISTORY_ACTOR actor /\ h_version h = or_version (st_row st) + 1;
  dc_actor : actor_ok db orderId (st_row st) a patch (h_actorId h);
  dc_receipts : (a = TRANSFER_CONFIRMED /\ exists rc, rs = [rc] /\ receipt_of rc r')
                \/ (a <> TRANSFER_CONFIRMED /\ rs = []);
  dc_events : Forall2 (event_row (mapOrder (st_row st)) (mapOrder r') at_) (emitted d) new }.

(** A request about an errand that its row still stands for. *)
Definition request_of (db : OrderDb) (eventType orderId : string) (p : Payload) : Prop :=
  (eventType = ORDER_COMPLETION_REQUESTED -> exists st c,
     orders db !! orderId = Some st /\ or_courierId (st_row st) = Some c
     /\ p = CompletionP (movement (st_row st)) c /\ or_status (st_row st) ∈ paying)
  /\ (eventType = CREDIT_RELEASE_REQUESTED -> exists st,
     orders db !! orderId = Some st /\ p = MovementP (movement (st_row st))
     /\ or_status (st_row st) ∈ refunding)
  /\ (eventType = CREDIT_RESERVATION_REQUESTED -> exists st,
     orders db !! orderId = Some st /\ p = MovementP (movement (st_row st))).

Definition request_ok (db : OrderDb) (e : OutboxRow) : Prop :=
  request_of db (ob_eventType e) (ob_aggregateId e) (ob_payload e).

(** Errands as they were, but for the mark of a suspended requester. *)
Definition same_rows (db db' : OrderDb) : Prop :=
  forall id_, st_row <$> orders db' !! id_ = st_row <$> orders db !! id_.

Record frame (db db' : OrderDb) : Prop := mkFrame {
  fr_rows : same_rows db db';
  fr_history : history db' = history db;
  fr_receipts : receipts db' = receipts db;
  fr_outbox : forall e', e' ∈ ob_rows (orderOutbox db') ->
    (exists e, e ∈ ob_rows (orderOutbox db) /\ same_event e e') \/ request_ok db e';
  fr_creationKeys : creationKeys db' = creationKeys db;
  fr_commandKeys : forall k row, commandKeys db' !! k = Some row ->
    commandKeys db !! k = Some row \/ is_Some (orders db !! k_orderId row);
  fr_kept : forall k row, commandKeys db !! k = Some row -> commandKeys db' !! k = Some row }.

Inductive change (db : OrderDb) : OrderDb -> Prop :=
| ch_frame db' : frame db db' -> change db db'
| ch_decide orderId st a actor c d at_ times patch r' h rs new o :
    decided db orderId st a actor c d at_ times patch r' h rs new ->
    ob_rows o = ob_rows (orderOutbox db) ++ new ->
    change db (written db orderId (mkStored r' (st_requesterSuspendedAt st)) h rs o)
| ch_accept orderId st c ver at_ h o e :
    orders db !! orderId = Some st -> acceptable c ver at_ (st_row st) = true ->
    h_orderId h = orderId -> h_previous h = Some OPEN -> h_new h = ACCEPTED -> h_action h = Did ACCEPT ->
    h_actorType h = ByStudent -> h_actorId h = Some c -> h_version h = or_version (st_row st) + 1 ->
    ob_rows o = ob_rows (orderOutbox db) ++ [e] -> ob_eventType e = ORDER_STATUS_CHANGED ->
    change db (written db orderId
      (mkStored (set_columns (accept_columns c at_ (st_row st)) (st_row st)) (st_requesterSuspendedAt st))
      h [] o)
| ch_create orderId input at_ h key o e1 e2 :
    orders db !! orderId = None ->
    creationKeys db !! (ci_requesterId input, ci_idempotencyKey input) = None -> order_ok (pending_row orderId input at_) = true ->
    h_orderId h = orderId -> h_previous h = None -> h_new h = PENDING_CREDIT -> h_action h = Create ->
    h_version h = 1 -> k_orderId key = orderId ->
    ob_rows o = ob_rows (orderOutbox db) ++ [e1; e2] -> ob_eventType e1 = ORDER_STATUS_CHANGED ->
    ob_eventType e2 = CREDIT_RESERVATION_REQUESTED -> ob_aggregateId e2 = orderId ->
    ob_payload e2 = MovementP (movement (pending_row orderId input at_)) ->
    change db (set_creationKeys
      (<[(ci_requesterId input, ci_idempotencyKey input) := key]> (creationKeys db))
      (written db orderId (mkStored (pending_row orderId input at_) None) h [] o)).
End Effects.
