(* ===== verification/OrderTransitions.v ===== *)
(** * OrderTransitions: each operation is one change

    [transitionUsing] either refuses and changes nothing or makes one decided change; [acceptUsing]
    and [createPending] likewise; the remaining writes are frames. *)
From S2P Require Export OrderEffects.

Section Transitions.
Context `{Zod} `{Pg} (periods : Periods).

(** What a command promises: its own columns suit its action, and who it refers or lets decide. *)
Record command_ok (cmd : TransitionCommand) (db : OrderDb) : Prop := mkCommandOk {
  co_patch : patch_ok (tc_action cmd) (tc_patch cmd);
  co_after : (tc_action cmd = TRANSFER_CONFIRMED /\ tc_afterApply cmd = insertReceipt)
             \/ (tc_action cmd <> TRANSFER_CONFIRMED /\ tc_afterApply cmd = no_after);
  co_assigns : tc_action cmd = ADMIN_ASSIGNED -> forall admin,
    tc_patch cmd = [ReferredAdminId (Some admin)] -> admin ∉ participants (tc_orderId cmd) db;
  co_decides : tc_action cmd = RESOLVE_FOR_COURIER \/ tc_action cmd = RESOLVE_FOR_REQUESTER ->
    exists u, actor_id (tc_actor cmd) = Some u
      /\ forall order, tc_verify cmd order = None -> or_referredAdminId order = Some u }.

Lemma insertReceipt_ok order e n (db : OrderDb) x :
  insertReceipt order e (n, db) = Ok x ->
  exists rc, receipt_of rc order /\ x = (tt, (n, set_receipts (receipts db ++ [rc]) db)).
Proof.
  unfold insertReceipt.
  destruct (or_courierId order) as [c|] eqn:H1; [|done].
  destruct (or_creditTransactionId order) as [t|] eqn:H2; [|done].
  destruct (or_acceptedAt order); [|done]. destruct (or_pickedUpAt order); [|done].
  destruct (or_completionRequestedAt order); [|done]. destruct (or_completedAt order); [|done].
  unfold insert_receipt. unfold_checks. intros Hi. inv_tx. unfold id. eexists. split; [|done].
  by repeat split.
Qed.

Lemma row_writable_ok r : row_writable r = true -> order_ok r = true.
Proof. unfold row_writable. by rewrite !andb_true_iff; intros [_ ?]. Qed.

(** What an applied decision did. *)
Definition applied (cmd : TransitionCommand) (now_ : Z) (st : Stored) (d : TransitionDecision)
    (times : list Column) (r' : OrderRow) (db db' : OrderDb) : Prop :=
  exists actor h rs new o,
    actor = resolveActor (mapOrder (st_row st)) (tc_actor cmd)
    /\ h_actorId h = actor_id (tc_actor cmd) /\ h_reason h = trim <$> tc_reason cmd
    /\ h_occurredAt h = now_
    /\ decided periods db (tc_orderId cmd) st (tc_action cmd) actor
         (transition_context cmd (mapOrder (st_row st)) now_) d now_ times (tc_patch cmd) r' h rs new
    /\ ob_rows o = ob_rows (orderOutbox db) ++ new
    /\ db' = written db (tc_orderId cmd) (mkStored r' (st_requesterSuspendedAt st)) h rs o.

Lemma apply_decision_ok cmd actor d now_ st e n db res n' db' :
  orders db !! tc_orderId cmd = Some st -> or_orderId (st_row st) = tc_orderId cmd ->
  command_ok cmd db ->
  actor = resolveActor (mapOrder (st_row st)) (tc_actor cmd) ->
  decideTransition (or_status (st_row st)) (tc_action cmd) actor
    (transition_context cmd (mapOrder (st_row st)) now_) = Some d ->
  tc_verify cmd (mapOrder (st_row st)) = None ->
  apply_decision periods cmd actor d now_ (mapOrder (st_row st)) e (n, db) = Ok (res, (n', db')) ->
  exists times r', res = Applied (mapOrder r') d /\ applied cmd now_ st d times r' db db'.
Proof.
  intros Hst Hid Hcmd Hactor Hd Hv Ha. unfold apply_decision in Ha.
  apply bind_ok in Ha as (times & s1 & Ht & Ha). unfold lift_outcome in Ht.
  destruct (timestampPatch _ _ _ _ _) as [times'|] eqn:Htp; [|done]. apply ret_ok in Ht as [= -> ->].
  apply bind_ok in Ha as (upd & [n1 db1] & Hu & Ha).
  change (or_orderId (mapOrder (st_row st))) with (or_orderId (st_row st)) in *. rewrite Hid in *.
  apply update_order_ok in Hu as (-> & Huuid & [(-> & -> & Hno)|(r & mark & Hr & _ & -> & Hw & ->)]).
  { destruct st as [r mark]. specialize (Hno _ _ Hst). simpl in Hno. by rewrite Z.eqb_refl in Hno. }
  rewrite Hst in Hr. injection Hr as ->. cbn [st_row st_requesterSuspendedAt] in *.
  set (r' := set_columns (decision_columns cmd d now_ (mapOrder r) times') r) in *.
  apply bind_ok in Ha as (hid & s2 & Hq & Ha). apply randomUUID_ok in Hq as [= -> ->].
  apply bind_ok in Ha as ([] & [n3 db3] & Hh & Ha). apply insert_history_ok in Hh as (_ & _ & _ & _ & [= -> ->]).
  apply bind_ok in Ha as ([] & [n4 db4] & Haf & Ha).
  apply bind_ok in Ha as ([] & [n5 db5] & Hem & Ha). apply ret_ok in Ha as [= -> -> ->].
  apply emit_all in Hem as (o & new & -> & Ho & Hev).
  set (h := mkHistory _ _ _ _ _ _ _ _ _ _) in *.
  assert (exists rs, db4 = set_receipts (receipts db ++ rs) (set_history (history db ++ [h])
            (set_orders (<[tc_orderId cmd := mkStored r' mark]> (orders db)) db))
          /\ ((tc_action cmd = TRANSFER_CONFIRMED /\ exists rc, rs = [rc] /\ receipt_of rc r')
              \/ (tc_action cmd <> TRANSFER_CONFIRMED /\ rs = []))) as (rs & -> & Hrs).
  { destruct (co_after _ _ Hcmd) as [[Hta Heq]|[Hta Heq]]; rewrite Heq in Haf.
    - apply insertReceipt_ok in Haf as (rc & Hrc & [= -> ->]). exists [rc]. split; [done|]. left. eauto.
    - unfold no_after in Haf. apply ret_ok in Haf as [= -> ->]. exists []. split; [|by right].
      rewrite app_nil_r. by destruct db. }
  exists times', r'. split; [done|]. exists actor, h, rs, new, o.
  split; [done|]. split; [done|]. split; [done|]. split; [done|]. split; [|split; [done|by destruct db]].
  assert (or_status r' = to d /\ or_version r' = or_version r + 1) as [Hst' Hver].
  { by destruct (step_fields periods _ _ _ _ _ _ Htp (co_patch _ _ Hcmd)) as (? & ? & _). }
  constructor; try done.
  - exact (co_patch _ _ Hcmd).
  - by apply row_writable_ok.
  - split; [exact (co_assigns _ _ Hcmd)|]. intros Hres.
    destruct (co_decides _ _ Hcmd Hres) as (u & Hu & Hver'). cbn. rewrite Hu.
    split; [eauto|]. apply (Hver' _ Hv).
Qed.

(** The one path of every command: refused with nothing changed, or applied as one change. *)
Lemma transitionUsing_ok cmd e n db res n' db' :
  (forall id_ st, orders db !! id_ = Some st -> or_orderId (st_row st) = id_) ->
  command_ok cmd db ->
  transitionUsing periods cmd e (n, db) = Ok (res, (n', db')) ->
  (db' = db /\ exists reason order, res = Rejected reason order)
  \/ exists st d times r', orders db !! tc_orderId cmd = Some st
       /\ tc_verify cmd (mapOrder (st_row st)) = None
       /\ (forall v, tc_expectedVersion cmd = Some v -> v = or_version (st_row st))
       /\ res = Applied (mapOrder r') d
       /\ applied cmd (default (iso (env_now e)) (tc_now cmd)) st d times r' db db'.
Proof.
  intros Hids Hcmd Ht. unfold transitionUsing in Ht.
  apply bind_ok in Ht as (found & s1 & Hf & Ht). apply findByIdUsing_ok in Hf as [_ [= -> ->]].
  destruct (orders db !! tc_orderId cmd) as [st|] eqn:Hst; simpl in Ht.
  2:{ apply ret_ok in Ht as [= -> _ ->]. left. eauto. }
  apply bind_ok in Ht as (clock & s2 & Hc & Ht). apply now_ok in Hc as [= -> ->].
  destruct (decideTransition _ _ _ _) as [d|] eqn:Hd.
  2:{ apply ret_ok in Ht as [= -> _ ->]. left. eauto. }
  destruct (match tc_expectedVersion cmd with Some _ => _ | None => _ end) eqn:Hver.
  { apply ret_ok in Ht as [= -> _ ->]. left. eauto. }
  destruct (tc_verify cmd (mapOrder (st_row st))) eqn:Hv; [done|].
  right. eapply apply_decision_ok in Ht as (times & r' & -> & Happ); eauto.
  exists st, d, times, r'. repeat split; auto.
  intros v Hev. rewrite Hev in Hver. apply negb_false_iff, Z.eqb_eq in Hver. exact Hver.
Qed.

(** The row, the entry and the decision of an applied command. *)
Lemma applied_facts cmd now_ st d times r' db db' :
  applied cmd now_ st d times r' db db' ->
  decideTransition (or_status (st_row st)) (tc_action cmd)
    (resolveActor (mapOrder (st_row st)) (tc_actor cmd))
    (transition_context cmd (mapOrder (st_row st)) now_) = Some d
  /\ or_status r' = to d /\ or_version r' = or_version (st_row st) + 1 /\ same_errand (st_row st) r'
  /\ orders db' !! tc_orderId cmd = Some (mkStored r' (st_requesterSuspendedAt st))
  /\ exists h, history db' = history db ++ [h] /\ h_orderId h = tc_orderId cmd
       /\ h_action h = Did (tc_action cmd) /\ h_actorId h = actor_id (tc_actor cmd)
       /\ h_version h = or_version (st_row st) + 1.
Proof.
  intros (actor & h & rs & new & o & -> & Hh & _ & _ & [Hst Hd _ Ht Hp -> _ He _ _ _] & _ & ->).
  destruct (step_fields periods _ _ _ _ _ _ Ht Hp) as (F1 & F2 & _).
  split; [done|]. split; [done|]. split; [done|]. split; [apply set_columns_same|].
  split; [simpl; apply lookup_insert_eq|]. exists h. destruct He as (E1 & _ & _ & E4 & _ & E6).
  by repeat split.
Qed.

Lemma applied_change cmd now_ st d times r' db db' :
  applied cmd now_ st d times r' db db' -> change periods db db'.
Proof. intros (actor & h & rs & new & o & _ & _ & _ & _ & Hdec & Ho & ->). by eapply ch_decide. Qed.

Lemma transitionUsing_change cmd e n db res n' db' :
  (forall id_ st, orders db !! id_ = Some st -> or_orderId (st_row st) = id_) ->
  command_ok cmd db ->
  transitionUsing periods cmd e (n, db) = Ok (res, (n', db')) -> db' = db \/ change periods db db'.
Proof.
  intros Hids Hcmd Ht. apply transitionUsing_ok in Ht as [[-> _]|(st & d & times & r' & _ & _ & _ & _ & Ha)];
    [by left| |done..]. right. by eapply applied_change.
Qed.

(** Acceptance: one conditional update, with its history and its event. *)
Lemma acceptUsing_ok orderId courierId ver corr e n db res n' db' :
  (forall id_ st, orders db !! id_ = Some st -> or_orderId (st_row st) = id_) ->
  acceptUsing orderId courierId ver corr e (n, db) = Ok (res, (n', db')) ->
  (db' = db /\ res = NotAccepted (mapStored <$> orders db !! orderId)
   /\ forall st, orders db !! orderId = Some st ->
        acceptable courierId ver (env_now e) (st_row st) = false)
  \/ exists st, orders db !! orderId = Some st
       /\ acceptable courierId ver (env_now e) (st_row st) = true
       /\ let r' := set_columns (accept_columns courierId (env_now e) (st_row st)) (st_row st) in
          res = Accepted (mapOrder r')
          /\ orders db' !! orderId = Some (mkStored r' (st_requesterSuspendedAt st))
          /\ (exists h, history db' = history db ++ [h] /\ h_action h = Did ACCEPT
                /\ forall x, x <> orderId -> orders db' !! x = orders db !! x)
          /\ change periods db db'.
Proof.
  intros Hids Ha. unfold acceptUsing in Ha.
  apply bind_ok in Ha as (at_ & s1 & Hq & Ha). apply now_ok in Hq as [= -> ->].
  apply bind_ok in Ha as ([] & s2 & Hq & Ha). apply require_ok in Hq as [_ [= ->]].
  apply bind_ok in Ha as (upd & [n1 db1] & Hu & Ha).
  apply update_order_ok in Hu as (-> & _ & [(-> & -> & Hno)|(r & mark & Hr & Hc & -> & _ & ->)]).
  { apply bind_ok in Ha as (found & s3 & Hf & Ha). apply findByIdUsing_ok in Hf as [_ [= -> ->]].
    apply ret_ok in Ha as [= -> _ ->]. left. split; [done|]. split; [by destruct (orders db !! orderId)|].
    intros [r mark] Hst. eauto. }
  set (r' := set_columns (accept_columns courierId (env_now e) r) r) in *.
  apply bind_ok in Ha as (hid & s3 & Hq & Ha). apply randomUUID_ok in Hq as [= -> ->].
  apply bind_ok in Ha as ([] & [n4 db4] & Hh & Ha). apply insert_history_ok in Hh as (_ & _ & _ & _ & [= -> ->]).
  apply bind_ok in Ha as (evid & [n5 db5] & Hi & Ha). apply ret_ok in Ha as [= -> _ ->].
  apply insertOutboxEvent_ok in Hi as (q & f & _ & _ & _ & _ & _ & ->). right.
  exists (mkStored r mark). split; [done|]. split; [done|]. cbn [st_row st_requesterSuspendedAt].
  split; [done|]. split; [simpl; by rewrite lookup_insert_eq|].
  split; [eexists; split; [reflexivity|]; split; [done|]; intros x Hx; simpl; by rewrite lookup_insert_ne|].
  set (h := mkHistory _ _ _ _ _ _ _ _ _ _). set (ev := new_row _ _ _ _ _).
  pose proof (ch_accept periods db orderId (mkStored r mark) courierId ver (env_now e) h
    (append_row ev (orderOutbox db)) ev) as Hch.
  eapply eq_ind; [apply Hch; try done|].
  - unfold h, r'. simpl. unfold set_columns. simpl. by destruct r.
  - unfold written. rewrite app_nil_r. by destruct db.
Qed.
End Transitions.

(** ** Creation *)

Section Creation.
Context `{Zod} `{Pg} (periods : Periods).

(** A fault that interrupts, or lets pass, but writes nothing. *)
Definition pure_fault (fault : CreationBoundary -> OrderM unit) : Prop :=
  forall b e s r, fault b e s = Ok r -> r = (tt, s).

Lemma no_order_fault_pure : pure_fault no_order_fault.
Proof. intros b e s r Hf. by apply ret_ok in Hf. Qed.

Lemma insert_creation_key_ok who key orderId hash e n (db : OrderDb) x :
  insert_creation_key who key orderId hash e (n, db) = Ok x ->
  creationKeys db !! (who, key) = None
  /\ x = (tt, (n, set_creationKeys (<[(who, key) := mkKeyRow orderId hash (env_now e)]>
                                      (creationKeys db)) db)).
Proof.
  unfold insert_creation_key. unfold_checks. intros Hi. inv_tx. unfold id in *.
  by destruct (creationKeys db !! (who, key)).
Qed.

Lemma createPending_ok fault input date_now e n db order replayed n' db' :
  pure_fault fault ->
  createPending fault input date_now e (n, db) = Ok ((order, replayed), (n', db')) ->
  (replayed = true /\ db' = db /\ exists k,
     creationKeys db !! (ci_requesterId input, ci_idempotencyKey input) = Some k
     /\ k_requestHash k = ci_requestHash input
     /\ mapStored <$> orders db !! k_orderId k = Some order)
  \/ (replayed = false
      /\ creationKeys db !! (ci_requesterId input, ci_idempotencyKey input) = None
      /\ exists key, let row := pending_row (env_uuid e n) input (iso date_now) in
           order = mapOrder row /\ k_orderId key = env_uuid e n /\ pg_uuid (env_uuid e n) = true
           /\ k_requestHash key = ci_requestHash input
           /\ creationKeys db' !! (ci_requesterId input, ci_idempotencyKey input) = Some key
           /\ orders db' !! env_uuid e n = Some (mkStored row None)
          /\ (exists h, history db' = history db ++ [h] /\ h_action h = Create
                /\ forall x, x <> env_uuid e n -> orders db' !! x = orders db !! x)
          /\ change periods db db').
Proof.
  intros Hf Hc. unfold createPending in Hc.
  apply bind_ok in Hc as (keys & s0 & Hq & Hc). apply gets_ok in Hq as [= -> ->]. simpl in Hc.
  destruct (creationKeys db !! _) as [k|] eqn:Hk.
  { apply bind_ok in Hc as ([] & s1 & Hq & Hc). apply require_ok in Hq as [Heq [= ->]].
    apply bind_ok in Hc as (found & s2 & Hq & Hc). apply findByIdUsing_ok in Hq as [_ [= -> ->]].
    destruct (orders db !! k_orderId k) as [st|] eqn:Hst; [|done]. apply ret_ok in Hc as [= -> -> _ ->].
    left. repeat split; [done..|]. exists k. repeat split; [by apply String.eqb_eq|by rewrite Hst]. }
  right.
  apply bind_ok in Hc as (oid & s1 & Hq & Hc). apply randomUUID_ok in Hq as [= -> ->]. cbn [fst snd] in Hc.
  apply bind_ok in Hc as (hid & s1 & Hq & Hc). apply randomUUID_ok in Hq as [= -> ->]. cbn [fst snd] in Hc.
  set (row := pending_row (env_uuid e n) input (iso date_now)) in *.
  apply bind_ok in Hc as ([] & s1 & Hq & Hc). apply insert_order_ok in Hq as (Huuid & Hw & Hnew & [= ->]).
  apply bind_ok in Hc as ([] & s1 & Hq & Hc). apply Hf in Hq as [= ->].
  apply bind_ok in Hc as ([] & s1 & Hq & Hc). apply insert_history_ok in Hq as (_ & _ & _ & _ & [= ->]).
  apply bind_ok in Hc as ([] & s1 & Hq & Hc). apply Hf in Hq as [= ->].
  apply bind_ok in Hc as ([] & s1 & Hq & Hc). apply insert_creation_key_ok in Hq as [_ [= ->]].
  apply bind_ok in Hc as ([] & s1 & Hq & Hc). apply Hf in Hq as [= ->].
  apply bind_ok in Hc as (id1 & [n1 db1] & Hq & Hc).
  apply insertOutboxEvent_ok in Hq as (q1 & f1 & _ & _ & _ & _ & _ & ->).
  apply bind_ok in Hc as ([] & s1 & Hq & Hc). apply Hf in Hq as [= ->].
  apply bind_ok in Hc as (id2 & [n2 db2] & Hq & Hc).
  apply insertOutboxEvent_ok in Hq as (q2 & f2 & Hf2 & Hq2 & _ & _ & _ & ->).
  apply bind_ok in Hc as ([] & s1 & Hq & Hc). apply Hf in Hq as [= ->].
  apply bind_ok in Hc as (found & s1 & Hq & Hc). apply findByIdUsing_ok in Hq as [_ [= -> ->]].
  simpl in Hc. rewrite lookup_insert_eq in Hc. simpl in Hc. apply ret_ok in Hc as [= -> -> _ ->].
  assert (q2 = MovementP (movement row)) as ->.
  { change (Some creditReservationRequestedPayload = Some f2) in Hf2. injection Hf2 as <-.
    unfold creditReservationRequestedPayload, movement_of in Hq2. cbn [ne_payload] in Hq2.
    destruct (movement_ok _); simpl in Hq2; [by injection Hq2 as <-|done]. }
  split; [done|]. split; [done|].
  exists (mkKeyRow (env_uuid e n) (ci_requestHash input) (env_now e)).
  split; [done|]. split; [done|]. split; [exact Huuid|]. split; [done|].
  split; [simpl; apply lookup_insert_eq|]. split; [simpl; apply lookup_insert_eq|].
  split; [eexists; split; [reflexivity|]; split; [done|]; intros x Hx; simpl; by rewrite lookup_insert_ne|].
  set (h := mkHistory _ _ _ _ _ _ _ _ _ _). set (ev2 := new_row _ _ _ _ _).
  set (ev1 := new_row _ _ _ _ _). set (key := mkKeyRow _ _ _).
  pose proof (ch_create periods db (env_uuid e n) input (iso date_now) h key
    (append_row ev2 (append_row ev1 (orderOutbox db))) ev1 ev2) as Hch.
  eapply eq_ind; [apply Hch; try done|].
  - by apply row_writable_ok.
  - simpl. by rewrite <- app_assoc.
  - unfold written. rewrite app_nil_r. by destruct db.
Qed.
End Creation.
