(* ===== verification/OrderProofs.v ===== *)
(** * OrderProofs: the invariant of the Order Service's tables

    [trace]: an errand's history is a path through the transition table, from its creation to its
    status, one entry per version. [OrderInv] adds what its row, its events, its receipt, its
    referral and its idempotency keys owe each other; every [change] keeps it. *)
From S2P Require Export OrderTransitions.

(** ** Histories *)

Inductive trace (orderId : string) : list History -> OrderStatus -> Z -> Prop :=
| trace_create h :
    h_orderId h = orderId -> h_previous h = None -> h_new h = PENDING_CREDIT -> h_action h = Create ->
    h_version h = 1 -> trace orderId [h] PENDING_CREDIT 1
| trace_step hs s v h a actor c d :
    trace orderId hs s v -> decideTransition s a actor c = Some d ->
    h_orderId h = orderId -> h_previous h = Some s -> h_new h = to d -> h_action h = Did a ->
    h_actorType h = HISTORY_ACTOR actor -> h_version h = v + 1 ->
    trace orderId (hs ++ [h]) (to d) (v + 1).

Lemma trace_length orderId hs s v : trace orderId hs s v -> v = Z.of_nat (length hs).
Proof. induction 1; [done|]. rewrite length_app. simpl. lia. Qed.

Definition decides (h : History) : Prop :=
  h_action h = Did RESOLVE_FOR_COURIER \/ h_action h = Did RESOLVE_FOR_REQUESTER.

(** ** What the rules never undo *)

Definition one_way (r : TransitionRule) : bool :=
  implb_ (bool_decide (from_ r ∈ paying)) (bool_decide (to (decide_ r) = COMPLETED))
  && implb_ (bool_decide (from_ r ∈ refunding)) (bool_decide (to (decide_ r) ∈ refunding))
  && implb_ (bool_decide (from_ r ∈ disputed_or_after)) (bool_decide (to (decide_ r) ∈ disputed_or_after))
  && implb_ (bool_decide (to (decide_ r) = COMPLETED)) (bool_decide (action r = TRANSFER_CONFIRMED))
  && implb_ (bool_decide (action r = TRANSFER_CONFIRMED)) (bool_decide (to (decide_ r) = COMPLETED))
  && implb_ (bool_decide (action r = RESOLVE_FOR_COURIER)) (bool_decide (to (decide_ r) ∈ paying))
  && implb_ (bool_decide (action r = RESOLVE_FOR_REQUESTER)) (bool_decide (to (decide_ r) ∈ refunding))
  && implb_ (bool_decide (to (decide_ r) ∈ paying) || bool_decide (from_ r ∈ disputed_or_after))
       (negb (loses_courier (action r)))
  && implb_ (bool_decide (from_ r ∈ disputed_or_after)) (negb (bool_decide (action r = ACCEPT)))
  && implb_ (bool_decide (to (decide_ r) ∈ TERMINAL_ORDER_STATUSES))
       (negb (bool_decide (from_ r ∈ TERMINAL_ORDER_STATUSES))).

Lemma rules_one_way : forallb one_way ORDER_TRANSITIONS = true.
Proof. reflexivity. Qed.

Lemma implb_true b c : implb_ b c = true -> b = true -> c = true.
Proof. by destruct b. Qed.

Record one_way_facts (s : OrderStatus) (a : OrderAction) (t : OrderStatus) : Prop := {
  ow_paying : s ∈ paying -> t = COMPLETED;
  ow_refunding : s ∈ refunding -> t ∈ refunding;
  ow_disputed : s ∈ disputed_or_after -> t ∈ disputed_or_after;
  ow_completed : t = COMPLETED <-> a = TRANSFER_CONFIRMED;
  ow_resolve : a = RESOLVE_FOR_COURIER \/ a = RESOLVE_FOR_REQUESTER -> t ∈ paying ++ refunding;
  ow_courier : t ∈ paying \/ s ∈ disputed_or_after -> loses_courier a = false;
  ow_accept : s ∈ disputed_or_after -> a <> ACCEPT }.

Lemma one_way_decision s a actor c d : decideTransition s a actor c = Some d -> one_way_facts s a (to d).
Proof.
  intros Hd. apply decideTransition_rule in Hd as (r & Hin & <- & <- & _ & _ & <-).
  pose proof rules_one_way as Hall. rewrite forallb_forall in Hall.
  specialize (Hall r (proj1 (list_elem_of_In _ _) Hin)). unfold one_way in Hall.
  rewrite !andb_true_iff in Hall. destruct Hall as [[[[[[[[[H1 H2] H3] H4] H5] H6] H7] H8] H9] _].
  pose proof (implb_true _ _ H1) as K1. pose proof (implb_true _ _ H2) as K2.
  pose proof (implb_true _ _ H3) as K3. pose proof (implb_true _ _ H4) as K4.
  pose proof (implb_true _ _ H5) as K5. pose proof (implb_true _ _ H6) as K6.
  pose proof (implb_true _ _ H7) as K7. pose proof (implb_true _ _ H8) as K8.
  pose proof (implb_true _ _ H9) as K9. clear H1 H2 H3 H4 H5 H6 H7 H8 H9.
  rewrite orb_true_iff, !bool_decide_eq_true in *. rewrite negb_true_iff in K8, K9.
  rewrite bool_decide_eq_false in K9.
  constructor; [auto|auto|auto|by split|intros [Ha|Ha]; apply elem_of_app; auto|auto|auto].
Qed.

(** A decision once made leaves the errand paying or refunding for good. *)
Lemma trace_decided orderId hs s v :
  trace orderId hs s v -> (exists h, h ∈ hs /\ decides h) -> s ∈ paying ++ refunding.
Proof.
  induction 1 as [h _ _ _ Ha _|hs s v h a actor c d Htr IH Hd _ _ _ Ha _ _]; intros (x & Hx & Hdec).
  - apply list_elem_of_singleton in Hx as ->. destruct Hdec as [Hdec|Hdec]; congruence.
  - destruct (one_way_decision _ _ _ _ _ Hd) as [Hp Hr _ _ Hres _ _].
    apply elem_of_app in Hx as [Hx|Hx].
    + assert (s ∈ paying ++ refunding) as Hs by eauto. apply elem_of_app in Hs as [Hs|Hs].
      * rewrite (Hp Hs). unfold paying. set_solver.
      * apply elem_of_app; auto.
    + apply list_elem_of_singleton in Hx as ->. apply Hres. unfold decides in Hdec. rewrite Ha in Hdec.
      destruct Hdec as [[= ->]|[= ->]]; auto.
Qed.

(** ** The invariant *)

Section Invariant.
Context `{Zod} `{Pg} (periods : Periods).

Record OrderInv (db : OrderDb) : Prop := mkOrderInv {
  oi_ids : forall id_ st, orders db !! id_ = Some st -> or_orderId (st_row st) = id_;
  oi_rows : forall id_ st, orders db !! id_ = Some st -> row_inv (st_row st) = true;
  oi_trace : forall id_ st, orders db !! id_ = Some st ->
    trace id_ (entries id_ db) (or_status (st_row st)) (or_version (st_row st));
  oi_known : forall h, h ∈ history db -> is_Some (orders db !! h_orderId h);
  oi_requests : forall e, e ∈ ob_rows (orderOutbox db) -> request_ok db e;
  oi_receipts : forall rc, rc ∈ receipts db -> exists st,
    orders db !! rc_orderId rc = Some st /\ or_status (st_row st) = COMPLETED /\ receipt_of rc (st_row st);
  oi_completed : forall id_ st, orders db !! id_ = Some st -> or_status (st_row st) = COMPLETED ->
    exists rc, rc ∈ receipts db /\ rc_orderId rc = id_;
  oi_admin : forall id_ st admin, orders db !! id_ = Some st ->
    or_referredAdminId (st_row st) = Some admin -> admin ∉ participants id_ db;
  oi_decisions : forall h, h ∈ history db -> decides h -> exists admin,
    h_actorId h = Some admin /\ admin ∉ participants (h_orderId h) db;
  oi_keys : forall k key, creationKeys db !! k = Some key -> exists st,
    orders db !! k_orderId key = Some st /\ or_requesterId (st_row st) = k.1;
  oi_commandKeys : forall k key, commandKeys db !! k = Some key -> is_Some (orders db !! k_orderId key) }.

Lemma empty_order_inv : OrderInv empty_order_db.
Proof.
  constructor; simpl; try (intros *; rewrite ?lookup_empty; done);
    intros *; rewrite ?elem_of_nil; done.
Qed.

(** ** Reading the tables after a change *)

Lemma elem_of_participants id_ db u :
  u ∈ participants id_ db <->
  (exists st, orders db !! id_ = Some st
     /\ (u = or_requesterId (st_row st) \/ or_courierId (st_row st) = Some u))
  \/ exists h, h ∈ history db /\ h_orderId h = id_ /\ h_action h = Did ACCEPT /\ h_actorId h = Some u.
Proof.
  unfold participants. rewrite elem_of_app. f_equiv.
  - destruct (orders db !! id_) as [st|]; [|split; [set_solver|by intros (? & ? & _)]].
    rewrite elem_of_cons. destruct (or_courierId (st_row st)) eqn:Hc.
    + rewrite list_elem_of_singleton. split.
      * intros [->| ->]; eauto.
      * intros (st' & [= <-] & [->|Hu]); [by left|right; congruence].
    + rewrite elem_of_nil. split; [intros [->|[]]; eauto|].
      intros (st' & [= <-] & [->|Hu]); [by left|congruence].
  - rewrite list_elem_of_omap. split.
    + intros (h & Hh & Hu). destruct (_ && _) eqn:Hb; [|done].
      apply andb_true_iff in Hb as [Ho Ha]. apply String.eqb_eq in Ho. apply bool_decide_eq_true in Ha.
      eauto 10.
    + intros (h & Hh & Ho & Ha & Hu). exists h. split; [done|].
      by rewrite Ho, String.eqb_refl, Ha, bool_decide_true.
Qed.

Lemma entries_snoc id_ db hs h :
  history db = hs -> entries id_ (set_history (hs ++ [h]) db)
                     = entries id_ db ++ (if String.eqb (h_orderId h) id_ then [h] else []).
Proof. intros <-. unfold entries. simpl. rewrite List.filter_app. simpl. by destruct (String.eqb _ _). Qed.

(** An errand no history, receipt or key knows of: nobody took part in it. *)
Lemma no_participants id_ db :
  OrderInv db -> orders db !! id_ = None -> participants id_ db = [].
Proof.
  intros I Hn. destruct (participants id_ db) as [|u l] eqn:Hp; [done|].
  assert (u ∈ participants id_ db) as Hu by (rewrite Hp; set_solver).
  apply elem_of_participants in Hu as [(st & Hst & _)|(h & Hh & <- & _)]; [congruence|].
  apply (oi_known db I) in Hh as [? ?]. congruence.
Qed.

Lemma no_entries id_ db : OrderInv db -> orders db !! id_ = None -> entries id_ db = [].
Proof.
  intros I Hn. unfold entries. destruct (List.filter _ _) as [|h l] eqn:Hp; [done|].
  assert (h ∈ List.filter (fun h => String.eqb (h_orderId h) id_) (history db)) as Hh by (rewrite Hp; set_solver).
  apply list_elem_of_In, filter_In in Hh as [Hh Ho]. apply String.eqb_eq in Ho as <-.
  apply list_elem_of_In, (oi_known db I) in Hh as [? ?]. congruence.
Qed.

Lemma entries_elem id_ db h : h ∈ entries id_ db <-> h ∈ history db /\ h_orderId h = id_.
Proof. unfold entries. by rewrite list_elem_of_In, filter_In, <- list_elem_of_In, String.eqb_eq. Qed.

(** ** Frames *)

Lemma frame_lookup db db' id_ st' :
  same_rows db db' -> orders db' !! id_ = Some st' ->
  exists st, orders db !! id_ = Some st /\ st_row st = st_row st'.
Proof.
  intros Hr Hst. specialize (Hr id_). rewrite Hst in Hr. simpl in Hr.
  destruct (orders db !! id_) as [st|]; simpl in Hr; [|done]. exists st. split; congruence.
Qed.

Lemma same_rows_sym db db' : same_rows db db' -> same_rows db' db.
Proof. intros Hr id_. symmetry. apply Hr. Qed.

Lemma frame_participants db db' id_ :
  same_rows db db' -> history db' = history db -> participants id_ db' = participants id_ db.
Proof.
  intros Hr Hh. unfold participants. rewrite Hh. f_equal. specialize (Hr id_).
  destruct (orders db' !! id_), (orders db !! id_); simpl in Hr; try done. by injection Hr as ->.
Qed.

Lemma frame_request db db' ty o p :
  same_rows db db' -> request_of db ty o p -> request_of db' ty o p.
Proof.
  intros Hr (H1 & H2 & H3). apply same_rows_sym in Hr. split; [|split]; intros Ht.
  - destruct (H1 Ht) as (st & c & Hst & Hrest).
    destruct (frame_lookup _ _ _ _ Hr Hst) as (st' & ? & Heq). exists st', c. by rewrite Heq.
  - destruct (H2 Ht) as (st & Hst & Hrest).
    destruct (frame_lookup _ _ _ _ Hr Hst) as (st' & ? & Heq). exists st'. by rewrite Heq.
  - destruct (H3 Ht) as (st & Hst & Hrest).
    destruct (frame_lookup _ _ _ _ Hr Hst) as (st' & ? & Heq). exists st'. by rewrite Heq.
Qed.

Lemma frame_inv db db' : OrderInv db -> frame db db' -> OrderInv db'.
Proof.
  intros I [Hr Hh Hrc Ho Hk Hck _].
  assert (forall id_, is_Some (orders db !! id_) -> is_Some (orders db' !! id_)) as Hsome.
  { intros id_ [st Hst]. destruct (frame_lookup _ _ _ _ (same_rows_sym _ _ Hr) Hst) as (? & ? & _). eauto. }
  constructor.
  - intros id_ st' Hst. destruct (frame_lookup _ _ _ _ Hr Hst) as (st & Hst0 & <-). by apply (oi_ids db I).
  - intros id_ st' Hst. destruct (frame_lookup _ _ _ _ Hr Hst) as (st & Hst0 & <-). by eapply (oi_rows db I).
  - intros id_ st' Hst. destruct (frame_lookup _ _ _ _ Hr Hst) as (st & Hst0 & <-).
    unfold entries. rewrite Hh. by apply (oi_trace db I).
  - intros h. rewrite Hh. intros Hin. apply Hsome. by apply (oi_known db I).
  - intros e' He'. apply (frame_request db); [done|].
    destruct (Ho e' He') as [(e & He & _ & _ & Hty & Hag & Hp)|Hok]; [|done].
    pose proof (oi_requests db I e He) as Hq. unfold request_ok in Hq. by rewrite <- Hty, <- Hag, <- Hp in Hq.
  - intros rc. rewrite Hrc. intros Hin. destruct (oi_receipts db I rc Hin) as (st & Hst & Hs & Hm).
    destruct (frame_lookup _ _ _ _ (same_rows_sym _ _ Hr) Hst) as (st' & ? & Heq). exists st'.
    by rewrite Heq.
  - intros id_ st' Hst Hs. destruct (frame_lookup _ _ _ _ Hr Hst) as (st & Hst0 & Heq).
    rewrite Hrc. eapply (oi_completed db I); [done|congruence].
  - intros id_ st' admin Hst Ha. destruct (frame_lookup _ _ _ _ Hr Hst) as (st & Hst0 & Heq).
    rewrite (frame_participants db db') by done. eapply (oi_admin db I); [done|congruence].
  - intros h. rewrite Hh. intros Hin Hd. destruct (oi_decisions db I h Hin Hd) as (admin & ? & ?).
    exists admin. by rewrite (frame_participants db db').
  - intros k key. rewrite Hk. intros Hkey. destruct (oi_keys db I k key Hkey) as (st & Hst & Hq).
    destruct (frame_lookup _ _ _ _ (same_rows_sym _ _ Hr) Hst) as (st' & ? & Heq). exists st'.
    by rewrite Heq.
  - intros k key Hkey. apply Hsome. destruct (Hck k key Hkey) as [Hold|Hnew]; [|done].
    by apply (oi_commandKeys db I k).
Qed.

(** ** A moved errand *)

(** The tables after one errand's row was written, with what they owe the invariant. *)
Record moved (db : OrderDb) (id_ : string) (st' : Stored) (h : History) (rs : list Receipt)
    (new : list OutboxRow) (db' : OrderDb) : Prop := mkMoved {
  mv_row : or_orderId (st_row st') = id_ /\ row_inv (st_row st') = true;
  mv_same : forall st, orders db !! id_ = Some st ->
    same_errand (st_row st) (st_row st') /\ or_status (st_row st) <> COMPLETED
    /\ (or_status (st_row st) ∈ paying ->
          or_status (st_row st') ∈ paying /\ or_courierId (st_row st') = or_courierId (st_row st))
    /\ (or_status (st_row st) ∈ refunding -> or_status (st_row st') ∈ refunding);
  mv_entry : h_orderId h = id_;
  mv_trace : trace id_ (entries id_ db ++ [h]) (or_status (st_row st')) (or_version (st_row st'));
  mv_events : forall e, e ∈ new -> request_ok db' e;
  mv_receipts : forall rc, rc ∈ rs ->
    rc_orderId rc = id_ /\ or_status (st_row st') = COMPLETED /\ receipt_of rc (st_row st');
  mv_completed : or_status (st_row st') = COMPLETED -> rs <> [];
  mv_admin : forall admin, or_referredAdminId (st_row st') = Some admin -> admin ∉ participants id_ db';
  mv_decides : decides h -> exists admin, h_actorId h = Some admin /\ admin ∉ participants id_ db';
  mv_took_part : (exists x, x ∈ history db /\ h_orderId x = id_ /\ decides x) ->
    forall u, u ∈ participants id_ db' -> u ∈ participants id_ db }.

Lemma participants_elsewhere db id_ st' h rs o other :
  h_orderId h = id_ -> other <> id_ ->
  participants other (written db id_ st' h rs o) = participants other db.
Proof.
  intros Hh Hne. unfold participants, written. simpl. rewrite lookup_insert_ne by done. f_equal.
  rewrite omap_app. simpl. rewrite Hh, (proj2 (String.eqb_neq id_ other)) by done. simpl.
  by rewrite app_nil_r.
Qed.

(** A request already sent still stands after its errand moved. *)
Lemma same_request db id_ st' h rs o ty x p :
  (forall st, orders db !! id_ = Some st ->
    same_errand (st_row st) (st_row st') /\ or_status (st_row st) <> COMPLETED
    /\ (or_status (st_row st) ∈ paying ->
          or_status (st_row st') ∈ paying /\ or_courierId (st_row st') = or_courierId (st_row st))
    /\ (or_status (st_row st) ∈ refunding -> or_status (st_row st') ∈ refunding)) ->
  request_of db ty x p -> request_of (written db id_ st' h rs o) ty x p.
Proof.
  intros Hsame (H1 & H2 & H3). destruct (decide (x = id_)) as [->|Hne].
  2:{ unfold request_of. simpl. by rewrite lookup_insert_ne. }
  unfold request_of. simpl. rewrite lookup_insert_eq. split; [|split]; intros Hty.
  - destruct (H1 Hty) as (st & c & Hst & Hc & Hp & Hs).
    destruct (Hsame st Hst) as (Hse & _ & Hpay & _). destruct (Hpay Hs) as [? Hcour].
    exists st', c. rewrite (movement_same _ _ Hse), Hcour. auto.
  - destruct (H2 Hty) as (st & Hst & Hp & Hs). destruct (Hsame st Hst) as (Hse & _ & _ & Href).
    exists st'. rewrite (movement_same _ _ Hse). auto.
  - destruct (H3 Hty) as (st & Hst & Hp). destruct (Hsame st Hst) as (Hse & _).
    exists st'. rewrite (movement_same _ _ Hse). auto.
Qed.

Lemma written_inv db id_ st' h rs new o :
  OrderInv db -> ob_rows o = ob_rows (orderOutbox db) ++ new ->
  moved db id_ st' h rs new (written db id_ st' h rs o) ->
  OrderInv (written db id_ st' h rs o).
Proof.
  intros I Ho [[Hid Hrow] Hsame Hentry Htrace Hevents Hrs Hdone Hadmin Hdec Htook].
  assert (forall x, is_Some (orders db !! x) -> is_Some (<[id_ := st']> (orders db) !! x)) as Hsome.
  { intros x Hx. destruct (decide (x = id_)) as [->|Hne]; [rewrite lookup_insert_eq; eauto|].
    by rewrite lookup_insert_ne. }
  constructor.
  - intros x st. simpl. intros Hst. apply lookup_insert_Some in Hst as [[<- <-]|[_ Hst]]; [done|].
    by apply (oi_ids db I).
  - intros x st. simpl. intros Hst. apply lookup_insert_Some in Hst as [[<- <-]|[_ Hst]]; [done|].
    by eapply (oi_rows db I).
  - intros x st. simpl. unfold entries. simpl. rewrite List.filter_app. simpl. rewrite Hentry.
    intros Hst. apply lookup_insert_Some in Hst as [[<- <-]|[Hne Hst]].
    + rewrite String.eqb_refl. exact Htrace.
    + rewrite (proj2 (String.eqb_neq id_ x)), app_nil_r by done. by apply (oi_trace db I).
  - intros x. simpl. intros Hx. apply elem_of_app in Hx as [Hx|Hx].
    + by apply Hsome, (oi_known db I).
    + apply list_elem_of_singleton in Hx as ->. rewrite Hentry, lookup_insert_eq. eauto.
  - intros e. simpl. rewrite Ho. intros He. apply elem_of_app in He as [He|He]; [|by apply Hevents].
    eapply same_request; [exact Hsame|]. by apply (oi_requests db I).
  - intros rc. simpl. intros Hrc. apply elem_of_app in Hrc as [Hrc|Hrc].
    + destruct (oi_receipts db I rc Hrc) as (st & Hst & Hs & Hm).
      exists st. rewrite lookup_insert_ne; [done|]. intros Heq. rewrite <- Heq in Hst.
      destruct (Hsame st Hst) as (_ & ? & _). done.
    + destruct (Hrs rc Hrc) as (Heq & ? & ?). exists st'. rewrite Heq, lookup_insert_eq. auto.
  - intros x st. simpl. intros Hst Hs. apply lookup_insert_Some in Hst as [[<- <-]|[_ Hst]].
    + destruct rs as [|rc rs']; [by destruct (Hdone Hs)|]. exists rc. split; [set_solver|].
      apply Hrs. set_solver.
    + destruct (oi_completed db I x st Hst Hs) as (rc & ? & ?). exists rc. set_solver.
  - intros x st admin. simpl. intros Hst. apply lookup_insert_Some in Hst as [[<- <-]|[Hne Hst]].
    + apply Hadmin.
    + rewrite participants_elsewhere by done. by apply (oi_admin db I).
  - intros x. simpl. intros Hx Hdx. apply elem_of_app in Hx as [Hx|Hx].
    + destruct (oi_decisions db I x Hx Hdx) as (admin & Ha & Hnot). exists admin. split; [done|].
      destruct (decide (h_orderId x = id_)) as [Heq|Hne]; [|by rewrite participants_elsewhere].
      rewrite Heq in *. intros Hin. apply Hnot, Htook; eauto.
    + apply list_elem_of_singleton in Hx as ->. rewrite Hentry. by apply Hdec.
  - intros k key. simpl. intros Hkey. destruct (oi_keys db I k key Hkey) as (st & Hst & Hq).
    destruct (decide (k_orderId key = id_)) as [Heq|Hne].
    + rewrite Heq in *. exists st'. rewrite lookup_insert_eq. split; [done|].
      destruct (Hsame st Hst) as ((_ & Hreq & _) & _). congruence.
    + exists st. by rewrite lookup_insert_ne.
  - intros k key. simpl. intros Hkey. apply Hsome. by apply (oi_commandKeys db I k).
Qed.
End Invariant.
