(* ===== verification/OrderInvariant.v ===== *)
(** * OrderInvariant: every change keeps the invariant

    The cases of [change]: a decision of the transition table, an acceptance, a creation. *)
From S2P Require Export OrderProofs.

Section Preserved.
Context `{Zod} `{Pg} (periods : Periods).

(** ** A decision *)

Lemma emitted_requests s a actor c d ty :
  decideTransition s a actor c = Some d -> ty ∈ emitted d ->
  (ty = ORDER_COMPLETION_REQUESTED -> to d = COMPLETION_PENDING_CREDIT)
  /\ (ty = CREDIT_RELEASE_REQUESTED -> to d = RELEASE_PENDING_CREDIT)
  /\ ty <> CREDIT_RESERVATION_REQUESTED.
Proof.
  intros Hd Hty. apply decision_sends in Hd as [He _]. rewrite He in Hty. clear He.
  repeat case_bool_decide; unfold completion, release_, statusChanged in Hty;
    rewrite ?elem_of_cons, ?elem_of_nil in Hty; destruct_or?; try done; subst ty;
    repeat split; intros; done.
Qed.

Lemma participants_shrink db id_ st st' h rs o u :
  orders db !! id_ = Some st -> or_requesterId (st_row st') = or_requesterId (st_row st) ->
  (or_courierId (st_row st') = or_courierId (st_row st) \/ or_courierId (st_row st') = None) ->
  h_action h <> Did ACCEPT ->
  u ∈ participants id_ (written db id_ st' h rs o) -> u ∈ participants id_ db.
Proof.
  intros Hst Hreq Hcour Hact. rewrite !elem_of_participants. simpl.
  intros [(st2 & Hst2 & Hu)|(x & Hx & Ho & Ha & Hu)].
  - rewrite lookup_insert_eq in Hst2. injection Hst2 as <-. left. exists st. split; [done|].
    destruct Hu as [->|Hu]; [by left|]. destruct Hcour as [Hc|Hc]; [right; congruence|congruence].
  - right. exists x. apply elem_of_app in Hx as [Hx|Hx]; [done|].
    apply list_elem_of_singleton in Hx as ->. done.
Qed.

Lemma event_request db id_ st' h rs o before after at_ ty e d s a actor c :
  decideTransition s a actor c = Some d -> ty ∈ emitted d -> or_orderId before = id_ ->
  or_status (st_row st') = to d -> after = mapOrder (st_row st') ->
  event_row before after at_ ty e -> request_ok (written db id_ st' h rs o) e.
Proof.
  intros Hd Hty Hid Hst -> (Het & Hag & Hev). destruct (emitted_requests _ _ _ _ _ _ Hd Hty) as (H1 & H2 & H3).
  unfold request_ok, request_of. rewrite Het, Hag, Hid. simpl. rewrite lookup_insert_eq.
  split; [|split]; intros ->.
  - unfold emittedEvent in Hev. simpl in Hev.
    destruct (keep nonempty _) as [c'|] eqn:Hk; [|done]. injection Hev as Hev.
    apply keep_Some in Hk as [Hc _]. exists st', c'. rewrite <- Hev, Hst, (H1 eq_refl).
    repeat split; [done..|]. unfold paying. set_solver.
  - unfold emittedEvent in Hev. simpl in Hev. injection Hev as Hev. exists st'.
    rewrite <- Hev, Hst, (H2 eq_refl). repeat split; [done..|]. unfold refunding. set_solver.
  - done.
Qed.

Lemma decided_moved db orderId st a actor c d at_ times patch r' h rs new o :
  OrderInv db ->
  decided periods db orderId st a actor c d at_ times patch r' h rs new ->
  moved db orderId (mkStored r' (st_requesterSuspendedAt st)) h rs new
    (written db orderId (mkStored r' (st_requesterSuspendedAt st)) h rs o).
Proof.
  intros I [Hst Hd Hctx Ht Hp Hr Hok (He1 & He2 & He3 & He4 & He5 & He6) [Has Hres] Hrs Hev].
  destruct (step_fields periods _ _ _ _ _ _ Ht Hp) as (F1 & F2 & F3 & F4 & F5 & F6 & F7).
  rewrite <- Hr in F1, F2, F3, F4, F5, F6, F7.
  pose proof (set_columns_same (step_columns d at_ (st_row st) times patch) (st_row st)) as Hse.
  rewrite <- Hr in Hse. pose proof (oi_ids db I _ _ Hst) as Hid.
  destruct (one_way_decision _ _ _ _ _ Hd) as [W1 W2 W3 W4 W5 W6 W7].
  assert (a <> ACCEPT) as Hna by (intros ->; exact Hp).
  assert (forall u, u ∈ participants orderId (written db orderId (mkStored r' (st_requesterSuspendedAt st)) h rs o)
            -> u ∈ participants orderId db) as Hshrink.
  { intros u. eapply participants_shrink; [exact Hst| |exact F3|rewrite He4; congruence].
    by destruct Hse as (_ & -> & _). }
  constructor; simpl.
  - split; [by destruct Hse as (<- & _)|].
    rewrite Hr. eapply step_row; eauto using oi_rows. by rewrite <- Hr.
  - intros st0 Hst0. rewrite Hst in Hst0. injection Hst0 as <-. split; [done|]. rewrite F1.
    split; [|split].
    + intros Hc. rewrite Hc in Hd. rewrite terminal_final in Hd; [done|].
      unfold TERMINAL_ORDER_STATUSES. set_solver.
    + intros Hpay. rewrite (W1 Hpay). split; [unfold paying; set_solver|]. apply F4, W6. left.
      rewrite (W1 Hpay). unfold paying. set_solver.
    + auto.
  - done.
  - rewrite F1, F2. eapply trace_step; eauto. by apply (oi_trace db I).
  - intros e Hin. apply list_elem_of_lookup in Hin as [i Hi].
    destruct (Forall2_lookup_r _ _ _ _ _ Hev Hi) as (ty & Hty & Hrow).
    eapply event_request; [exact Hd|by eapply list_elem_of_lookup_2|exact Hid|exact F1|reflexivity|exact Hrow].
  - intros rc Hrc. destruct Hrs as [[-> (rc' & -> & Hrec)]|[_ ->]]; [|by apply elem_of_nil in Hrc].
    apply list_elem_of_singleton in Hrc as ->. rewrite F1.
    split; [destruct Hrec as (-> & _); by destruct Hse as (<- & _)|]. split; [by apply W4|done].
  - rewrite F1. intros Hc. apply W4 in Hc. destruct Hrs as [[_ (rc & -> & _)]|[Hno _]]; [done|congruence].
  - intros admin Hadm Hin. apply Hshrink in Hin.
    destruct (decide (a = ADMIN_ASSIGNED)) as [->|Hn1].
    + destruct Hp as [admin' Hpatch]. rewrite (F6 eq_refl _ Hpatch) in Hadm. injection Hadm as <-.
      by apply (Has eq_refl _ Hpatch).
    + destruct (decide (a = ADMIN_UNASSIGNED)) as [->|Hn2].
      * rewrite F7 in Hadm; done.
      * rewrite F5 in Hadm by done. by apply (oi_admin db I _ _ _ Hst Hadm).
  - unfold decides. rewrite He4. intros Hdec.
    assert (a = RESOLVE_FOR_COURIER \/ a = RESOLVE_FOR_REQUESTER) as Ha by (destruct Hdec as [[= ->]|[= ->]]; auto).
    destruct (Hres Ha) as [[u Hu] Hwho]. exists u. split; [done|]. intros Hin. apply Hshrink in Hin.
    eapply (oi_admin db I _ _ u Hst); [congruence|done].
  - intros _. exact Hshrink.
Qed.

(** ** An acceptance *)

Definition accept_context : TransitionContext := mkContext false false false false false None.

Lemma accept_moved db orderId st c ver at_ h o e :
  OrderInv db -> orders db !! orderId = Some st -> acceptable c ver at_ (st_row st) = true ->
  h_orderId h = orderId -> h_previous h = Some OPEN -> h_new h = ACCEPTED -> h_action h = Did ACCEPT ->
  h_actorType h = ByStudent -> h_actorId h = Some c -> h_version h = or_version (st_row st) + 1 ->
  ob_eventType e = ORDER_STATUS_CHANGED ->
  let st' := mkStored (set_columns (accept_columns c at_ (st_row st)) (st_row st)) (st_requesterSuspendedAt st) in
  moved db orderId st' h [] [e] (written db orderId st' h [] o).
Proof.
  intros I Hst Hacc E1 E2 E3 E4 E5 E6 E7 Hty st'.
  destruct (accept_row _ _ _ _ (oi_rows db I _ _ Hst) Hacc) as [_ Hrow].
  pose proof (set_columns_same (accept_columns c at_ (st_row st)) (st_row st)) as Hse.
  pose proof (oi_ids db I _ _ Hst) as Hid.
  assert (or_status (st_row st) = OPEN) as Hopen.
  { unfold acceptable in Hacc. rewrite !andb_true_iff, bool_decide_eq_true in Hacc. tauto. }
  assert (or_status (st_row st') = ACCEPTED /\ or_version (st_row st') = or_version (st_row st) + 1
          /\ or_referredAdminId (st_row st') = or_referredAdminId (st_row st)) as (F1 & F2 & F3).
  { unfold st', accept_columns, set_columns. simpl. by destruct (st_row st). }
  assert (or_referredAdminId (st_row st) = None) as Hnone.
  { pose proof (oi_rows db I _ _ Hst) as Hinv. apply row_inv_spec in Hinv as (_ & _ & _ & _ & _ & _ & _ & Hadm & _).
    destruct (or_referredAdminId (st_row st)) as [x|]; [|done]. exfalso.
    specialize (Hadm (ex_intro _ x eq_refl)). rewrite Hopen in Hadm.
    unfold disputed_or_after, paying, refunding in Hadm. revert Hadm. by apply (bool_decide_unpack _). }
  constructor.
  - split; [|exact Hrow]. unfold st'. cbn [st_row]. destruct Hse as (Heq & _). congruence.
  - intros st0 Hst0. rewrite Hst in Hst0. injection Hst0 as <-. rewrite Hopen.
    split; [exact Hse|]. split; [done|].
    split; intros Hin; exfalso; revert Hin; by apply (bool_decide_unpack _).
  - done.
  - rewrite F1, F2. eapply (trace_step orderId _ OPEN _ h ACCEPT Actor.OTHER_STUDENT accept_context (moves ACCEPTED));
      try done. rewrite <- Hopen. by apply (oi_trace db I).
  - intros x Hx. apply list_elem_of_singleton in Hx as ->. unfold request_ok, request_of. rewrite Hty.
    by repeat split.
  - intros rc Hrc. by apply elem_of_nil in Hrc.
  - rewrite F1. done.
  - rewrite F3, Hnone. done.
  - unfold decides. rewrite E4. by intros [|].
  - intros (x & Hx & Ho & Hdec). exfalso.
    pose proof (trace_decided _ _ _ _ (oi_trace db I _ _ Hst)) as Htd. rewrite Hopen in Htd.
    assert (OPEN ∈ paying ++ refunding) as Hin.
    { apply Htd. exists x. split; [|done]. by apply entries_elem. }
    revert Hin. by apply (bool_decide_unpack _).
Qed.

(** ** A creation *)

Lemma create_moved db orderId input at_ h o e1 e2 :
  OrderInv db -> orders db !! orderId = None -> order_ok (pending_row orderId input at_) = true ->
  h_orderId h = orderId -> h_previous h = None -> h_new h = PENDING_CREDIT -> h_action h = Create ->
  h_version h = 1 -> ob_eventType e1 = ORDER_STATUS_CHANGED ->
  ob_eventType e2 = CREDIT_RESERVATION_REQUESTED -> ob_aggregateId e2 = orderId ->
  ob_payload e2 = MovementP (movement (pending_row orderId input at_)) ->
  let st' := mkStored (pending_row orderId input at_) None in
  moved db orderId st' h [] [e1; e2] (written db orderId st' h [] o).
Proof.
  intros I Hnew Hok E1 E2 E3 E4 E5 T1 T2 A2 P2 st'. constructor.
  - split; [done|]. by apply pending_row_inv.
  - intros st Hst. congruence.
  - done.
  - rewrite (no_entries orderId db I Hnew). by apply trace_create.
  - intros x Hx. rewrite !elem_of_cons, elem_of_nil in Hx. destruct Hx as [->|[->|[]]];
      unfold request_ok, request_of; simpl.
    + rewrite T1. by repeat split.
    + rewrite T2, A2, P2, lookup_insert_eq. repeat split; try done. intros _. by exists st'.
  - intros rc Hrc. by apply elem_of_nil in Hrc.
  - done.
  - done.
  - unfold decides. rewrite E4. by intros [|].
  - intros (x & Hx & Ho & _). apply (oi_known db I) in Hx as [? ?]. congruence.
Qed.

Lemma creationKey_inv db k key st :
  OrderInv db -> orders db !! k_orderId key = Some st -> or_requesterId (st_row st) = k.1 ->
  OrderInv (set_creationKeys (<[k := key]> (creationKeys db)) db).
Proof.
  intros [I1 I2 I3 I4 I5 I6 I7 I8 I9 I10 I11] Hst Hreq. constructor; try done.
  intros k' key'. simpl. intros Hk. apply lookup_insert_Some in Hk as [[<- <-]|[_ Hk]]; eauto.
Qed.

Lemma creationKeys_written db id_ st h rs o :
  creationKeys (written db id_ st h rs o) = creationKeys db.
Proof. done. Qed.

(** Every change is a frame, or one errand moved; a creation also records its key. *)
Lemma change_moved db db' :
  OrderInv db -> change periods db db' ->
  frame db db' \/ exists id_ st' h rs new o keys,
    moved db id_ st' h rs new (written db id_ st' h rs o)
    /\ ob_rows o = ob_rows (orderOutbox db) ++ new
    /\ db' = set_creationKeys keys (written db id_ st' h rs o)
    /\ (keys = creationKeys db \/ exists k key, keys = <[k := key]> (creationKeys db)
          /\ creationKeys db !! k = None /\ k_orderId key = id_ /\ or_requesterId (st_row st') = k.1).
Proof.
  intros I [? Hf|? ? ? ? ? ? ? ? ? ? ? ? ? o Hd Ho|? ? ? ? ? ? o e ? ? ? ? ? ? ? ? ? Ho ?
           |? input ? ? key o e1 e2 Hnew Hkn Hok ? ? ? ? ? Hk Ho]; [by left|right..].
  - do 5 eexists. exists o, (creationKeys db). split; [by eapply decided_moved|]. auto.
  - do 5 eexists. exists o, (creationKeys db). split; [eapply accept_moved; eauto|]. auto.
  - do 5 eexists. exists o. eexists. split; [by eapply create_moved|]. split; [done|]. split; [done|].
    right. do 2 eexists. split; [done|]. by repeat split.
Qed.

Lemma change_inv db db' : OrderInv db -> change periods db db' -> OrderInv db'.
Proof.
  intros I Hc. destruct (change_moved _ _ I Hc)
    as [Hf|(id_ & st' & h & rs & new & o & keys & Hm & Ho & -> & Hk)]; [by eapply frame_inv|].
  assert (OrderInv (written db id_ st' h rs o)) as I' by by eapply written_inv.
  destruct Hk as [->|(k & key & -> & _ & <- & Hq)]; [done|].
  rewrite <- (creationKeys_written db (k_orderId key) st' h rs o).
  eapply creationKey_inv; [done| |exact Hq]. simpl. apply lookup_insert_eq.
Qed.

(** What a change keeps of a request, whoever holds a copy of it. *)
Lemma change_request db db' ty x p :
  OrderInv db -> change periods db db' -> request_of db ty x p -> request_of db' ty x p.
Proof.
  intros I Hc Hq. destruct (change_moved _ _ I Hc)
    as [[Hr _ _ _ _ _ _]|(id_ & st' & h & rs & new & o & keys & Hm & _ & -> & _)].
  - by eapply frame_request.
  - by apply (same_request db id_ st' h rs o); [apply (mv_same _ _ _ _ _ _ _ Hm)|].
Qed.
(** An idempotency key, once recorded, is never overwritten. *)
Lemma change_keys db db' :
  OrderInv db -> change periods db db' ->
  (forall k row, commandKeys db !! k = Some row -> commandKeys db' !! k = Some row)
  /\ (forall k key, creationKeys db !! k = Some key -> creationKeys db' !! k = Some key).
Proof.
  intros I Hc. destruct (change_moved _ _ I Hc)
    as [[_ _ _ _ Hk _ Hkept]|(id_ & st' & h & rs & new & o & keys & _ & _ & -> & Hk)].
  - split; [done|]. by rewrite Hk.
  - split; [done|]. intros k key Hkey. simpl.
    destruct Hk as [->|(k' & key' & -> & Hnone & _)]; [done|]. rewrite lookup_insert_ne; [done|].
    intros ->. congruence.
Qed.
End Preserved.

(** ** OrderSteps: the service's transactions, as sequences of changes

    A computation is [sound] when, from tables that satisfy the invariant, whatever it commits is
    reached by changes that move errands in [allowed] ways only. Soundness is closed under the monad,
    so each consumer and command is sound because its statements are. *)

Lemma changes_inv `{Zod} `{Pg} (periods : Periods) db db' :
  OrderInv db -> rtc (change periods) db db' -> OrderInv db'.
Proof. intros I. induction 1 as [|db db1 db' Hc _ IH]; [done|]. eauto using change_inv. Qed.

Section Changes.
Context `{Zod} `{Pg} (periods : Periods) (allowed : HistoryAction -> OrderRow -> Prop).

(** An errand is as it was, or the one entry written says it moved to this row in an allowed way. *)
Definition moves_allowed (db db' : OrderDb) : Prop := forall o st', orders db' !! o = Some st' ->
  st_row <$> orders db !! o = Some (st_row st')
  \/ exists h, history db' = history db ++ [h] /\ allowed (h_action h) (st_row st').

Definition allowed_change (db db' : OrderDb) : Prop := change periods db db' /\ moves_allowed db db'.

Notation changes := (rtc allowed_change).

Lemma changes_plain db db' : changes db db' -> rtc (change periods) db db'.
Proof. apply rtc_subrel. by intros ?? []. Qed.

Lemma allowed_inv db db' : OrderInv db -> changes db db' -> OrderInv db'.
Proof. intros I. induction 1 as [|db db1 db' [Hc _] _ IH]; [done|]. eauto using change_inv. Qed.

Definition sound {A} (m : OrderM A) : Prop := forall e n db a n' db',
  OrderInv db -> m e (n, db) = Ok (a, (n', db')) -> changes db db'.

(** ** The monad *)

Lemma sound_same {A} (m : OrderM A) :
  (forall e s a s', m e s = Ok (a, s') -> s'.2 = s.2) -> sound m.
Proof. intros Hm e n db a n' db' _ Hr. apply Hm in Hr. simpl in Hr. by subst. Qed.

Lemma sound_ret {A} (a : A) : sound (ret a).
Proof. apply sound_same. intros e s b s' Hr. by apply ret_ok in Hr as [= _ ->]. Qed.
Lemma sound_throw {A} x : sound (throw x : OrderM A).
Proof. by apply sound_same. Qed.
Lemma sound_require b x : sound (require b x).
Proof. destruct b; [apply sound_ret|apply sound_throw]. Qed.
Lemma sound_gets {A} (f : OrderDb -> A) : sound (gets f).
Proof. apply sound_same. intros e s b s' Hr. by apply gets_ok in Hr as [= _ ->]. Qed.
Lemma sound_now : sound now.
Proof. apply sound_same. intros e s b s' Hr. by apply now_ok in Hr as [= _ ->]. Qed.
Lemma sound_uuid : sound randomUUID.
Proof. apply sound_same. intros e s b s' Hr. by apply randomUUID_ok in Hr as [= _ ->]. Qed.
Lemma sound_lift {A} (o : outcome A) : sound (lift_outcome o).
Proof. destruct o; [apply sound_ret|apply sound_throw]. Qed.
Lemma sound_find id_ : sound (findByIdUsing id_).
Proof. intros e n db a n' db' _ Hr. apply findByIdUsing_ok in Hr as [_ [= _ _ ->]]. done. Qed.

Lemma sound_bind {A B} (m : OrderM A) (k : A -> OrderM B) :
  sound m -> (forall a, sound (k a)) -> sound (let! a := m in k a).
Proof.
  intros Hm Hk e n db b n' db' I Hr. apply bind_ok in Hr as (a & [n1 db1] & H1 & H2).
  pose proof (Hm _ _ _ _ _ _ I H1) as C1. etrans; [exact C1|].
  eapply Hk; [|exact H2]. by eapply allowed_inv.
Qed.

Lemma sound_mapM {A} (f : A -> OrderM unit) l : (forall a, sound (f a)) -> sound (mapM_ f l).
Proof. intros Hf. induction l; simpl; auto using sound_ret, sound_bind. Qed.

Lemma sound_transaction {A} (m : OrderM A) e db r db' :
  sound m -> OrderInv db -> transaction m e db = (r, db') -> changes db db'.
Proof.
  intros Hm I Ht. destruct r as [a|x].
  - apply transaction_ok in Ht as [n Hr]. eauto.
  - by apply transaction_throw in Ht as ->.
Qed.

(** ** Statements beside the transitions *)

(** Tables that differ in alerts, attempts and inbox alone. *)
Lemma frame_beside db db' :
  orders db' = orders db -> history db' = history db -> receipts db' = receipts db ->
  orderOutbox db' = orderOutbox db -> creationKeys db' = creationKeys db ->
  commandKeys db' = commandKeys db -> frame db db'.
Proof.
  intros E1 E2 E3 E4 E5 E6. constructor; try done.
  - intros id_. by rewrite E1.
  - rewrite E4. eauto using same_event_refl.
  - rewrite E6. auto.
  - by rewrite E6.
Qed.

Lemma one_frame db db' : frame db db' -> changes db db'.
Proof.
  intros Hf. apply rtc_once. split; [by apply ch_frame|]. intros o st' Hst'. left.
  by rewrite <- (fr_rows _ _ Hf o), Hst'.
Qed.

Lemma frame_mark db id_ r m mark :
  orders db !! id_ = Some (mkStored r m) ->
  frame db (set_orders (<[id_ := mkStored r mark]> (orders db)) db).
Proof.
  intros Hr. constructor; try done; simpl; eauto using same_event_refl.
  intros x. simpl. destruct (decide (x = id_)) as [->|]; [by rewrite lookup_insert_eq, Hr|].
  by rewrite lookup_insert_ne.
Qed.

Lemma sound_mark cond id_ mark : sound (set_mark cond id_ mark).
Proof.
  intros e n db a n' db' _ Hr. unfold set_mark, as_uuid in Hr. inv_tx.
  destruct (orders db !! id_) as [[r m]|] eqn:Hst; [|done].
  destruct (cond r); [|done]. by eapply one_frame, frame_mark.
Qed.

Lemma sound_note id_ : sound (noteRequesterSuspended id_).
Proof. apply sound_bind; [apply sound_now|]. intros. apply sound_mark. Qed.

Lemma insert_order_alert_ok a e n db b n' db' :
  insert_order_alert a e (n, db) = Ok (b, (n', db')) ->
  n' = n /\ (db' = db \/ db' = set_orderAlerts (orderAlerts db ++ [a]) db).
Proof.
  unfold insert_order_alert. unfold_checks. intros Hr.
  apply bind_ok in Hr as (d & s & Hq & Hr). apply gets_ok in Hq as [= -> ->]. unfold id in Hr.
  simpl in Hr. destruct (has_alert _ _ _); inv_tx; unfold id; auto.
Qed.

Lemma raiseAlert_ok id_ k d e n db b n' db' :
  raiseAlert id_ k d e (n, db) = Ok (b, (n', db')) ->
  n' = n /\ exists l, db' = set_orderAlerts l db.
Proof.
  unfold raiseAlert, as_uuid. intros Hr.
  apply bind_ok in Hr as ([] & s & Hq & Hr). apply require_ok in Hq as [_ [= ->]].
  apply bind_ok in Hr as (t & s & Hq & Hr). apply now_ok in Hq as [= -> ->].
  apply insert_order_alert_ok in Hr as [-> [->| ->]]; split; eauto.
  exists (orderAlerts db). by destruct db.
Qed.

Lemma sound_alert id_ k d : sound (raiseAlert id_ k d).
Proof.
  intros e n db b n' db' _ Hr. apply raiseAlert_ok in Hr as (_ & l & ->).
  by apply one_frame, frame_beside.
Qed.

Lemma sound_waits cutoff limit : sound (raiseCreditWaitAlerts cutoff limit).
Proof.
  intros e n db b n' db' _ Hr. unfold raiseCreditWaitAlerts in Hr.
  inv_tx. by apply one_frame, frame_beside.
Qed.

Lemma sound_command_key who key orderId hash : sound (insert_command_key who key orderId hash).
Proof.
  intros e n db b n' db' _ Hr. unfold insert_command_key, as_uuid in Hr. unfold_checks. inv_tx.
  apply one_frame. unfold id. constructor; try done; simpl; eauto using same_event_refl.
  - intros k row Hk. apply lookup_insert_Some in Hk as [[_ <-]|[_ Hk]]; [right|by left].
    unfold id in *. simpl. by destruct (orders db !! orderId); [|done].
  - intros k row Hk. rewrite lookup_insert_ne; [done|]. intros <-. unfold id in *. by rewrite Hk in *.
Qed.

(** ** The transitions *)

(** Any row the command can write for its errand. *)
Definition permits (cmd : TransitionCommand) : Prop := forall cs r,
  or_orderId r = tc_orderId cmd ->
  allowed (Did (tc_action cmd)) (set_columns (cs ++ tc_patch cmd) r).

(** The tables after one errand moved. *)
Lemma one_move db db' o st' h :
  change periods db db' -> (forall x, x <> o -> orders db' !! x = orders db !! x) ->
  orders db' !! o = Some st' -> history db' = history db ++ [h] -> allowed (h_action h) (st_row st') ->
  changes db db'.
Proof.
  intros Hc Hother Hst' Hh Hal. apply rtc_once. split; [done|]. intros x st Hst.
  destruct (decide (x = o)) as [->|Hne].
  - right. exists h. split; [done|]. by simplify_eq.
  - left. by rewrite <- Hother, Hst.
Qed.

Lemma transition_changes cmd e n db a n' db' :
  OrderInv db -> command_ok cmd db -> permits cmd ->
  transitionUsing periods cmd e (n, db) = Ok (a, (n', db')) -> changes db db'.
Proof.
  intros I Hc Hp Hr.
  apply transitionUsing_ok in Hr as [[-> _]|(st & d & times & r' & Hst & _ & _ & _ & Happ)];
    [done| |by apply (oi_ids db I)|done].
  pose proof (applied_change periods _ _ _ _ _ _ _ _ Happ) as Hch.
  destruct Happ as (actor & h & rs & new & o & _ & _ & _ & _ & [_ _ _ _ _ -> _ He _ _ _] & _ & ->).
  destruct He as (_ & _ & _ & E4 & _). eapply one_move; [exact Hch| |apply lookup_insert_eq|done|].
  - intros x Hne. simpl. by rewrite lookup_insert_ne.
  - rewrite E4. cbn [st_row]. unfold step_columns. rewrite !app_assoc. apply Hp.
    by apply (oi_ids db I).
Qed.

Lemma sound_transition cmd :
  (forall db, command_ok cmd db) -> permits cmd -> sound (transitionUsing periods cmd).
Proof. intros Hc Hp e n db a n' db' I. by apply transition_changes. Qed.

Lemma sound_accept orderId courierId ver corr :
  (forall r, allowed (Did ACCEPT) r) -> sound (acceptUsing orderId courierId ver corr).
Proof.
  intros Hal e n db a n' db' I Hr.
  apply (acceptUsing_ok periods) in Hr
    as [[-> _]|(st & _ & _ & _ & Hst' & (h & Hh & Ha & Hother) & Hch)]; [done| |by apply (oi_ids db I)].
  eapply one_move; eauto. by rewrite Ha.
Qed.

Lemma sound_create fault input t :
  pure_fault fault -> (forall r, allowed Create r) -> sound (createPending fault input t).
Proof.
  intros Hf Hal e n db [o r] n' db' I Hr.
  apply (createPending_ok periods) in Hr
    as [(_ & -> & _)|(_ & _ & k & _ & _ & _ & _ & _ & Hst' & (h & Hh & Ha & Hother) & Hch)]; [done| |done].
  eapply one_move; eauto. by rewrite Ha.
Qed.

Lemma sound_withCommandKey {T} key (run : OrderM T) : sound run -> sound (withCommandKey key run).
Proof.
  intros Hr. apply sound_bind; [apply sound_gets|]. intros keys. destruct (keys !! _) as [k|].
  - apply sound_bind; [apply sound_require|]. intros _. apply sound_bind; [apply sound_find|].
    intros [o|]; [apply sound_ret|apply sound_throw].
  - apply sound_bind; [done|]. intros t. apply sound_bind; [apply sound_command_key|].
    intros _. apply sound_ret.
Qed.
End Changes.

Create HintDb sound.
#[export] Hint Resolve sound_ret sound_throw sound_require sound_gets sound_now sound_uuid sound_lift
  sound_find sound_mark sound_note sound_alert sound_waits sound_command_key : sound.

(** Soundness, one construct at a time. *)
Ltac sound_step :=
  match goal with
  | |- sound _ _ (bind _ _) => apply sound_bind; [|intros]
  | |- sound _ _ (match ?x with _ => _ end) => destruct x
  | |- sound _ _ (if ?b then _ else _) => destruct b
  | |- sound _ _ _ => solve [eauto with sound]
  end.
Ltac sound := repeat sound_step.
