(* ===== verification/OrderRuns.v ===== *)
(** * OrderRuns: every run of the Order Service keeps the invariant

    [order_step] is one transaction of the service, whoever starts it: a caller of the API, a
    consumed event, a timer of the scheduler, the reconciler, the relay or the pruner. Only a reply
    of the Credit Service makes the moves of [CREDIT_ACTIONS], and only those it calls for.
    [order_reachable] closes it from empty tables. *)
From S2P Require Export OrderInvariant Retention.

(** The commands the controller sends to [OrdersService.command] (orders.controller.ts). *)
Definition USER_ACTIONS : list OrderAction :=
  [RECORD_PICKUP; RECORD_DELIVERY; CONFIRM_RECEIPT; CANCEL; WITHDRAW; REPORT_NON_DELIVERY;
   REPORT_NON_RECEIPT].

(** The moves only a reply of the Credit Service makes. *)
Definition CREDIT_ACTIONS : list OrderAction :=
  [CREDIT_RESERVED; CREDIT_REJECTED; TRANSFER_CONFIRMED; RELEASE_CONFIRMED].

Definition own_move (h : HistoryAction) : Prop :=
  match h with Create => True | Did a => a ∉ CREDIT_ACTIONS end.

(** The moves a reply [v] in queue [q] may make: its action, of the errand it names, and the
    transaction it gives. *)
Definition reply_move `{Zod} (q : OrderQueue) (v : Envelope) (h : HistoryAction) (r : OrderRow) : Prop :=
  match q, h with
  | ReservationResults, Did CREDIT_RESERVED => eventType v = CREDITS_RESERVED /\ or_orderId r = aggregateId v
  | ReservationResults, Did CREDIT_REJECTED => eventType v <> CREDITS_RESERVED /\ or_orderId r = aggregateId v
  | TransferResults, Did TRANSFER_CONFIRMED => exists m c tid rb cb,
      creditsTransferredPayload (payload v) = Some (TransferredP m c tid rb cb)
      /\ or_orderId r = aggregateId v /\ or_creditTransactionId r = Some tid
  | ReleaseResults, Did RELEASE_CONFIRMED => exists m tid rb,
      creditsReleasedPayload (payload v) = Some (ReleasedP m tid rb)
      /\ or_orderId r = aggregateId v /\ or_creditTransactionId r = Some tid
  | _, _ => False
  end.

Lemma not_credit_action a : bool_decide (a ∈ CREDIT_ACTIONS) = false -> own_move (Did a).
Proof. intros Ha. simpl. by apply bool_decide_eq_false in Ha. Qed.

Section Runs.
Context `{Zod} `{Pg} (periods : Periods) (hashRequest : HashedRequest -> string).
Context (allowed : HistoryAction -> OrderRow -> Prop).
Context (own_allowed : forall h r, own_move h -> allowed h r).

Notation changes := (rtc (allowed_change periods allowed)).
Notation sound := (sound periods allowed).
Notation permits := (permits allowed).

Lemma own_permits cmd : bool_decide (tc_action cmd ∈ CREDIT_ACTIONS) = false -> permits cmd.
Proof. intros Ha cs r _. by apply own_allowed, not_credit_action. Qed.

(** ** Commands *)

Lemma plain_command_ok cmd db :
  tc_patch cmd = [] -> tc_afterApply cmd = no_after ->
  patch_ok (tc_action cmd) [] ->
  tc_action cmd <> TRANSFER_CONFIRMED -> tc_action cmd <> ADMIN_ASSIGNED ->
  tc_action cmd <> RESOLVE_FOR_COURIER -> tc_action cmd <> RESOLVE_FOR_REQUESTER ->
  command_ok cmd db.
Proof.
  intros Hp Ha Hok H1 H2 H3 H4. constructor; [by rewrite Hp|by right|congruence|].
  intros [?|?]; congruence.
Qed.

Lemma user_command_ok orderId a ver caller corr verify reason db :
  a ∈ USER_ACTIONS -> command_ok (user_command orderId a ver caller corr verify reason) db.
Proof.
  intros Ha. unfold USER_ACTIONS in Ha. rewrite !elem_of_cons, elem_of_nil in Ha.
  destruct_or? Ha; try done; subst a; by apply plain_command_ok.
Qed.

Lemma resolve_command_ok orderId o ver caller corr reason db :
  command_ok (user_command orderId (RESOLVE_ACTIONS o) ver caller corr (not_referred caller) reason) db.
Proof.
  constructor; simpl; [by destruct o|right; by destruct o|by destruct o|].
  intros _. exists (userId caller). split; [done|]. intros order. unfold not_referred.
  by case_bool_decide.
Qed.

Lemma suspend_command_ok orderId part s a actor corr cause reason susp db :
  suspension_action part s = Some a ->
  command_ok (mkCommand orderId a actor None corr cause None no_verify [] reason susp no_after) db.
Proof. destruct part, s; simpl; intros [= <-]; by apply plain_command_ok. Qed.

Lemma sound_once {T} t caller key request orderId (run : OrderM T) answer e db r db' :
  sound run -> OrderInv db -> once hashRequest t caller key request orderId run answer e db = (r, db') ->
  changes db db'.
Proof.
  intros Hr I. unfold once. destruct key as [k|].
  - destruct (transaction _ e db) as [o db1] eqn:Ht.
    assert (changes db db1) as Hc.
    { eapply sound_transaction; [|exact I|exact Ht]. apply sound_withCommandKey.
      apply sound_bind; [done|]. intros ?. apply sound_lift. }
    destruct o as [[v|o]|x]; by intros [= _ <-].
  - destruct (transaction run e db) as [o db1] eqn:Ht.
    apply (sound_transaction periods allowed) in Ht; [|done..].
    by destruct o; intros [= _ <-].
Qed.

Lemma accept_changes orderId ver caller corr key t e db r db' :
  OrderInv db -> accept_order hashRequest orderId ver caller corr key t e db = (r, db') -> changes db db'.
Proof. apply sound_once, sound_accept. intros ?. by apply own_allowed, not_credit_action. Qed.

Lemma command_changes t orderId a ver caller corr verify reason key e db r db' :
  (forall db, command_ok (user_command orderId a ver caller corr verify reason) db) ->
  permits (user_command orderId a ver caller corr verify reason) -> OrderInv db ->
  command periods hashRequest t orderId a ver caller corr verify reason key e db = (r, db') -> changes db db'.
Proof. intros Hc Ha. by apply sound_once, sound_transition. Qed.

Lemma resolve_changes t orderId o reason ver caller corr key seen e db r db' :
  OrderInv db ->
  resolve periods hashRequest t orderId o reason ver caller corr key seen e db = (r, db') -> changes db db'.
Proof.
  intros I. unfold resolve. destruct (read_order _ _); [|by intros [= _ <-]].
  destruct (projectOrder _ _); [|by intros [= _ <-]]. destruct (existsb _ _); [by intros [= _ <-]|].
  apply command_changes; [|by apply own_permits; destruct o|done]. intros. apply resolve_command_ok.
Qed.

Lemma create_changes input key caller corr supplier t seen e db r db' :
  OrderInv db -> create hashRequest input key caller corr supplier t seen e db = (r, db') -> changes db db'.
Proof.
  intros I. unfold create. destruct (findIdempotent _ _ _) as [[h o]|]; [by intros [= _ <-]|].
  destruct supplier as [s|x]; [|by intros [= _ <-]].
  destruct (transaction _ e db) as [o db1] eqn:Ht.
  apply (sound_transaction periods allowed) in Ht;
    [|apply sound_create; [apply no_order_fault_pure|intros; by apply own_allowed]|done].
  by destruct o as [[]|]; intros [= _ <-].
Qed.

(** ** Consumed events *)

Lemma sound_receipts cmd :
  tc_action cmd = TRANSFER_CONFIRMED -> tc_afterApply cmd = insertReceipt ->
  (exists t, tc_patch cmd = [CreditTransactionId t]) -> permits cmd -> sound (transitionUsing periods cmd).
Proof.
  intros Ha Hf Hp Hper. apply sound_transition; [|done]. intros db.
  constructor; rewrite ?Ha; [done|by left|done|]. by intros [?|?].
Qed.

Lemma sound_credit v orderId a patch verify reason susp :
  patch_ok a patch -> a <> TRANSFER_CONFIRMED -> a <> ADMIN_ASSIGNED -> a <> RESOLVE_FOR_COURIER ->
  a <> RESOLVE_FOR_REQUESTER ->
  permits (credit_command v orderId a patch verify reason susp no_after) ->
  sound (transitionUsing periods (credit_command v orderId a patch verify reason susp no_after)).
Proof.
  intros Hp H1 H2 H3 H4 Hper. apply sound_transition; [|done]. intros db.
  constructor; simpl; [done|by right|done|]. intros [?|?]; congruence.
Qed.

Lemma set_columns_id cs r : or_orderId (set_columns cs r) = or_orderId r.
Proof. by destruct (set_columns_same cs r) as (-> & _). Qed.

Lemma set_transaction cs t r : or_creditTransactionId (set_columns (cs ++ [CreditTransactionId t]) r) = Some t.
Proof. rewrite set_columns_app. unfold set_columns at 1. simpl. by destruct (set_columns cs r). Qed.

Section Reply.
Context (v : Envelope).

Lemma sound_reservation dir :
  (forall h r, reply_move ReservationResults v h r -> allowed h r) -> sound (handle_reservation_result periods dir v).
Proof.
  intros replies. unfold handle_reservation_result. destruct (resultPayload _) as [p|]; [|apply sound_throw].
  destruct (movement_of p) as [m|]; [|apply sound_throw].
  destruct (String.eqb_spec (aggregateId v) (mv_orderId m)) as [Hagg|]; [|apply sound_throw].
  destruct (String.eqb_spec (eventType v) CREDITS_RESERVED) as [Hev|Hev]; sound;
    (apply sound_credit; simpl; eauto; try done; intros cs r Hr; apply replies; simpl in *;
     by rewrite set_columns_id, Hr).
Qed.

Lemma sound_release :
  (forall h r, reply_move ReleaseResults v h r -> allowed h r) -> sound (handleRelease periods v).
Proof.
  intros replies. unfold handleRelease. destruct (creditsReleasedPayload _) as [[]|] eqn:Hp; try apply sound_throw.
  destruct (String.eqb_spec (aggregateId v) (mv_orderId m)) as [Hagg|]; [|apply sound_throw].
  sound. apply sound_credit; simpl; eauto; try done. intros cs r Hr. apply replies. simpl.
  do 3 eexists. split; [exact Hp|]. by rewrite set_columns_id, set_transaction, Hr.
Qed.

Lemma sound_transfer :
  (forall h r, reply_move TransferResults v h r -> allowed h r) -> sound (handleTransfer periods v).
Proof.
  intros replies. unfold handleTransfer. destruct (creditsTransferredPayload _) as [[]|] eqn:Hp; try apply sound_throw.
  destruct (String.eqb_spec (aggregateId v) (mv_orderId m)) as [Hagg|]; [|apply sound_throw].
  sound. apply sound_receipts; simpl; eauto. intros cs r Hr. apply replies. simpl.
  do 5 eexists. split; [exact Hp|]. by rewrite set_columns_id, set_transaction, Hr.
Qed.
End Reply.

Lemma sound_suspension dir v : sound (handle_suspension periods dir v).
Proof.
  unfold handle_suspension. sound. apply sound_mapM. intros order. unfold suspend_errand.
  destruct (suspension_action _ _) eqn:Ha; [|apply sound_ret]. apply sound_bind.
  - apply sound_transition; [intros; by eapply suspend_command_ok|]. apply own_permits. simpl.
    destruct (String.eqb _ _), (or_status order); simpl in Ha; by simplify_eq.
  - intros. sound.
Qed.

Lemma sound_inbox consumer handler v e db r db' :
  sound (handler v) -> OrderInv db -> withInbox consumer handler v e db = (r, db') ->
  changes db db'.
Proof.
  intros Hh I Hr. destruct r as [dup|x]; [|by apply withInbox_throw in Hr as ->].
  destruct (inbox db !! (consumer, eventId v)) eqn:Hrow.
  - rewrite withInbox_duplicate in Hr by eauto. by injection Hr as _ ->.
  - apply withInbox_first in Hr as (_ & n & Hr); [|done].
    assert (changes db (set_inbox (<[(consumer, eventId v) := mkInboxRow (eventType v) (env_now e)]>
                                     (inbox db)) db)) as Hc by by apply one_frame, frame_beside.
    etrans; [exact Hc|]. eapply Hh; [|exact Hr]. by eapply allowed_inv.
Qed.

Lemma deliver_changes dir q v e db r db' :
  (forall h r, reply_move q v h r -> allowed h r) ->
  OrderInv db -> deliver_order periods dir q v e db = (r, db') -> changes db db'.
Proof.
  intros Hq I. destruct q; simpl; apply sound_inbox; try done.
  - by apply sound_reservation.
  - apply sound_bind; [by apply sound_transfer|]. eauto with sound.
  - apply sound_bind; [by apply sound_release|]. eauto with sound.
  - apply sound_suspension.
Qed.
End Runs.

(** ** The reconciler *)

Section Reconciler.
Context `{Zod} `{Pg} (periods : Periods) (allowed : HistoryAction -> OrderRow -> Prop).

Notation sound := (sound periods allowed).

(** A request sent again is the one the order's row stands for, as the catalogue lets it through. *)
Lemma creditRequest_ok db o st ty p f q :
  orders db !! o = Some st -> or_orderId (st_row st) = o ->
  creditRequest (mapStored st) = Ok (ty, p) -> assoc ty PAYLOAD_SCHEMAS = Some f -> f p = Some q ->
  request_of db ty o q.
Proof.
  intros Hst Hid Hreq Hf Hq. unfold creditRequest in Hreq.
  change (or_status (mapStored st)) with (or_status (st_row st)) in Hreq.
  destruct (or_status (st_row st)) eqn:Hs; try done.
  - injection Hreq as <- <-. change (Some creditReservationRequestedPayload = Some f) in Hf.
    injection Hf as <-. unfold creditReservationRequestedPayload, movement_of in Hq. cbv beta iota in Hq.
    destruct (movement_ok _); simpl in Hq; [|done]. injection Hq as <-.
    repeat split; try done. intros _. by exists st.
  - destruct (emittedEvent _ _ _ _) as [p'|] eqn:He; [|done]. injection Hreq as <- <-.
    pose proof (schema_keeps _ _ _ _ _ _ _ He Hf Hq) as ->.
    unfold emittedEvent in He. simpl in He. destruct (keep nonempty _) as [c|] eqn:Hk; [|done].
    injection He as <-. apply keep_Some in Hk as [Hc _].
    repeat split; try done. intros _. exists st, c. rewrite Hs. repeat split; try done.
    unfold paying. set_solver.
  - destruct (emittedEvent _ _ _ _) as [p'|] eqn:He; [|done]. injection Hreq as <- <-.
    pose proof (schema_keeps _ _ _ _ _ _ _ He Hf Hq) as ->.
    unfold emittedEvent in He. simpl in He. injection He as <-.
    repeat split; try done. intros _. exists st. rewrite Hs. repeat split; try done.
    unfold refunding. set_solver.
Qed.

Lemma insert_attempt_ok a e n (db : OrderDb) x :
  insert_attempt a e (n, db) = Ok x -> x = (tt, (n, set_attempts (attempts db ++ [a]) db)).
Proof. unfold insert_attempt. unfold_checks. intros Hr. by inv_tx. Qed.

Lemma frame_reissue db ev id_ q l at_ :
  request_of db (ne_eventType ev) (ne_aggregateId ev) q ->
  frame db (set_attempts l (set_orderOutbox
    (append_row (new_row id_ (ob_nextSeq (orderOutbox db)) at_ ev q) (orderOutbox db)) db)).
Proof.
  intros Hq. constructor; try done; simpl; auto.
  intros x Hx. apply elem_of_app in Hx as [Hx|Hx]; [left; eauto using same_event_refl|].
  apply list_elem_of_singleton in Hx as ->. by right.
Qed.

Lemma sound_reconciliation held input : sound (recordReconciliation held input).
Proof.
  intros e n db a n' db' I Hr. unfold recordReconciliation in Hr.
  apply bind_ok in Hr as (found & s & Hq & Hr). apply findByIdUsing_ok in Hq as [_ [= -> ->]].
  set (o := cd_orderId (ri_observed input)) in *.
  destruct held; [apply ret_ok in Hr as [= _ _ ->]; done|].
  destruct (orders db !! o) as [st|] eqn:Hst; simpl in Hr; [|apply ret_ok in Hr as [= _ _ ->]; done].
  destruct (negb _); [apply ret_ok in Hr as [= _ _ ->]; done|].
  apply bind_ok in Hr as (at_ & s & Hq & Hr). apply now_ok in Hq as [= -> ->].
  apply bind_ok in Hr as (d & s & Hq & Hr). apply gets_ok in Hq as [= -> ->]. unfold id in Hr. simpl in Hr.
  destruct (attempted_since _ _ _); [apply ret_ok in Hr as [= _ _ ->]; done|].
  apply bind_ok in Hr as (done_ & [n1 db1] & Hd & Hr).
  apply bind_ok in Hr as (aid & s & Hq & Hr). apply randomUUID_ok in Hq as [= -> ->].
  apply bind_ok in Hr as ([] & s & Hq & Hr). apply insert_attempt_ok in Hq as [= ->].
  apply ret_ok in Hr as [= _ _ ->]. apply one_frame.
  pose proof (oi_ids db I _ _ Hst) as Hid. destruct (ri_action input).
  - apply bind_ok in Hd as (req & s & Hq & Hd). unfold lift_outcome in Hq.
    destruct (creditRequest _) as [[ty p]|] eqn:Hc; [|done]. apply ret_ok in Hq as [= -> ->].
    apply bind_ok in Hd as (evid & [n2 db2] & Hi & Hd). apply ret_ok in Hd as [= _ _ ->].
    apply insertOutboxEvent_ok in Hi as (q & f & Hf & Hq & _ & _ & _ & ->).
    apply (frame_reissue db). simpl. rewrite Hid. by eapply creditRequest_ok.
  - apply bind_ok in Hd as (raised & [n2 db2] & Hi & Hd). apply ret_ok in Hd as [= _ _ ->].
    apply raiseAlert_ok in Hi as (_ & l & ->). by apply frame_beside.
  - apply ret_ok in Hd as [= _ _ ->]. by apply frame_beside.
Qed.

End Reconciler.

(** ** Timers *)

Section Timers.
Context `{Zod} `{Pg} (periods : Periods).
Context (allowed : HistoryAction -> OrderRow -> Prop).
Context (own_allowed : forall h r, own_move h -> allowed h r).

Notation changes := (rtc (allowed_change periods allowed)).

(** The transitions the scheduler fires, and what its own columns say. *)
Inductive timer_fires (orderId : string) (db : OrderDb) : OrderAction -> list Column -> Prop :=
| tf_plain a : a ∈ [ACCEPTANCE_DEADLINE_PASSED; PICKUP_TIMEOUT; AUTO_CONFIRM; DELIVERY_PERIOD_PASSED] ->
    timer_fires orderId db a []
| tf_unassign : timer_fires orderId db ADMIN_UNASSIGNED [ReferredAdminId None]
| tf_assign admin : admin ∉ participants orderId db ->
    timer_fires orderId db ADMIN_ASSIGNED [ReferredAdminId (Some admin)].

Lemma timer_command_ok corr orderId a now_ k verify patch reason susp db :
  timer_fires orderId db a patch ->
  command_ok (timer_command corr orderId a now_ k verify patch reason susp) db.
Proof.
  intros [a' Ha| |admin Hadm].
  - rewrite !elem_of_cons, elem_of_nil in Ha.
    destruct_or? Ha; try done; subst a'; by apply plain_command_ok.
  - constructor; simpl; [done|by right|done|by intros [?|?]].
  - constructor; simpl; [eauto|by right|by intros _ ? [= <-]|by intros [?|?]].
Qed.

Lemma timer_changes corr orderId a now_ k verify patch reason susp e db r db' :
  OrderInv db -> timer_fires orderId db a patch ->
  transaction (transitionUsing periods
    (timer_command corr orderId a now_ k verify patch reason susp)) e db = (r, db') ->
  changes db db'.
Proof.
  intros I Hf Ht. destruct r as [res|x]; [|by apply transaction_throw in Ht as ->].
  apply transaction_ok in Ht as [n Hr]. eapply transition_changes; [done| | |exact Hr].
  - by apply timer_command_ok.
  - apply own_permits; [done|]. simpl. destruct Hf as [a' Ha| |]; [|done..].
    rewrite !elem_of_cons, elem_of_nil in Ha. by destruct_or? Ha; try done; subst a'.
Qed.

End Timers.

(** ** The relay and the pruner *)

Section Relay.
Context `{Zod} `{Pg}.

Lemma frame_outbox db rows seq :
  (forall r', r' ∈ rows -> exists r, r ∈ ob_rows (orderOutbox db) /\ same_event r r') ->
  frame db (set_orderOutbox (mkOutbox rows seq) db).
Proof. intros Hrows. constructor; try done; simpl; auto. Qed.

Lemma relay_frame opts broker locked at_ db rows' res :
  claimAndPublish opts broker locked at_ (ob_rows (orderOutbox db)) = (rows', res) ->
  frame db (set_orderOutbox (mkOutbox rows' (ob_nextSeq (orderOutbox db))) db).
Proof.
  intros Hr. apply frame_outbox. intros r' Hr'. by eapply relayed_events.
Qed.

Lemma prune_frame retention n waiting lo li stop at_ db db' counts :
  pruneEventTables retention n waiting lo li stop at_ db = Some (db', counts) -> frame db db'.
Proof.
  unfold pruneEventTables. intros Hp.
  destruct (deleteInBatches (outbox_old _ _) _ _ _ _ _ _ _) as [[rows' out]|] eqn:Hd; [|done].
  apply deleteInBatches_spec in Hd as (_ & Hsub & _).
  assert (forall s, frame db (set_orderProcessed s (set_orderOutbox
    (mkOutbox rows' (ob_nextSeq (orderOutbox db))) db))) as Hf.
  { intros s. constructor; try done; simpl; [|auto]. intros r Hr. left. exists r.
    split; [by eapply elem_of_sublist|apply same_event_refl]. }
  destruct (stop _).
  - injection Hp as <- _. specialize (Hf (orderProcessed db)). by destruct db.
  - destruct (deleteInBatches _ _ _ _ _ _ _ _) as [[ins' in_]|]; [|done]. by injection Hp as <- _.
Qed.

End Relay.

(** ** Runs *)

Section Steps.
Context `{Zod} `{Pg} (periods : Periods) (hashRequest : HashedRequest -> string).

(** One transaction of the service, when the messages it may be handed are those [heard]. *)
Inductive order_step_hearing (heard : OrderQueue -> Envelope -> Prop) (db : OrderDb) : OrderDb -> Prop :=
  | os_create input key caller corr supplier t seen e r db' :
      create hashRequest input key caller corr supplier t seen e db = (r, db') -> order_step_hearing heard db db'
  | os_accept orderId ver caller corr key t e r db' :
      accept_order hashRequest orderId ver caller corr key t e db = (r, db') -> order_step_hearing heard db db'
  | os_command t orderId a ver caller corr reason key e r db' :
      a ∈ USER_ACTIONS ->
      command periods hashRequest t orderId a ver caller corr no_verify reason key e db = (r, db') ->
      order_step_hearing heard db db'
  | os_resolve t orderId o reason ver caller corr key seen e r db' :
      resolve periods hashRequest t orderId o reason ver caller corr key seen e db = (r, db') ->
      order_step_hearing heard db db'
  | os_deliver dir q v e r db' : heard q v -> deliver_order periods dir q v e db = (r, db') -> order_step_hearing heard db db'
  | os_timer corr orderId a now_ k verify patch reason susp e r db' :
      timer_fires orderId db a patch ->
      transaction (transitionUsing periods
        (timer_command corr orderId a now_ k verify patch reason susp)) e db = (r, db') ->
      order_step_hearing heard db db'
  | os_clear orderId e r db' :
      transaction (clearRequesterSuspended orderId) e db = (r, db') -> order_step_hearing heard db db'
  | os_alert orderId kind detail e r db' :
      transaction (raiseAlert orderId kind detail) e db = (r, db') -> order_step_hearing heard db db'
  | os_waits cutoff limit e r db' :
      transaction (raiseCreditWaitAlerts cutoff limit) e db = (r, db') -> order_step_hearing heard db db'
  | os_reconcile held input e r db' :
      transaction (recordReconciliation held input) e db = (r, db') -> order_step_hearing heard db db'
  | os_relay opts broker locked at_ rows' res :
      claimAndPublish opts broker locked at_ (ob_rows (orderOutbox db)) = (rows', res) ->
      order_step_hearing heard db (set_orderOutbox (mkOutbox rows' (ob_nextSeq (orderOutbox db))) db)
  | os_prune retention n waiting lo li stop at_ db' counts :
      pruneEventTables retention n waiting lo li stop at_ db = Some (db', counts) ->
      order_step_hearing heard db db'.

(** A transaction of the service whatever messages it is handed. *)
Definition order_step : OrderDb -> OrderDb -> Prop := order_step_hearing (fun _ _ => True).

Definition order_reachable (db : OrderDb) : Prop := rtc order_step empty_order_db db.

(** Whatever is allowed, if the service's own moves and those of the replies it hears are. *)
Lemma step_allowed heard allowed db db' :
  (forall h r, own_move h -> allowed h r) ->
  (forall q v h r, heard q v -> reply_move q v h r -> allowed h r) ->
  OrderInv db -> order_step_hearing heard db db' -> rtc (allowed_change periods allowed) db db'.
Proof.
  intros Hown Hreply I [].
  - by eapply create_changes.
  - by eapply accept_changes.
  - eapply command_changes; [| |done..]; [intros; by apply user_command_ok|].
    apply own_permits; [done|]. simpl. unfold USER_ACTIONS in *. apply bool_decide_eq_false. unfold CREDIT_ACTIONS. set_solver.
  - by eapply resolve_changes.
  - eapply deliver_changes; [done| |done..]. eauto.
  - by eapply timer_changes.
  - eapply sound_transaction; [|done..]. apply sound_mark.
  - eapply sound_transaction; [|done..]. apply sound_alert.
  - eapply sound_transaction; [|done..]. apply sound_waits.
  - eapply sound_transaction; [|done..]. apply sound_reconciliation.
  - by eapply one_frame, relay_frame.
  - by eapply one_frame, prune_frame.
Qed.

Notation changes := (rtc (change periods)).

Lemma step_changes db db' : OrderInv db -> order_step db db' -> changes db db'.
Proof. intros I Hs. eapply changes_plain, (step_allowed _ (fun _ _ => True)); [..|exact Hs]; done. Qed.

Lemma run_changes db db' : OrderInv db -> rtc order_step db db' -> changes db db'.
Proof.
  intros I Hr. revert I. induction Hr as [|db db1 db' Hs _ IH]; intros I; [done|].
  pose proof (step_changes _ _ I Hs) as Hc. etrans; [exact Hc|]. apply IH. by eapply changes_inv.
Qed.

Lemma run_inv db db' : OrderInv db -> rtc order_step db db' -> OrderInv db'.
Proof. intros I Hr. eapply changes_inv; [exact I|]. by apply run_changes. Qed.

Lemma order_reachable_inv db : order_reachable db -> OrderInv db.
Proof. apply run_inv, empty_order_inv. Qed.
End Steps.
