(* ===== verification/OrderSweep.v ===== *)
(** * OrderSweep: the scheduler and the reconciler run as steps of the service

    Each of their runs is many transactions with others in between. A triple [wruns P m Q] says that
    [m], started where the stable [P] holds, moves the tables by steps of the service alone and
    answers with [Q]. The one step that needs more than its own row is a referral: an administrator
    who took no part when the participants were read still has none when the referral commits. *)
From S2P Require Export OrderRuns.

Section Settled.
Context `{Zod} `{Pg} (periods : Periods) (hashRequest : HashedRequest -> string).

Notation changes := (rtc (change periods)).

(** ** A disputed errand gets no new participant *)

Definition settled (o : string) (db : OrderDb) : Prop :=
  exists st, orders db !! o = Some st /\ or_status (st_row st) ∈ disputed_or_after.

Lemma written_elsewhere o db id_ st' h rs ob :
  h_orderId h = id_ -> o <> id_ -> settled o db ->
  settled o (written db id_ st' h rs ob)
  /\ forall u, u ∈ participants o (written db id_ st' h rs ob) -> u ∈ participants o db.
Proof.
  intros Hh Hne (st & Hst & Hs). split; [exists st; simpl; by rewrite lookup_insert_ne|].
  intros u. by rewrite participants_elsewhere.
Qed.

Lemma change_settled o db db' :
  OrderInv db -> change periods db db' -> settled o db ->
  settled o db' /\ forall u, u ∈ participants o db' -> u ∈ participants o db.
Proof.
  intros I Hc (st0 & Hst0 & Hs0).
  assert (settled o db) as Hset by by exists st0.
  destruct Hc as [db' [Hr Hh]|id_ st a actor c d at_ times patch r' h rs new ob Hd _
    |id_ st c ver at_ h ob e Hst Hacc Ho _ _ _ _ _ _ _ _
    |id_ input at_ h key ob e1 e2 Hnew _ _ Ho _ _ _ _ _ _ _ _ _ _].
  - split; [|by intros u; rewrite (frame_participants db db')].
    specialize (Hr o). rewrite Hst0 in Hr. simpl in Hr.
    destruct (orders db' !! o) as [st'|] eqn:Hst'; simpl in Hr; [|done]. exists st'. split; [done|]. congruence.
  - destruct Hd as [Hst Hdec _ Ht Hp Hrow _ (He1 & _ & _ & He4 & _) _ _ _].
    destruct (decide (o = id_)) as [->|Hne]; [|by apply written_elsewhere].
    rewrite Hst in Hst0. injection Hst0 as <-.
    destruct (one_way_decision _ _ _ _ _ Hdec) as [_ _ W3 _ _ _ W7].
    destruct (step_fields periods _ _ _ _ _ _ Ht Hp) as (F1 & _ & F3 & _).
    rewrite <- Hrow in F1, F3. split.
    + eexists. split; [simpl; apply lookup_insert_eq|]. cbn [st_row]. rewrite F1. auto.
    + intros u. eapply participants_shrink; [exact Hst| |exact F3|rewrite He4; intros [= ->]; by apply W7].
      pose proof (set_columns_same (step_columns d at_ (st_row st) times patch) (st_row st)) as Hse.
      rewrite <- Hrow in Hse. by destruct Hse as (_ & -> & _).
  - apply written_elsewhere; [done| |done]. intros ->. rewrite Hst in Hst0. injection Hst0 as <-.
    unfold acceptable in Hacc. rewrite !andb_true_iff, bool_decide_eq_true in Hacc.
    destruct Hacc as [[[Hopen _] _] _]. rewrite Hopen in Hs0. revert Hs0. by apply (bool_decide_unpack _).
  - apply (written_elsewhere o db id_ (mkStored (pending_row id_ input at_) None) h [] ob); [done| |done].
    intros ->. congruence.
Qed.

Lemma changes_settled o db db' :
  OrderInv db -> changes db db' -> settled o db ->
  settled o db' /\ forall u, u ∈ participants o db' -> u ∈ participants o db.
Proof.
  intros I Hc. revert I. induction Hc as [|db db1 db' Hs _ IH]; intros I Hset; [by split|].
  destruct (change_settled _ _ _ I Hs Hset) as [Hset1 Hp1].
  destruct (IH (change_inv periods _ _ I Hs) Hset1) as [Hset' Hp']. split; auto.
Qed.

(** ** Triples *)

Notation runs := (rtc (order_step periods hashRequest)).

Definition stable (P : OrderDb -> Prop) : Prop :=
  forall db db', OrderInv db -> P db -> runs db db' -> P db'.

Lemma stable_true : stable (fun _ => True).
Proof. done. Qed.

Lemma stable_settled o : stable (settled o).
Proof.
  intros db db' I Hs Hr. by apply (changes_settled o db); [|eapply run_changes|].
Qed.

Lemma stable_no_part o admin : stable (fun db => settled o db /\ admin ∉ participants o db).
Proof.
  intros db db' I [Hs Hn] Hr. destruct (changes_settled o db db') as [? Hp]; [done|by eapply run_changes|done|].
  split; [done|]. auto.
Qed.

Context (envs : nat -> Env) (world : nat -> OrderDb -> OrderDb).
Context (others : forall k db, runs db (world k db)).
Context {R : Type}.

Definition wruns {A} (P : OrderDb -> Prop) (m : W R A) (Q : A -> OrderDb -> Prop) : Prop :=
  forall s r s', OrderInv (run_db s) -> P (run_db s) -> m s = (r, s') ->
    runs (run_db s) (run_db s') /\ forall a, r = Ok a -> Q a (run_db s').

Lemma wruns_ret {A} (P : OrderDb -> Prop) (a : A) : wruns P (w_ret a) (fun b db => b = a /\ P db).
Proof. intros s r s' _ HP [= <- <-]. split; [done|]. by intros b [= <-]. Qed.

Lemma wruns_throw {A} P x (Q : A -> OrderDb -> Prop) : wruns P (w_throw x) Q.
Proof. intros s r s' _ _ [= <- <-]. by split. Qed.

Lemma wruns_lift {A} (P : OrderDb -> Prop) (o : outcome A) : wruns P (w_lift o) (fun a db => o = Ok a /\ P db).
Proof. intros s r s' _ HP [= <- <-]. split; [done|]. by intros a ->. Qed.

Lemma wruns_count (P : OrderDb -> Prop) (f : R -> R) : wruns P (w_count f) (fun _ => P).
Proof. intros s r s' _ HP [= <- <-]. by split. Qed.

Lemma wruns_bind {A B} P (m : W R A) (k : A -> W R B) Q T :
  wruns P m Q -> (forall a, wruns (Q a) (k a) T) -> wruns P (w_bind m k) T.
Proof.
  intros Hm Hk s r s' I HP. unfold w_bind. destruct (m s) as [[a|x] s1] eqn:Hs.
  - destruct (Hm _ _ _ I HP Hs) as [H1 HQ]. intros Hr.
    destruct (Hk a s1 r s') as [H2 HT]; [by eapply run_inv|by apply HQ|done|].
    split; [by etrans|done].
  - intros [= <- <-]. destruct (Hm _ _ _ I HP Hs) as [H1 _]. by split.
Qed.

Lemma wruns_mono {A} P P' (m : W R A) Q Q' :
  wruns P m Q -> (forall db, P' db -> P db) -> (forall a db, Q a db -> Q' a db) -> wruns P' m Q'.
Proof. intros Hm HP HQ s r s' I Hp Hr. destruct (Hm s r s') as [? ?]; eauto. Qed.

Lemma wruns_catch {A} P (m : W R A) h (Q : A -> OrderDb -> Prop) :
  stable P -> wruns P m Q -> (forall x, wruns P (h x) Q) -> wruns P (w_catch m h) Q.
Proof.
  intros Hst Hm Hh s r s' I HP. unfold w_catch. destruct (m s) as [[a|x] s1] eqn:Hs;
    destruct (Hm _ _ _ I HP Hs) as [H1 HQ].
  - intros [= <- <-]. by split.
  - intros Hr. destruct (Hh x s1 r s') as [H2 HT]; [by eapply run_inv|by eapply Hst|done|].
    split; [by etrans|done].
Qed.

Lemma wruns_read {A} P (f : Z -> OrderDb -> A) :
  stable P -> wruns P (w_read envs world f) (fun a db => P db /\ exists t, a = f t db).
Proof.
  intros Hst s r s' I HP [= <- <-]. cbn [run_db]. split; [apply others|].
  intros a [= <-]. split; [by eapply Hst|]. eauto.
Qed.

Lemma wruns_tx {A} P (m : OrderM A) :
  stable P ->
  (forall e db r db', OrderInv db -> P db -> transaction m e db = (r, db') -> runs db db') ->
  wruns P (w_tx envs world m) (fun _ => P).
Proof.
  intros Hst Hm s r s' I HP Hr. unfold w_tx in Hr.
  destruct (transaction m _ _) as [o db'] eqn:Ht. injection Hr as <- <-. cbn [run_db].
  pose proof (others (run_k s) (run_db s)) as Hw.
  pose proof (run_inv _ _ _ _ I Hw) as I'. pose proof (Hst _ _ I HP Hw) as HP'.
  pose proof (Hm _ _ _ _ I' HP' Ht) as Hr. split; [by etrans|]. intros _ _. by eapply Hst.
Qed.

Lemma wruns_for {A} P (f : A -> W R unit) l :
  (forall a, a ∈ l -> wruns P (f a) (fun _ => P)) -> wruns P (w_for f l) (fun _ => P).
Proof.
  intros Hf. induction l as [|a l IH]; simpl.
  - eapply wruns_mono; [apply wruns_ret|done|by intros [] db [_ ?]].
  - eapply wruns_bind; [apply Hf, elem_of_cons; by left|].
    intros []. apply IH. intros. apply Hf, elem_of_cons. by right.
Qed.
End Settled.

(** ** OrderSweepRuns: whole sweeps and reconciliations, whatever runs in between

    [sweep] and [reconcile] move the tables by steps of the service alone, so whatever every step
    keeps they keep; a referral never names a participant, although it is chosen in one statement
    and written in another. *)

Section Sweeps.
Context `{Zod} `{Pg} (periods : Periods) (hashRequest : HashedRequest -> string).

Notation runs := (rtc (order_step periods hashRequest)).

Context (envs : nat -> Env) (world : nat -> OrderDb -> OrderDb) (corr : nat -> string).
Context (others : forall k db, runs db (world k db)).

Notation wruns := (wruns periods hashRequest).
Notation stable := (stable periods hashRequest).
Notation w_tx := (w_tx envs world).
Notation w_read := (w_read envs world).
Notation fire_ := (fire periods envs world corr).

Lemma wruns_weak {R A} P (m : W R A) Q : wruns P m Q -> (forall a db, Q a db -> P db) -> wruns P m (fun _ => P).
Proof. intros Hm Hq. eapply wruns_mono; [exact Hm|done|exact Hq]. Qed.

(** Continue after a step whose answer does not matter to what follows. *)
Lemma wruns_seq {R A B} P (m : W R A) (k : A -> W R B) T :
  wruns P m (fun _ => P) -> (forall a, wruns P (k a) T) -> wruns P (w_bind m k) T.
Proof. apply wruns_bind. Qed.

Lemma wruns_look {R A B} P (f : Z -> OrderDb -> A) (k : A -> W R B) T :
  stable P -> (forall a, wruns P (k a) T) -> wruns P (w_bind (w_read f) k) T.
Proof.
  intros Hs Hk. eapply wruns_bind; [by apply wruns_read|]. intros a.
  eapply wruns_mono; [apply Hk|by intros ? [? _]|done].
Qed.

Lemma wruns_done {R} (P : OrderDb -> Prop) : OrderSweep.wruns periods hashRequest (R := R) P (w_ret tt) (fun _ => P).
Proof. eapply wruns_weak; [apply wruns_ret|]. by intros ? ? [_ ?]. Qed.

Lemma wruns_fire P orderId a now_ verify patch reason susp :
  stable P -> (forall db, OrderInv db -> P db -> timer_fires orderId db a patch) ->
  wruns P (fire_ orderId a now_ verify patch reason susp) (fun _ => P).
Proof.
  intros Hst Hf s r s' I HP Hr. unfold OrderWorkers.fire in Hr. revert s r s' I HP Hr.
  assert (forall k, OrderSweep.wruns (R := SweepResult) periods hashRequest P (w_catch (w_bind (w_tx (transitionUsing periods
            (timer_command corr orderId a now_ k verify patch reason susp)))
          (fun out => w_ret (match out with Applied _ _ => true | Rejected _ _ => false end)))
        (fun x => match x with NotDue => w_ret false | _ => w_throw x end)) (fun _ => P)) as Hk.
  { intros k. apply wruns_catch; [done| |].
    - apply wruns_seq; [|intros; eapply wruns_weak; [apply wruns_ret|by intros ? ? [_ ?]]].
      apply wruns_tx; [done..|]. intros e db r0 db' I0 HP0 Ht. apply rtc_once.
      eapply os_timer; [by apply Hf|exact Ht].
    - intros []; try apply wruns_throw.
      eapply wruns_weak; [apply wruns_ret|by intros ? ? [_ ?]]. }
  intros s r s' I HP Hr. by apply (Hk (run_k s) s r s').
Qed.

Lemma wruns_fire_plain orderId a now_ verify reason susp :
  a ∈ [ACCEPTANCE_DEADLINE_PASSED; PICKUP_TIMEOUT; AUTO_CONFIRM; DELIVERY_PERIOD_PASSED] ->
  wruns (fun _ => True) (fire_ orderId a now_ verify [] reason susp) (fun _ _ => True).
Proof. intros Ha. apply wruns_fire; [by apply stable_true|]. intros. by apply tf_plain. Qed.

Lemma wruns_timers a now_ t deadline c l :
  a ∈ [ACCEPTANCE_DEADLINE_PASSED; PICKUP_TIMEOUT; AUTO_CONFIRM; DELIVERY_PERIOD_PASSED] ->
  wruns (fun _ => True) (w_for (fire_one periods envs world corr a now_ t deadline c) l) (fun _ _ => True).
Proof.
  intros Ha. apply wruns_for. intros o _. apply wruns_seq; [by apply wruns_fire_plain|].
  intros. apply wruns_count.
Qed.

Lemma wruns_referUndelivered dir now_ limit :
  wruns (fun _ => True) (referUndelivered periods envs world corr dir now_ limit) (fun _ _ => True).
Proof.
  apply wruns_look; [by apply stable_true|]. intros found. apply wruns_for. intros oq _.
  apply wruns_seq; [eapply wruns_weak; [apply wruns_lift|by intros ? ? _]|]. intros [].
  - apply wruns_seq; [apply wruns_fire_plain; set_solver|]. intros. apply wruns_count.
  - apply wruns_tx; [done|by apply stable_true|]. intros e db r db' _ _ Ht.
    by eapply rtc_once, os_clear.
Qed.

(** ** Referrals *)

Lemma leastReferred_elem admins db a : leastReferred admins db = Ok a -> a ∈ admins.
Proof.
  unfold leastReferred. destruct (order_by _ _) as [|b l] eqn:Ho; [done|]. intros [= ->].
  apply elem_of_remove_dups. rewrite <- (order_by_perm (less_referred db)), Ho. set_solver.
Qed.

Lemma referred_settled admins limit db d :
  OrderInv db -> d ∈ listDisputesToRefer admins limit db -> settled d.1 db.
Proof.
  intros I Hd. unfold listDisputesToRefer, scan in Hd.
  apply list_elem_of_fmap in Hd as (s & -> & Hs). apply elem_of_take in Hs as (i & Hi & _).
  apply list_elem_of_lookup_2 in Hi. rewrite order_by_perm in Hi.
  apply list_elem_of_In, filter_In in Hi as [Hi Hc]. apply andb_true_iff in Hc as [Hc _].
  apply list_elem_of_In in Hi. unfold order_list in Hi.
  apply list_elem_of_fmap in Hi as ([id_ s'] & -> & Hi). apply elem_of_map_to_list in Hi. simpl in *.
  exists s'. rewrite (oi_ids db I _ _ Hi). split; [done|]. unfold has_status in Hc.
  apply bool_decide_eq_true in Hc. rewrite Hc. unfold disputed_or_after. set_solver.
Qed.

Lemma wruns_refer_dispute admins now_ d :
  wruns (settled d.1) (refer_dispute periods envs world corr admins now_ d) (fun _ => settled d.1).
Proof.
  unfold refer_dispute. pose proof (stable_settled periods hashRequest d.1) as Hst.
  apply wruns_seq.
  { destruct d.2; [|eapply wruns_weak; [apply wruns_ret|by intros ? ? [_ ?]]].
    apply wruns_fire; [done|]. intros. apply tf_unassign. }
  intros [|]; [|apply wruns_done]. cbn [negb]. apply wruns_seq; [apply wruns_count|]. intros _.
  eapply wruns_bind; [by apply wruns_read|]. intros took_part. cbv beta.
  destruct (List.filter _ admins) as [|x l] eqn:He.
  - eapply wruns_mono with (P := settled d.1) (Q := fun _ => settled d.1); [|by intros ? [? _]|done].
    apply wruns_seq; [|intros; apply wruns_count]. apply wruns_tx; [done..|].
    intros e db r db' _ _ Ht. by eapply rtc_once, os_alert.
  - set (P := fun db => settled d.1 db /\ forall a, a ∈ x :: l -> a ∉ participants d.1 db).
    assert (stable P) as HP.
    { intros db db' I [Hs Hn] Hr. destruct (changes_settled periods d.1 db db') as [? Hp];
        [done|by eapply run_changes|done|]. split; [done|]. intros a Ha Hin. apply (Hn a Ha). auto. }
    eapply wruns_mono with (P := P) (Q := fun _ => P); [| |by intros ? ? [? _]].
    2:{ intros db [Hs [_ ->]]. split; [done|]. intros a Ha Hin. rewrite <- He in Ha.
        apply list_elem_of_In, filter_In in Ha as [_ Ha].
        apply negb_true_iff in Ha. rewrite existsb_false in Ha. specialize (Ha a Hin).
        by rewrite String.eqb_refl in Ha. }
    eapply wruns_bind; [by apply wruns_read|]. intros chosen. cbv beta.
    eapply wruns_bind; [apply wruns_lift|]. intros adminId. cbv beta.
    set (P' := fun db => P db /\ adminId ∈ x :: l).
    eapply wruns_mono with (P := P') (Q := fun _ => P'); [| |by intros ? ? [? _]].
    2:{ intros db [-> [HPd [t Hc]]]. split; [done|]. symmetry in Hc. by apply leastReferred_elem in Hc. }
    apply wruns_seq; [|intros; apply wruns_count]. apply wruns_fire.
    + intros db db' I [Hd ?] Hr. split; [by eapply HP|done].
    + intros db _ [[_ Hn] Ha]. apply tf_assign. by apply Hn.
Qed.

Lemma wruns_unless_down P (m : W SweepResult unit) :
  stable P -> wruns P m (fun _ => P) -> wruns P (unless_down m) (fun _ => P).
Proof.
  intros Hst Hm. apply wruns_catch; [done..|]. intros []; try apply wruns_throw. apply wruns_done.
Qed.

Lemma wruns_referDisputes dir now_ limit :
  wruns (fun _ => True) (referDisputes periods envs world corr dir now_ limit) (fun _ _ => True).
Proof.
  pose proof (stable_true periods hashRequest) as Hst.
  apply wruns_look; [done|]. intros [|]; [|apply wruns_done]. cbn [negb].
  apply wruns_seq; [eapply wruns_weak; [apply wruns_lift|done]|]. intros [|a l]; [apply wruns_done|].
  set (admins := a :: l). eapply wruns_bind with (Q := fun found db => forall d, d ∈ found -> settled d.1 db).
  - intros s r s' I _ [= <- <-]. cbn [run_db]. split; [apply others|].
    intros found [= <-] d Hd. eapply referred_settled; [|exact Hd]. by eapply run_inv.
  - intros found. set (P := fun db => forall d, d ∈ found -> settled d.1 db).
    eapply wruns_mono with (P := P) (Q := fun _ => P); [|done|done].
    apply wruns_for. intros d Hd s r s' I HP Hr.
    destruct (wruns_refer_dispute admins now_ d s r s' I (HP d Hd) Hr) as [Hruns _].
    split; [done|]. intros _ _ d' Hd'. eapply stable_settled; [exact I|by apply HP|exact Hruns].
Qed.

(** ** The runs *)

Lemma sweep_runs options dir :
  wruns (fun _ => True) (sweep periods envs world corr options dir) (fun _ _ => True).
Proof.
  pose proof (stable_true periods hashRequest) as Hst. unfold sweep.
  apply wruns_look; [done|]. intros now_.
  do 3 (apply wruns_look; [done|]; intros ?; apply wruns_seq; [apply wruns_timers; set_solver|]; intros _).
  apply wruns_seq; [apply wruns_tx; [done..|]; intros e db r db' _ _ Ht; by eapply rtc_once, os_waits|].
  intros raised. apply wruns_seq; [apply wruns_count|]. intros _.
  apply wruns_seq; [apply wruns_unless_down; [done|apply wruns_referUndelivered]|]. intros _.
  apply wruns_unless_down; [done|apply wruns_referDisputes].
Qed.

Lemma reconcile_runs options runId credit held :
  wruns (fun _ => True) (reconcile envs world options runId credit held) (fun _ _ => True).
Proof.
  pose proof (stable_true periods hashRequest) as Hst. unfold reconcile.
  apply wruns_look; [done|]. intros found. apply wruns_seq; [apply wruns_count|]. intros _.
  apply wruns_for. intros c _ s r s' I _ Hr. unfold reconcile_one in Hr.
  pose proof (fun b input => wruns_tx periods hashRequest envs world others (R := ReconciliationRun)
    (fun _ => True) (recordReconciliation b input)) as Htx.
  eapply (wruns_seq (fun _ => True)) with (T := fun _ _ => True) in Hr; [exact Hr| | |exact I|done].
  - apply Htx; [done|]. intros e db r0 db' _ _ Ht. by eapply rtc_once, os_reconcile.
  - intros. apply wruns_count.
Qed.
End Sweeps.
