(* ===== verification/OrderLive.v ===== *)
(** * OrderLive: an allowed command goes through

    With identifiers no table holds yet and the errand's own fit for the catalogue, a decision of the
    transition table is written, recorded and sent: no constraint, no schema and no clock stops it. *)
From S2P Require Export OrderRuns.

(** The identifiers a transaction draws are new, and it draws none twice. *)
Record fresh_order_ids (e : Env) (n : nat) (db : OrderDb) : Prop := mkFreshOrder {
  fo_inj : forall i j, (n <= i)%nat -> (n <= j)%nat -> env_uuid e i = env_uuid e j -> i = j;
  fo_history : forall k h, (n <= k)%nat -> h ∈ history db -> h_id h <> env_uuid e k;
  fo_outbox : forall k r, (n <= k)%nat -> r ∈ ob_rows (orderOutbox db) -> ob_id r <> env_uuid e k }.

Lemma trace_versions orderId hs s v : trace orderId hs s v -> forall h, h ∈ hs -> h_version h <= v.
Proof.
  induction 1 as [h ? ? ? ? Hv|hs s v h a actor c d Htr IH ? ? ? ? ? ? Hv]; intros x Hx.
  - apply list_elem_of_singleton in Hx as ->. lia.
  - apply elem_of_app in Hx as [Hx|Hx]; [specialize (IH x Hx); lia|].
    apply list_elem_of_singleton in Hx as ->. lia.
Qed.

Section Live.
Context `{Zod} `{Pg} (periods : Periods).

(** Identifiers PostgreSQL and the catalogue both take. *)
Definition well_named (r : OrderRow) : bool :=
  pg_uuid (or_orderId r) && zod_uuid (or_orderId r) && nonempty (or_orderId r)
  && nonempty (or_requesterId r) && optP (or_courierId r) nonempty.

Lemma order_ok_bounds r : order_ok r = true -> 1 <= or_reward r <= 5 /\ 1 <= or_version r.
Proof.
  unfold order_ok, order_checks, OrderSchema.between. simpl. rewrite !andb_true_iff, !Z.leb_le. tauto.
Qed.

Lemma order_ok_read r : order_ok (mapOrder r) = order_ok r.
Proof. unfold order_ok, order_checks. destruct r as [? ? ? ? ? ? ? ? ? ? ? ? ? ? ? ? ? ? [] [] ? [] ? [] ? ? ?]; reflexivity. Qed.

Lemma movement_ok_row r :
  order_ok r = true -> well_named r = true -> movement_ok (movement r) = true.
Proof.
  intros Hok Hw. apply order_ok_bounds in Hok as [Hb _]. unfold well_named in Hw.
  rewrite !andb_true_iff in Hw. destruct Hw as [[[[_ _] Ho] Hr] _].
  unfold movement_ok, movement, zint_positive, zint, MAX_SAFE_INTEGER. simpl. rewrite Ho, Hr.
  rewrite !andb_true_iff, !Z.leb_le, Z.ltb_lt. lia.
Qed.

(** ** Events *)

Definition sendable (before after : OrderRow) (at_ : Z) (ty : string) : Prop :=
  exists p f q, emittedEvent ty before after at_ = Ok p /\ assoc ty PAYLOAD_SCHEMAS = Some f
    /\ f p = Some q.

Lemma emit_runs cmd before after at_ types e n db :
  (forall ty, ty ∈ types -> sendable before after at_ ty) -> fresh_order_ids e n db ->
  exists n' o, mapM_ (emit cmd before after at_) types e (n, db)
               = Ok (tt, (n', set_orderOutbox o db)).
Proof.
  revert n db. induction types as [|ty types IH]; intros n db Hs F; simpl.
  { exists n, (orderOutbox db). unfold ret. by destruct db. }
  destruct (Hs ty) as (p & f & q & Hp & Hf & Hq); [set_solver|].
  set (o1 := append_row (new_row (env_uuid e n) (ob_nextSeq (orderOutbox db)) (env_now e)
               (mkNewEvent ty (or_orderId before) p (tc_correlationId cmd) (tc_causationId cmd)) q)
               (orderOutbox db)).
  destruct (IH (Datatypes.S n) (set_orderOutbox o1 db)) as (n' & o & Hrun).
  - intros. apply Hs. set_solver.
  - destruct F as [F1 F2 F3]. constructor.
    + intros i j Hi Hj. apply F1; lia.
    + intros k h Hk. apply F2. lia.
    + intros k r Hk. simpl. intros Hr. apply elem_of_app in Hr as [Hr|Hr]; [apply F3; [lia|done]|].
      apply list_elem_of_singleton in Hr as ->. simpl. intros Heq. apply F1 in Heq; lia.
  - pose proof (insertOutboxEvent_succeeds (S := OrderDb) (mkNewEvent ty (or_orderId before) p
      (tc_correlationId cmd) (tc_causationId cmd)) e n db f q Hf Hq
      (fun r Hr => fo_outbox _ _ _ F n r (le_n n) Hr)) as Hi.
    exists n', o. eapply bind_step; [|exact Hrun]. unfold emit, lift_outcome. rewrite Hp.
    run_plain. eapply bind_step; [exact Hi|]. reflexivity.
Qed.

(** What a decision sends, the catalogue takes. *)
Lemma decision_sendable s a actor c d before after at_ :
  decideTransition s a actor c = Some d -> order_ok after = true -> well_named after = true ->
  or_status after = to d -> or_version after <= MAX_SAFE_INTEGER ->
  forall ty, ty ∈ emitted d -> sendable before after at_ ty.
Proof.
  intros Hd Hok Hw Hst Hv ty Hty. pose proof (movement_ok_row after Hok Hw) as Hm.
  pose proof (order_ok_bounds _ Hok) as [_ Hv1].
  unfold well_named in Hw. rewrite !andb_true_iff in Hw. destruct Hw as [[[[_ Hz] _] _] Hc].
  assert (ty = ORDER_STATUS_CHANGED \/ (ty = ORDER_COMPLETION_REQUESTED /\ to d = COMPLETION_PENDING_CREDIT)
          \/ ty = CREDIT_RELEASE_REQUESTED) as Hcase.
  { apply decision_sends in Hd as [He _]. rewrite He in Hty.
    repeat case_bool_decide; unfold completion, release_, statusChanged in Hty;
      rewrite ?elem_of_cons, ?elem_of_nil in Hty; destruct_or?; try done; subst; auto. }
  destruct Hcase as [-> |[[-> Hto]| -> ]].
  - eexists _, _, _. split; [reflexivity|]. split; [reflexivity|].
    unfold orderStatusChangedPayload, status_payload. simpl. rewrite Hz. simpl.
    unfold zint_positive, zint. unfold MAX_SAFE_INTEGER in *.
    rewrite (proj2 (Z.leb_le _ _)), (proj2 (Z.leb_le _ _)), (proj2 (Z.ltb_lt _ _)) by lia. done.
  - assert (is_Some (or_courierId after)) as [x Hx].
    { unfold order_ok, order_checks in Hok. simpl in Hok. rewrite Hst, Hto, !andb_true_iff in Hok.
      destruct Hok as (_ & Hok & _). simpl in Hok. by destruct (or_courierId after). }
    rewrite Hx in Hc. simpl in Hc. unfold sendable, emittedEvent. simpl. rewrite Hx. unfold keep.
    rewrite Hc. eexists _, _, _. split; [reflexivity|]. split; [reflexivity|].
    unfold orderCompletionRequestedPayload. by rewrite Hm, Hc.
  - eexists _, _, _. split; [reflexivity|]. split; [reflexivity|].
    unfold creditReleaseRequestedPayload, movement_of. by rewrite Hm.
Qed.
(** ** The transition *)

(** Only a courier's suspension reads times that may be missing, and an accepted errand has them. *)
Lemma times_defined r a actor c d at_ :
  row_inv r = true -> decideTransition (or_status r) a actor c = Some d ->
  exists times, timestampPatch periods a d at_ (mapOrder r) = Ok times.
Proof.
  intros Hinv Hd. unfold timestampPatch.
  destruct (bool_decide (a = COURIER_SUSPENDED) && bool_decide (to d = OPEN)) eqn:Hc; [|eauto].
  apply andb_true_iff in Hc as [Ha Hto]. apply bool_decide_eq_true in Ha as ->.
  apply bool_decide_eq_true in Hto. apply row_inv_spec in Hinv as (_ & _ & _ & Hacc & _).
  apply decideTransition_rule in Hd as (rule & Hin & Hf & Ha & _ & _ & <-).
  unfold ORDER_TRANSITIONS in Hin. repeat rewrite elem_of_cons in Hin. rewrite elem_of_nil in Hin.
  destruct_or? Hin; try done; subst rule; simpl in Hf, Ha, Hto; try done.
  destruct (Hacc (eq_sym Hf)) as (x & y & Hx & Hy & _). simpl. rewrite Hx, Hy. simpl. eauto.
Qed.

Definition keeps_credit (c : Column) : bool :=
  match c with AvailableAtRejection _ | CreditTransactionId _ => false | _ => true end.

Lemma times_keep_credit a d at_ order times :
  timestampPatch periods a d at_ order = Ok times -> forallb keeps_credit times = true.
Proof.
  unfold timestampPatch, noCourier. intros Ht.
  repeat match type of Ht with context [bool_decide ?P] => destruct (bool_decide P) end; simpl in Ht;
    repeat case_match; simplify_eq; reflexivity.
Qed.

(** An errand a rule still applies to holds nothing Credit's answers leave behind. *)
Lemma movable_row r a actor c d :
  row_inv r = true -> decideTransition (or_status r) a actor c = Some d ->
  or_availableAtRejection r = None /\ or_creditTransactionId r = None.
Proof.
  intros Hinv Hd. apply row_inv_spec in Hinv as (_ & _ & _ & _ & _ & _ & _ & _ & _ & Hav & Htx).
  assert (or_status r ∉ TERMINAL_ORDER_STATUSES) as Hno
    by (intros Hin; by rewrite (terminal_final _ a actor c Hin) in Hd).
  unfold TERMINAL_ORDER_STATUSES in Hno. split; apply eq_None_not_Some; intros Hs.
  - apply Hno. rewrite (Hav Hs). set_solver.
  - apply Hno. specialize (Htx Hs). set_solver.
Qed.

Lemma step_writable a actor c d at_ r times :
  row_inv r = true -> decideTransition (or_status r) a actor c = Some d -> reads_release c r ->
  timestampPatch periods a d at_ (mapOrder r) = Ok times -> patch_ok a [] ->
  or_version r < INT4_MAX -> row_writable (set_columns (step_columns d at_ r times []) r) = true.
Proof.
  intros Hinv Hd Hrel Ht Hp Hv. destruct (step_row periods _ _ _ _ _ _ _ _ Hinv Hd Hrel Ht Hp) as [Hok _].
  specialize (Hok eq_refl). destruct (movable_row _ _ _ _ _ Hinv Hd) as [Hav Htx].
  destruct (step_fields periods _ _ _ _ _ _ Ht Hp) as (_ & F2 & _).
  pose proof (times_keep_credit _ _ _ _ _ Ht) as Hk.
  set (r' := set_columns _ _) in *. unfold row_writable. rewrite Hok.
  pose proof (order_ok_bounds _ Hok) as [Hr Hv1].
  assert (forallb keeps_credit (step_columns d at_ r times []) = true) as Hkc.
  { unfold step_columns. rewrite app_nil_r, !forallb_app, Hk. by destruct (decidedReason d). }
  assert (or_availableAtRejection r' = None) as ->.
  { rewrite <- Hav. by apply (set_columns_keeps _ keeps_credit); [intros [] []|]. }
  assert (or_creditTransactionId r' = None) as ->.
  { rewrite <- Htx. by apply (set_columns_keeps _ keeps_credit); [intros [] []|]. }
  unfold in_int4, INT4_MIN, INT4_MAX in *. simpl. rewrite !andb_true_iff, !Z.leb_le. lia.
Qed.

Lemma set_columns_named cs r :
  or_courierId (set_columns cs r) = or_courierId r \/ or_courierId (set_columns cs r) = None ->
  well_named r = true -> well_named (set_columns cs r) = true.
Proof.
  destruct (set_columns_same cs r) as (Ho & Hq & _). unfold well_named. rewrite <- Ho, <- Hq.
  intros [->| ->]; [done|]. rewrite !andb_true_iff. simpl. tauto.
Qed.

Lemma transition_runs cmd e n db st d :
  OrderInv db -> fresh_order_ids e n db -> orders db !! tc_orderId cmd = Some st ->
  tc_patch cmd = [] -> patch_ok (tc_action cmd) [] -> tc_afterApply cmd = no_after ->
  well_named (st_row st) = true -> or_version (st_row st) < INT4_MAX ->
  decideTransition (or_status (st_row st)) (tc_action cmd)
    (resolveActor (mapOrder (st_row st)) (tc_actor cmd))
    (transition_context cmd (mapOrder (st_row st)) (default (iso (env_now e)) (tc_now cmd))) = Some d ->
  (forall v, tc_expectedVersion cmd = Some v -> v = or_version (st_row st)) ->
  tc_verify cmd (mapOrder (st_row st)) = None ->
  exists n' db' r', transitionUsing periods cmd e (n, db) = Ok (Applied (mapOrder r') d, (n', db')).
Proof.
  intros I F Hst Hpatch Hp Haf Hw Hv Hd Hver Hvf.
  pose proof (oi_ids db I _ _ Hst) as Hid. pose proof (oi_rows db I _ _ Hst) as Hinv.
  assert (pg_uuid (tc_orderId cmd) = true) as Hu.
  { unfold well_named in Hw. rewrite !andb_true_iff in Hw. rewrite <- Hid. tauto. }
  set (now_ := default (iso (env_now e)) (tc_now cmd)) in *.
  destruct (times_defined (st_row st) _ _ _ _ now_ Hinv Hd) as [times Ht].
  set (r' := set_columns (step_columns d now_ (st_row st) times []) (st_row st)).
  assert (row_writable r' = true) as Hwr by by eapply step_writable.
  destruct (step_fields periods _ _ _ _ _ _ Ht Hp) as (F1 & F2 & F3 & _). fold r' in F1, F2, F3.
  set (actor := resolveActor _ _) in *.
  set (h := mkHistory (env_uuid e n) (tc_orderId cmd) (Some (or_status (st_row st))) (or_status r')
              (Did (tc_action cmd)) (HISTORY_ACTOR actor) (actor_id (tc_actor cmd))
              (trim <$> tc_reason cmd) (or_version r') now_).
  set (db1 := set_orders (<[tc_orderId cmd := mkStored r' (st_requesterSuspendedAt st)]> (orders db)) db).
  set (db2 := set_history (history db ++ [h]) db1).
  assert (update_order (tc_orderId cmd) (fun r => or_version r =? or_version (mapOrder (st_row st)))
            (fun _ => decision_columns cmd d now_ (mapOrder (st_row st)) times) e (n, db)
          = Ok (Some r', (n, db1))) as Hup.
  { pose proof (update_order_Some (tc_orderId cmd)
      (fun r => or_version r =? or_version (mapOrder (st_row st)))
      (fun _ => decision_columns cmd d now_ (mapOrder (st_row st)) times) e n db (st_row st)
      (st_requesterSuspendedAt st)) as Hup.
    assert (decision_columns cmd d now_ (mapOrder (st_row st)) times
            = step_columns d now_ (st_row st) times []) as Hcols
      by (unfold decision_columns; by rewrite Hpatch).
    cbv beta in Hup. rewrite Hcols in Hup. unfold decision_columns in *. rewrite Hpatch.
    apply Hup; [done|rewrite Hst; by destruct st|apply Z.eqb_refl|done]. }
  assert (insert_history h e (Datatypes.S n, db1) = Ok (tt, (Datatypes.S n, db2))) as Hh.
  { apply insert_history_ok. cbn [h h_version h_id h_orderId]. rewrite F2. split; [|split; [|split; [|split]]].
    - pose proof (order_ok_bounds _ (row_writable_ok _ Hwr)) as [_ Hv1]. rewrite F2 in Hv1.
      unfold in_int4, INT4_MIN, INT4_MAX in *. rewrite andb_true_iff, !Z.leb_le. lia.
    - intros y Hy. by apply (fo_history _ _ _ F).
    - intros y Hy Ho Hve. pose proof (trace_versions _ _ _ _ (oi_trace db I _ _ Hst) y) as Hle.
      rewrite entries_elem in Hle. specialize (Hle (conj Hy Ho)). lia.
    - simpl. rewrite lookup_insert_eq. eauto.
    - done. }
  destruct (emit_runs cmd (mapOrder (st_row st)) (mapOrder r') now_ (emitted d) e (Datatypes.S n) db2)
    as (n' & o & Hem).
  - eapply decision_sendable; [exact Hd| | |exact F1|].
    + rewrite order_ok_read. by apply row_writable_ok.
    + change (well_named r' = true). by apply set_columns_named.
    + change (or_version r' <= MAX_SAFE_INTEGER). rewrite F2. unfold INT4_MAX, MAX_SAFE_INTEGER in *. lia.
  - destruct F as [G1 G2 G3]. constructor.
    + intros i j ? ?. apply G1; lia.
    + intros k x Hk. simpl. intros Hx. apply elem_of_app in Hx as [Hx|Hx]; [apply G2; [lia|done]|].
      apply list_elem_of_singleton in Hx as ->. simpl. intros Heq. apply G1 in Heq; lia.
    + intros k r Hk. apply G3. lia.
  - exists n', (set_orderOutbox o db2), r'. unfold transitionUsing.
    eapply bind_step; [by apply findByIdUsing_ok|]. rewrite Hst. cbn [fmap option_fmap option_map].
    run_plain. fold now_. fold actor. change (or_status (mapOrder (st_row st))) with (or_status (st_row st)).
    rewrite Hd. destruct (tc_expectedVersion cmd) as [v|].
    all: try rewrite (Hver v eq_refl); try (change (or_version (mapOrder (st_row st))) with (or_version (st_row st));
      rewrite Z.eqb_refl; cbn [negb]).
    all: rewrite Hvf; unfold apply_decision, lift_outcome; rewrite Ht; run_plain.
    all: change (or_orderId (mapOrder (st_row st))) with (or_orderId (st_row st)); rewrite Hid.
    all: eapply bind_step; [exact Hup|]; cbv beta iota; run_plain.
    all: eapply bind_step; [exact Hh|]; rewrite Haf; run_plain.
    all: eapply bind_step; [exact Hem|]; reflexivity.
Qed.
End Live.
