(* ===== verification/OrderTheorems.v ===== *)
(** * OrderTheorems: what the Order Service promises

    Each property of every reachable state, every run or every command, with a concrete run that
    shows its hypotheses hold. *)
From S2P Require Export OrderLive OrderSweep.

(** ** Lemmas about runs *)

Section RunFacts.
Context `{Zod} `{Pg} (periods : Periods) (hashRequest : HashedRequest -> string).

Notation changes := (rtc (change periods)).
Notation reachable := (order_reachable periods hashRequest).

(** A relation that every change keeps, a run keeps. *)
Lemma changes_keep (R : OrderDb -> OrderDb -> Prop) db db' :
  (forall d, R d d) -> (forall d1 d2 d3, R d1 d2 -> R d2 d3 -> R d1 d3) ->
  (forall d d', OrderInv d -> change periods d d' -> R d d') ->
  OrderInv db -> changes db db' -> R db db'.
Proof.
  intros Hrefl Htrans Hone I Hc. revert I.
  induction Hc as [|d d1 d' Hs _ IH]; intros I; [apply Hrefl|].
  eapply Htrans; [by apply Hone|]. apply IH. by eapply change_inv.
Qed.

Definition keys_kept (db db' : OrderDb) : Prop :=
  (forall k row, commandKeys db !! k = Some row -> commandKeys db' !! k = Some row)
  /\ (forall k key, creationKeys db !! k = Some key -> creationKeys db' !! k = Some key).

Lemma run_keys db db' : OrderInv db -> rtc (order_step periods hashRequest) db db' -> keys_kept db db'.
Proof.
  intros I Hr. apply changes_keep; [by split| |apply change_keys|done|by eapply run_changes].
  intros d1 d2 d3 [A1 B1] [A2 B2]. split; auto.
Qed.

Lemma run_request db db' ty o p :
  OrderInv db -> rtc (order_step periods hashRequest) db db' -> request_of db ty o p ->
  request_of db' ty o p.
Proof.
  intros I Hr. apply (changes_keep (fun d d' => request_of d ty o p -> request_of d' ty o p));
    [done|auto|intros d d' I' Hc; by eapply change_request|done|by eapply run_changes].
Qed.

(** A closed errand's row never changes again. *)
Definition closed_kept (o : string) (db db' : OrderDb) : Prop := forall st,
  orders db !! o = Some st -> or_status (st_row st) ∈ TERMINAL_ORDER_STATUSES ->
  exists st', orders db' !! o = Some st' /\ st_row st' = st_row st.

Lemma change_closed o db db' : OrderInv db -> change periods db db' -> closed_kept o db db'.
Proof.
  intros I Hc st Hst Hterm. destruct Hc as [db' [Hr _ _ _ _ _ _]|id_ st0 a actor c d at_ times patch r' h rs new ob Hd _
    |id_ st0 c ver at_ h ob e Hst0 Hacc _ _ _ _ _ _ _ _ _
    |id_ input at_ h key ob e1 e2 Hnew _ _ _ _ _ _ _ _ _ _ _ _ _].
  - apply same_rows_sym in Hr. destruct (frame_lookup _ _ _ _ Hr Hst) as (st' & ? & ?). eauto.
  - exists st. split; [|done]. simpl. rewrite lookup_insert_ne; [done|]. intros ->.
    pose proof (dc_found _ _ _ _ _ _ _ _ _ _ _ _ _ _ _ Hd) as Hst0.
    pose proof (dc_decision _ _ _ _ _ _ _ _ _ _ _ _ _ _ _ Hd) as Hdec.
    rewrite Hst in Hst0. injection Hst0 as <-. by rewrite terminal_final in Hdec.
  - exists st. split; [|done]. simpl. rewrite lookup_insert_ne; [done|]. intros ->.
    rewrite Hst in Hst0. injection Hst0 as <-. unfold acceptable in Hacc.
    rewrite !andb_true_iff, bool_decide_eq_true in Hacc. destruct Hacc as [[[Hopen _] _] _].
    rewrite Hopen in Hterm. revert Hterm. by apply (bool_decide_unpack _).
  - exists st. split; [|done]. simpl. rewrite lookup_insert_ne; [done|]. intros ->. congruence.
Qed.

Lemma run_closed o db db' :
  OrderInv db -> rtc (order_step periods hashRequest) db db' -> closed_kept o db db'.
Proof.
  intros I Hr. apply changes_keep; [intros d st; eauto| |apply change_closed|done|by eapply run_changes].
  intros d1 d2 d3 H1 H2 st Hst Ht. destruct (H1 st Hst Ht) as (st1 & Hst1 & Heq).
  destruct (H2 st1 Hst1) as (st2 & ? & ?); [by rewrite Heq|]. exists st2. split; [done|congruence].
Qed.
End RunFacts.

(** ** The properties *)

Section Promises.
Context `{Zod} `{Pg} (periods : Periods) (hashRequest : HashedRequest -> string).

Notation runs := (rtc (order_step periods hashRequest)).
Notation reachable := (order_reachable periods hashRequest).

(** C3: In every reachable state an errand's history is a path through the transition table: it
    starts with the creation in PENDING_CREDIT, every later entry is a rule's transition by a rule's
    actor from the status the entry before it left, the last one leaves the errand's own status, and
    there is exactly one entry for each version the errand has had. *)
Theorem history_explains (db : OrderDb) (o : string) (st : Stored) :
  reachable db -> orders db !! o = Some st ->
  trace o (entries o db) (or_status (st_row st)) (or_version (st_row st))
  /\ or_version (st_row st) = Z.of_nat (length (entries o db)).
Proof.
  intros Hr Hst. pose proof (oi_trace db (order_reachable_inv _ _ _ Hr) _ _ Hst) as Ht.
  split; [done|]. by eapply trace_length.
Qed.

(** C4: The service never asks Credit both to pay an errand's reward to a courier and to return it:
    once a completion request is in the outbox no later state holds a release request about the
    same errand, nor the other way round; and each request restates the requester and reward of
    the errand as it stands in any later state, a completion request its courier too. *)
Theorem pays_or_returns (db db' : OrderDb) (e e' : OutboxRow) :
  reachable db -> runs db db' -> e ∈ ob_rows (orderOutbox db) -> e' ∈ ob_rows (orderOutbox db') ->
  ob_aggregateId e' = ob_aggregateId e ->
  ~ (ob_eventType e = ORDER_COMPLETION_REQUESTED /\ ob_eventType e' = CREDIT_RELEASE_REQUESTED)
  /\ ~ (ob_eventType e = CREDIT_RELEASE_REQUESTED /\ ob_eventType e' = ORDER_COMPLETION_REQUESTED)
  /\ request_of db' (ob_eventType e) (ob_aggregateId e) (ob_payload e).
Proof.
  intros Hr Hrun He He' Hagg. pose proof (order_reachable_inv _ _ _ Hr) as I.
  pose proof (run_inv _ _ _ _ I Hrun) as I'.
  pose proof (run_request _ _ _ _ _ _ _ I Hrun (oi_requests db I e He)) as (H1 & H2 & H3).
  destruct (oi_requests db' I' e' He') as (G1 & G2 & _). rewrite Hagg in *.
  assert (forall s, s ∈ paying -> s ∈ refunding -> False) as Hdisj.
  { intros s Hp Hq. unfold paying, refunding in *. set_solver. }
  split; [|split].
  - intros [E1 E2]. destruct (H1 E1) as (st & c & Hst & _ & _ & Hs).
    destruct (G2 E2) as (st' & Hst' & _ & Hs'). simplify_eq. eauto.
  - intros [E1 E2]. destruct (H2 E1) as (st & Hst & _ & Hs).
    destruct (G1 E2) as (st' & c & Hst' & _ & _ & Hs'). simplify_eq. eauto.
  - by repeat split.
Qed.

(** In every reachable state a receipt stands for a completed errand, with its requester, courier,
    supplier, items, reward and Credit transaction, and every completed errand has a receipt. *)
Theorem receipt_iff_completed (db : OrderDb) (o : string) (st : Stored) :
  reachable db -> orders db !! o = Some st ->
  (or_status (st_row st) = COMPLETED <-> exists rc, rc ∈ receipts db /\ rc_orderId rc = o)
  /\ forall rc, rc ∈ receipts db -> rc_orderId rc = o -> receipt_of rc (st_row st).
Proof.
  intros Hr Hst. pose proof (order_reachable_inv _ _ _ Hr) as I.
  assert (forall rc, rc ∈ receipts db -> rc_orderId rc = o ->
            or_status (st_row st) = COMPLETED /\ receipt_of rc (st_row st)) as Hrc.
  { intros rc Hin <-. destruct (oi_receipts db I rc Hin) as (st' & Hst' & ? & ?). by simplify_eq. }
  split; [split|].
  - by apply (oi_completed db I).
  - intros (rc & Hin & Ho). by apply (Hrc rc).
  - intros rc Hin Ho. by apply Hrc.
Qed.

(** C16: Disputes are decided impartially: in every reachable state each decision was made by an
    identified administrator who is not, and never was, the errand's requester or courier, and the
    same holds of whoever an errand is referred to. *)
Theorem decisions_impartial (db : OrderDb) (h : History) :
  reachable db -> h ∈ history db ->
  (h_action h = Did RESOLVE_FOR_COURIER \/ h_action h = Did RESOLVE_FOR_REQUESTER ->
     exists admin, h_actorId h = Some admin /\ admin ∉ participants (h_orderId h) db)
  /\ forall o st admin, orders db !! o = Some st -> or_referredAdminId (st_row st) = Some admin ->
       admin ∉ participants o db.
Proof.
  intros Hr Hh. pose proof (order_reachable_inv _ _ _ Hr) as I. split.
  - intros Hd. by apply (oi_decisions db I).
  - intros o st admin. by apply (oi_admin db I).
Qed.

(** C38: Every stored errand has the fields its status needs and no others: every CHECK of its table
    holds, an errand being carried has a courier who is not its requester, an open one has a
    deadline and no courier, a referred administrator comes only after a dispute, and what Credit
    answered is recorded only on the errand it closed. *)
Theorem errand_shape (db : OrderDb) (o : string) (st : Stored) :
  reachable db -> orders db !! o = Some st ->
  let r := st_row st in
  or_orderId r = o /\ order_ok r = true
  /\ (or_status r ∈ needs_courier -> exists c, or_courierId r = Some c /\ c <> or_requesterId r)
  /\ (or_status r ∈ [PENDING_CREDIT; REJECTED; OPEN] -> or_courierId r = None)
  /\ (or_status r ∈ [OPEN; ACCEPTED] -> is_Some (or_acceptanceDeadlineAt r))
  /\ (is_Some (or_referredAdminId r) -> or_status r ∈ disputed_or_after)
  /\ (is_Some (or_creditTransactionId r) <-> or_status r ∈ [COMPLETED; CANCELLED; EXPIRED])
  /\ (is_Some (or_rejectionReason r) <-> or_status r = REJECTED).
Proof.
  intros Hr Hst r. pose proof (order_reachable_inv _ _ _ Hr) as I.
  pose proof (oi_rows db I _ _ Hst) as Hinv. pose proof (oi_ids db I _ _ Hst) as Hid.
  apply row_inv_spec in Hinv as (Hok & _ & Hdl & _ & _ & _ & Hne & Hadm & Hopen & _ & Htx).
  pose proof Hok as Hchk. unfold order_ok, order_checks in Hchk. simpl in Hchk.
  rewrite !andb_true_iff, !orb_true_iff, !bool_decide_eq_true in Hchk.
  destruct Hchk as (C1 & C2 & _ & _ & _ & _ & _ & C8 & _ & C10 & _).
  assert (forall A (x : option A), is_some x = true <-> is_Some x) as Hsome.
  { intros A [x|]; simpl; split; [eauto|done|done|by intros [? ?]]. }
  rewrite !andb_true_iff, !Hsome in *. fold r in Hid, Hok, Hdl, Hne, Hadm, Hopen, Htx, C1, C2, C8, C10.
  split; [done|]. split; [done|]. split; [|split; [done|]; split; [done|]; split; [done|]; split].
  - intros Hn. destruct C2 as [C2|[c Hc]]; [done|]. exists c. auto.
  - split; [done|]. intros Hs. rewrite !elem_of_cons, elem_of_nil in Hs.
    destruct Hs as [Hs|Hs]; [destruct C1; [done|tauto]|].
    destruct C10 as [C10|C10]; [|tauto]. exfalso. apply C10. set_solver.
  - apply Bool.eqb_prop in C8. rewrite <- Hsome. fold r. rewrite <- C8. apply bool_decide_eq_true.
Qed.

End Promises.

(** ** OrderApiTheorems: what a caller of the Order Service's API is promised

    Acceptance, commands, idempotency, refusals and privacy: each statement is about one request on
    any reachable state. *)

(** ** Views *)

Lemma shown_row t order caller :
  or_status order ∉ [PENDING_CREDIT; REJECTED] -> is_Some (projectOrder t order caller).
Proof.
  intros Hs. unfold projectOrder, has_status_of. rewrite !bool_decide_false by set_solver. simpl. eauto.
Qed.

Lemma shown_requester t order caller :
  is_requester order caller = true -> is_Some (projectOrder t order caller).
Proof. intros Hr. unfold projectOrder. rewrite Hr. simpl. rewrite andb_false_r. simpl. eauto. Qed.

Lemma stranger_view t order caller v :
  can_read_private order caller = false -> projectOrder t order caller = Some v ->
  v = publicOrderView t order /\ or_status order ∉ [PENDING_CREDIT; REJECTED].
Proof.
  unfold can_read_private. intros Hp Hv. rewrite !orb_false_iff in Hp. destruct Hp as [[Hr Hc] Ha].
  unfold projectOrder, can_read_private in Hv. rewrite Hr, Hc, Ha in Hv. simpl in Hv.
  unfold has_status_of in Hv. rewrite andb_true_r in Hv. repeat case_bool_decide; simpl in Hv; try done;
    injection Hv as <-; (split; [done|set_solver]).
Qed.

(** ** What a refused computation leaves *)

Section Refusals.
Context `{Zod} `{Pg} (periods : Periods) (hashRequest : HashedRequest -> string).

(** An answer that throws was given to a run that changed nothing. *)
Definition refusal_is_pure {T} (run : OrderM T) (answer : T -> outcome OrderView) (db : OrderDb) : Prop :=
  forall e a n db' x, run e (0%nat, db) = Ok (a, (n, db')) -> answer a = Throw x -> db' = db.

Lemma once_refused {T} t caller key request o (run : OrderM T) answer e db x db' :
  refusal_is_pure run answer db ->
  once hashRequest t caller key request o run answer e db = (Throw x, db') -> db' = db.
Proof.
  intros Hp. unfold once. destruct key as [k|].
  - destruct (transaction _ e db) as [[[v|order]|y] db1] eqn:Ht.
    + by intros [= ? ?].
    + intros [= _ <-]. apply transaction_ok in Ht as [n Ht]. unfold withCommandKey in Ht.
      apply bind_ok in Ht as (keys & s & Hq & Ht). apply gets_ok in Hq as [= -> ->]. simpl in Ht.
      destruct (commandKeys db !! _) as [row|].
      * apply bind_ok in Ht as ([] & s & Hq & Ht). apply require_ok in Hq as [_ [= ->]].
        apply bind_ok in Ht as (f & s & Hq & Ht). apply findByIdUsing_ok in Hq as [_ [= -> ->]].
        destruct (orders db !! _); [|done]. by apply ret_ok in Ht as [= _ _ <-].
      * apply bind_ok in Ht as (a & s & _ & Ht). apply bind_ok in Ht as ([] & s' & _ & Ht).
        by apply ret_ok in Ht as [=].
    + apply transaction_throw in Ht as ->. by intros [= _ <-].
  - destruct (transaction run e db) as [[a|y] db1] eqn:Ht.
    + intros [= Ha <-]. apply transaction_ok in Ht as [n Ht]. eauto.
    + apply transaction_throw in Ht as ->. by intros [= _ <-].
Qed.

Lemma accept_refusal o caller ver corr t db :
  OrderInv db -> refusal_is_pure (acceptUsing o (userId caller) ver corr) (acceptance t caller) db.
Proof.
  intros I e a n db' x Hr Ha.
  apply (acceptUsing_ok periods) in Hr as [[-> _]|(st & _ & _ & -> & _)]; [done| |by apply (oi_ids db I)].
  exfalso. simpl in Ha. set (r' := mapOrder _) in Ha.
  destruct (shown_row t r' caller) as [v Hv]; [|by rewrite Hv in Ha].
  unfold r', accept_columns, set_columns. simpl. by destruct (st_row st).
Qed.

Lemma command_refusal t o a ver caller corr verify reason db :
  OrderInv db -> (forall db, command_ok (user_command o a ver caller corr verify reason) db) ->
  a <> CREDIT_RESERVED -> a <> CREDIT_REJECTED ->
  refusal_is_pure (transitionUsing periods (user_command o a ver caller corr verify reason))
    (answer t a caller) db.
Proof.
  intros I Hc H1 H2 e res n db' x Hr Ha.
  apply transitionUsing_ok in Hr as [[-> _]|(st & d & times & r' & _ & _ & _ & -> & Happ)];
    [done| |by apply (oi_ids db I)|done].
  exfalso. apply applied_facts in Happ as (Hdec & F1 & _).
  simpl in Ha. destruct (shown_row t (mapOrder r') caller) as [v Hv]; [|by rewrite Hv in Ha].
  change (or_status (mapOrder r')) with (or_status r'). rewrite F1.
  apply decideTransition_rule in Hdec as (rule & Hin & _ & Hact & _ & _ & <-). simpl in Hact.
  assert (action rule <> CREDIT_RESERVED /\ action rule <> CREDIT_REJECTED) as [K1 K2] by by rewrite Hact.
  clear -Hin K1 K2. unfold ORDER_TRANSITIONS in Hin. repeat rewrite elem_of_cons in Hin.
  rewrite elem_of_nil in Hin. destruct_or? Hin; try done; subst rule; simpl in *; try done;
    by apply (bool_decide_unpack _).
Qed.
End Refusals.

(** ** The properties *)

Section Api.
Context `{Zod} `{Pg} (periods : Periods) (hashRequest : HashedRequest -> string).

Notation runs := (rtc (order_step periods hashRequest)).
Notation reachable := (order_reachable periods hashRequest).


(** A request that is refused changes nothing: whatever exception an acceptance, a command, a
    decision or a creation answers with, and with or without an Idempotency-Key, every table is as
    it was before the request. *)
Theorem refused_changes_nothing (db db' : OrderDb) (x : Exn) (e : Env) (t : Z) :
  reachable db ->
  (forall o ver caller corr key,
     accept_order hashRequest o ver caller corr key t e db = (Throw x, db') -> db' = db)
  /\ (forall o a ver caller corr reason key, a ∈ USER_ACTIONS ->
     command periods hashRequest t o a ver caller corr no_verify reason key e db = (Throw x, db') -> db' = db)
  /\ (forall o out reason ver caller corr key seen,
     resolve periods hashRequest t o out reason ver caller corr key seen e db = (Throw x, db') -> db' = db)
  /\ (forall input key caller corr supplier seen,
     create hashRequest input key caller corr supplier t seen e db = (Throw x, db') -> db' = db).
Proof.
  intros Hr. pose proof (order_reachable_inv _ _ _ Hr) as I. split; [|split; [|split]].
  - intros o ver caller corr key. apply once_refused. by apply (accept_refusal periods).
  - intros o a ver caller corr reason key Ha. apply once_refused. apply command_refusal; [done| | |].
    + intros. by apply user_command_ok.
    + intros ->. unfold USER_ACTIONS in Ha. set_solver.
    + intros ->. unfold USER_ACTIONS in Ha. set_solver.
  - intros o out reason ver caller corr key seen. unfold resolve.
    destruct (read_order _ _); [|by intros [= _ <-]]. destruct (projectOrder _ _); [|by intros [= _ <-]].
    destruct (existsb _ _); [by intros [= _ <-]|]. apply once_refused.
    apply command_refusal; [done| |by destruct out|by destruct out]. intros. apply resolve_command_ok.
  - intros input key caller corr supplier seen. unfold create.
    destruct (findIdempotent _ _ _) as [[h o]|]; [by intros [= _ <-]|].
    destruct supplier as [s|y]; [|by intros [= _ <-]].
    destruct (transaction _ e db) as [[[order rep]|y] db1] eqn:Ht.
    + intros [= Hp <-]. apply transaction_ok in Ht as [n Hc].
      apply (createPending_ok periods) in Hc
        as [(_ & -> & _)|(_ & _ & k & -> & _)]; [done| |apply no_order_fault_pure].
      exfalso. set (row := mapOrder _) in Hp. destruct (shown_requester t row caller) as [v Hv];
        [apply String.eqb_refl|by rewrite Hv in Hp].
    + apply transaction_throw in Ht as ->. by intros [= _ <-].
Qed.

(** C31: What an errand shows depends on who asks. Someone who is neither its requester, nor its courier,
    nor the administrator it is referred to is answered with its public view alone, never while it
    is PENDING_CREDIT or REJECTED, and is refused the private view, the history and the receipt; each
    of the three is always answered in full: the view, the instructions and the history. *)
Theorem private_to_participants (db : OrderDb) (o : string) (st : Stored) (caller : Caller) (t : Z) :
  reachable db -> orders db !! o = Some st ->
  let order := mapOrder (st_row st) in
  (can_read_private order caller = false ->
     (forall v, getById t o caller false db = Ok v ->
        v = publicOrderView t order /\ or_status order ∉ [PENDING_CREDIT; REJECTED])
     /\ ~ is_ok (getById t o caller true db) /\ ~ is_ok (history_view t o caller db)
     /\ ~ is_ok (receipt t o caller db))
  /\ (is_requester order caller = true \/ is_referred_admin order caller = true
      \/ is_courier order caller = true /\ or_status order ∉ [PENDING_CREDIT; REJECTED] ->
     exists v, getById t o caller true db = Ok v
       /\ v_deliveryInstructions v = Some (or_deliveryInstructions order) /\ v_items v = or_items order
       /\ is_ok (history_view t o caller db)).
Proof.
  intros Hr Hst order. pose proof (order_reachable_inv _ _ _ Hr) as I.
  assert (read_order o db = Some order) as Hread by (unfold read_order; by rewrite Hst).
  unfold getById, history_view, receipt. rewrite Hread. split.
  - intros Hp. destruct (projectOrder t order caller) as [v|] eqn:Hv.
    2:{ simpl. split; [done|]. split_and!; by intros []. }
    destruct (stranger_view _ _ _ _ Hp Hv) as [-> Hs]. simpl. split; [by intros ? [= <-]|].
    split_and!; by intros [].
  - intros Hwho. assert (can_read_private order caller = true) as Hp.
    { unfold can_read_private. rewrite !orb_true_iff. tauto. }
    assert (nonempty (or_deliveryInstructions order) = true) as Hne.
    { pose proof (oi_rows db I _ _ Hst) as Hinv. apply row_inv_spec in Hinv as (Hok & _).
      unfold order_ok, order_checks in Hok. simpl in Hok. rewrite !andb_true_iff in Hok.
      destruct Hok as (_ & _ & _ & Hlen & _). unfold order. simpl.
      unfold nonempty. destruct (String.eqb_spec (or_deliveryInstructions (st_row st)) "") as [Heq|]; [|done].
      by rewrite Heq in Hlen. }
    assert (exists v, projectOrder t order caller = Some v
      /\ v_deliveryInstructions v = Some (or_deliveryInstructions order) /\ v_items v = or_items order)
      as (v & Hv & Hi & Hit).
    { unfold projectOrder. rewrite Hp.
      assert ((has_status_of order PENDING_CREDIT || has_status_of order REJECTED)
              && negb (is_requester order caller) && negb (is_referred_admin order caller) = false) as ->.
      { destruct Hwho as [->|[->|[_ Hs]]]; [by rewrite andb_false_r|by rewrite andb_false_r|].
        unfold has_status_of. by rewrite !bool_decide_false by set_solver. }
      eexists. split; [reflexivity|]. by split. }
    exists v. rewrite Hv. unfold shows_private. rewrite Hi. unfold truthy, keep. rewrite Hne. simpl.
    by repeat split.
Qed.
End Api.

(** ** OrderCommandTheorems: commands, their repetition, and the workers

    What a command answers on each of its branches, what its Idempotency-Key makes of a repetition,
    and what a sweep, a reconciliation and the open board do as wholes. *)

Section Commands.
Context `{Zod} `{Pg} (periods : Periods) (hashRequest : HashedRequest -> string).

Notation runs := (rtc (order_step periods hashRequest)).
Notation reachable := (order_reachable periods hashRequest).

(** A request that succeeded under a key left the key recorded with its digest. *)
Lemma once_recorded {T} t caller k request o (run : OrderM T) answer e db v db' :
  once hashRequest t caller (Some k) request o run answer e db = (Ok v, db') ->
  exists row, commandKeys db' !! (userId caller, k) = Some row /\ k_requestHash row = hashRequest request
    /\ pg_uuid (k_orderId row) = true.
Proof.
  unfold once. destruct (transaction _ e db) as [[r|x] db1] eqn:Ht; [|by destruct x].
  intros Hv. assert (db1 = db') as -> by (destruct r; congruence). clear Hv.
  apply transaction_ok in Ht as [n Ht]. unfold withCommandKey in Ht.
  apply bind_ok in Ht as (keys & s & Hq & Ht). apply gets_ok in Hq as [= -> ->]. simpl in Ht.
  destruct (commandKeys db !! _) as [row|] eqn:Hrow.
  - apply bind_ok in Ht as ([] & s & Hq & Ht). apply require_ok in Hq as [Hh [= ->]].
    apply bind_ok in Ht as (f & s & Hq & Ht). apply findByIdUsing_ok in Hq as [Hu [= -> ->]].
    destruct (orders db !! _); [|done]. apply ret_ok in Ht as [= _ _ ->].
    exists row. split; [done|]. split; [by apply String.eqb_eq|done].
  - apply bind_ok in Ht as (a & [n1 s1] & _ & Ht). apply bind_ok in Ht as ([] & s2 & Hi & Ht).
    apply ret_ok in Ht as [= _ <-]. unfold insert_command_key, as_uuid in Hi. unfold_checks. inv_tx.
    eexists. simpl. split; [apply lookup_insert_eq|]. by split.
Qed.

Ltac run_replay Hst Hu :=
  unfold require, bind, ret, findByIdUsing, as_uuid, require, gets; rewrite ?Hu; unfold bind, ret;
  cbn [snd fst]; rewrite Hst; reflexivity.

(** What a command refused for [reason] is told about an order it may see. *)
Definition told (t : Z) (a : OrderAction) (order : OrderRow) (caller : Caller) (refusal : Refusal)
  : outcome OrderView := answer t a caller (Rejected refusal (Some order)).

(** C11: A participant's command does what the transition table says, on every branch. When no rule
    applies it is refused, as a conflict if the action is this actor's in some status and as
    forbidden otherwise; a rule that applies to a version the caller did not name is refused as a
    change; and otherwise the command goes through: the errand moves to the rule's status at the
    next version, with one history entry by that caller, and the caller is answered with its view. *)
Theorem command_decides (db : OrderDb) (o corr : string) (st : Stored) (a : OrderAction) (ver t : Z)
    (caller : Caller) (e : Env) :
  reachable db -> orders db !! o = Some st -> a ∈ USER_ACTIONS -> fresh_order_ids e 0 db ->
  well_named (st_row st) = true -> or_version (st_row st) < INT4_MAX ->
  let order := mapOrder (st_row st) in
  let cmd := user_command o a ver caller corr no_verify None in
  let actor := resolveActor order (tc_actor cmd) in
  let '(r, db') := command periods hashRequest t o a ver caller corr no_verify None None e db in
  match decideTransition (or_status order) a actor (transition_context cmd order (iso (env_now e))) with
  | None =>
      db' = db
      /\ r = told t a order caller (if allowedSomewhere a actor then INVALID_STATE else FORBIDDEN)
  | Some d =>
      if ver =? or_version order then
        exists v st' h, r = Ok v /\ orders db' !! o = Some st' /\ or_status (st_row st') = to d
          /\ or_version (st_row st') = ver + 1 /\ same_errand (st_row st) (st_row st')
          /\ history db' = history db ++ [h] /\ h_orderId h = o /\ h_action h = Did a
          /\ h_actorId h = Some (userId caller) /\ h_version h = ver + 1
      else db' = db /\ r = told t a order caller VERSION_CONFLICT
  end.
Proof.
  intros Hr Hst Ha F Hw Hv order cmd actor. pose proof (order_reachable_inv _ _ _ Hr) as I.
  assert (forall db, command_ok cmd db) as Hcmd by (intros; by apply user_command_ok).
  assert (pg_uuid o = true) as Hu.
  { unfold well_named in Hw. rewrite !andb_true_iff, (oi_ids db I _ _ Hst) in Hw. tauto. }
  assert (findByIdUsing o e (0%nat, db) = Ok (Some order, (0%nat, db))) as Hfind.
  { apply findByIdUsing_ok. by rewrite Hst. }
  unfold command, once. fold cmd. unfold transaction.
  destruct (decideTransition _ _ _ _) as [d|] eqn:Hd.
  - destruct (Z.eqb_spec ver (or_version order)) as [Heq|Hne].
    + destruct (transition_runs periods cmd e 0 db st d) as (n' & db' & r' & Hrun); try done.
      { unfold USER_ACTIONS in Ha. rewrite !elem_of_cons, elem_of_nil in Ha.
        destruct_or? Ha; try done; by subst a. }
      { intros v [= <-]. exact Heq. }
      rewrite Hrun. pose proof Hrun as Hinv.
      apply transitionUsing_ok in Hinv as [[_ (? & ? & ?)]|(st0 & d0 & times & r0 & Hst0 & _ & _ & Hres & Happ)];
        [done| |by apply (oi_ids db I)|done].
      apply applied_facts in Happ as (_ & F1 & F2 & Hse & Hst' & h & Eh & E1 & E4 & E5 & E6).
      change (tc_orderId cmd) with o in *. rewrite Hst in Hst0. injection Hst0 as <-.
      assert (d0 = d) as -> by congruence. change (or_version order) with (or_version (st_row st)) in Heq.
      destruct (answer t a caller (Applied (mapOrder r') d)) as [v|x] eqn:Hans.
      2:{ exfalso. pose proof (command_refusal periods t o a ver caller corr no_verify None db I Hcmd) as Href.
          assert (a <> CREDIT_RESERVED /\ a <> CREDIT_REJECTED) as [K1 K2]
            by (unfold USER_ACTIONS in Ha; set_solver).
          specialize (Href K1 K2 e _ _ _ _ Hrun Hans). rewrite Href in Eh.
          apply (f_equal length) in Eh. rewrite length_app in Eh. simpl in Eh. lia. }
      exists v, (mkStored r0 (st_requesterSuspendedAt st)), h.
      rewrite Heq. split_and!; done.
    + unfold transitionUsing. rewrite (bind_step _ _ _ _ _ _ _ Hfind eq_refl). unfold bind, now.
      change (decideTransition (or_status order) (tc_action cmd) (resolveActor order (tc_actor cmd))
        (transition_context cmd order (default (iso (env_now e)) (tc_now cmd)))) with
        (decideTransition (or_status order) a actor (transition_context cmd order (iso (env_now e)))).
      rewrite Hd. change (or_version order) with (or_version (st_row st)) in *. simpl.
      destruct (Z.eqb_spec ver (or_version (st_row st))); [done|]. by split.
  - unfold transitionUsing. rewrite (bind_step _ _ _ _ _ _ _ Hfind eq_refl). unfold bind, now.
    change (decideTransition (or_status order) (tc_action cmd) (resolveActor order (tc_actor cmd))
      (transition_context cmd order (default (iso (env_now e)) (tc_now cmd)))) with
      (decideTransition (or_status order) a actor (transition_context cmd order (iso (env_now e)))).
    rewrite Hd. by split.
Qed.


(** An Idempotency-Key makes one errand. After a creation with a key, the same request with the
    key, whether it sees the recorded errand beforehand or races past that look and meets it in its
    own transaction, is answered with that errand as a replay and creates nothing; a different
    request under the key is refused. *)
Theorem created_once (db db1 db2 seen : OrderDb) (input input' : CreateOrderInput) (key corr corr' : string)
    (caller : Caller) (supplier supplier' : outcome SupplierSnapshot) (t t' : Z) (e e' : Env)
    (v : OrderView) (seen0 : OrderDb) :
  reachable db -> create hashRequest input key caller corr supplier t seen0 e db = (Ok (v, false), db1) ->
  runs db1 db2 ->
  runs db1 seen \/ (findIdempotent (userId caller) key seen = None /\ is_ok supplier') ->
  let again := create hashRequest input' key caller corr' supplier' t' seen e' db2 in
  (hashRequest (CreateRequest input') = hashRequest (CreateRequest input) ->
     exists w, again = (Ok (w, true), db2) /\ v_orderId w = v_orderId v)
  /\ (hashRequest (CreateRequest input') <> hashRequest (CreateRequest input) ->
     again = (Throw idempotencyReused, db2)).
Proof.
  intros Hr Hc Hrun Hseen again. pose proof (order_reachable_inv _ _ _ Hr) as I.
  assert (rtc (change periods) db db1) as Hch
    by (eapply changes_plain, (create_changes _ _ (fun _ _ => True)); done).
  pose proof (changes_inv _ _ _ I Hch) as I1. pose proof (run_inv _ _ _ _ I1 Hrun) as I2.
  assert (exists k, creationKeys db1 !! (userId caller, key) = Some k
            /\ k_requestHash k = hashRequest (CreateRequest input) /\ k_orderId k = v_orderId v
            /\ pg_uuid (k_orderId k) = true) as (k & Hk & Hhash & Ho & Hu).
  { unfold create in Hc. destruct (findIdempotent _ _ _) as [[h o]|].
    { destruct (negb _); [done|]. by destruct (projectOrder _ _). }
    destruct supplier as [sn|]; [|done]. destruct (transaction _ e db) as [[[order rep]|x] d1] eqn:Ht;
      [|by destruct x]. injection Hc as Hp <-. destruct (projectOrder t order caller) as [w|] eqn:Hw; [|done].
    injection Hp as -> ->. apply transaction_ok in Ht as [n Ht].
    apply (createPending_ok periods) in Ht
      as [(? & _)|(_ & _ & k & -> & E1 & E2 & E3 & E4 & _)]; [done| |apply no_order_fault_pure].
    exists k. split; [exact E4|]. split; [exact E3|]. rewrite E1. split; [|done].
    unfold projectOrder in Hw. destruct (_ && _); [done|]. by injection Hw as <-. }
  assert (forall d, OrderInv d -> runs db1 d -> creationKeys d !! (userId caller, key) = Some k
            /\ exists st, orders d !! k_orderId k = Some st /\ or_requesterId (st_row st) = userId caller
                 /\ or_orderId (st_row st) = v_orderId v) as Hlater.
  { intros d Id Hd. destruct (run_keys _ _ _ _ I1 Hd) as [_ Hkept]. pose proof (Hkept _ _ Hk) as Hkd.
    split; [done|]. destruct (oi_keys d Id _ _ Hkd) as (st & Hst & Hq). exists st.
    split; [done|]. split; [done|]. by rewrite (oi_ids d Id _ _ Hst). }
  assert (forall st, or_requesterId (st_row st) = userId caller -> or_orderId (st_row st) = v_orderId v ->
            exists w, projectOrder t' (mapStored st) caller = Some w /\ v_orderId w = v_orderId v) as Hshow.
  { intros st Hq Hid. destruct (shown_requester t' (mapStored st) caller) as [w Hw].
    { unfold is_requester. change (or_requesterId (mapStored st)) with (or_requesterId (st_row st)).
      rewrite Hq. apply String.eqb_refl. }
    exists w. split; [done|]. unfold projectOrder in Hw. destruct (_ && _); [done|]. by injection Hw as <-. }
  unfold again, create. destruct (findIdempotent (userId caller) key seen) as [[h order]|] eqn:Hf.
  - destruct Hseen as [Hseen|[? _]]; [|done]. pose proof (run_inv _ _ _ _ I1 Hseen) as Is.
    destruct (Hlater seen Is Hseen) as (Hks & st & Hst & Hq & Hid). unfold findIdempotent in Hf.
    rewrite Hks, Hst in Hf. injection Hf as <- <-. rewrite Hhash. split; intros Hh.
    + rewrite <- Hh, String.eqb_refl. simpl. destruct (Hshow st Hq Hid) as (w & -> & ?). eauto.
    + rewrite (proj2 (String.eqb_neq _ _)) by auto. reflexivity.
  - assert (is_ok supplier') as Hsup.
    { destruct Hseen as [Hseen|[_ ?]]; [|done]. pose proof (run_inv _ _ _ _ I1 Hseen) as Is.
      destruct (Hlater seen Is Hseen) as (Hks & st & Hst & _). unfold findIdempotent in Hf.
      by rewrite Hks, Hst in Hf. }
    destruct supplier' as [sn|]; [|done]. destruct (Hlater db2 I2 Hrun) as (Hk2 & st & Hst & Hq & Hid).
    split; intros Hh; unfold transaction, createPending, bind at 1, gets;
      cbn [snd ci_requesterId ci_idempotencyKey]; rewrite Hk2; cbn [ci_requestHash]; rewrite Hhash.
    + rewrite <- Hh, String.eqb_refl. unfold require, bind, ret, findByIdUsing, as_uuid, require, gets.
      rewrite Hu. unfold bind, ret. cbn [snd fst]. rewrite Hst. cbn.
      destruct (Hshow st Hq Hid) as (w & Hw & ?). unfold mapStored in Hw. rewrite Hw. eauto.
    + rewrite (proj2 (String.eqb_neq _ _)) by auto. reflexivity.
Qed.
End Commands.
