(* ===== verification/Saga.v ===== *)
(** * Saga: an errand and its credits, across the two services

    The Order Service and the Credit Service share no tables and no transaction: each writes events to
    its outbox and consumes the other's from its queues. [Saga] is both at once, with every event
    either ever wrote, because a broker may deliver one late, again, or out of order. A step is one
    transaction of one service, handed only messages the other wrote; the User Service's messages,
    the callers, the timers and the reconciler are as free as they are in each service alone. *)
From S2P Require Export CreditReplies OrderTheorems.

Record Saga := mkSaga {
  sg_orders : OrderDb;
  sg_credit : CreditDb;
  sg_asked : list OutboxRow;
  sg_answered : list OutboxRow }.

Definition empty_saga : Saga := mkSaga empty_order_db empty_credit [] [].

(** A message is an event as its row says it, whoever's inbox it meets. *)
Definition carries (row : OutboxRow) (v : Envelope) : Prop :=
  eventType v = ob_eventType row /\ aggregateId v = ob_aggregateId row /\ payload v = ob_payload row.

(** The event types each subscription takes, of the other service. *)
Definition order_listens (q : OrderQueue) : list string :=
  match q with
  | ReservationResults => [CREDITS_RESERVED; CREDIT_RESERVATION_REJECTED]
  | TransferResults => [CREDITS_TRANSFERRED]
  | ReleaseResults => [CREDITS_RELEASED]
  | UserSuspensions => []
  end.

Definition credit_listens (q : CreditQueue) : list string :=
  match q with
  | Activations => []
  | Reservations => [CREDIT_RESERVATION_REQUESTED]
  | Completions => [ORDER_COMPLETION_REQUESTED]
  | Releases => [CREDIT_RELEASE_REQUESTED]
  end.

Definition one_of (rows : list OutboxRow) (types : list string) (v : Envelope) : Prop :=
  eventType v ∈ types /\ exists row, row ∈ rows /\ carries row v.

Definition order_hears (answered : list OutboxRow) (q : OrderQueue) (v : Envelope) : Prop :=
  q = UserSuspensions \/ one_of answered (order_listens q) v.
Definition credit_hears (asked : list OutboxRow) (q : CreditQueue) (v : Envelope) : Prop :=
  q = Activations \/ one_of asked (credit_listens q) v.

Section Saga.
Context `{Zod} `{Pg} (periods : Periods) (hashRequest : HashedRequest -> string) (alloc : Z).

Inductive saga_step (s : Saga) : Saga -> Prop :=
  | sg_order db :
      order_step_hearing periods hashRequest (order_hears (sg_answered s)) (sg_orders s) db ->
      saga_step s (mkSaga db (sg_credit s) (ob_rows (orderOutbox db) ++ sg_asked s) (sg_answered s))
  | sg_credit_ db :
      credit_step_hearing alloc (credit_hears (sg_asked s)) (sg_credit s) db ->
      saga_step s (mkSaga (sg_orders s) db (sg_asked s) (ob_rows (creditOutbox db) ++ sg_answered s)).

Definition saga_reachable (s : Saga) : Prop := rtc saga_step empty_saga s.
End Saga.

(** ** Agreement *)

(** The credit lives an errand's status leaves possible. *)
Definition agree (s : OrderStatus) (l : Life) : bool :=
  match s, l with
  | PENDING_CREDIT, (Unseen | Refused | Held) => true
  | REJECTED, Refused => true
  | (OPEN | ACCEPTED | PICKED_UP | DELIVERED | DISPUTED), Held => true
  | COMPLETION_PENDING_CREDIT, (Held | Paid) => true
  | COMPLETED, Paid => true
  | RELEASE_PENDING_CREDIT, (Held | Returned) => true
  | (CANCELLED | EXPIRED), Returned => true
  | _, _ => false
  end.

Definition lives : list Life := [Unseen; Refused; Held; Paid; Returned].

(** What a reply that makes the move [a] says of the credit. *)
Definition credit_fact (a : OrderAction) (l : Life) : bool :=
  match a, l with
  | CREDIT_RESERVED, (Held | Paid | Returned) => true
  | CREDIT_REJECTED, Refused => true
  | TRANSFER_CONFIRMED, Paid => true
  | RELEASE_CONFIRMED, Returned => true
  | (CREDIT_RESERVED | CREDIT_REJECTED | TRANSFER_CONFIRMED | RELEASE_CONFIRMED), _ => false
  | _, _ => true
  end.

Definition rule_agrees (r : TransitionRule) : bool :=
  forallb (fun l => implb_ (agree (from_ r) l && credit_fact (action r) l) (agree (to (decide_ r)) l)) lives.

Lemma rules_agree : forallb rule_agrees ORDER_TRANSITIONS = true.
Proof. reflexivity. Qed.

Lemma decision_agrees s a actor c d l :
  decideTransition s a actor c = Some d -> agree s l = true -> credit_fact a l = true ->
  agree (to d) l = true.
Proof.
  intros Hd Hs Hf. apply decideTransition_rule in Hd as (r & Hin & <- & <- & _ & _ & <-).
  pose proof rules_agree as Hall. rewrite forallb_forall in Hall.
  specialize (Hall r (proj1 (list_elem_of_In _ _) Hin)). unfold rule_agrees in Hall.
  rewrite forallb_forall in Hall. assert (In l lives) as Hl by (destruct l; simpl; tauto).
  specialize (Hall l Hl). rewrite Hs, Hf in Hall. exact Hall.
Qed.

(** Credit moves on only for an errand that asked it to. *)
Lemma life_agrees s l l' :
  life_step l l' -> agree s l = true -> (l' = Paid -> s ∈ paying) -> (l' = Returned -> s ∈ refunding) ->
  agree s l' = true.
Proof.
  intros [] Ha Hp Hr; destruct s; try done;
    try (specialize (Hp eq_refl); revert Hp; apply (bool_decide_unpack _); done);
    try (specialize (Hr eq_refl); revert Hr; apply (bool_decide_unpack _); done).
Qed.

(** ** The invariant *)

(** Every operation of the books was asked for by the errand it names. *)
Definition asked_for (db : OrderDb) (o : string) (ty : OperationType) (r : Op) : Prop :=
  let m := mkMovement o (o_requester r) (o_amount r) in
  match ty with
  | OpReserve => request_of db CREDIT_RESERVATION_REQUESTED o (MovementP m)
  | OpTransfer => exists c, o_courier r = Some c
      /\ request_of db ORDER_COMPLETION_REQUESTED o (CompletionP m c)
  | OpRelease => request_of db CREDIT_RELEASE_REQUESTED o (MovementP m)
  end.

Notation Ops := (gmap (string * OperationType) Op).

(** The transaction a closed errand names is the one that settled it. *)
Definition settled_by (ops : Ops) (o : string) (r : OrderRow) : Prop :=
  (or_status r = COMPLETED ->
     exists op, ops !! (o, OpTransfer) = Some op /\ o_txn op = or_creditTransactionId r)
  /\ (or_status r = CANCELLED \/ or_status r = EXPIRED ->
     exists op, ops !! (o, OpRelease) = Some op /\ o_txn op = or_creditTransactionId r).

Definition row_agrees (ops : Ops) (o : string) (r : OrderRow) : Prop :=
  agree (or_status r) (life_ops ops o) = true /\ settled_by ops o r.

Definition in_step (db : OrderDb) (ops : Ops) : Prop :=
  (forall o ty r, ops !! (o, ty) = Some r -> asked_for db o ty r)
  /\ (forall o st, orders db !! o = Some st -> row_agrees ops o (st_row st)).

(** A reply that reports an operation on a reservation restating its own facts. *)
Definition truthful (db : CreditDb) (row : OutboxRow) : Prop :=
  exists m r, recorded db m row /\ operations db !! (mv_orderId m, OpReserve) = Some r /\ restates m r.

Record SagaInv `{Zod} (s : Saga) : Prop := mkSagaInv {
  sv_orders : OrderInv (sg_orders s);
  sv_credit : CreditInv (sg_credit s);
  sv_asked : forall row, row ∈ sg_asked s -> request_ok (sg_orders s) row;
  sv_sent : forall row, row ∈ ob_rows (creditOutbox (sg_credit s)) -> truthful (sg_credit s) row;
  sv_answered : forall row, row ∈ sg_answered s -> truthful (sg_credit s) row;
  sv_step : in_step (sg_orders s) (operations (sg_credit s)) }.

(** ** What a reply says holds *)

Section Replies.
Context `{Zod} (credit : CreditDb) (I : CreditInv credit).
Notation ops := (operations credit).

Lemma life_reserved o r : ops !! (o, OpReserve) = Some r ->
  o_outcome r = Succeeded -> credit_fact CREDIT_RESERVED (life_ops ops o) = true.
Proof.
  intros Hr Hs. unfold life_ops. destruct (ops !! (o, OpRelease)); [done|].
  destruct (ops !! (o, OpTransfer)); [done|]. by rewrite Hr, bool_decide_true.
Qed.

Lemma life_refused o r : ops !! (o, OpReserve) = Some r ->
  o_outcome r = CreditSchema.Rejected -> life_ops ops o = Refused.
Proof.
  intros Hr Hs. destruct (inv_ops credit I) as (Hops & _).
  assert (forall ty, ty <> OpReserve -> ops !! (o, ty) = None) as Hnone.
  { intros ty Hty. destruct (ops !! (o, ty)) as [x|] eqn:Hx; [exfalso|done].
    destruct (Hops _ _ _ Hx) as (_ & _ & _ & Ht). destruct (Ht Hty) as (_ & _ & r' & Hr' & Hsu & _).
    congruence. }
  unfold life_ops. rewrite !Hnone, Hr by done. by rewrite bool_decide_false by congruence.
Qed.

Lemma life_paid o r : ops !! (o, OpTransfer) = Some r -> life_ops ops o = Paid.
Proof.
  intros Hr. destruct (inv_ops credit I) as (_ & _ & Hone). unfold life_ops.
  destruct (ops !! (o, OpRelease)) eqn:Hx; [exfalso; eauto|]. by rewrite Hr.
Qed.

Lemma life_returned o r : ops !! (o, OpRelease) = Some r -> life_ops ops o = Returned.
Proof. intros Hr. unfold life_ops. by rewrite Hr. Qed.

(** The move a message makes is one its sender's books bear out. *)
Lemma reply_fact answered q v a r :
  (forall row, row ∈ answered -> truthful credit row) -> order_hears answered q v ->
  reply_move q v (Did a) r ->
  credit_fact a (life_ops ops (or_orderId r)) = true
  /\ (a = TRANSFER_CONFIRMED -> exists op,
        ops !! (or_orderId r, OpTransfer) = Some op /\ o_txn op = or_creditTransactionId r)
  /\ (a = RELEASE_CONFIRMED -> exists op,
        ops !! (or_orderId r, OpRelease) = Some op /\ o_txn op = or_creditTransactionId r).
Proof.
  intros Htrue Hh Hm. assert (or_orderId r = aggregateId v) as -> by (by destruct q, a; simpl in Hm; naive_solver).
  destruct Hh as [->|(Hty & row & Hrow & E1 & -> & E3)]; [done|].
  destruct (Htrue row Hrow) as (m & r0 & Hrec & Hr0 & Hst). rewrite E1 in Hty.
  destruct q, a; simpl in Hm; try done; rewrite ?E1, ?E3 in Hm; simpl in Hty;
    rewrite ?elem_of_cons, elem_of_nil in Hty.
  - destruct (recorded_reserved _ _ _ Hrec (proj1 Hm)) as (-> & op & Hop & Hs).
    split; [by eapply life_reserved|done].
  - assert (ob_eventType row = CREDIT_RESERVATION_REJECTED) as Ht by naive_solver.
    destruct (recorded_refused _ _ _ Hrec Ht) as (-> & op & Hop & [Hs|Hs]); [|by simplify_eq].
    split; [by rewrite (life_refused _ _ Hop Hs)|done].
  - assert (ob_eventType row = CREDITS_TRANSFERRED) as Ht by naive_solver.
    destruct (recorded_transferred _ _ _ Hrec Ht) as (-> & c & tid & rb & cb & op & Hp & Hop & Htx).
    destruct Hm as (m' & c' & tid' & rb' & cb' & Hq & _ & Htid). rewrite Hp in Hq. simpl in Hq.
    destruct (_ && _); [|done]. injection Hq as -> -> -> -> ->.
    split; [by rewrite (life_paid _ _ Hop)|]. split; [|done]. intros _. exists op. by rewrite Htid.
  - assert (ob_eventType row = CREDITS_RELEASED) as Ht by naive_solver.
    destruct (recorded_released _ _ _ Hrec Ht) as (-> & tid & rb & op & Hp & Hop & Htx).
    destruct Hm as (m' & tid' & rb' & Hq & _ & Htid). rewrite Hp in Hq. simpl in Hq.
    destruct (_ && _); [|done]. injection Hq as -> -> ->.
    split; [by rewrite (life_returned _ _ Hop)|]. split; [done|]. intros _. exists op. by rewrite Htid.
Qed.
End Replies.

(** ** A change of the Order Service keeps the two in step *)

Definition released_by (r : TransitionRule) : bool :=
  implb_ (bool_decide (to (decide_ r) = CANCELLED \/ to (decide_ r) = EXPIRED))
    (bool_decide (action r = RELEASE_CONFIRMED)).

Lemma rules_released : forallb released_by ORDER_TRANSITIONS = true.
Proof. reflexivity. Qed.

Lemma decision_released s a actor c d :
  decideTransition s a actor c = Some d -> to d = CANCELLED \/ to d = EXPIRED -> a = RELEASE_CONFIRMED.
Proof.
  intros Hd Ht. apply decideTransition_rule in Hd as (r & Hin & _ & <- & _ & _ & <-).
  pose proof rules_released as Hall. rewrite forallb_forall in Hall.
  specialize (Hall r (proj1 (list_elem_of_In _ _) Hin)). unfold released_by in Hall.
  eapply bool_decide_eq_true, (implb_true _ _ Hall).
  by apply bool_decide_eq_true.
Qed.

Section OrderSide.
Context `{Zod} `{Pg} (periods : Periods) (credit : CreditDb) (I : CreditInv credit).
Context (answered : list OutboxRow) (true_ : forall row, row ∈ answered -> truthful credit row).
Notation ops := (operations credit).

(** What the service may do having heard [answered]. *)
Definition answered_move (h : HistoryAction) (r : OrderRow) : Prop :=
  own_move h \/ exists q v, order_hears answered q v /\ reply_move q v h r.

Lemma move_fact a r :
  answered_move (Did a) r ->
  credit_fact a (life_ops ops (or_orderId r)) = true
  /\ (a = TRANSFER_CONFIRMED -> exists op,
        ops !! (or_orderId r, OpTransfer) = Some op /\ o_txn op = or_creditTransactionId r)
  /\ (a = RELEASE_CONFIRMED -> exists op,
        ops !! (or_orderId r, OpRelease) = Some op /\ o_txn op = or_creditTransactionId r).
Proof.
  intros [Hown|(q & v & Hh & Hm)]; [|by eapply reply_fact].
  assert (bool_decide (a ∈ CREDIT_ACTIONS) = false) as Ha by by apply bool_decide_eq_false.
  by destruct a.
Qed.

Lemma decided_agrees db o st a actor c d at_ times patch r' h rs new :
  decided periods db o st a actor c d at_ times patch r' h rs new -> or_orderId (st_row st) = o ->
  answered_move (Did a) r' -> row_agrees ops o (st_row st) -> row_agrees ops o r'.
Proof.
  intros [Hst Hdec _ Ht Hp -> _ _ _ _ _] Hid Hmove [Hag _].
  apply move_fact in Hmove as (Hf & Htra & Hrel). rewrite set_columns_id, Hid in *.
  destruct (step_fields periods _ _ _ _ _ _ Ht Hp) as (F1 & _). split; rewrite ?F1.
  - by eapply decision_agrees.
  - split; rewrite F1; intros Hs.
    + apply Htra. by apply (ow_completed _ _ _ (one_way_decision _ _ _ _ _ Hdec)).
    + apply Hrel. by eapply decision_released.
Qed.

Lemma accepted_agrees o c at_ ver r :
  acceptable c ver at_ r = true -> row_agrees ops o r ->
  row_agrees ops o (set_columns (accept_columns c at_ r) r).
Proof.
  intros Hacc [Hag _]. unfold acceptable in Hacc. rewrite !andb_true_iff, bool_decide_eq_true in Hacc.
  destruct Hacc as [[[Hopen _] _] _]. rewrite Hopen in Hag.
  assert (or_status (set_columns (accept_columns c at_ r) r) = ACCEPTED) as Hs by by destruct r.
  split; [rewrite Hs; by destruct (life_ops ops o)|]. split; rewrite Hs; [done|by intros []].
Qed.

Lemma created_agrees db o r :
  in_step db ops -> orders db !! o = None -> or_status r = PENDING_CREDIT -> row_agrees ops o r.
Proof.
  intros [Hask _] Hnone Hs.
  assert (forall ty, ops !! (o, ty) = None) as Hops.
  { intros ty. destruct (ops !! (o, ty)) as [x|] eqn:Hx; [exfalso|done]. apply Hask in Hx.
    destruct ty; simpl in Hx; [destruct Hx as (_ & _ & Hx)|destruct Hx as (_ & Hx & _)|
      destruct Hx as (c & _ & Hx & _)]; specialize (Hx eq_refl); naive_solver. }
  split; [|split; rewrite Hs; [done|by intros []]]. rewrite Hs. unfold life_ops. by rewrite !Hops.
Qed.

Lemma allowed_in_step db db' :
  OrderInv db -> allowed_change periods answered_move db db' -> in_step db ops -> in_step db' ops.
Proof.
  intros IO [Hc Hmoves] Hin. pose proof Hin as [Hask Hag]. split.
  - intros o ty r Hr. specialize (Hask o ty r Hr).
    destruct ty; simpl in *; [..|destruct Hask as (c & Hcc & Hask); exists c; split; [done|]];
      by eapply change_request.
  - intros o st' Hst'. destruct (Hmoves o st' Hst') as [Hsame|(h' & Hh' & Hal)].
    { destruct (orders db !! o) as [st|] eqn:Hst; [|done]. simpl in Hsame. injection Hsame as <-. eauto. }
    destruct Hc as [db' [Hr Hh]|id_ st a actor c d at_ times patch r' h rs new ob Hd _
      |id_ st c ver at_ h ob e Hst Hacc _ _ _ _ _ _ _ _ _
      |id_ input at_ h key ob e1 e2 Hnew _ _ _ _ _ _ _ _ _ _ _ _ _]; simpl in *.
    + destruct (frame_lookup _ _ _ _ Hr Hst') as (st & Hst & <-). eauto.
    + apply app_inj_tail in Hh' as [_ <-].
      destruct (decide (o = id_)) as [->|Hne]; [|rewrite lookup_insert_ne in Hst' by done; eauto].
      rewrite lookup_insert_eq in Hst'. injection Hst' as <-. cbn [st_row] in *.
      pose proof (dc_found _ _ _ _ _ _ _ _ _ _ _ _ _ _ _ Hd) as Hst.
      destruct (dc_entry _ _ _ _ _ _ _ _ _ _ _ _ _ _ _ Hd) as (_ & _ & _ & E & _). rewrite E in Hal.
      eapply decided_agrees; [exact Hd|by apply (oi_ids db IO)|done|by apply Hag].
    + destruct (decide (o = id_)) as [->|Hne]; [|rewrite lookup_insert_ne in Hst' by done; eauto].
      rewrite lookup_insert_eq in Hst'. injection Hst' as <-. by eapply accepted_agrees, Hag.
    + destruct (decide (o = id_)) as [->|Hne]; [|rewrite lookup_insert_ne in Hst' by done; eauto].
      rewrite lookup_insert_eq in Hst'. injection Hst' as <-. by eapply created_agrees.
Qed.
End OrderSide.

(** ** A step of the Credit Service keeps them in step *)

Section CreditSide.
Context `{Zod} (alloc : Z) (db : OrderDb) (asked : list OutboxRow).
Context (asked_ok : forall row, row ∈ asked -> request_ok db row).

(** A message asks for what its errand stands for. *)
Lemma heard_asks q v ty i c op :
  credit_hears asked q v -> topic q v (OnOrder ty i c) ->
  o_requester op = CreditRepository.ci_requesterId i -> o_amount op = ci_amount i -> o_courier op = c ->
  asked_for db (CreditRepository.ci_orderId i) ty op.
Proof.
  intros [->|(Hty & row & Hrow & E1 & E2 & E3)]; [by destruct ty, c|].
  destruct (asked_ok row Hrow) as (H1 & H2 & H3). rewrite E1 in Hty. unfold asked_for.
  intros Ht -> -> ->. destruct q, ty, c as [c|]; simpl in Ht; try done;
    destruct Ht as (m & Hp & Ha & ->); simpl in *; apply list_elem_of_singleton in Hty;
    rewrite E3 in Hp; rewrite E2 in Ha.
  - destruct (H3 Hty) as (st & Hst & Hpay). rewrite Hpay in Hp. unfold creditReservationRequestedPayload,
      movement_of in Hp. destruct (movement_ok _); [|done]. injection Hp as <-.
    rewrite Ha in Hst. split; [done|]. split; [done|]. intros _. by exists st.
  - destruct (H1 Hty) as (st & c' & Hst & Hc & Hpay & Hs). rewrite Hpay in Hp.
    simpl in Hp. destruct (_ && _); [|done]. injection Hp as <- <-. rewrite Ha in Hst.
    exists c'. split; [done|]. split; [|done]. intros _. by exists st, c'.
  - destruct (H2 Hty) as (st & Hst & Hpay & Hs). rewrite Hpay in Hp. unfold creditReleaseRequestedPayload,
      movement_of in Hp. destruct (movement_ok _); [|done]. injection Hp as <-.
    rewrite Ha in Hst. split; [done|]. split; [|done]. intros _. by exists st.
Qed.

Definition heard_subject (s : Subject) : Prop := exists q v, credit_hears asked q v /\ topic q v s.

Lemma effect_asked cd cd' :
  effect alloc heard_subject cd cd' ->
  (forall o ty r, operations cd !! (o, ty) = Some r -> asked_for db o ty r) ->
  forall o ty r, operations cd' !! (o, ty) = Some r -> asked_for db o ty r.
Proof.
  intros [d Hs|u tid e1 e2 t d _ Hu ? ? ? Hs|i rs av t d Hh Ho Hs|i w tid e1 e2 t d Hh Ho ? Hw ? ? ? Hs
    |i c r0 rw cw tid e1 e2 t d Hh Hact Hne Hno ? Hrw Hcw ? ? ? Hs|i r0 w tid e1 e2 t d Hh Hact Hno ? Hw ? ? Hs] Hold
    o ty r; destruct Hs as (_ & _ & _ & ->); simpl; auto;
    rewrite lookup_insert_Some; intros [[Heq <-]|[_ Hk]]; auto; injection Heq as <- <-;
    destruct Hh as (q & v & Hq & Ht); by eapply heard_asks.
Qed.

Lemma effect_in_step cd cd' :
  CreditInv cd -> effect alloc heard_subject cd cd' ->
  in_step db (operations cd) -> in_step db (operations cd').
Proof.
  intros I Heff [Hask Hag]. pose proof (effect_asked _ _ Heff Hask) as Hask'. split; [done|].
  intros o st Hst. destruct (Hag o st Hst) as [Hl [Hc Hr]]. split.
  - destruct (life_effect alloc _ _ _ o I Heff) as [->|Hstep]; [done|].
    apply (life_agrees _ _ _ Hstep Hl); unfold life_ops; intros Hlife.
    + destruct (operations cd' !! (o, OpRelease)); [done|].
      destruct (operations cd' !! (o, OpTransfer)) as [r|] eqn:Hop; [|by repeat case_match].
      destruct (Hask' _ _ _ Hop) as (c & _ & Hreq & _). destruct (Hreq eq_refl) as (st' & c' & Hst' & _ & _ & Hs).
      by simplify_eq.
    + destruct (operations cd' !! (o, OpRelease)) as [r|] eqn:Hop; [|by repeat case_match].
      destruct (Hask' _ _ _ Hop) as (_ & Hreq & _). destruct (Hreq eq_refl) as (st' & Hst' & _ & Hs).
      by simplify_eq.
  - split; intros Hs; [destruct (Hc Hs) as (op & Hop & Htx)|destruct (Hr Hs) as (op & Hop & Htx)];
      exists op; (split; [by eapply effect_keeps|done]).
Qed.

(** Its replies report what its errands asked for. *)
Lemma reply_truthful q v cd row :
  CreditInv cd -> (forall o ty r, operations cd !! (o, ty) = Some r -> asked_for db o ty r) ->
  credit_hears asked q v -> reply_to q v cd row -> truthful cd row.
Proof.
  intros I Hask Hh (ty & i & c & Ht & Hrec). set (m := CreditRepository.movement i) in *.
  assert (forall r, operations cd !! (mv_orderId m, OpReserve) = Some r ->
    (exists st, orders db !! mv_orderId m = Some st /\ m = movement (st_row st)) -> restates m r) as Hsame.
  { intros r Hr (st & Hst & Hm). apply Hask in Hr as (_ & _ & Hr). destruct (Hr eq_refl) as (st' & Hst' & Hp).
    rewrite Hst in Hst'. injection Hst' as <-. 
    assert (mkMovement (mv_orderId m) (o_requester r) (o_amount r) = m) as Heq by congruence.
    split; [by apply (f_equal mv_requesterId) in Heq|by apply (f_equal mv_amount) in Heq]. }
  assert (exists st, orders db !! mv_orderId m = Some st /\ m = movement (st_row st)) as Hst.
  { assert (asked_for db (CreditRepository.ci_orderId i) ty
      (mkOp (CreditRepository.ci_requesterId i) c (ci_amount i) Pending None None None None 0)) as Hop
      by by eapply heard_asks.
    destruct ty; simpl in Hop; [destruct Hop as (_ & _ & Hop)|destruct Hop as (_ & Hop & _)|
      destruct Hop as (c' & _ & Hop & _)]; specialize (Hop eq_refl).
    - destruct Hop as (st & Hst & Hp). exists st. split; [done|].
      change (MovementP m = MovementP (movement (st_row st))) in Hp. congruence.
    - destruct Hop as (st & Hst & Hp & _). exists st. split; [done|].
      change (MovementP m = MovementP (movement (st_row st))) in Hp. congruence.
    - destruct Hop as (st & c'' & Hst & _ & Hp & _). exists st. split; [done|].
      change (CompletionP m c' = CompletionP (movement (st_row st)) c'') in Hp. congruence. }
  assert (exists r, operations cd !! (mv_orderId m, OpReserve) = Some r) as [r Hr].
  { destruct (inv_ops cd I) as (Hops & _).
    destruct Hrec as [r _ Hop _ _|? ? r _ Hop _ _ _|r _ Hop _|? ? ? ? r _ Hop _ _ _|? ? r _ Hop _ _]; eauto;
      destruct (Hops _ _ _ Hop) as (_ & _ & _ & Hterm); destruct Hterm as (_ & _ & r' & Hr' & _); eauto. }
  exists m, r. split; [done|]. split; [done|]. auto.
Qed.
End CreditSide.

(** ** Every reachable state *)

Section Reachable.
Context `{Zod} `{Pg} (periods : Periods) (hashRequest : HashedRequest -> string) (alloc : Z).
Notation saga_step := (saga_step periods hashRequest alloc).
Notation saga_reachable := (saga_reachable periods hashRequest alloc).

Lemma empty_saga_inv : SagaInv empty_saga.
Proof.
  split; simpl; [apply empty_order_inv|apply CreditInv_empty|by intros ? ?%not_elem_of_nil..|].
  split; simpl; intros; by rewrite lookup_empty in *.
Qed.

Lemma order_side s db :
  SagaInv s -> order_step_hearing periods hashRequest (order_hears (sg_answered s)) (sg_orders s) db ->
  OrderInv db /\ in_step db (operations (sg_credit s)) /\ forall row, row ∈ sg_asked s -> request_ok db row.
Proof.
  intros [IO IC Hasked _ Hans Hin] Hs.
  assert (rtc (allowed_change periods (answered_move (sg_answered s))) (sg_orders s) db) as Hc.
  { eapply step_allowed; [| |exact IO|exact Hs]; [intros; by left|]. intros q v h r Hq Hm. right. eauto. }
  clear Hs. revert IO Hasked Hin. induction Hc as [|d d1 d2 Hone _ IH]; intros IO Hasked Hin; [done|].
  pose proof Hone as [Hch _]. apply IH.
  - by eapply change_inv.
  - intros row Hrow. by eapply change_request, Hasked.
  - by eapply (allowed_in_step periods (sg_credit s)).
Qed.

Lemma truthful_keeps cd cd' row :
  (forall k r, operations cd !! k = Some r -> operations cd' !! k = Some r) ->
  truthful cd row -> truthful cd' row.
Proof.
  intros Hk (m & r & Hrec & Hr & Hst). exists m, r. split; [by eapply recorded_keeps|]. auto.
Qed.

Lemma saga_step_inv s s' : SagaInv s -> saga_step s s' -> SagaInv s'.
Proof.
  intros Inv [db Hs|cd Hs].
  - destruct (order_side _ _ Inv Hs) as (IO & Hin & Hasked). destruct Inv as [_ IC _ Hsent Hans _].
    split; simpl; try done. intros row [Hrow|Hrow]%elem_of_app; [by apply (oi_requests db IO)|auto].
  - destruct Inv as [IO IC Hasked Hsent Hans Hin]. pose proof (hearing_step_inv _ _ _ _ IC Hs) as IC'.
    pose proof (hearing_effect _ _ _ _ Hs) as Heff.
    pose proof (effect_in_step alloc _ _ Hasked _ _ IC Heff Hin) as Hin'.
    assert (forall row, truthful (sg_credit s) row -> truthful cd row) as Hold.
    { intros row. apply truthful_keeps. intros k r. by eapply effect_keeps. }
    assert (forall row, row ∈ ob_rows (creditOutbox cd) -> truthful cd row) as Hnew.
    { intros row Hrow.
      destruct (hearing_replies _ _ _ _ _ IC Hs Hrow) as [(r & Hr & Hsame)|(q & v & Hq & Hreply)].
      - destruct (Hold r (Hsent r Hr)) as (m & x & Hrec & Hx). exists m, x. split; [by eapply recorded_same|done].
      - eapply reply_truthful; [exact Hasked|done|apply Hin'|done|done]. }
    split; simpl; try done. intros row [Hrow|Hrow]%elem_of_app; auto.
Qed.

Lemma saga_reachable_inv s : saga_reachable s -> SagaInv s.
Proof.
  unfold Saga.saga_reachable. intros Hr.
  assert (forall a b, rtc saga_step a b -> SagaInv a -> SagaInv b) as Hrun.
  { induction 1; eauto using saga_step_inv. }
  eapply Hrun; [exact Hr|apply empty_saga_inv].
Qed.
End Reachable.

(** ** The properties *)

Section Properties.
Context `{Zod} `{Pg} (periods : Periods) (hashRequest : HashedRequest -> string) (alloc : Z).
Notation saga_step := (saga_step periods hashRequest alloc).
Notation saga_reachable := (saga_reachable periods hashRequest alloc).

(** C1: The two services never disagree about an errand, whatever the order, the delay and the
    repetition of the messages between them. Credit's status of every errand is one its Order status
    leaves possible: refused for a rejected one, held while it is open, carried or disputed, at
    most not yet settled while it is paying or returning, paid for a completed and returned for a
    cancelled or expired one. And a completed errand was paid to its courier, and a cancelled or
    expired one returned to its requester, by the very transaction it names, of exactly its reward. *)
Theorem services_agree (s : Saga) (o : string) (st : Stored) :
  saga_reachable s -> orders (sg_orders s) !! o = Some st ->
  let r := st_row st in
  (exists l, life_of (orderStatus o (sg_credit s)) = Some l /\ agree (or_status r) l = true)
  /\ (or_status r = COMPLETED -> exists op, operations (sg_credit s) !! (o, OpTransfer) = Some op
        /\ o_txn op = or_creditTransactionId r /\ o_requester op = or_requesterId r
        /\ o_courier op = or_courierId r /\ o_amount op = or_reward r)
  /\ (or_status r = CANCELLED \/ or_status r = EXPIRED ->
        exists op, operations (sg_credit s) !! (o, OpRelease) = Some op
        /\ o_txn op = or_creditTransactionId r /\ o_requester op = or_requesterId r
        /\ o_amount op = or_reward r).
Proof.
  intros Hr Hst r. destruct (saga_reachable_inv _ _ _ _ Hr) as [_ IC _ _ _ [Hask Hag]].
  destruct (Hag o st Hst) as [Hl [Hc Hret]]. split; [|split].
  - eexists. split; [by apply status_life|done].
  - intros Hs. destruct (Hc Hs) as (op & Hop & Htx). exists op.
    destruct (Hask _ _ _ Hop) as (c & Hcc & Hreq & _). destruct (Hreq eq_refl) as (st' & c' & Hst' & Hc' & Hp & _).
    subst r. simplify_eq. split_and!; try done; congruence.
  - intros Hs. destruct (Hret Hs) as (op & Hop & Htx). exists op.
    destruct (Hask _ _ _ Hop) as (_ & Hreq & _). destruct (Hreq eq_refl) as (st' & Hst' & Hp & _).
    subst r. simplify_eq. split_and!; try done; congruence.
Qed.

(** Credit answers only what it recorded, about errands as they are: in every reachable state each
    reply it ever sent reports an operation the books still hold, names an errand of Order's with
    that errand's requester and reward, and rests on a reservation of the same facts. So a reply
    read late, or again, is as true as one read at once. *)
Theorem replies_stay_true (s : Saga) (row : OutboxRow) :
  saga_reachable s -> row ∈ sg_answered s ->
  exists m st r, recorded (sg_credit s) m row /\ orders (sg_orders s) !! mv_orderId m = Some st
    /\ m = movement (st_row st)
    /\ operations (sg_credit s) !! (mv_orderId m, OpReserve) = Some r /\ restates m r.
Proof.
  intros Hr Hrow. destruct (saga_reachable_inv _ _ _ _ Hr) as [_ _ _ _ Hans [Hask _]].
  destruct (Hans row Hrow) as (m & r & Hrec & Hop & Hst).
  pose proof (Hask _ _ _ Hop) as (_ & _ & Hreq). destruct (Hreq eq_refl) as (st & Hst' & Hp).
  exists m, st, r. split; [done|]. split; [done|]. split; [|done].
  destruct Hst as [E1 E2]. rewrite E1, E2 in Hp. destruct m. simpl in *. congruence.
Qed.
End Properties.
