(* ===== verification/OrderWorkTheorems.v ===== *)
(** * OrderWorkTheorems: the workers and the board as wholes

    A sweep is a run of the service whatever happens in between, a reconciliation repairs without
    touching an errand, and the pages of the board are the board. *)
From S2P Require Export OrderTheorems.

Section Work.
Context `{Zod} `{Pg} (periods : Periods) (hashRequest : HashedRequest -> string).

Notation runs := (rtc (order_step periods hashRequest)).
Notation reachable := (order_reachable periods hashRequest).

(** The scheduler adds no behaviour of its own. However other requests, events and workers run
    between its statements, and wherever it fails, a sweep takes the tables along steps of the
    service; in particular the administrator it picks for a dispute in one statement has still not
    taken part in the errand when a later one records the referral. The same holds of a
    reconciliation. *)
Theorem workers_are_steps (db : OrderDb) (envs : nat -> Env) (world : nat -> OrderDb -> OrderDb) :
  reachable db -> (forall k d, runs d (world k d)) ->
  (forall corr options dir r s',
     sweep periods envs world corr options dir (mkRunState 0 db no_sweep) = (r, s') ->
     runs db (run_db s'))
  /\ forall options runId credit held r s',
     reconcile envs world options runId credit held (mkRunState 0 db (mkRun 0 0 0 0 0)) = (r, s') ->
     runs db (run_db s').
Proof.
  intros Hr Hw. pose proof (order_reachable_inv _ _ _ Hr) as I. split.
  - intros corr options dir r s' Hs.
    eapply (sweep_runs periods hashRequest envs world corr Hw) in Hs as [? _]; done.
  - intros options runId credit held r s' Hs.
    eapply (reconcile_runs periods hashRequest envs world Hw) in Hs as [? _]; done.
Qed.

(** ** Reconciliation *)

(** The request a waiting errand has out, by its status. *)
Definition waiting_request (s : OrderStatus) : option string :=
  match s with
  | PENDING_CREDIT => Some CREDIT_RESERVATION_REQUESTED
  | COMPLETION_PENDING_CREDIT => Some ORDER_COMPLETION_REQUESTED
  | RELEASE_PENDING_CREDIT => Some CREDIT_RELEASE_REQUESTED
  | _ => None
  end.

(** An attempt that records nothing does nothing. *)
Lemma record_nothing held input e n (db : OrderDb) n' db' :
  recordReconciliation held input e (n, db) = Ok (None, (n', db')) -> db' = db.
Proof.
  intros Hr. unfold recordReconciliation in Hr.
  apply bind_ok in Hr as (found & s & Hq & Hr). apply findByIdUsing_ok in Hq as [_ [= -> ->]].
  destruct (if held then None else _); [|by apply ret_ok in Hr as [= _ ->]].
  destruct (negb _); [by apply ret_ok in Hr as [= _ ->]|].
  apply bind_ok in Hr as (at_ & s & Hq & Hr). apply now_ok in Hq as [= -> ->].
  apply bind_ok in Hr as (d & s & Hq & Hr). apply gets_ok in Hq as [= -> ->].
  destruct (attempted_since _ _ _); [by apply ret_ok in Hr as [= _ ->]|].
  apply bind_ok in Hr as (done_ & s & _ & Hr). apply bind_ok in Hr as (aid & s' & _ & Hr).
  apply bind_ok in Hr as ([] & s'' & _ & Hr). by apply ret_ok in Hr as [=].
Qed.

Lemma recorded_case held input e n db r n' db' :
  recordReconciliation held input e (n, db) = Ok (Some r, (n', db')) ->
  exists st (done_ : option string * bool) aid,
    orders db !! cd_orderId (ri_observed input) = Some st
    /\ or_status (st_row st) = cd_status (ri_observed input)
    /\ or_version (st_row st) = cd_version (ri_observed input)
    /\ orders db' = orders db /\ history db' = history db /\ receipts db' = receipts db
    /\ r = (recorded_action (ri_action input), done_.1, done_.2)
    /\ attempts db' = attempts db ++ [aid] /\ at_orderId aid = or_orderId (st_row st)
    /\ at_attemptedAt aid = env_now e
    /\ match ri_action input with
       | REISSUE => exists ty p row, creditRequest (mapStored st) = Ok (ty, p)
           /\ ob_rows (orderOutbox db') = ob_rows (orderOutbox db) ++ [row] /\ ob_eventType row = ty
           /\ ob_aggregateId row = or_orderId (st_row st)
       | _ => ob_rows (orderOutbox db') = ob_rows (orderOutbox db)
       end.
Proof.
  intros Hr. unfold recordReconciliation in Hr.
  apply bind_ok in Hr as (found & s & Hq & Hr). apply findByIdUsing_ok in Hq as [_ [= -> ->]].
  destruct held; [apply ret_ok in Hr as [=]|].
  destruct (orders db !! _) as [st|] eqn:Hst; simpl in Hr; [|apply ret_ok in Hr as [=]].
  destruct (negb _) eqn:Hsame; [apply ret_ok in Hr as [=]|].
  apply negb_false_iff, andb_true_iff in Hsame as [Hs Hv]. apply bool_decide_eq_true in Hs.
  apply Z.eqb_eq in Hv.
  apply bind_ok in Hr as (at_ & s & Hq & Hr). apply now_ok in Hq as [= -> ->].
  apply bind_ok in Hr as (d & s & Hq & Hr). apply gets_ok in Hq as [= -> ->]. unfold id in Hr. simpl in Hr.
  destruct (attempted_since _ _ _); [apply ret_ok in Hr as [=]|].
  apply bind_ok in Hr as (done_ & [n1 db1] & Hd & Hr).
  apply bind_ok in Hr as (aid & s & Hq & Hr). apply randomUUID_ok in Hq as [= -> ->].
  apply bind_ok in Hr as ([] & s & Hq & Hr). apply insert_attempt_ok in Hq as [= ->].
  apply ret_ok in Hr as [= -> _ ->].
  match goal with |- context [attempts _ ++ [?a]] => exists st, done_, a end.
  split; [done|]. split; [exact Hs|]. split; [exact Hv|].
  destruct (ri_action input).
  - apply bind_ok in Hd as (req & s & Hq & Hd). unfold lift_outcome in Hq.
    destruct (creditRequest _) as [[ty p]|] eqn:Hc; [|done]. apply ret_ok in Hq as [= -> ->].
    apply bind_ok in Hd as (evid & [n2 db2] & Hi & Hd). apply ret_ok in Hd as [= -> _ ->].
    apply insertOutboxEvent_ok in Hi as (q & f & _ & _ & _ & _ & _ & ->). simpl.
    split_and!; try done. exists ty, p. eexists. split; [done|]. split; [reflexivity|]. by split.
  - apply bind_ok in Hd as (raised & [n2 db2] & Hi & Hd). apply ret_ok in Hd as [= -> _ ->].
    apply raiseAlert_ok in Hi as (_ & l & ->). by split_and!.
  - apply ret_ok in Hd as [= -> _ ->]. by split_and!.
Qed.

(** Reconciliation repairs without moving anything. A recorded attempt leaves every errand, history
    entry and receipt as it is and is about the errand at the very status and version that was
    observed; a reissue adds exactly one event, the request that status waits on, and the other
    actions add none; and until the retry period has passed, any further attempt on the same errand
    does nothing at all. *)
Theorem reconciled_once_a_period (db db1 db2 : OrderDb) (held held' : bool) (input input' : ReconcileInput)
    (e e' : Env) (r : RecordedAction * option string * bool)
    (r' : outcome (option (RecordedAction * option string * bool))) :
  reachable db ->
  transaction (recordReconciliation held input) e db = (Ok (Some r), db1) ->
  (exists st, orders db !! cd_orderId (ri_observed input) = Some st
     /\ or_status (st_row st) = cd_status (ri_observed input)
     /\ or_version (st_row st) = cd_version (ri_observed input)
     /\ orders db1 = orders db /\ history db1 = history db /\ receipts db1 = receipts db
     /\ if bool_decide (r.1.1 = REISSUED)
        then exists row, ob_rows (orderOutbox db1) = ob_rows (orderOutbox db) ++ [row]
               /\ Some (ob_eventType row) = waiting_request (or_status (st_row st))
               /\ request_of db1 (ob_eventType row) (ob_aggregateId row) (ob_payload row)
        else ob_rows (orderOutbox db1) = ob_rows (orderOutbox db))
  /\ (cd_orderId (ri_observed input') = cd_orderId (ri_observed input) ->
      env_now e' - ri_retryAfterMs input' * 1000 < env_now e ->
      transaction (recordReconciliation held' input') e' db1 = (r', db2) -> db2 = db1).
Proof.
  intros Hr Ht. pose proof (order_reachable_inv _ _ _ Hr) as I.
  assert (OrderInv db1) as I1.
  { eapply (allowed_inv periods (fun _ _ => True)); [exact I|].
    eapply sound_transaction; [|exact I|exact Ht]. apply sound_reconciliation. }
  apply transaction_ok in Ht as [n Hrec].
  apply recorded_case in Hrec as (st & done_ & aid & Hst & Hs & Hv & E1 & E2 & E3 & -> & Ea & Eo & Et & Hact).
  pose proof (oi_ids db I _ _ Hst) as Hid. split.
  - exists st. split_and!; try done. destruct (ri_action input); simpl; try exact Hact.
    destruct Hact as (ty & p & row & Hc & Hrows & Hty & Hagg). exists row. split; [done|]. split.
    + rewrite Hty. unfold creditRequest in Hc. change (or_status (mapStored st)) with (or_status (st_row st)) in Hc.
      destruct (or_status (st_row st)); try done; [by injection Hc as <- _|..];
        destruct (emittedEvent _ _ _ _); try done; by injection Hc as <- _.
    + apply (oi_requests db1 I1). rewrite Hrows. set_solver.
  - intros Ho Hwin Ht2. destruct r' as [r'|x]; [|by apply transaction_throw in Ht2].
    destruct r' as [r'|].
    + exfalso. apply transaction_ok in Ht2 as [n2 Hrec2]. unfold recordReconciliation in Hrec2.
      apply bind_ok in Hrec2 as (found & s & Hq & Hr2). apply findByIdUsing_ok in Hq as [_ [= -> ->]].
      destruct held'; [apply ret_ok in Hr2 as [=]|]. rewrite Ho, E1, Hst in Hr2. simpl in Hr2.
      destruct (negb _); [apply ret_ok in Hr2 as [=]|].
      apply bind_ok in Hr2 as (at_ & s & Hq & Hr2). apply now_ok in Hq as [= -> ->].
      apply bind_ok in Hr2 as (d & s & Hq & Hr2). apply gets_ok in Hq as [= -> ->]. unfold id in Hr2. simpl in Hr2.
      assert (attempted_since (cd_orderId (ri_observed input)) (env_now e' - ri_retryAfterMs input' * 1000) db1
              = true) as Hat.
      { unfold attempted_since. rewrite Ea, existsb_app. simpl. rewrite Eo, Hid, String.eqb_refl, Et.
        by rewrite (proj2 (Z.ltb_lt _ _) Hwin), orb_true_r. }
      rewrite Hat in Hr2. by apply ret_ok in Hr2 as [=].
    + apply transaction_ok in Ht2 as [n2 Hrec2]. by apply record_nothing in Hrec2.
Qed.
(** ** The board *)

Lemma open_before_irrefl k : open_before k k = false.
Proof. unfold open_before. by rewrite Z.ltb_irrefl, key_before_irrefl, andb_false_r. Qed.

Lemma open_before_trans a b c :
  open_before a b = true -> open_before b c = true -> open_before a c = true.
Proof.
  unfold open_before. rewrite !orb_true_iff, !andb_true_iff, !Z.ltb_lt, !Z.eqb_eq.
  intros [?|[? Hab]] [?|[? Hbc]]; try (left; lia).
  right. split; [lia|]. by eapply key_before_trans.
Qed.

Lemma open_before_total a b : a <> b -> open_before a b = true \/ open_before b a = true.
Proof.
  destruct a as [t1 k1], b as [t2 k2]. unfold open_before. simpl. intros Hne.
  destruct (Z.lt_trichotomy t1 t2) as [Hlt|[->|Hlt]].
  - left. by rewrite (proj2 (Z.ltb_lt _ _)).
  - rewrite Z.ltb_irrefl, Z.eqb_refl. simpl. apply key_before_total. congruence.
  - right. by rewrite (proj2 (Z.ltb_lt _ _)).
Qed.

Lemma order_list_elem db s : s ∈ order_list db <-> exists o, orders db !! o = Some s.
Proof.
  unfold order_list. rewrite list_elem_of_fmap. split.
  - intros ([o s'] & -> & Hin). apply elem_of_map_to_list in Hin. eauto.
  - intros [o Ho]. exists (o, s). split; [done|]. by apply elem_of_map_to_list.
Qed.

Lemma order_list_NoDup db : OrderInv db -> NoDup (or_orderId ∘ st_row <$> order_list db).
Proof.
  intros I. unfold order_list. rewrite <- list_fmap_compose.
  assert ((or_orderId ∘ st_row) ∘ snd <$> map_to_list (orders db) = (map_to_list (orders db)).*1) as ->.
  { apply list_fmap_ext. intros i [o s] Hi. simpl. apply list_elem_of_lookup_2, elem_of_map_to_list in Hi.
    by apply (oi_ids db I). }
  apply NoDup_fst_map_to_list.
Qed.

Lemma filter_fmap_NoDup {A B} (f : A -> B) (q : A -> bool) l :
  NoDup (f <$> l) -> NoDup (f <$> List.filter q l).
Proof.
  induction l as [|a l IH]; simpl; [done|]. rewrite NoDup_cons. intros [Ha Hnd]. destruct (q a); [|auto].
  rewrite fmap_cons. constructor; [|auto]. intros Hin. apply Ha.
  apply list_elem_of_fmap in Hin as (x & -> & Hx). apply list_elem_of_In, filter_In in Hx as [Hx _].
  apply list_elem_of_fmap_2. by apply list_elem_of_In.
Qed.

Section Board.
Context (caller : string) (building : option string) (minReward : option Z) (limit : nat) (now_ : Z)
  (db : OrderDb).

Definition board_query (after_ : option OpenKey) : OpenOrdersQuery :=
  mkOpenQuery building minReward limit after_.

(** Reading [listOpen] page after page, each from the cursor the one before it gave. *)
Fixpoint read_board (fuel : nat) (after_ : option OpenKey) : option (list OpenOrderSummary) :=
  match fuel with
  | O => None
  | Datatypes.S fuel' =>
      let p := listOpen caller (board_query after_) now_ db in
      match p.2 with
      | None => Some p.1
      | Some c => (fun rest => p.1 ++ rest) <$> read_board fuel' (Some c)
      end
  end.

Lemma read_board_walk fuel after_ :
  read_board fuel after_
  = (fun rows : list Stored => summary now_ <$> rows) <$> walk open_key open_before id fuel limit after_
                              (open_rows caller (board_query None) now_ db).
Proof.
  revert after_. induction fuel as [|fuel IH]; intros after_; simpl; [done|].
  change (open_rows caller (board_query after_) now_ db) with (open_rows caller (board_query None) now_ db).
  destruct (next_cursor _ _ _) as [c|]; [|done]. rewrite IH.
  destruct (walk _ _ _ _ _ _ _); simpl; [|done]. by rewrite fmap_app.
Qed.
End Board.

(** The pages of the open board are the board. Reading page after page from the cursor each page
    gives, with any page size, answers a summary of every errand open to this caller exactly once,
    in the order of deadline, creation and identifier: those OPEN before their deadline that are not
    the caller's own and match the filters, and no other. *)
Theorem board_complete (caller : string) (building : option string) (minReward : option Z) (limit : nat)
    (now_ : Z) (db : OrderDb) :
  reachable db -> limit <> 0%nat ->
  let rows := open_rows caller (board_query building minReward limit None) now_ db in
  read_board caller building minReward limit now_ db (Datatypes.S (length rows)) None
    = Some (summary now_ <$> rows)
  /\ NoDup (or_orderId ∘ st_row <$> rows)
  /\ in_order (fun a b => open_before (open_key a) (open_key b)) rows
  /\ forall s, s ∈ rows <-> (exists o, orders db !! o = Some s)
       /\ open_filter caller (board_query building minReward limit None) now_ s = true.
Proof.
  intros Hr Hlim rows. pose proof (order_reachable_inv _ _ _ Hr) as I.
  set (found := List.filter (open_filter caller (board_query building minReward limit None) now_) (order_list db)).
  assert (NoDup (or_orderId ∘ st_row <$> found)) as Hnd by by apply filter_fmap_NoDup, order_list_NoDup.
  assert (rows ≡ₚ found) as Hperm by apply order_by_perm.
  assert (in_order (fun a b => open_before (open_key a) (open_key b)) rows) as Hsort.
  { apply order_by_order.
    - intros a b c. apply open_before_trans.
    - by eapply NoDup_fmap_1.
    - intros a b Ha Hb Hne. apply open_before_total. intros Heq. apply Hne.
      assert (or_orderId (st_row a) = or_orderId (st_row b)) as Ho by (unfold open_key in Heq; congruence).
      apply list_elem_of_lookup in Ha as [i Ha]. apply list_elem_of_lookup in Hb as [j Hb].
      assert (i = j) as ->; [|congruence].
      eapply (NoDup_lookup _ i j (or_orderId (st_row a)) Hnd); rewrite list_lookup_fmap; unfold found;
        rewrite ?Ha, ?Hb; unfold compose; simpl; by rewrite ?Ho. }
  split; [|split; [|split; [done|]]].
  - rewrite read_board_walk. fold rows. rewrite walk_all; [done|apply open_before_irrefl|apply open_before_trans|done| |done].
    by intros ? _.
  - by rewrite Hperm.
  - intros s. rewrite Hperm. unfold found. rewrite list_elem_of_In, filter_In, <- list_elem_of_In, order_list_elem.
    done.
Qed.
End Work.
