(* ===== verification/OrderDemo.v ===== *)
(** * OrderDemo: concrete runs of the Order Service

    Two errands of one student, reachable from empty tables: one carried, confirmed and paid, one
    disputed, referred and decided. The theorems about orders are applied to them, so their
    hypotheses can hold. *)
From Stdlib Require Import Ascii.
From S2P Require Export OrderWorkTheorems Envelope.

#[local] Open Scope Z_scope.
#[local] Open Scope string_scope.

#[local] Existing Instance demo_zod.
Definition demo_pg : Pg := {| pg_uuid := nonempty; pg_lower := fun s => s |}.
#[local] Existing Instance demo_pg.

(** A day to be accepted, an hour to be delivered, a day to be confirmed. *)
Definition demo_periods : Periods := mkPeriods 86400000 3600000 86400000.

(** Requests that differ in kind, errand, version or reward have different digests. *)
Definition demo_hash (r : HashedRequest) : string :=
  match r with
  | CreateRequest i => "create " ++ pretty.pretty (co_reward i)
  | CommandRequest o _ v _ => "command " ++ pretty.pretty v ++ o
  end.

Definition alice : Caller := mkCaller "alice" false.
Definition bob : Caller := mkCaller "bob" false.
Definition carol : Caller := mkCaller "carol" true.
Definition mallory : Caller := mkCaller "mallory" false.

Definition demo_supplier : SupplierSnapshot := mkSupplier "s1" "Deck" "canteen" "COM1" "2" "by the stairs".
Definition demo_input : CreateOrderInput :=
  mkCreateOrder "s1" [mkItem "noodles" 1 (Some "no chilli")] "UTown" "leave at the door" 3.

Definition nobody_suspended : Directory :=
  mkDirectory (fun _ => DirectoryBody (mkLookup true (Some LookupActive))) (DirectoryBody ["carol"; "bob"]).

Definition sec (n : Z) : Z := n * 1000000.

Notation demo_create := (create demo_hash).
Notation demo_step := (order_step demo_periods demo_hash).
Notation demo_reachable := (order_reachable demo_periods demo_hash).

Definition credit_reply (id ty o : string) (p : Payload) : Envelope := demo_message id ty o p.

Definition user (o : string) (a : OrderAction) (v : Z) (who : Caller) (key : option string) (e : Env)
    (db : OrderDb) : OrderDb :=
  (command demo_periods demo_hash 0 o a v who "corr" no_verify None key e db).2.
Definition reply (q : OrderQueue) (v : Envelope) (e : Env) (db : OrderDb) : OrderDb :=
  (deliver_order demo_periods nobody_suspended q v e db).2.
Definition refer (o admin : string) (e : Env) (db : OrderDb) : OrderDb :=
  (transaction (transitionUsing demo_periods (timer_command (fun _ => "0") o ADMIN_ASSIGNED (env_now e) 0
     no_verify [ReferredAdminId (Some admin)] (Some admin) false)) e db).2.

(** The errand's identifier: the first one its creation draws. *)
Definition errand : string := tagged "a"%char 0.
Definition terms : Movement := mkMovement errand "alice" 3.

Definition posted : OrderDb :=
  (demo_create demo_input "key" alice "corr" (Ok demo_supplier) (sec 1) empty_order_db
     (demo_env "a"%char (sec 1)) empty_order_db).2.
Definition opened : OrderDb :=
  reply ReservationResults (credit_reply "m1" CREDITS_RESERVED errand (MovementP terms))
    (demo_env "b"%char (sec 2)) posted.
Definition taken : OrderDb :=
  (accept_order demo_hash errand 2 bob "corr" None (sec 3) (demo_env "c"%char (sec 3)) opened).2.
Definition picked : OrderDb := user errand RECORD_PICKUP 3 bob (Some "pick") (demo_env "d"%char (sec 4)) taken.
Definition delivered : OrderDb := user errand RECORD_DELIVERY 4 bob None (demo_env "e"%char (sec 5)) picked.
Definition confirmed : OrderDb := user errand CONFIRM_RECEIPT 5 alice None (demo_env "f"%char (sec 6)) delivered.
Definition paid : OrderDb :=
  reply TransferResults
    (credit_reply "m2" CREDITS_TRANSFERRED errand
       (TransferredP terms "bob" "tx" (mkBalance 7 0 7) (mkBalance 13 0 13)))
    (demo_env "g"%char (sec 7)) confirmed.

Definition disputed : OrderDb := user errand REPORT_NON_RECEIPT 5 alice None (demo_env "h"%char (sec 6)) delivered.
Definition referred_to_carol : OrderDb := refer errand "carol" (demo_env "i"%char (sec 7)) disputed.
Definition resolved : OrderDb :=
  (resolve demo_periods demo_hash 0 errand ForRequester "never arrived" 7 carol "corr" None referred_to_carol
     (demo_env "j"%char (sec 8)) referred_to_carol).2.

(** What happened in them. *)
Definition status_of (db : OrderDb) : option OrderStatus := (fun s => or_status (st_row s)) <$> orders db !! errand.

Example demo_statuses :
  status_of <$> [posted; opened; taken; picked; delivered; confirmed; paid; disputed; referred_to_carol; resolved]
  = Some <$> [PENDING_CREDIT; OPEN; ACCEPTED; PICKED_UP; DELIVERED; COMPLETION_PENDING_CREDIT; COMPLETED;
              DISPUTED; DISPUTED; RELEASE_PENDING_CREDIT].
Proof. vm_compute. reflexivity. Qed.

(** ** They are reachable *)

Lemma then_step db db' : demo_reachable db -> demo_step db db' -> demo_reachable db'.
Proof. intros Hr Hs. eapply rtc_r; eauto. Qed.

Lemma user_step o a v who key e db : a ∈ USER_ACTIONS -> demo_step db (user o a v who key e db).
Proof. intros Ha. eapply os_command; [exact Ha|apply surjective_pairing]. Qed.

Lemma reply_step q v e db : demo_step db (reply q v e db).
Proof. eapply os_deliver; [done|apply surjective_pairing]. Qed.

Lemma refer_step o admin e db : admin ∉ participants o db -> demo_step db (refer o admin e db).
Proof. intros Hn. eapply os_timer; [by apply tf_assign|apply surjective_pairing]. Qed.

Lemma posted_reachable : demo_reachable posted.
Proof. eapply then_step; [apply rtc_refl|]. eapply os_create, surjective_pairing. Qed.
Lemma opened_step : demo_step posted opened.
Proof. apply reply_step. Qed.
Lemma opened_reachable : demo_reachable opened.
Proof. eapply then_step; [exact posted_reachable|exact opened_step]. Qed.
Lemma taken_step : demo_step opened taken.
Proof. eapply os_accept, surjective_pairing. Qed.
Lemma taken_reachable : demo_reachable taken.
Proof. eapply then_step; [exact opened_reachable|exact taken_step]. Qed.
Lemma picked_step : demo_step taken picked.
Proof. apply user_step. set_solver. Qed.
Lemma picked_reachable : demo_reachable picked.
Proof. eapply then_step; [exact taken_reachable|exact picked_step]. Qed.
Lemma delivered_step : demo_step picked delivered.
Proof. apply user_step. set_solver. Qed.
Lemma delivered_reachable : demo_reachable delivered.
Proof. eapply then_step; [exact picked_reachable|exact delivered_step]. Qed.
Lemma confirmed_step : demo_step delivered confirmed.
Proof. apply user_step. set_solver. Qed.
Lemma confirmed_reachable : demo_reachable confirmed.
Proof. eapply then_step; [exact delivered_reachable|exact confirmed_step]. Qed.
Lemma paid_step : demo_step confirmed paid.
Proof. apply reply_step. Qed.
Lemma paid_reachable : demo_reachable paid.
Proof. eapply then_step; [exact confirmed_reachable|exact paid_step]. Qed.
Lemma disputed_reachable : demo_reachable disputed.
Proof. eapply then_step; [exact delivered_reachable|apply user_step; set_solver]. Qed.
Lemma referred_reachable : demo_reachable referred_to_carol.
Proof.
  eapply then_step; [exact disputed_reachable|]. apply refer_step.
  by apply (bool_decide_unpack _); vm_compute.
Qed.
Lemma resolved_reachable : demo_reachable resolved.
Proof. eapply then_step; [exact referred_reachable|]. eapply os_resolve, surjective_pairing. Qed.

Lemma posted_to_paid : rtc demo_step posted paid.
Proof.
  eapply rtc_l; [exact opened_step|]. eapply rtc_l; [exact taken_step|].
  eapply rtc_l; [exact picked_step|]. eapply rtc_l; [exact delivered_step|].
  eapply rtc_l; [exact confirmed_step|]. by apply rtc_once, paid_step.
Qed.

(** The errand as a table holds it. *)
Definition row_of (db : OrderDb) : Stored :=
  match orders db !! errand with
  | Some st => st
  | None => mkStored (pending_row errand (mkCreateInput "" demo_supplier [] "" "" 0 "" "" "") 0) None
  end.

Ltac has_row := vm_compute; reflexivity.

(** ** OrderWitnesses: the Order Service's theorems at the concrete runs

    Each theorem with hypotheses, applied to the runs of OrderDemo, where they hold. *)

#[local] Open Scope Z_scope.
#[local] Open Scope string_scope.
#[local] Existing Instance demo_zod.
#[local] Existing Instance demo_pg.

Lemma history_explains_witness :
  trace errand (entries errand paid) COMPLETED 7 /\ 7 = Z.of_nat (length (entries errand paid)).
Proof.
  assert (orders paid !! errand = Some (row_of paid)) as Hst by has_row.
  exact (history_explains demo_periods demo_hash paid errand (row_of paid) paid_reachable Hst).
Defined.

(** The completion request of the paid errand, still in the outbox after the payment. *)
Definition completion_sent : OutboxRow :=
  match List.find (fun e => String.eqb (ob_eventType e) ORDER_COMPLETION_REQUESTED) (ob_rows (orderOutbox confirmed)) with
  | Some e => e
  | None => new_row "" 0 0 (mkNewEvent "" "" (MovementP terms) "" None) (MovementP terms)
  end.

Lemma pays_or_returns_witness :
  ob_eventType completion_sent = ORDER_COMPLETION_REQUESTED
  /\ request_of paid ORDER_COMPLETION_REQUESTED errand (CompletionP terms "bob").
Proof.
  split; [vm_compute; reflexivity|].
  assert (completion_sent ∈ ob_rows (orderOutbox confirmed)) as He
    by (apply (bool_decide_unpack _); vm_compute; reflexivity).
  assert (completion_sent ∈ ob_rows (orderOutbox paid)) as He'
    by (apply (bool_decide_unpack _); vm_compute; reflexivity).
  exact (proj2 (proj2 (pays_or_returns demo_periods demo_hash confirmed paid completion_sent completion_sent
    confirmed_reachable (rtc_once _ _ paid_step) He He' eq_refl))).
Defined.

Lemma receipt_iff_completed_witness : exists rc, rc ∈ receipts paid /\ rc_orderId rc = errand.
Proof.
  assert (orders paid !! errand = Some (row_of paid)) as Hst by has_row.
  apply (proj1 (receipt_iff_completed demo_periods demo_hash paid errand (row_of paid) paid_reachable Hst)).
  vm_compute. reflexivity.
Defined.

(** The decision on the disputed errand. *)
Definition decision_entry : History :=
  match List.find (fun h => bool_decide (h_action h = Did RESOLVE_FOR_REQUESTER)) (history resolved) with
  | Some h => h
  | None => mkHistory "" "" None OPEN Create BySystem None None 0 0
  end.

Lemma decisions_impartial_witness :
  exists admin, h_actorId decision_entry = Some admin /\ admin ∉ participants errand resolved.
Proof.
  assert (decision_entry ∈ history resolved) as Hh.
  { unfold decision_entry. destruct (List.find _ _) as [h|] eqn:Hf; [|vm_compute in Hf; discriminate].
    apply list_elem_of_In. by apply List.find_some in Hf as [? _]. }
  assert (h_orderId decision_entry = errand) as <- by has_row.
  apply (proj1 (decisions_impartial demo_periods demo_hash resolved decision_entry resolved_reachable Hh)).
  right. vm_compute. reflexivity.
Defined.

Lemma errand_shape_witness :
  let r := st_row (row_of taken) in
  or_status r = ACCEPTED /\ exists c, or_courierId r = Some c /\ c <> or_requesterId r.
Proof.
  split; [vm_compute; reflexivity|].
  assert (orders taken !! errand = Some (row_of taken)) as Hst by has_row.
  destruct (errand_shape demo_periods demo_hash taken errand (row_of taken) taken_reachable Hst)
    as (_ & _ & Hc & _).
  apply Hc. apply (bool_decide_unpack _). vm_compute. reflexivity.
Defined.

(** A payment confirmed once more after the errand closed. *)
Definition paid_again : OrderDb :=
  reply TransferResults
    (credit_reply "m3" CREDITS_TRANSFERRED errand
       (TransferredP terms "bob" "tx2" (mkBalance 7 0 7) (mkBalance 13 0 13)))
    (demo_env "k"%char (sec 9)) paid.


(** ** The API *)


Lemma refused_changes_nothing_witness :
  exists x, accept_order demo_hash errand 2 alice "corr" (Some "k") (sec 3) (demo_env "k"%char (sec 3)) opened
            = (Throw x, opened).
Proof.
  destruct (accept_order demo_hash errand 2 alice "corr" (Some "k") (sec 3) (demo_env "k"%char (sec 3)) opened)
    as [[v|x] db'] eqn:Ha; [vm_compute in Ha; discriminate Ha|].
  exists x. f_equal.
  destruct (refused_changes_nothing demo_periods demo_hash opened db' x (demo_env "k"%char (sec 3)) (sec 3) opened_reachable)
    as [Hacc _].
  exact (Hacc errand 2 alice "corr" (Some "k") Ha).
Defined.

Lemma private_to_participants_witness :
  ~ is_ok (getById 0 errand mallory true taken)
  /\ exists v, getById 0 errand alice true taken = Ok v /\ v_deliveryInstructions v = Some "leave at the door".
Proof.
  assert (orders taken !! errand = Some (row_of taken)) as Hst by has_row.
  split.
  - apply (proj1 (private_to_participants demo_periods demo_hash taken errand (row_of taken) mallory 0 taken_reachable Hst)).
    vm_compute. reflexivity.
  - destruct (proj2 (private_to_participants demo_periods demo_hash taken errand (row_of taken) alice 0
      taken_reachable Hst)) as (v & Hv & Hi & _); [left; vm_compute; reflexivity|].
    exists v. split; [exact Hv|]. rewrite Hi. vm_compute. reflexivity.
Defined.

(** ** Commands *)

Definition other_ids (tag : ascii) (db : OrderDb) : bool :=
  forallb (fun h => other_tag tag (h_id h)) (history db)
  && forallb (fun r => other_tag tag (ob_id r)) (ob_rows (orderOutbox db)).

Lemma demo_order_fresh tag at_ n db : other_ids tag db = true -> fresh_order_ids (demo_env tag at_) n db.
Proof.
  unfold other_ids. rewrite andb_true_iff, !forallb_forall. intros [Hh Ho]. constructor; simpl.
  - intros i j _ _. apply tagged_inj.
  - intros k h _ Hin. by apply other_tag_ne, Hh, list_elem_of_In.
  - intros k r _ Hin. by apply other_tag_ne, Ho, list_elem_of_In.
Qed.

(** The courier picks up, and the requester may not. *)
Lemma command_decides_witness :
  (exists v st', command demo_periods demo_hash 0 errand RECORD_PICKUP 3 bob "corr" no_verify None None
       (demo_env "k"%char (sec 4)) taken
     = (Ok v, (command demo_periods demo_hash 0 errand RECORD_PICKUP 3 bob "corr" no_verify None None
                 (demo_env "k"%char (sec 4)) taken).2)
     /\ orders (command demo_periods demo_hash 0 errand RECORD_PICKUP 3 bob "corr" no_verify None None
                 (demo_env "k"%char (sec 4)) taken).2 !! errand = Some st'
     /\ or_status (st_row st') = PICKED_UP)
  /\ command demo_periods demo_hash 0 errand RECORD_PICKUP 3 alice "corr" no_verify None None
       (demo_env "k"%char (sec 4)) taken
     = (told 0 RECORD_PICKUP (mapOrder (st_row (row_of taken))) alice FORBIDDEN, taken).
Proof.
  assert (orders taken !! errand = Some (row_of taken)) as Hst by has_row.
  assert (RECORD_PICKUP ∈ USER_ACTIONS) as Ha by (apply (bool_decide_unpack _); vm_compute; reflexivity).
  assert (fresh_order_ids (demo_env "k"%char (sec 4)) 0 taken) as F
    by (apply demo_order_fresh; vm_compute; reflexivity).
  assert (well_named (st_row (row_of taken)) = true) as Hw by (vm_compute; reflexivity).
  assert (or_version (st_row (row_of taken)) < INT4_MAX) as Hv by (vm_compute; reflexivity).
  split.
  - pose proof (command_decides demo_periods demo_hash taken errand "corr" (row_of taken) RECORD_PICKUP 3 0 bob
      (demo_env "k"%char (sec 4)) taken_reachable Hst Ha F Hw Hv) as Hd. cbv zeta in Hd.
    destruct (command _ _ _ _ _ _ bob _ _ _ _ _ _) as [r db'].
    assert (decideTransition (or_status (mapOrder (st_row (row_of taken)))) RECORD_PICKUP
      (resolveActor (mapOrder (st_row (row_of taken))) (tc_actor (user_command errand RECORD_PICKUP 3 bob "corr" no_verify None)))
      (transition_context (user_command errand RECORD_PICKUP 3 bob "corr" no_verify None)
         (mapOrder (st_row (row_of taken))) (iso (env_now (demo_env "k"%char (sec 4)))))
      = Some (moves PICKED_UP)) as Heq by (vm_compute; reflexivity).
    rewrite Heq in Hd.
    assert (Z.eqb 3 (or_version (mapOrder (st_row (row_of taken)))) = true) as Hver by (vm_compute; reflexivity).
    rewrite Hver in Hd. destruct Hd as (v & st' & h & -> & Hst' & Hs & _). exists v, st'. by repeat split.
  - pose proof (command_decides demo_periods demo_hash taken errand "corr" (row_of taken) RECORD_PICKUP 3 0 alice
      (demo_env "k"%char (sec 4)) taken_reachable Hst Ha F Hw Hv) as Hd. cbv zeta in Hd.
    destruct (command _ _ _ _ _ _ alice _ _ _ _ _ _) as [r db'].
    assert (decideTransition (or_status (mapOrder (st_row (row_of taken)))) RECORD_PICKUP
      (resolveActor (mapOrder (st_row (row_of taken))) (tc_actor (user_command errand RECORD_PICKUP 3 alice "corr" no_verify None)))
      (transition_context (user_command errand RECORD_PICKUP 3 alice "corr" no_verify None)
         (mapOrder (st_row (row_of taken))) (iso (env_now (demo_env "k"%char (sec 4)))))
      = None) as Heq by (vm_compute; reflexivity).
    rewrite Heq in Hd. destruct Hd as [-> ->]. f_equal.
Defined.


Lemma created_once_witness :
  exists w, demo_create demo_input "key" alice "corr2" (Ok demo_supplier) (sec 9) empty_order_db
       (demo_env "k"%char (sec 9)) paid = (Ok (w, true), paid).
Proof.
  assert (exists v, demo_create demo_input "key" alice "corr" (Ok demo_supplier) (sec 1) empty_order_db
            (demo_env "a"%char (sec 1)) empty_order_db = (Ok (v, false), posted)) as [v Hc].
  { unfold posted. destruct (demo_create _ _ _ _ _ _ _ _ _) as [[[v []]|x] d] eqn:Hc; [|by exists v|];
      vm_compute in Hc; discriminate Hc. }
  destruct (created_once demo_periods demo_hash empty_order_db posted paid empty_order_db demo_input demo_input
    "key" "corr" "corr2" alice (Ok demo_supplier) (Ok demo_supplier) (sec 1) (sec 9)
    (demo_env "a"%char (sec 1)) (demo_env "k"%char (sec 9)) v empty_order_db (rtc_refl _ _) Hc posted_to_paid)
    as [Hsame _]; [right; by split|].
  destruct (Hsame eq_refl) as (w & Hw & _). exists w. exact Hw.
Defined.

(** ** The workers *)

Lemma workers_are_steps_witness :
  rtc demo_step disputed
    (run_db (sweep demo_periods (fun k => demo_env (ascii_of_nat (65 + k)) (sec 20)) (fun _ db => db) (fun _ => "c")
       (mkScheduler 3600000 3600000 100) nobody_suspended (mkRunState 0 disputed no_sweep)).2).
Proof.
  destruct (sweep _ _ _ _ _ _ _) as [r s'] eqn:Hs.
  exact (proj1 (workers_are_steps demo_periods demo_hash disputed
    (fun k => demo_env (ascii_of_nat (65 + k)) (sec 20)) (fun _ db => db) disputed_reachable
    (fun _ _ => rtc_refl _ _)) (fun _ => "c") (mkScheduler 3600000 3600000 100) nobody_suspended r s' Hs).
Defined.

(** That sweep refers the dispute, and to carol: bob, who has fewer referrals by name, carried it. *)
Example sweep_refers :
  or_referredAdminId ∘ st_row <$>
    orders (run_db (sweep demo_periods (fun k => demo_env (ascii_of_nat (65 + k)) (sec 20)) (fun _ db => db)
       (fun _ => "c") (mkScheduler 3600000 3600000 100) nobody_suspended (mkRunState 0 disputed no_sweep)).2) !! errand
  = Some (Some "carol").
Proof. vm_compute. reflexivity. Qed.

Definition stuck_request : ReconcileInput :=
  mkReconcile (mkCandidate errand COMPLETION_PENDING_CREDIT 6) "run" 60000 (Some (CreditReserved, None)) REISSUE "corr".

Lemma reconciled_once_a_period_witness :
  exists r db1, transaction (recordReconciliation false stuck_request) (demo_env "k"%char (sec 100)) confirmed
                = (Ok (Some r), db1)
    /\ r.1.1 = REISSUED
    /\ (transaction (recordReconciliation false stuck_request) (demo_env "l"%char (sec 130)) db1).2 = db1.
Proof.
  destruct (transaction (recordReconciliation false stuck_request) (demo_env "k"%char (sec 100)) confirmed)
    as [[[r|]|x] db1] eqn:Ht; [|vm_compute in Ht; discriminate Ht..].
  exists r, db1. split; [reflexivity|]. split; [vm_compute in Ht; injection Ht as <- _; reflexivity|].
  destruct (transaction (recordReconciliation false stuck_request) (demo_env "l"%char (sec 130)) db1) as [r2 db2] eqn:Ht2.
  apply (proj2 (reconciled_once_a_period demo_periods demo_hash confirmed db1 db2 false false stuck_request stuck_request
    (demo_env "k"%char (sec 100)) (demo_env "l"%char (sec 130)) r r2 confirmed_reachable Ht) eq_refl); [|exact Ht2].
  vm_compute. reflexivity.
Defined.

Lemma board_complete_witness :
  let rows := open_rows "bob" (board_query None None 1 None) (sec 3) opened in
  read_board "bob" None None 1 (sec 3) opened 2 None = Some (summary (sec 3) <$> rows)
  /\ os_orderId <$> (summary (sec 3) <$> rows) = [errand].
Proof.
  split; [|vm_compute; reflexivity].
  exact (proj1 (board_complete demo_periods demo_hash "bob" None None 1 (sec 3) opened opened_reachable
    (Nat.neq_succ_0 0))).
Defined.
