(* ===== verification/SagaDemo.v ===== *)
(** * SagaDemo: an errand from posting to payment, in both services

    Two wallets, one errand, and every message between the services taken from the other's outbox:
    the theorems of [Saga] are applied to the state it ends in. *)
From Stdlib Require Import Ascii.
From S2P Require Export Saga OrderDemo.
#[local] Open Scope Z_scope.
#[local] Open Scope string_scope.

#[local] Existing Instance demo_zod.
#[local] Existing Instance demo_pg.

Notation demo_saga := (saga_reachable demo_periods demo_hash 10).

(** Order's tables moved by [f]; Credit's likewise. *)
Definition order_moves (f : OrderDb -> OrderDb) (s : Saga) : Saga :=
  let db := f (sg_orders s) in
  mkSaga db (sg_credit s) (ob_rows (orderOutbox db) ++ sg_asked s) (sg_answered s).
Definition credit_moves (f : CreditDb -> CreditDb) (s : Saga) : Saga :=
  let db := f (sg_credit s) in
  mkSaga (sg_orders s) db (sg_asked s) (ob_rows (creditOutbox db) ++ sg_answered s).

Definition message_of (row : OutboxRow) : Envelope :=
  demo_message (ob_id row) (ob_eventType row) (ob_aggregateId row) (ob_payload row).

(** The first message of a type, delivered. *)
Definition first_of (ty : string) (rows : list OutboxRow) : option OutboxRow :=
  List.find (fun r => String.eqb (ob_eventType r) ty) rows.

Definition tell_credit (q : CreditQueue) (e : Env) (s : Saga) : Saga :=
  match credit_listens q with
  | ty :: _ =>
      match first_of ty (sg_asked s) with
      | Some row => credit_moves (fun db => (deliver 10 q (message_of row) e db).2) s
      | None => s
      end
  | [] => s
  end.

Definition tell_order (q : OrderQueue) (e : Env) (s : Saga) : Saga :=
  match order_listens q with
  | ty :: _ =>
      match first_of ty (sg_answered s) with
      | Some row => order_moves (fun db => (deliver_order demo_periods nobody_suspended q (message_of row) e db).2) s
      | None => s
      end
  | [] => s
  end.

Definition activate (u : string) (e : Env) (s : Saga) : Saga :=
  credit_moves (fun db => (deliver 10 Activations
    (demo_message ("act-" ++ u) USER_ACTIVATED u (UserActivatedP u 1)) e db).2) s.

Definition sg_wallets : Saga :=
  activate "bob" (demo_env "y"%char (sec 0)) (activate "alice" (demo_env "x"%char (sec 0)) empty_saga).
Definition sg_posted : Saga :=
  order_moves (fun db => (demo_create demo_input "key" alice "corr" (Ok demo_supplier) (sec 1) db
                            (demo_env "a"%char (sec 1)) db).2) sg_wallets.
Definition sg_opened : Saga :=
  tell_order ReservationResults (demo_env "b"%char (sec 2)) (tell_credit Reservations (demo_env "z"%char (sec 2)) sg_posted).
Definition sg_taken : Saga :=
  order_moves (fun db => (accept_order demo_hash errand 2 bob "corr" None (sec 3) (demo_env "c"%char (sec 3)) db).2) sg_opened.
Definition sg_confirmed : Saga :=
  order_moves (user errand CONFIRM_RECEIPT 5 alice None (demo_env "f"%char (sec 6)))
    (order_moves (user errand RECORD_DELIVERY 4 bob None (demo_env "e"%char (sec 5)))
       (order_moves (user errand RECORD_PICKUP 3 bob None (demo_env "d"%char (sec 4))) sg_taken)).
Definition sg_paid : Saga :=
  tell_order TransferResults (demo_env "g"%char (sec 7)) (tell_credit Completions (demo_env "w"%char (sec 7)) sg_confirmed).

Definition saga_status (s : Saga) : option OrderStatus * option Life :=
  (status_of (sg_orders s), life_of (orderStatus errand (sg_credit s))).

Example demo_saga_statuses :
  saga_status <$> [sg_wallets; sg_posted; sg_opened; sg_taken; sg_confirmed; sg_paid]
  = [(None, Some Unseen); (Some PENDING_CREDIT, Some Unseen); (Some OPEN, Some Held);
     (Some ACCEPTED, Some Held); (Some COMPLETION_PENDING_CREDIT, Some Held); (Some COMPLETED, Some Paid)].
Proof. vm_compute. reflexivity. Qed.

(** ** The run is one the services can make *)

Lemma order_moves_reachable f s :
  demo_saga s ->
  order_step_hearing demo_periods demo_hash (order_hears (sg_answered s)) (sg_orders s) (f (sg_orders s)) ->
  demo_saga (order_moves f s).
Proof. intros Hs Hstep. eapply rtc_r; [exact Hs|]. by apply sg_order. Qed.

Lemma credit_moves_reachable f s :
  demo_saga s -> credit_step_hearing 10 (credit_hears (sg_asked s)) (sg_credit s) (f (sg_credit s)) ->
  demo_saga (credit_moves f s).
Proof. intros Hs Hstep. eapply rtc_r; [exact Hs|]. by apply sg_credit_. Qed.

Lemma activate_reachable u e s : demo_saga s -> demo_saga (activate u e s).
Proof.
  intros Hs. apply credit_moves_reachable; [done|].
  eapply step_deliver; [by left|apply surjective_pairing].
Qed.

(** What a service finds to deliver, it has heard. *)
Lemma first_of_in ty rows row : first_of ty rows = Some row -> row ∈ rows /\ ob_eventType row = ty.
Proof.
  intros [Hin Hty]%List.find_some. apply String.eqb_eq in Hty. by split; [apply list_elem_of_In|].
Qed.

Lemma first_of_heard ty types rows row :
  first_of ty rows = Some row -> ty ∈ types -> one_of rows types (message_of row).
Proof.
  intros [Hin Hty]%first_of_in Ht. split; [by simpl; rewrite Hty|]. by exists row.
Qed.

Lemma tell_credit_reachable q e s : demo_saga s -> demo_saga (tell_credit q e s).
Proof.
  intros Hs. unfold tell_credit. destruct (credit_listens q) as [|ty l] eqn:Hq; [done|].
  destruct (first_of ty (sg_asked s)) as [row|] eqn:Hrow; [|done].
  apply credit_moves_reachable; [done|]. eapply step_deliver; [|apply surjective_pairing].
  right. rewrite Hq. eapply first_of_heard; [exact Hrow|left].
Qed.

Lemma tell_order_reachable q e s : demo_saga s -> demo_saga (tell_order q e s).
Proof.
  intros Hs. unfold tell_order. destruct (order_listens q) as [|ty l] eqn:Hq; [done|].
  destruct (first_of ty (sg_answered s)) as [row|] eqn:Hrow; [|done].
  apply order_moves_reachable; [done|]. eapply os_deliver; [|apply surjective_pairing].
  right. rewrite Hq. eapply first_of_heard; [exact Hrow|left].
Qed.

Lemma saga_user_reachable o a v who key e s :
  a ∈ USER_ACTIONS -> demo_saga s -> demo_saga (order_moves (user o a v who key e) s).
Proof.
  intros Ha Hs. apply order_moves_reachable; [done|].
  eapply os_command; [exact Ha|apply surjective_pairing].
Qed.

Lemma sg_taken_reachable : demo_saga sg_taken.
Proof.
  apply order_moves_reachable; [|eapply os_accept, surjective_pairing].
  apply tell_order_reachable, tell_credit_reachable.
  apply order_moves_reachable; [|eapply os_create, surjective_pairing].
  apply activate_reachable, activate_reachable, rtc_refl.
Qed.

Lemma sg_paid_reachable : demo_saga sg_paid.
Proof.
  apply tell_order_reachable, tell_credit_reachable.
  do 3 (apply saga_user_reachable; [set_solver|]). apply sg_taken_reachable.
Qed.

(** ** Witnesses *)

Definition sg_row : Stored :=
  row_of (sg_orders sg_paid).

Lemma sg_row_stored : orders (sg_orders sg_paid) !! errand = Some sg_row.
Proof. has_row. Qed.

Lemma services_agree_witness :
  exists op, operations (sg_credit sg_paid) !! (errand, OpTransfer) = Some op
    /\ o_txn op = or_creditTransactionId (st_row sg_row) /\ o_courier op = or_courierId (st_row sg_row).
Proof.
  destruct (services_agree demo_periods demo_hash 10 sg_paid errand sg_row sg_paid_reachable sg_row_stored)
    as (_ & Hc & _).
  destruct Hc as (op & Hop & Htx & _ & Hco & _); [vm_compute; reflexivity|].
  exists op. split; [exact Hop|]. split; [exact Htx|exact Hco].
Defined.

(** Credit's report of the payment. *)
Definition sg_reply : OutboxRow :=
  default (new_row "" 0 0 (mkNewEvent "" "" (MovementP terms) "" None) (MovementP terms))
    (first_of CREDITS_TRANSFERRED (sg_answered sg_paid)).

Lemma replies_stay_true_witness :
  exists m, recorded (sg_credit sg_paid) m sg_reply /\ mv_orderId m = errand /\ mv_amount m = 3%Z.
Proof.
  assert (Hrow : first_of CREDITS_TRANSFERRED (sg_answered sg_paid) = Some sg_reply) by has_row.
  assert (Hid : ob_aggregateId sg_reply = errand) by has_row.
  destruct (first_of_in _ _ _ Hrow) as [Hin Hty].
  destruct (replies_stay_true demo_periods demo_hash 10 sg_paid sg_reply sg_paid_reachable Hin)
    as (m & st & r & Hrec & Hst & Hm & _).
  exists m. split; [exact Hrec|].
  destruct (recorded_transferred _ _ _ Hrec Hty) as (Ho & _). rewrite Hid in Ho.
  split; [by symmetry|]. rewrite <- Ho, sg_row_stored in Hst. apply (inj Some) in Hst.
  rewrite Hm, <- Hst. has_row.
Defined.
