(* ===== verification/UserSchema.v ===== *)
(** * UserSchema: the User Service's tables (user-service/src/db/schema.ts)

    One record per row, one field of [UserDb] per table, and one operation per statement shape the
    repositories use, each with the constraints it can meet. [audit_records], [admin_reads] and
    [admin_alerts] are append-only (drizzle/0001, 0004), so they have no operation but insertion.
    Identifiers are in the canonical text PostgreSQL prints; one typed by a caller in another case is
    brought to it where the code does so ([Texts], [to_lower]). *)
From S2P Require Export Text Retention.

Module Account.
Inductive Status := PENDING_ACTIVATION | ACTIVE | SUSPENDED.
#[export] Instance Status_eq_dec : EqDecision Status.
Proof. solve_decision. Defined.
End Account.
Notation AccountStatus := Account.Status.
#[export] Existing Instance Account.Status_eq_dec.

Record User := mkUser {
  u_email : string; u_passwordHash : option string; u_status : AccountStatus;
  u_isSeededAdmin : bool; u_mustChangePassword : bool; u_activatedAt : option Z;
  u_createdAt : Z; u_updatedAt : Z }.

Record RoleRow := mkRole {
  rr_userId : string; rr_role : Role; rr_grantedBy : option string; rr_grantedAt : Z }.

Inductive ContactPreference := IN_APP | BY_EMAIL.
Inductive PreferredMode := AsRequester | AsCourier.

Record Profile := mkProfile {
  pf_displayName : string; pf_faculty : option string; pf_avatarRef : option string;
  pf_contactPreference : ContactPreference; pf_preferredMode : PreferredMode }.

(** A row of [activation_tokens] or of [password_reset_tokens]. *)
Record Token := mkToken {
  tk_id : string; tk_userId : string; tk_tokenHash : string; tk_expiresAt : Z;
  tk_consumedAt : option Z }.

Record Session := mkSession {
  ss_id : string; ss_familyId : string; ss_userId : string; ss_tokenHash : string; ss_issuedAt : Z;
  ss_expiresAt : Z; ss_rotatedAt : option Z; ss_revokedAt : option Z; ss_steppedUpAt : option Z }.

Inductive AuditAction :=
  | SUSPEND | REACTIVATE | ROLE_GRANT | ROLE_REVOKE | ADMIN_BOOTSTRAP | ROLE_CHANGE_REQUESTED
  | ROLE_CHANGE_REJECTED.
Inductive RoleApproval := SECOND_ADMIN | NO_APPROVER.
#[export] Instance AuditAction_eq_dec : EqDecision AuditAction.
Proof. solve_decision. Defined.
#[export] Instance RoleApproval_eq_dec : EqDecision RoleApproval.
Proof. solve_decision. Defined.

(** [actor_type] is SYSTEM exactly when [actor_id] is null, as [insertAudit] writes it and
    [audit_records_actor_consistent] demands. *)
Record Audit := mkAudit {
  au_id : string; au_actorId : option string; au_targetUserId : string; au_action : AuditAction;
  au_reason : string; au_occurredAt : Z; au_correlationId : string;
  au_approval : option RoleApproval }.

Module Request.
Inductive Status := PENDING | APPROVED | REJECTED | EXPIRED.
#[export] Instance Status_eq_dec : EqDecision Status.
Proof. solve_decision. Defined.
End Request.
Notation RoleRequestStatus := Request.Status.
#[export] Existing Instance Request.Status_eq_dec.

Record RoleRequest := mkRequest {
  rq_id : string; rq_targetUserId : string; rq_role : Role; rq_requestedBy : string;
  rq_reason : string; rq_status : RoleRequestStatus; rq_createdAt : Z; rq_expiresAt : Z;
  rq_decidedBy : option string; rq_decidedAt : option Z; rq_decisionReason : option string;
  rq_correlationId : string }.

Record AdminRead := mkAdminRead {
  rd_id : string; rd_actorId : string; rd_targetUserId : string; rd_occurredAt : Z;
  rd_correlationId : string }.

Inductive AdminAlertKind :=
  | ROLE_CHANGE | ADMIN_SUSPENDED | ADMIN_REACTIVATED | BULK_SUSPENSIONS
  | SUSPENSION_LIMIT_REACHED | BULK_READS.
#[export] Instance AdminAlertKind_eq_dec : EqDecision AdminAlertKind.
Proof. solve_decision. Defined.

(** What each kind of alert holds in [details]. *)
Inductive AdminAlertDetails :=
  | CountDetails (inLastHour threshold : Z)
  | StatusDetails (targetUserId reasonRef : string)
  | RoleDetails (targetUserId : string) (role : Role) (requestedBy approvedBy : string)
      (approval : RoleApproval) (reasonRef : string).

Record AdminAlert := mkAdminAlert {
  al_id : string; al_kind : AdminAlertKind; al_actorId : string; al_details : AdminAlertDetails;
  al_occurredAt : Z }.

(** The append-only tables are in order of insertion. *)
Record UserDb := mkUserDb {
  users : gmap string User;
  userRoles : list RoleRow;
  profiles : gmap string Profile;
  activationTokens : list Token;
  passwordResetTokens : list Token;
  refreshSessions : list Session;
  auditRecords : list Audit;
  roleChangeRequests : list RoleRequest;
  adminReads : list AdminRead;
  adminAlerts : list AdminAlert;
  userOutbox : Outbox }.

Definition empty_users : UserDb := mkUserDb ∅ [] ∅ [] [] [] [] [] [] [] empty_outbox.

Definition set_users v d := mkUserDb v (userRoles d) (profiles d) (activationTokens d) (passwordResetTokens d)
  (refreshSessions d) (auditRecords d) (roleChangeRequests d) (adminReads d) (adminAlerts d) (userOutbox d).
Definition set_userRoles v d := mkUserDb (users d) v (profiles d) (activationTokens d) (passwordResetTokens d)
  (refreshSessions d) (auditRecords d) (roleChangeRequests d) (adminReads d) (adminAlerts d) (userOutbox d).
Definition set_profiles v d := mkUserDb (users d) (userRoles d) v (activationTokens d) (passwordResetTokens d)
  (refreshSessions d) (auditRecords d) (roleChangeRequests d) (adminReads d) (adminAlerts d) (userOutbox d).
Definition set_activationTokens v d := mkUserDb (users d) (userRoles d) (profiles d) v (passwordResetTokens d)
  (refreshSessions d) (auditRecords d) (roleChangeRequests d) (adminReads d) (adminAlerts d) (userOutbox d).
Definition set_passwordResetTokens v d := mkUserDb (users d) (userRoles d) (profiles d) (activationTokens d) v
  (refreshSessions d) (auditRecords d) (roleChangeRequests d) (adminReads d) (adminAlerts d) (userOutbox d).
Definition set_refreshSessions v d := mkUserDb (users d) (userRoles d) (profiles d) (activationTokens d) (passwordResetTokens d)
  v (auditRecords d) (roleChangeRequests d) (adminReads d) (adminAlerts d) (userOutbox d).
Definition set_auditRecords v d := mkUserDb (users d) (userRoles d) (profiles d) (activationTokens d) (passwordResetTokens d)
  (refreshSessions d) v (roleChangeRequests d) (adminReads d) (adminAlerts d) (userOutbox d).
Definition set_roleChangeRequests v d := mkUserDb (users d) (userRoles d) (profiles d) (activationTokens d) (passwordResetTokens d)
  (refreshSessions d) (auditRecords d) v (adminReads d) (adminAlerts d) (userOutbox d).
Definition set_adminReads v d := mkUserDb (users d) (userRoles d) (profiles d) (activationTokens d) (passwordResetTokens d)
  (refreshSessions d) (auditRecords d) (roleChangeRequests d) v (adminAlerts d) (userOutbox d).
Definition set_adminAlerts v d := mkUserDb (users d) (userRoles d) (profiles d) (activationTokens d) (passwordResetTokens d)
  (refreshSessions d) (auditRecords d) (roleChangeRequests d) (adminReads d) v (userOutbox d).
Definition set_userOutbox v d := mkUserDb (users d) (userRoles d) (profiles d) (activationTokens d) (passwordResetTokens d)
  (refreshSessions d) (auditRecords d) (roleChangeRequests d) (adminReads d) (adminAlerts d) v.

#[export] Instance UserDb_HasOutbox : HasOutbox UserDb :=
  {| outbox := userOutbox; set_outbox := set_userOutbox; outbox_set_outbox := fun _ _ => eq_refl |}.

Notation UserM := (M UserDb).

(** ** Insertions *)

Definition has_user (db : UserDb) (u : string) : bool := is_some (users db !! u).

(** A foreign key to [users]; a null one refers to nothing. *)
Definition user_fk (u name : string) : UserM unit :=
  let! db := gets id in references_ (has_user db u) name.
Definition user_fk_null (u : option string) (name : string) : UserM unit :=
  match u with Some u => user_fk u name | None => ret tt end.

Definition has_role (db : UserDb) (u : string) (r : Role) : bool :=
  existsb (fun x => String.eqb (rr_userId x) u && bool_decide (rr_role x = r)) (userRoles db).

Definition insert_role (x : RoleRow) : UserM unit :=
  let! db := gets id in
  unique_ (negb (has_role db (rr_userId x) (rr_role x))) "user_roles_user_id_role_pk" ;;;
  user_fk (rr_userId x) "user_roles_user_id_users_id_fk" ;;;
  user_fk_null (rr_grantedBy x) "user_roles_granted_by_users_id_fk" ;;;
  modify (set_userRoles (userRoles db ++ [x])).

Definition insert_profile (u : string) (p : Profile) : UserM unit :=
  check_ (len_between 1 50 (pf_displayName p)) "profiles_display_name_len" ;;;
  let! db := gets id in
  unique_ (negb (is_some (profiles db !! u))) "profiles_pkey" ;;;
  user_fk u "profiles_user_id_users_id_fk" ;;;
  modify (set_profiles (<[u := p]> (profiles db))).

(** A row of either table of emailed links: [get] and [set] are the table. *)
Definition insert_token (get : UserDb -> list Token) (set : list Token -> UserDb -> UserDb)
    (table : string) (t : Token) : UserM unit :=
  let! db := gets id in
  unique_ (negb (existsb (fun x => String.eqb (tk_id x) (tk_id t)) (get db))) (table ++ "_pkey") ;;;
  unique_ (negb (existsb (fun x => String.eqb (tk_tokenHash x) (tk_tokenHash t)) (get db)))
    (table ++ "_token_hash_unique") ;;;
  user_fk (tk_userId t) (table ++ "_user_id_users_id_fk") ;;;
  modify (set (get db ++ [t])).

Definition insert_session (s : Session) : UserM unit :=
  let! db := gets id in
  unique_ (negb (existsb (fun x => String.eqb (ss_id x) (ss_id s)) (refreshSessions db)))
    "refresh_sessions_pkey" ;;;
  unique_ (negb (existsb (fun x => String.eqb (ss_tokenHash x) (ss_tokenHash s)) (refreshSessions db)))
    "refresh_sessions_token_hash_unique" ;;;
  user_fk (ss_userId s) "refresh_sessions_user_id_users_id_fk" ;;;
  modify (set_refreshSessions (refreshSessions db ++ [s])).

Definition insert_audit (a : Audit) : UserM unit :=
  check_ (match au_approval a with
          | None => true
          | Some _ => bool_decide (au_action a = ROLE_GRANT) || bool_decide (au_action a = ROLE_REVOKE)
          end) "audit_records_approval_check" ;;;
  check_ (len_between 1 500 (au_reason a)) "audit_records_reason_len" ;;;
  let! db := gets id in
  unique_ (negb (existsb (fun x => String.eqb (au_id x) (au_id a)) (auditRecords db)))
    "audit_records_pkey" ;;;
  user_fk_null (au_actorId a) "audit_records_actor_id_users_id_fk" ;;;
  user_fk (au_targetUserId a) "audit_records_target_user_id_users_id_fk" ;;;
  modify (set_auditRecords (auditRecords db ++ [a])).

Definition insert_request (r : RoleRequest) : UserM unit :=
  check_ (Bool.eqb (bool_decide (rq_status r = Request.APPROVED)
                    || bool_decide (rq_status r = Request.REJECTED)) (is_some (rq_decidedBy r)))
    "role_change_requests_decided_consistent" ;;;
  check_ (len_between 1 500 (rq_reason r)) "role_change_requests_reason_len" ;;;
  let! db := gets id in
  unique_ (negb (existsb (fun x => String.eqb (rq_id x) (rq_id r)) (roleChangeRequests db)))
    "role_change_requests_pkey" ;;;
  unique_ (negb (bool_decide (rq_status r = Request.PENDING)
                 && existsb (fun x => String.eqb (rq_targetUserId x) (rq_targetUserId r)
                                      && bool_decide (rq_status x = Request.PENDING))
                      (roleChangeRequests db)))
    "role_change_requests_one_pending_per_target" ;;;
  user_fk (rq_targetUserId r) "role_change_requests_target_user_id_users_id_fk" ;;;
  user_fk (rq_requestedBy r) "role_change_requests_requested_by_users_id_fk" ;;;
  user_fk_null (rq_decidedBy r) "role_change_requests_decided_by_users_id_fk" ;;;
  modify (set_roleChangeRequests (roleChangeRequests db ++ [r])).

Definition insert_adminRead (r : AdminRead) : UserM unit :=
  let! db := gets id in
  unique_ (negb (existsb (fun x => String.eqb (rd_id x) (rd_id r)) (adminReads db)))
    "admin_reads_pkey" ;;;
  user_fk (rd_actorId r) "admin_reads_actor_id_users_id_fk" ;;;
  user_fk (rd_targetUserId r) "admin_reads_target_user_id_users_id_fk" ;;;
  modify (set_adminReads (adminReads db ++ [r])).

Definition insert_adminAlert (a : AdminAlert) : UserM unit :=
  let! db := gets id in
  unique_ (negb (existsb (fun x => String.eqb (al_id x) (al_id a)) (adminAlerts db)))
    "admin_alerts_pkey" ;;;
  user_fk (al_actorId a) "admin_alerts_actor_id_users_id_fk" ;;;
  modify (set_adminAlerts (adminAlerts db ++ [a])).

Section Email.
Context `{Pg}.

(** [WHERE lower(email) = lower($1)]: the unique index makes it one account at most. *)
Definition same_email (email : string) (ku : string * User) : bool :=
  String.eqb (pg_lower (u_email ku.2)) (pg_lower email).
Definition find_by_email (email : string) (db : UserDb) : option (string * User) :=
  List.find (same_email email) (map_to_list (users db)).

(** [INSERT INTO users … ON CONFLICT ((lower(email))) DO NOTHING RETURNING id]. *)
Definition insert_user (u : string) (row : User) : UserM bool :=
  let! db := gets id in
  if is_some (find_by_email (u_email row) db) then ret false
  else unique_ (negb (has_user db u)) "users_pkey" ;;;
       modify (set_users (<[u := row]> (users db))) ;;;
       ret true.
End Email.

(** ** Updates and deletions *)

(** [UPDATE … SET f WHERE p]. *)
Definition where_ {A} (p : A -> bool) (f : A -> A) (l : list A) : list A :=
  (fun a => if p a then f a else a) <$> l.

(** [UPDATE users SET f WHERE id = $1 AND p RETURNING id]. *)
Definition update_user (u : string) (p : User -> bool) (f : User -> User) : UserM bool :=
  let! db := gets id in
  match users db !! u with
  | Some row => if p row then modify (set_users (<[u := f row]> (users db))) ;;; ret true else ret false
  | None => ret false
  end.

Definition set_status_columns (s : AccountStatus) (at_ : Z) (r : User) : User :=
  mkUser (u_email r) (u_passwordHash r) s (u_isSeededAdmin r) (u_mustChangePassword r)
    (u_activatedAt r) (u_createdAt r) at_.
Definition set_password_columns (h : string) (at_ : Z) (r : User) : User :=
  mkUser (u_email r) (Some h) (u_status r) (u_isSeededAdmin r) false (u_activatedAt r)
    (u_createdAt r) at_.
Definition clear_password_columns (at_ : Z) (r : User) : User :=
  mkUser (u_email r) None (u_status r) (u_isSeededAdmin r) (u_mustChangePassword r)
    (u_activatedAt r) (u_createdAt r) at_.
Definition activate_columns (at_ : Z) (r : User) : User :=
  mkUser (u_email r) (u_passwordHash r) Account.ACTIVE (u_isSeededAdmin r) (u_mustChangePassword r)
    (Some at_) (u_createdAt r) at_.

Definition consume_token (at_ : Z) (t : Token) : Token :=
  mkToken (tk_id t) (tk_userId t) (tk_tokenHash t) (tk_expiresAt t) (Some at_).

Definition revoke_session (at_ : Z) (s : Session) : Session :=
  mkSession (ss_id s) (ss_familyId s) (ss_userId s) (ss_tokenHash s) (ss_issuedAt s)
    (ss_expiresAt s) (ss_rotatedAt s) (Some at_) (ss_steppedUpAt s).
Definition rotate_session (at_ : Z) (s : Session) : Session :=
  mkSession (ss_id s) (ss_familyId s) (ss_userId s) (ss_tokenHash s) (ss_issuedAt s)
    (ss_expiresAt s) (Some at_) (ss_revokedAt s) (ss_steppedUpAt s).
Definition step_up_session (at_ : Z) (s : Session) : Session :=
  mkSession (ss_id s) (ss_familyId s) (ss_userId s) (ss_tokenHash s) (ss_issuedAt s)
    (ss_expiresAt s) (ss_rotatedAt s) (ss_revokedAt s) (Some at_).

Definition expire_request (r : RoleRequest) : RoleRequest :=
  mkRequest (rq_id r) (rq_targetUserId r) (rq_role r) (rq_requestedBy r) (rq_reason r)
    Request.EXPIRED (rq_createdAt r) (rq_expiresAt r) (rq_decidedBy r) (rq_decidedAt r)
    (rq_decisionReason r) (rq_correlationId r).
Definition decide_request (s : RoleRequestStatus) (by_ reason : string) (at_ : Z) (r : RoleRequest)
  : RoleRequest :=
  mkRequest (rq_id r) (rq_targetUserId r) (rq_role r) (rq_requestedBy r) (rq_reason r) s
    (rq_createdAt r) (rq_expiresAt r) (Some by_) (Some at_) (Some reason) (rq_correlationId r).
