(* ===== verification/UserRepository.v ===== *)
(** * UserRepository: accounts, links and sessions
    (user-service/src/users/users.repository.ts, auth/sessions.repository.ts)

    Each method is one computation over the tables. A read is a function of the tables and of the
    transaction's [now()]; row locks are the atomicity of a transaction. *)
From S2P Require Export UserSchema Paging.

Definition minutes (n : Z) : Z := n * 60 * 1000000.
Definition days (n : Z) : Z := n * 24 * 60 * 60 * 1000000.
Definition seconds (n : Z) : Z := n * 1000000.

(** [array(SELECT role … ORDER BY role)]. *)
Definition rolesOf (u : string) (db : UserDb) : list Role :=
  (if has_role db u ADMIN then [ADMIN] else []) ++ (if has_role db u STUDENT then [STUDENT] else []).

(** [coalesce(display_name, '')] over a left join. *)
Definition display_name (u : string) (db : UserDb) : string :=
  match profiles db !! u with Some p => pf_displayName p | None => "" end.

Record Identity := mkIdentity { id_status : AccountStatus; id_roles : list Role; id_displayName : string }.

Definition findIdentity (u : string) (db : UserDb) : option Identity :=
  (fun r => mkIdentity (u_status r) (rolesOf u db) (display_name u db)) <$> users db !! u.

Section Accounts.
Context `{Zod} `{Pg}.

(** ** Accounts *)

Definition insertUser (u email displayName : string) : UserM bool :=
  let! at_ := now in
  let! inserted := insert_user u (mkUser email None Account.PENDING_ACTIVATION false false None at_ at_) in
  if negb inserted then ret false else
  insert_role (mkRole u STUDENT None at_) ;;;
  insert_profile u (mkProfile displayName None None IN_APP AsRequester) ;;;
  ret true.

Definition lockPendingUser (email : string) : UserM (option string) :=
  let! db := gets id in
  ret (match find_by_email email db with
       | Some (u, r) => if bool_decide (u_status r = Account.PENDING_ACTIVATION) then Some u else None
       | None => None
       end).

(** A link that still works: not used, not expired. *)
Definition unused (t : Token) : bool := negb (is_some (tk_consumedAt t)).
Definition live_token (at_ : Z) (t : Token) : bool := unused t && (at_ <? tk_expiresAt t).

Definition reviveExpiredRegistration (email displayName : string) : UserM (option string) :=
  let! found := lockPendingUser email in
  match found with
  | None => ret None
  | Some u =>
      let! at_ := now in
      let! db := gets id in
      if existsb (fun t => String.eqb (tk_userId t) u && live_token at_ t) (activationTokens db)
      then ret None else
      update_user u (fun _ => true) (clear_password_columns at_) ;;;
      check_ (match profiles db !! u with Some _ => len_between 1 50 displayName | None => true end)
        "profiles_display_name_len" ;;;
      modify (set_profiles (alter (fun p => mkProfile displayName (pf_faculty p) (pf_avatarRef p)
                (pf_contactPreference p) (pf_preferredMode p)) u (profiles db))) ;;;
      ret (Some u)
  end.

Definition markActivated (u : string) : UserM bool :=
  let! at_ := now in
  update_user u (fun r => bool_decide (u_status r = Account.PENDING_ACTIVATION)) (activate_columns at_).

Definition isActivated (u : string) (db : UserDb) : bool :=
  match users db !! u with
  | Some r => bool_decide (u_status r = Account.ACTIVE) && is_some (u_activatedAt r)
  | None => false
  end.

Definition lockResettableUser (email : string) : UserM (option string) :=
  let! db := gets id in
  ret (match find_by_email email db with
       | Some (u, r) =>
           if bool_decide (u_status r ∈ [Account.PENDING_ACTIVATION; Account.ACTIVE]) then Some u else None
       | None => None
       end).

Definition setPassword (u passwordHash : string) : UserM unit :=
  let! at_ := now in
  update_user u (fun _ => true) (set_password_columns passwordHash at_) ;;; ret tt.

(** [WHERE id = $1 AND password_hash = $2]: the compare and swap of a password change. *)
Definition replacePassword (u expectedHash newHash : string) : UserM bool :=
  let! at_ := now in
  update_user u (fun r => bool_decide (u_passwordHash r = Some expectedHash))
    (set_password_columns newHash at_).

Definition findPasswordHash (u : string) (db : UserDb) : option string :=
  users db !! u ≫= u_passwordHash.

Record Credentials := mkCredentials {
  cr_id : string; cr_passwordHash : option string; cr_status : AccountStatus;
  cr_mustChangePassword : bool; cr_isSeededAdmin : bool; cr_displayName : string;
  cr_roles : list Role }.

Definition findCredentials (email : string) (db : UserDb) : option Credentials :=
  (fun ku => mkCredentials ku.1 (u_passwordHash ku.2) (u_status ku.2) (u_mustChangePassword ku.2)
     (u_isSeededAdmin ku.2) (display_name ku.1 db) (rolesOf ku.1 db)) <$> find_by_email email db.

(** The fields of a profile update that are present. *)
Record ProfileChanges := mkChanges {
  ch_displayName : option string; ch_faculty : option (option string);
  ch_avatarRef : option (option string); ch_contactPreference : option ContactPreference;
  ch_preferredMode : option PreferredMode }.

Definition apply_changes (c : ProfileChanges) (p : Profile) : Profile :=
  mkProfile (default (pf_displayName p) (ch_displayName c)) (default (pf_faculty p) (ch_faculty c))
    (default (pf_avatarRef p) (ch_avatarRef c))
    (default (pf_contactPreference p) (ch_contactPreference c))
    (default (pf_preferredMode p) (ch_preferredMode c)).

Definition updateProfile (u : string) (c : ProfileChanges) : UserM unit :=
  let! db := gets id in
  match profiles db !! u with
  | None => ret tt
  | Some p =>
      check_ (len_between 1 50 (pf_displayName (apply_changes c p))) "profiles_display_name_len" ;;;
      modify (set_profiles (<[u := apply_changes c p]> (profiles db)))
  end.

(** The order of identifiers, as PostgreSQL sorts the [uuid] type: by bytes, as its text sorts. *)
Definition listActiveAdminIds (db : UserDb) : list string :=
  order_by String.ltb
    (fst <$> List.filter (fun ku => has_role db ku.1 ADMIN
                            && bool_decide (u_status ku.2 = Account.ACTIVE)
                            && negb (u_mustChangePassword ku.2)) (map_to_list (users db))).
End Accounts.

(** ** Emailed links: activation and password reset *)

Section Links.
Context (get : UserDb -> list Token) (set : list Token -> UserDb -> UserDb) (table : string).

(** [insertActivationToken], [insertPasswordResetToken]. *)
Definition insert_link (tokenId u tokenHash : string) (ttlMinutes : Z) : UserM unit :=
  let! at_ := now in
  insert_token get set table (mkToken tokenId u tokenHash (at_ + minutes ttlMinutes) None).

(** [deleteUnconsumedActivationTokens], [deleteUnconsumedPasswordResetTokens]. *)
Definition delete_unconsumed (u : string) : UserM unit :=
  modify (fun db => set (List.filter (fun t => negb (String.eqb (tk_userId t) u && unused t)) (get db)) db).

Definition by_hash (tokenHash : string) (t : Token) : bool := String.eqb (tk_tokenHash t) tokenHash.

(** [lockUserOfToken], [lockUserOfPasswordResetToken]: the status of the token's account. *)
Definition lock_user_of_token (tokenHash : string) (db : UserDb) : option AccountStatus :=
  List.find (by_hash tokenHash) (get db) ≫= fun t => u_status <$> users db !! tk_userId t.

(** [consumeActivationToken], [consumePasswordResetToken]: the conditional update claims the row. *)
Definition consume_link (tokenHash : string) : UserM (option string) :=
  let! at_ := now in
  let! db := gets id in
  let claim t := by_hash tokenHash t && live_token at_ t in
  modify (set (where_ claim (consume_token at_) (get db))) ;;;
  ret (tk_userId <$> List.find claim (get db)).

Record TokenView := mkTokenView { tv_userId : string; tv_consumed : bool; tv_expired : bool }.

(** [findActivationToken], [findPasswordResetToken]. *)
Definition find_link (tokenHash : string) (at_ : Z) (db : UserDb) : option TokenView :=
  (fun t => mkTokenView (tk_userId t) (negb (unused t)) (tk_expiresAt t <=? at_))
  <$> List.find (by_hash tokenHash) (get db).
End Links.

Definition insertActivationToken :=
  insert_link activationTokens set_activationTokens "activation_tokens".
Definition insertPasswordResetToken :=
  insert_link passwordResetTokens set_passwordResetTokens "password_reset_tokens".
Definition deleteUnconsumedActivationTokens := delete_unconsumed activationTokens set_activationTokens.
Definition deleteUnconsumedPasswordResetTokens :=
  delete_unconsumed passwordResetTokens set_passwordResetTokens.
Definition lockUserOfToken := lock_user_of_token activationTokens.
Definition lockUserOfPasswordResetToken := lock_user_of_token passwordResetTokens.
Definition consumeActivationToken := consume_link activationTokens set_activationTokens.
Definition consumePasswordResetToken := consume_link passwordResetTokens set_passwordResetTokens.
Definition findActivationToken := find_link activationTokens.

(** A reset link also says whether its account is a bootstrap administrator's. *)
Definition findPasswordResetToken (tokenHash : string) (at_ : Z) (db : UserDb)
  : option (TokenView * bool) :=
  find_link passwordResetTokens tokenHash at_ db ≫= fun v =>
    (fun r => (v, u_isSeededAdmin r)) <$> users db !! tv_userId v.

(** ** Sessions *)

Definition unrevoked (s : Session) : bool := negb (is_some (ss_revokedAt s)).
Definition session_hash (tokenHash : string) (s : Session) : bool := String.eqb (ss_tokenHash s) tokenHash.

(** The session a refresh hands out: the same family, expiry and password re-entry. *)
Definition rotate (newId tokenHash continues : string) : UserM unit :=
  let! at_ := now in
  let! db := gets id in
  mapM_ (fun s => insert_session (mkSession newId (ss_familyId s) (ss_userId s) tokenHash at_
                    (ss_expiresAt s) None None (ss_steppedUpAt s)))
    (List.filter (fun s => String.eqb (ss_id s) continues) (refreshSessions db)).

Definition loginable (verifiedPasswordHash : string) (r : User) : bool :=
  bool_decide (u_passwordHash r = Some verifiedPasswordHash)
  && bool_decide (u_status r = Account.ACTIVE) && negb (u_mustChangePassword r).

Definition insertIfLoginable (newId familyId u tokenHash : string) (ttlDays : Z)
    (verifiedPasswordHash : string) : UserM bool :=
  let! at_ := now in
  let! db := gets id in
  if match users db !! u with Some r => loginable verifiedPasswordHash r | None => false end then
    insert_session (mkSession newId familyId u tokenHash at_ (at_ + days ttlDays) None None None) ;;;
    ret true
  else ret false.

Record LockedSession := mkLockedSession {
  lsn_id : string; lsn_familyId : string; lsn_userId : string; lsn_expired : bool;
  lsn_rotated : bool; lsn_revoked : bool; lsn_userStatus : AccountStatus;
  lsn_mustChangePassword : bool }.

Definition lockByHash (tokenHash : string) (at_ : Z) (db : UserDb) : option LockedSession :=
  List.find (session_hash tokenHash) (refreshSessions db) ≫= fun s =>
    (fun r => mkLockedSession (ss_id s) (ss_familyId s) (ss_userId s) (ss_expiresAt s <=? at_)
       (is_some (ss_rotatedAt s)) (is_some (ss_revokedAt s)) (u_status r) (u_mustChangePassword r))
    <$> users db !! ss_userId s.

Definition update_sessions (p : Session -> bool) (f : Z -> Session -> Session) : UserM unit :=
  let! at_ := now in
  modify (fun db => set_refreshSessions (where_ p (f at_) (refreshSessions db)) db).

Definition markRotated (sid : string) : UserM unit :=
  update_sessions (fun s => String.eqb (ss_id s) sid) rotate_session.

Definition revokeFamily (familyId : string) : UserM unit :=
  update_sessions (fun s => String.eqb (ss_familyId s) familyId && unrevoked s) revoke_session.

Definition revokeFamilyByTokenHash (tokenHash : string) : UserM unit :=
  let! db := gets id in
  match List.find (session_hash tokenHash) (refreshSessions db) with
  | Some s => revokeFamily (ss_familyId s)
  | None => ret tt
  end.

Definition revokeAllForUser (u : string) : UserM unit :=
  update_sessions (fun s => String.eqb (ss_userId s) u && unrevoked s) revoke_session.

Definition markSteppedUp (sid u : string) : UserM bool :=
  let! db := gets id in
  let own s := String.eqb (ss_id s) sid && String.eqb (ss_userId s) u && unrevoked s in
  update_sessions own step_up_session ;;;
  ret (existsb own (refreshSessions db)).

Definition steppedUpWithin (sid : string) (secs at_ : Z) (db : UserDb) : bool :=
  match List.find (fun s => String.eqb (ss_id s) sid && unrevoked s) (refreshSessions db) with
  | Some s => match ss_steppedUpAt s with Some t => at_ - seconds secs <? t | None => false end
  | None => false
  end.

(** Whether the session is usable, and its account's status. *)
Definition liveness (sid u : string) (at_ : Z) (db : UserDb) : option (bool * AccountStatus) :=
  List.find (fun s => String.eqb (ss_id s) sid && String.eqb (ss_userId s) u) (refreshSessions db)
  ≫= fun s => (fun r => (unrevoked s && (at_ <? ss_expiresAt s) && negb (u_mustChangePassword r),
                         u_status r)) <$> users db !! ss_userId s.

(** ** AdminRepository: administration's statements (user-service/src/admin/admin.repository.ts)

    Roles, suspensions, role-change requests, and the records of what administrators do. *)

Record LockedUser := mkLockedUser {
  lk_id : string; lk_status : AccountStatus; lk_isSeededAdmin : bool; lk_roles : list Role }.

Definition locked_user (u : string) (db : UserDb) : option LockedUser :=
  (fun r => mkLockedUser u (u_status r) (u_isSeededAdmin r) (rolesOf u db)) <$> users db !! u.

(** The map of the rows locked, by identifier: of the accounts asked for. *)
Definition lockUsers (ids : list string) (db : UserDb) (u : string) : option LockedUser :=
  if existsb (String.eqb u) ids then locked_user u db else None.

(** Every holder of the role; the order of the rows matters to nobody. *)
Definition lockAdminIds (db : UserDb) : list string :=
  rr_userId <$> List.filter (fun x => bool_decide (rr_role x = ADMIN)) (userRoles db).

Definition isSeededAdmin (u : string) (db : UserDb) : bool :=
  match users db !! u with Some r => u_isSeededAdmin r | None => false end.

Definition setStatus (u : string) (s : AccountStatus) : UserM unit :=
  let! at_ := now in
  update_user u (fun _ => true) (set_status_columns s at_) ;;; ret tt.

(** [ON CONFLICT (user_id, role) DO NOTHING]. *)
Definition grantAdmin (u grantedBy : string) : UserM unit :=
  let! at_ := now in
  let! db := gets id in
  if has_role db u ADMIN then ret tt else insert_role (mkRole u ADMIN (Some grantedBy) at_).

Definition revokeAdmin (u : string) : UserM unit :=
  modify (fun db => set_userRoles
    (List.filter (fun x => negb (String.eqb (rr_userId x) u && bool_decide (rr_role x = ADMIN)))
       (userRoles db)) db).

(** ** The audit trail *)

Definition insertAudit (id_ : string) (actorId : option string) (targetUserId : string)
    (action : AuditAction) (reason correlationId : string) (approval : option RoleApproval)
  : UserM unit :=
  let! at_ := now in
  insert_audit (mkAudit id_ actorId targetUserId action reason at_ correlationId approval).

Definition acted (actorId : string) (action : AuditAction) (since : Z) (a : Audit) : bool :=
  bool_decide (au_actorId a = Some actorId) && bool_decide (au_action a = action)
  && (since <? au_occurredAt a).
Definition countActorActions (actorId : string) (action : AuditAction) (secs at_ : Z) (db : UserDb) : Z :=
  Z.of_nat (length (List.filter (acted actorId action (at_ - seconds secs)) (auditRecords db))).

(** ** Role-change requests *)

(** A pending request past its deadline reads as EXPIRED, whether or not that was written yet. *)
Definition effectiveStatus (at_ : Z) (r : RoleRequest) : RoleRequestStatus :=
  if bool_decide (rq_status r = Request.PENDING) && (rq_expiresAt r <=? at_)
  then Request.EXPIRED else rq_status r.

Definition pending_for (u : string) (r : RoleRequest) : bool :=
  String.eqb (rq_targetUserId r) u && bool_decide (rq_status r = Request.PENDING).

Definition expireStaleRequests (u : string) : UserM unit :=
  let! at_ := now in
  modify (fun db => set_roleChangeRequests
    (where_ (fun r => pending_for u r && (rq_expiresAt r <=? at_)) expire_request
       (roleChangeRequests db)) db).

Definition findPendingRequest (u : string) (db : UserDb) : option RoleRequest :=
  List.find (pending_for u) (roleChangeRequests db).

Definition hours (n : Z) : Z := n * 60 * 60 * 1000000.

Definition insertRoleRequest (id_ target : string) (role : Role) (requestedBy reason : string)
    (ttlHours : Z) (correlationId : string) : UserM RoleRequest :=
  let! at_ := now in
  let r := mkRequest id_ target role requestedBy reason Request.PENDING at_ (at_ + hours ttlHours)
             None None None correlationId in
  insert_request r ;;;
  ret r.

Definition request_id (id_ : string) (r : RoleRequest) : bool := String.eqb (rq_id r) id_.
Definition lockRoleRequest (id_ : string) (db : UserDb) : option RoleRequest :=
  List.find (request_id id_) (roleChangeRequests db).

(** Deciding writes whatever the request's status: the caller has checked it. *)
Definition decideRoleRequest (id_ : string) (s : RoleRequestStatus) (decidedBy decisionReason : string)
  : UserM (option RoleRequest) :=
  let! at_ := now in
  user_fk decidedBy "role_change_requests_decided_by_users_id_fk" ;;;
  modify (fun db => set_roleChangeRequests
    (where_ (request_id id_) (decide_request s decidedBy decisionReason at_)
       (roleChangeRequests db)) db) ;;;
  gets (lockRoleRequest id_).

(** ** Watching the administrators *)

Definition insertAdminReads (actorId correlationId : string) (targets : list string) : UserM unit :=
  let! at_ := now in
  mapM_ (fun t => let! id_ := randomUUID in insert_adminRead (mkAdminRead id_ actorId t at_ correlationId))
    targets.

Definition countReads (actorId : string) (secs at_ : Z) (db : UserDb) : Z :=
  Z.of_nat (length (List.filter (fun r => String.eqb (rd_actorId r) actorId
    && (at_ - seconds secs <? rd_occurredAt r)) (adminReads db))).

Definition insertAlert (id_ : string) (kind : AdminAlertKind) (actorId : string)
    (details : AdminAlertDetails) : UserM unit :=
  let! at_ := now in insert_adminAlert (mkAdminAlert id_ kind actorId details at_).

Definition alert_since (kind : AdminAlertKind) (actorId : string) (since : Z) (a : AdminAlert) : bool :=
  bool_decide (al_kind a = kind) && String.eqb (al_actorId a) actorId && (since <? al_occurredAt a).
Definition hasRecentAlert (kind : AdminAlertKind) (actorId : string) (secs at_ : Z) (db : UserDb) : bool :=
  existsb (alert_since kind actorId (at_ - seconds secs)) (adminAlerts db).

(** ** Lists *)

(** [DESC] by time, then by identifier. *)
Definition newest {A} (time : A -> Z) (key : A -> string) (a b : A) : bool :=
  (time b <? time a) || ((time a =? time b) && String.ltb (key a) (key b)).

Definition wanted {A} (filter_ : option A) (p : A -> bool) : bool := optP filter_ p.

Record AuditQuery := mkAuditQuery {
  aq_targetUserId : option string; aq_actorId : option string; aq_action : option AuditAction;
  aq_from : option Z; aq_to : option Z }.

Definition audit_filter (q : AuditQuery) (a : Audit) : bool :=
  wanted (aq_targetUserId q) (String.eqb (au_targetUserId a))
  && wanted (aq_actorId q) (fun x => bool_decide (au_actorId a = Some x))
  && wanted (aq_action q) (fun x => bool_decide (au_action a = x))
  && wanted (aq_from q) (fun t => t <=? au_occurredAt a)
  && wanted (aq_to q) (fun t => au_occurredAt a <? t).
Definition listAudit (page_ pageSize : nat) (q : AuditQuery) (db : UserDb) : list Audit * nat :=
  offset_page page_ pageSize
    (order_by (newest au_occurredAt au_id) (List.filter (audit_filter q) (auditRecords db))).

Definition listReads (page_ pageSize : nat) (actorId target : option string) (db : UserDb)
  : list AdminRead * nat :=
  offset_page page_ pageSize (order_by (newest rd_occurredAt rd_id)
    (List.filter (fun r => wanted actorId (String.eqb (rd_actorId r))
                           && wanted target (String.eqb (rd_targetUserId r))) (adminReads db))).

Definition listAlerts (page_ pageSize : nat) (kind : option AdminAlertKind) (db : UserDb)
  : list AdminAlert * nat :=
  offset_page page_ pageSize (order_by (newest al_occurredAt al_id)
    (List.filter (fun a => wanted kind (fun k => bool_decide (al_kind a = k))) (adminAlerts db))).

Definition listRoleRequests (page_ pageSize : nat) (status : option RoleRequestStatus) (at_ : Z)
    (db : UserDb) : list RoleRequest * nat :=
  offset_page page_ pageSize (order_by (newest rq_createdAt rq_id)
    (List.filter (fun r => wanted status (fun s => bool_decide (effectiveStatus at_ r = s)))
       (roleChangeRequests db))).

Section Lists.
Context `{Texts} `{Pg}.

Record UserFilters := mkUserFilters {
  uf_status : option AccountStatus; uf_role : option Role; uf_q : option string }.

(** The search is a prefix of the address or the display name, its wildcards escaped. *)
Definition userFilters (f : UserFilters) (db : UserDb) (ku : string * User) : bool :=
  wanted (uf_status f) (fun s => bool_decide (u_status ku.2 = s))
  && wanted (uf_role f) (has_role db ku.1)
  && wanted (uf_q f) (fun q => negb (nonempty q)
       || String.prefix (to_lower q) (pg_lower (u_email ku.2))
       || match profiles db !! ku.1 with
          | Some p => String.prefix (to_lower q) (pg_lower (pf_displayName p))
          | None => false
          end).

Definition oldest_user (a b : string * User) : bool :=
  (u_createdAt a.2 <? u_createdAt b.2)
  || ((u_createdAt a.2 =? u_createdAt b.2) && String.ltb a.1 b.1).

(** [listUsers] and [listDirectory]: the same accounts, shown with more or less of each. *)
Definition listUsers (page_ pageSize : nat) (f : UserFilters) (db : UserDb)
  : list (string * User) * nat :=
  offset_page page_ pageSize
    (order_by oldest_user (List.filter (userFilters f db) (map_to_list (users db)))).
End Lists.

(** ** Bootstrap *)

Section Seed.
Context `{Pg}.

Definition insertSeededAdmin (u email passwordHash displayName : string) : UserM bool :=
  let! at_ := now in
  let! inserted := insert_user u (mkUser email (Some passwordHash) Account.ACTIVE true true (Some at_)
                                    at_ at_) in
  if negb inserted then ret false else
  insert_role (mkRole u STUDENT None at_) ;;;
  insert_role (mkRole u ADMIN None at_) ;;;
  insert_profile u (mkProfile displayName None None IN_APP AsRequester) ;;;
  ret true.
End Seed.
