(* ===== verification/UserService.v ===== *)
(** * UserService: registration, activation, sign-in and sessions
    (user-service/src/users/users.service.ts, auth/sessions.service.ts, auth/emailed-link.ts,
    auth/access-token.guard.ts, auth/admin.guard.ts, users/email.ts, users/me.controller.ts)

    A method that reads before its transaction takes the tables it read as [seen], so that anything
    may happen in between. The digest of a token and the check of a password are [Crypto]; a fresh
    token, a salted hash and JavaScript's clock are arguments. A mail to send is part of the answer. *)
From Stdlib Require Import Ascii.
From S2P Require Export UserRepository.
#[local] Open Scope Z_scope.
#[local] Open Scope string_scope.

(** [sha256Hex] of tokens.ts, and [verifyPassword] of passwords.ts: Argon2's verdict on a stored hash. *)
Class Crypto := { sha256Hex : string -> string; verifyPassword : string -> string -> bool }.

(** ** Addresses *)

Section Email.
Context `{Texts}.

Definition normalizeEmail (raw : string) : string := to_lower (trim (nfkc raw)).

Fixpoint after_last_at (s : string) : option string :=
  match s with
  | EmptyString => None
  | String a s' =>
      match after_last_at s' with
      | Some d => Some d
      | None => if Ascii.eqb a "@"%char then Some s' else None
      end
  end.

(** The text after the last [@], which must not be the first character. *)
Definition isAllowedDomain (email : string) (allowed : list string) : bool :=
  match email with
  | EmptyString => false
  | String _ rest =>
      match after_last_at rest with Some d => existsb (String.eqb d) allowed | None => false end
  end.
End Email.

Record UserSettings := mkUserSettings {
  allowedEmailDomains : list string; activationTokenTtlMinutes : Z; passwordResetTokenTtlMinutes : Z;
  bootstrapPassword : option string }.

Definition REFRESH_TTL_DAYS : Z := 7.

Record Mail := mkMail { ml_to : string; ml_userId : string; ml_token : string }.

Definition invalidToken : Exn := ApiException 404 "ACTIVATION_TOKEN_INVALID".
Definition invalidCredentials : Exn := ApiException 401 "INVALID_CREDENTIALS".
Definition passwordChangeRequired : Exn := ApiException 403 "PASSWORD_CHANGE_REQUIRED".
Definition validationFailed : Exn := ApiException 422 "VALIDATION_FAILED".
Definition unauthenticated : Exn := ApiException 401 "UNAUTHENTICATED".
Definition invalidRefresh : Exn := ApiException 401 "REFRESH_TOKEN_INVALID".
Definition userNotFound : Exn := ApiException 404 "NOT_FOUND".

Definition codeForStatus (s : AccountStatus) : Exn :=
  if bool_decide (s = Account.SUSPENDED) then ApiException 403 "ACCOUNT_SUSPENDED"
  else ApiException 403 "ACCOUNT_NOT_ACTIVATED".

Section Service.
Context `{Zod} `{Pg} `{Texts} `{Crypto} (settings : UserSettings).

(** ** Registration (users.service.ts) *)

(** The new token replaces any the account still holds. *)
Definition issueActivationToken (u token : string) : UserM unit :=
  deleteUnconsumedActivationTokens u ;;;
  let! tokenId := randomUUID in
  insertActivationToken tokenId u (sha256Hex token) (activationTokenTtlMinutes settings).

Definition register_tx (email displayName token : string) : UserM (option string) :=
  let! u := randomUUID in
  let! inserted := insertUser u email displayName in
  if inserted then issueActivationToken u token ;;; ret (Some u) else
  let! revived := reviveExpiredRegistration email displayName in
  match revived with
  | Some r => issueActivationToken r token ;;; ret (Some r)
  | None => ret None
  end.

Definition register (rawEmail displayName token : string) (e : Env) (db : UserDb)
  : outcome (string * Mail) * UserDb :=
  let email := normalizeEmail rawEmail in
  if negb (isAllowedDomain email (allowedEmailDomains settings)) then (Throw validationFailed, db) else
  match transaction (register_tx email displayName token) e db with
  | (Ok (Some u), db') => (Ok (u, mkMail email u token), db')
  | (Ok None, db') => (Throw (ApiException 409 "EMAIL_ALREADY_REGISTERED"), db')
  | (Throw x, db') => (Throw x, db')
  end.

Definition resend_tx (email token : string) : UserM (option string) :=
  let! found := lockPendingUser email in
  match found with
  | Some u => issueActivationToken u token ;;; ret (Some u)
  | None => ret None
  end.

(** Never throws, and tells the caller nothing: the answer here is the mail, if one is sent. *)
Definition mail_of (email token : string) (r : outcome (option string) * UserDb)
  : option Mail * UserDb :=
  match r with
  | (Ok (Some u), db') => (Some (mkMail email u token), db')
  | (_, db') => (None, db')
  end.

Definition resendActivation (rawEmail token : string) (e : Env) (db : UserDb) : option Mail * UserDb :=
  let email := normalizeEmail rawEmail in
  if negb (isAllowedDomain email (allowedEmailDomains settings)) then (None, db)
  else mail_of email token (transaction (resend_tx email token) e db).

Definition reset_request_tx (email token : string) : UserM (option string) :=
  let! found := lockResettableUser email in
  match found with
  | None => ret None
  | Some u =>
      deleteUnconsumedPasswordResetTokens u ;;;
      let! tokenId := randomUUID in
      insertPasswordResetToken tokenId u (sha256Hex token) (passwordResetTokenTtlMinutes settings) ;;;
      ret (Some u)
  end.

Definition requestPasswordReset (rawEmail token : string) (e : Env) (db : UserDb)
  : option Mail * UserDb :=
  let email := normalizeEmail rawEmail in
  mail_of email token (transaction (reset_request_tx email token) e db).

(** ** What an emailed link does (emailed-link.ts) *)

Definition setPasswordFromEmailedLink (u : string) (status : AccountStatus)
    (passwordHash correlationId : string) (newDate : Z) : UserM unit :=
  setPassword u passwordHash ;;;
  let! activated := (if bool_decide (status = Account.PENDING_ACTIVATION) then markActivated u else ret false) in
  (if activated
   then insertOutboxEvent (mkNewEvent USER_ACTIVATED u (UserActivatedP u newDate) correlationId None) ;;; ret tt
   else ret tt) ;;;
  deleteUnconsumedActivationTokens u ;;;
  deleteUnconsumedPasswordResetTokens u ;;;
  revokeAllForUser u.

(** ** Activation *)

(** The account and whether it was active already. *)
Definition unusableToken (found : option TokenView) (db : UserDb) : outcome (string * bool) :=
  match found with
  | None => Throw invalidToken
  | Some t =>
      if tv_consumed t
      then if isActivated (tv_userId t) db then Ok (tv_userId t, true) else Throw invalidToken
      else Throw (ApiException 410 "ACTIVATION_TOKEN_EXPIRED")
  end.

Definition activate_tx (tokenHash passwordHash correlationId : string) (newDate : Z)
  : UserM (string * bool) :=
  let! db := gets id in
  let! claimed := consumeActivationToken tokenHash in
  match claimed, lockUserOfToken tokenHash db with
  | Some u, Some status =>
      if bool_decide (status = Account.PENDING_ACTIVATION)
      then setPasswordFromEmailedLink u status passwordHash correlationId newDate ;;; ret (u, false)
      else throw invalidToken
  | _, _ =>
      let! at_ := now in
      let! db' := gets id in
      match unusableToken (findActivationToken tokenHash at_ db') db' with
      | Ok r => ret r
      | Throw x => throw x
      end
  end.

(** [at_seen] is [now()] of the first read; [passwordHash] what Argon2 made of the password. *)
Definition activate (token passwordHash correlationId : string) (newDate at_seen : Z) (seen : UserDb)
    (e : Env) (db : UserDb) : outcome (string * bool) * UserDb :=
  let tokenHash := sha256Hex token in
  let found := findActivationToken tokenHash at_seen seen in
  match found with
  | Some t =>
      if tv_consumed t || tv_expired t then (unusableToken found seen, db)
      else transaction (activate_tx tokenHash passwordHash correlationId newDate) e db
  | None => (unusableToken found seen, db)
  end.

(** ** What other services ask *)

Definition lookup_identity (u : string) (db : UserDb) : option Identity := findIdentity u db.

Definition introspect (sid u : string) (at_ : Z) (db : UserDb) : option Identity :=
  match liveness sid u at_ db with
  | Some (true, _) => findIdentity u db
  | _ => None
  end.

Record Permissions := mkPermissions {
  pm_status : AccountStatus; pm_isAdmin : bool; pm_canPlaceOrders : bool; pm_canAcceptOrders : bool }.

Definition is_admin (roles : list Role) : bool := bool_decide (ADMIN ∈ roles).

Definition permissions (u : string) (db : UserDb) : outcome Permissions :=
  match findIdentity u db with
  | None => Throw userNotFound
  | Some i =>
      let active := bool_decide (id_status i = Account.ACTIVE) in
      Ok (mkPermissions (id_status i) (active && is_admin (id_roles i)) active active)
  end.

(** ** Sign-in and sessions (sessions.service.ts) *)

(** The account and the hash the password matched. An unknown address, or one with no password yet,
    costs the same Argon2 work against a hash nothing matches. *)
Definition verifyCredentials (rawEmail password : string) (db : UserDb)
  : outcome (Credentials * string) :=
  match findCredentials (normalizeEmail rawEmail) db with
  | Some c =>
      match cr_passwordHash c with
      | Some h =>
          if verifyPassword h password then
            if bool_decide (cr_status c = Account.ACTIVE) then Ok (c, h)
            else Throw (codeForStatus (cr_status c))
          else Throw invalidCredentials
      | None => Throw invalidCredentials
      end
  | None => Throw invalidCredentials
  end.

(** The access token is signed over [sub] and [sid]. *)
Record IssuedSession := mkIssued {
  is_sub : string; is_sid : string; is_refreshToken : string; is_displayName : string;
  is_roles : list Role; is_status : AccountStatus }.

Definition login_tx (u refreshHash verifiedHash : string) : UserM (option string) :=
  let! sessionId := randomUUID in
  let! familyId := randomUUID in
  let! started := insertIfLoginable sessionId familyId u refreshHash REFRESH_TTL_DAYS verifiedHash in
  ret (if started then Some sessionId else None).

Definition login (rawEmail password refreshToken : string) (seen : UserDb) (e : Env) (db : UserDb)
  : outcome IssuedSession * UserDb :=
  match verifyCredentials rawEmail password seen with
  | Throw x => (Throw x, db)
  | Ok (c, h) =>
      if cr_mustChangePassword c then (Throw passwordChangeRequired, db) else
      match transaction (login_tx (cr_id c) (sha256Hex refreshToken) h) e db with
      | (Ok (Some sid), db') =>
          (Ok (mkIssued (cr_id c) sid refreshToken (cr_displayName c) (cr_roles c) (cr_status c)), db')
      | (Ok None, db') => (Throw invalidCredentials, db')
      | (Throw x, db') => (Throw x, db')
      end
  end.

(** Outcomes are returned, not thrown: a throw would roll back the revocation. *)
Inductive RefreshOutcome :=
  | RInvalid | RReused | RInactive (s : AccountStatus) | RPasswordChange | RRotated (u sid : string).

Definition refresh_tx (tokenHash nextHash : string) : UserM RefreshOutcome :=
  let! nextId := randomUUID in
  let! at_ := now in
  let! db := gets id in
  match lockByHash tokenHash at_ db with
  | None => ret RInvalid
  | Some row =>
      if lsn_rotated row then revokeFamily (lsn_familyId row) ;;; ret RReused
      else if lsn_revoked row || lsn_expired row then ret RInvalid
      else if negb (bool_decide (lsn_userStatus row = Account.ACTIVE))
      then revokeFamily (lsn_familyId row) ;;; ret (RInactive (lsn_userStatus row))
      else if lsn_mustChangePassword row
      then revokeFamily (lsn_familyId row) ;;; ret RPasswordChange
      else markRotated (lsn_id row) ;;;
           rotate nextId nextHash (lsn_id row) ;;;
           ret (RRotated (lsn_userId row) nextId)
  end.

(** [later]: the tables the identity is read from, after the transaction. *)
Definition refresh_answer (r : RefreshOutcome) (nextToken : string) (later : UserDb)
  : outcome IssuedSession :=
  match r with
  | RInvalid => Throw invalidRefresh
  | RReused => Throw (ApiException 401 "REFRESH_TOKEN_REUSED")
  | RInactive s => Throw (codeForStatus s)
  | RPasswordChange => Throw passwordChangeRequired
  | RRotated u sid =>
      match findIdentity u later with
      | None => Throw invalidRefresh
      | Some i => Ok (mkIssued u sid nextToken (id_displayName i) (id_roles i) (id_status i))
      end
  end.

(** [refreshToken]: the cookie, if there is one and it is not empty. *)
Definition refresh (refreshToken : option string) (nextToken : string) (e : Env) (db : UserDb)
  : outcome IssuedSession * UserDb :=
  match refreshToken with
  | None => (Throw invalidRefresh, db)
  | Some token =>
      match transaction (refresh_tx (sha256Hex token) (sha256Hex nextToken)) e db with
      | (Ok r, db') => (refresh_answer r nextToken db', db')
      | (Throw x, db') => (Throw x, db')
      end
  end.

Definition change_tx (u verifiedHash newHash : string) : UserM bool :=
  let! replaced := replacePassword u verifiedHash newHash in
  if negb replaced then ret false else
  revokeAllForUser u ;;;
  deleteUnconsumedPasswordResetTokens u ;;;
  ret true.

Definition is_bootstrap (password : string) : bool :=
  bool_decide (bootstrapPassword settings = Some password).

Definition changePassword (rawEmail currentPassword newPassword newHash : string) (seen : UserDb)
    (e : Env) (db : UserDb) : outcome unit * UserDb :=
  match verifyCredentials rawEmail currentPassword seen with
  | Throw x => (Throw x, db)
  | Ok (c, h) =>
      if String.eqb newPassword currentPassword then (Throw validationFailed, db)
      else if cr_isSeededAdmin c && is_bootstrap newPassword then (Throw validationFailed, db)
      else match transaction (change_tx (cr_id c) h newHash) e db with
           | (Ok true, db') => (Ok tt, db')
           | (Ok false, db') => (Throw invalidCredentials, db')
           | (Throw x, db') => (Throw x, db')
           end
  end.

Definition resetTokenRefusal (t : option TokenView) : Exn :=
  match t with
  | Some v => if tv_consumed v then ApiException 404 "PASSWORD_RESET_TOKEN_INVALID"
              else ApiException 410 "PASSWORD_RESET_TOKEN_EXPIRED"
  | None => ApiException 404 "PASSWORD_RESET_TOKEN_INVALID"
  end.

Definition confirm_tx (tokenHash passwordHash correlationId : string) (newDate : Z) : UserM unit :=
  let! db := gets id in
  let! claimed := consumePasswordResetToken tokenHash in
  match claimed, lockUserOfPasswordResetToken tokenHash db with
  | Some u, Some status =>
      if bool_decide (status = Account.SUSPENDED) then throw (resetTokenRefusal None)
      else setPasswordFromEmailedLink u status passwordHash correlationId newDate
  | _, _ =>
      let! at_ := now in
      let! db' := gets id in
      throw (resetTokenRefusal (fst <$> findPasswordResetToken tokenHash at_ db'))
  end.

Definition confirmPasswordReset (token password passwordHash correlationId : string)
    (newDate at_seen : Z) (seen : UserDb) (e : Env) (db : UserDb) : outcome unit * UserDb :=
  let tokenHash := sha256Hex token in
  match findPasswordResetToken tokenHash at_seen seen with
  | None => (Throw (resetTokenRefusal None), db)
  | Some (t, isSeededAdmin_) =>
      if tv_consumed t || tv_expired t then (Throw (resetTokenRefusal (Some t)), db)
      else if isSeededAdmin_ && is_bootstrap password then (Throw validationFailed, db)
      else transaction (confirm_tx tokenHash passwordHash correlationId newDate) e db
  end.

Definition stepUp (u sid password : string) (seen : UserDb) (e : Env) (db : UserDb)
  : outcome unit * UserDb :=
  match findPasswordHash u seen with
  | Some h =>
      if verifyPassword h password then
        match transaction (markSteppedUp sid u) e db with
        | (Ok true, db') => (Ok tt, db')
        | (Ok false, db') => (Throw unauthenticated, db')
        | (Throw x, db') => (Throw x, db')
        end
      else (Throw invalidCredentials, db)
  | None => (Throw invalidCredentials, db)
  end.

Definition logout (refreshToken : option string) (e : Env) (db : UserDb) : outcome unit * UserDb :=
  match refreshToken with
  | None => (Ok tt, db)
  | Some token => transaction (revokeFamilyByTokenHash (sha256Hex token)) e db
  end.

(** ** Guards *)

(** [claims]: what the token's verification gave, the user and the session. *)
Definition access_guard (claims : option (string * string)) (at_ : Z) (db : UserDb)
  : outcome (string * string) :=
  match claims with
  | None => Throw unauthenticated
  | Some (sub, sid) =>
      match liveness sid sub at_ db with
      | Some (true, s) =>
          if bool_decide (s = Account.ACTIVE) then Ok (sub, sid) else Throw (codeForStatus s)
      | _ => Throw unauthenticated
      end
  end.

Definition forbidden : Exn := ApiException 403 "FORBIDDEN".

Definition admin_guard (u : string) (db : UserDb) : outcome unit :=
  match findIdentity u db with
  | Some i =>
      if bool_decide (id_status i = Account.ACTIVE) && is_admin (id_roles i) then Ok tt
      else Throw forbidden
  | None => Throw forbidden
  end.

(** ** One's own account (me.controller.ts) *)

Record Me := mkMe {
  me_id : string; me_email : string; me_status : AccountStatus; me_roles : list Role;
  me_profile : Profile; me_createdAt : Z }.

Definition findMe (u : string) (db : UserDb) : option Me :=
  match users db !! u, profiles db !! u with
  | Some r, Some p => Some (mkMe u (u_email r) (u_status r) (rolesOf u db) p (iso (u_createdAt r)))
  | _, _ => None
  end.

Definition load_me (u : string) (db : UserDb) : outcome Me :=
  match findMe u db with Some m => Ok m | None => Throw unauthenticated end.

Definition update_me (u : string) (c : ProfileChanges) (e : Env) (db : UserDb) : outcome Me * UserDb :=
  match transaction (updateProfile u c) e db with
  | (Ok _, db') => (load_me u db', db')
  | (Throw x, db') => (Throw x, db')
  end.
End Service.
