(* ===== verification/AdminService.v ===== *)
(** * AdminService: administration (user-service/src/admin/admin.service.ts, admin/seed.ts)

    Suspension, reactivation and role changes, under the controls of ADR 0008, each one transaction
    that also writes its audit record and its event; the record of what administrators read; the
    alerts; and the bootstrap administrators. [actorId] and [sessionId] are those of a verified
    access token; a target's identifier may be typed in any case and is used as stored. *)
From S2P Require Export UserService.
#[local] Open Scope Z_scope.
#[local] Open Scope string_scope.

Record AdminSettings := mkAdminSettings {
  roleRequestTtlHours : Z; stepUpWindowSeconds : Z; suspensionsAlertPerHour : Z;
  suspensionsLimitPerHour : Z; readsAlertPerHour : Z }.

Definition HOUR_SECONDS : Z := 3600.

Definition conflict (code : string) : Exn := ApiException 409 code.
Definition refused (code : string) : Exn := ApiException 403 code.
Definition stepUpRequired : Exn := ApiException 401 "STEP_UP_REQUIRED".

(** ** Views *)

Record AdminUserView := mkAdminUserView {
  av_id : string; av_email : string; av_roles : list Role; av_status : AccountStatus;
  av_isSeededAdmin : bool; av_profile : Profile; av_createdAt : Z; av_activatedAt : option Z }.

(** The [coalesce]s of a missing profile. *)
Definition profile_or_default (u : string) (db : UserDb) : Profile :=
  default (mkProfile "" None None IN_APP AsRequester) (profiles db !! u).

Definition toAdminUserView (db : UserDb) (ku : string * User) : AdminUserView :=
  mkAdminUserView ku.1 (u_email ku.2) (rolesOf ku.1 db) (u_status ku.2) (u_isSeededAdmin ku.2)
    (profile_or_default ku.1 db) (iso (u_createdAt ku.2)) (iso <$> u_activatedAt ku.2).

Record DirectoryView := mkDirectoryView {
  dv_id : string; dv_email : string; dv_displayName : string; dv_roles : list Role;
  dv_status : AccountStatus; dv_isSeededAdmin : bool; dv_createdAt : Z }.

Definition toDirectoryView (db : UserDb) (ku : string * User) : DirectoryView :=
  mkDirectoryView ku.1 (u_email ku.2) (display_name ku.1 db) (rolesOf ku.1 db) (u_status ku.2)
    (u_isSeededAdmin ku.2) (iso (u_createdAt ku.2)).

(** A request as it reads at a time, its times cut to milliseconds. *)
Definition toRoleRequestView (at_ : Z) (r : RoleRequest) : RoleRequest :=
  mkRequest (rq_id r) (rq_targetUserId r) (rq_role r) (rq_requestedBy r) (rq_reason r)
    (effectiveStatus at_ r) (iso (rq_createdAt r)) (iso (rq_expiresAt r)) (rq_decidedBy r)
    (iso <$> rq_decidedAt r) (rq_decisionReason r) (rq_correlationId r).

Definition get_user (u : string) (db : UserDb) : outcome AdminUserView :=
  match users db !! u with
  | Some r => Ok (toAdminUserView db (u, r))
  | None => Throw userNotFound
  end.

Section Admin.
Context `{Zod} `{Pg} `{Texts} `{Crypto} (settings : AdminSettings).

(** ** Who may act *)

Definition activeAdmin (actor : option LockedUser) : outcome LockedUser :=
  match actor with
  | Some a =>
      if bool_decide (lk_status a = Account.ACTIVE) && is_admin (lk_roles a) then Ok a
      else Throw forbidden
  | None => Throw forbidden
  end.

Definition lockActorAndTarget (actorId targetId : string) (db : UserDb)
  : outcome (LockedUser * LockedUser) :=
  let locked := lockUsers [actorId; to_lower targetId] db in
  match activeAdmin (locked actorId) with
  | Throw x => Throw x
  | Ok actor =>
      match locked (to_lower targetId) with
      | Some target => Ok (actor, target)
      | None => Throw userNotFound
      end
  end.

Definition requireStepUp (sessionId : string) : UserM unit :=
  let! at_ := now in
  let! db := gets id in
  require (steppedUpWithin sessionId (stepUpWindowSeconds settings) at_ db) stepUpRequired.

(** The permission comes first, so nobody is asked for a password they could not use. *)
Definition guardAdminTarget (actor : LockedUser) (sessionId : string) : UserM unit :=
  require (lk_isSeededAdmin actor) (refused "ADMIN_ACTION_NOT_PERMITTED") ;;;
  requireStepUp sessionId.

(** ** Records and alerts *)

Definition record (actorId target : string) (action : AuditAction) (reason correlationId : string)
    (approval : option RoleApproval) : UserM string :=
  let! id_ := randomUUID in
  insertAudit id_ (Some actorId) target action reason correlationId approval ;;;
  ret id_.

Definition raise (kind : AdminAlertKind) (actorId : string) (details : AdminAlertDetails) : UserM unit :=
  let! id_ := randomUUID in insertAlert id_ kind actorId details.

(** Its advisory lock is the atomicity of the check and the insert. *)
Definition raiseOncePerHour (kind : AdminAlertKind) (actorId : string) (details : AdminAlertDetails)
  : UserM unit :=
  let! at_ := now in
  let! db := gets id in
  if hasRecentAlert kind actorId HOUR_SECONDS at_ db then ret tt else raise kind actorId details.

Definition announce (ty u : string) (p : Payload) (correlationId : string) : UserM unit :=
  insertOutboxEvent (mkNewEvent ty u p correlationId None) ;;; ret tt.

(** ** Suspension *)

Inductive SuspendOutcome := AlreadySuspended | SuspendedNow (inLastHour : Z) | LimitReached (recent : Z).

Definition suspend_tx (actorId sessionId targetId reason correlationId : string) (newDate : Z)
  : UserM SuspendOutcome :=
  let! db := gets id in
  let! at_ := now in
  let! locked := lift_outcome (lockActorAndTarget actorId targetId db) in
  let '(actor, target) := locked in
  let u := lk_id target in
  require (negb (String.eqb actorId u)) (refused "SELF_SUSPENSION_FORBIDDEN") ;;;
  (if is_admin (lk_roles target) then guardAdminTarget actor sessionId else ret tt) ;;;
  if bool_decide (lk_status target = Account.SUSPENDED) then ret AlreadySuspended else
  require (bool_decide (lk_status target = Account.ACTIVE)) (conflict "ACCOUNT_NOT_ACTIVE") ;;;
  let recent := countActorActions actorId SUSPEND HOUR_SECONDS at_ db in
  if (suspensionsLimitPerHour settings <=? recent)%Z then ret (LimitReached recent) else
  setStatus u Account.SUSPENDED ;;;
  revokeAllForUser u ;;;
  let! auditId := record actorId u SUSPEND reason correlationId None in
  (if is_admin (lk_roles target) then raise ADMIN_SUSPENDED actorId (StatusDetails u auditId) else ret tt) ;;;
  announce USER_SUSPENDED u (UserStatusChangedP u SUSPENDED (Some auditId) newDate) correlationId ;;;
  ret (SuspendedNow (recent + 1)%Z).

(** Alerts are raised in a transaction of their own, after: [e'] is its environment. *)
Definition suspend (actorId sessionId targetId reason correlationId : string) (newDate : Z) (e e' : Env)
    (db : UserDb) : outcome AdminUserView * UserDb :=
  match transaction (suspend_tx actorId sessionId targetId reason correlationId newDate) e db with
  | (Throw x, db1) => (Throw x, db1)
  | (Ok (LimitReached recent), db1) =>
      match transaction (raiseOncePerHour SUSPENSION_LIMIT_REACHED actorId
              (CountDetails recent (suspensionsLimitPerHour settings))) e' db1 with
      | (Ok _, db2) => (Throw (ApiException 429 "RATE_LIMITED"), db2)
      | (Throw x, db2) => (Throw x, db2)
      end
  | (Ok (SuspendedNow n), db1) =>
      if (suspensionsAlertPerHour settings <=? n)%Z then
        match transaction (raiseOncePerHour BULK_SUSPENSIONS actorId
                (CountDetails n (suspensionsAlertPerHour settings))) e' db1 with
        | (Ok _, db2) => (get_user (to_lower targetId) db2, db2)
        | (Throw x, db2) => (Throw x, db2)
        end
      else (get_user (to_lower targetId) db1, db1)
  | (Ok AlreadySuspended, db1) => (get_user (to_lower targetId) db1, db1)
  end.

Definition reactivate_tx (actorId sessionId targetId reason correlationId : string) (newDate : Z)
  : UserM unit :=
  let! db := gets id in
  let! locked := lift_outcome (lockActorAndTarget actorId targetId db) in
  let '(actor, target) := locked in
  let u := lk_id target in
  (if is_admin (lk_roles target) then guardAdminTarget actor sessionId else ret tt) ;;;
  if bool_decide (lk_status target = Account.ACTIVE) then ret tt else
  require (bool_decide (lk_status target = Account.SUSPENDED)) (conflict "ACCOUNT_NOT_ACTIVE") ;;;
  setStatus u Account.ACTIVE ;;;
  let! auditId := record actorId u REACTIVATE reason correlationId None in
  (if is_admin (lk_roles target) then raise ADMIN_REACTIVATED actorId (StatusDetails u auditId) else ret tt) ;;;
  announce USER_REACTIVATED u (UserStatusChangedP u ACTIVE (Some auditId) newDate) correlationId.

Definition reactivate (actorId sessionId targetId reason correlationId : string) (newDate : Z) (e : Env)
    (db : UserDb) : outcome AdminUserView * UserDb :=
  match transaction (reactivate_tx actorId sessionId targetId reason correlationId newDate) e db with
  | (Ok _, db') => (get_user (to_lower targetId) db', db')
  | (Throw x, db') => (Throw x, db')
  end.

(** ** Role changes *)

(** The rules of a change: refused, nothing to change, or allowed. *)
Definition roleRulesAllow (actorId : string) (target : LockedUser) (role : Role)
    (adminIds : list string) (db : UserDb) : outcome bool :=
  match role with
  | ADMIN =>
      if is_admin (lk_roles target) then Ok false
      else if bool_decide (lk_status target = Account.ACTIVE) then Ok true
      else Throw (conflict "ACCOUNT_NOT_ACTIVE")
  | STUDENT =>
      if negb (is_admin (lk_roles target)) then Ok false
      else if String.eqb actorId (lk_id target) then Throw (refused "SELF_DEMOTION_FORBIDDEN")
      else if negb (isSeededAdmin actorId db) then Throw (refused "ADMIN_DOWNGRADE_NOT_PERMITTED")
      else if (length adminIds <=? 1)%nat then Throw (conflict "LAST_ADMIN")
      else Ok true
  end.

(** [[...roles].sort()]. *)
Definition roles_after (role : Role) (roles : list Role) : list Role :=
  let rs := match role with
            | ADMIN => (roles ++ [ADMIN])%list
            | STUDENT => List.filter (fun r => negb (bool_decide (r = ADMIN))) roles
            end in
  (List.filter (fun r => bool_decide (r = ADMIN)) rs
  ++ List.filter (fun r => bool_decide (r = STUDENT)) rs)%list.

Definition applyRoleChange (approverId requesterId : string) (approval : RoleApproval)
    (target : LockedUser) (role : Role) (reason correlationId : string) (newDate : Z) : UserM unit :=
  let u := lk_id target in
  (match role with ADMIN => grantAdmin u requesterId | STUDENT => revokeAdmin u end) ;;;
  let! auditId := record approverId u (match role with ADMIN => ROLE_GRANT | STUDENT => ROLE_REVOKE end)
                    reason correlationId (Some approval) in
  announce USER_ROLE_CHANGED u
    (UserRoleChangedP u (roles_after role (lk_roles target)) (Some auditId) newDate) correlationId ;;;
  raise ROLE_CHANGE approverId (RoleDetails u role requesterId approverId approval auditId).

Inductive RoleChange := Noop | Applied (user : AdminUserView) | Requested (request : RoleRequest).

Definition requestRoleChange_tx (actorId sessionId targetId : string) (role : Role)
    (reason correlationId : string) (newDate : Z) : UserM RoleChange :=
  let! db := gets id in
  let adminIds := lockAdminIds db in
  let! locked := lift_outcome (lockActorAndTarget actorId targetId db) in
  let target := locked.2 in
  let u := lk_id target in
  let! allowed := lift_outcome (roleRulesAllow actorId target role adminIds db) in
  if negb allowed then ret Noop else
  requireStepUp sessionId ;;;
  expireStaleRequests u ;;;
  let! db1 := gets id in
  require (negb (is_some (findPendingRequest u db1))) (conflict "ROLE_REQUEST_PENDING") ;;;
  match List.filter (fun a => negb (String.eqb a actorId) && negb (String.eqb a u)) adminIds with
  | [] =>
      applyRoleChange actorId actorId NO_APPROVER target role reason correlationId newDate ;;;
      let! db2 := gets id in
      let! view := lift_outcome (get_user u db2) in
      ret (Applied view)
  | _ :: _ =>
      let! requestId := randomUUID in
      let! request := insertRoleRequest requestId u role actorId reason
                        (roleRequestTtlHours settings) correlationId in
      record actorId u ROLE_CHANGE_REQUESTED reason correlationId None ;;;
      let! at_ := now in
      ret (Requested (toRoleRequestView at_ request))
  end.

(** A change that applied, or one that waits for its second administrator. *)
Definition requestRoleChange (actorId sessionId targetId : string) (role : Role)
    (reason correlationId : string) (newDate : Z) (e : Env) (db : UserDb)
  : outcome (AdminUserView + RoleRequest) * UserDb :=
  match transaction (requestRoleChange_tx actorId sessionId targetId role reason correlationId newDate)
          e db with
  | (Ok Noop, db') =>
      (match get_user (to_lower targetId) db' with Ok v => Ok (inl v) | Throw x => Throw x end, db')
  | (Ok (Applied v), db') => (Ok (inl v), db')
  | (Ok (Requested r), db') => (Ok (inr r), db')
  | (Throw x, db') => (Throw x, db')
  end.

Definition openRequest (requestId : string) (at_ : Z) (db : UserDb) : outcome RoleRequest :=
  match lockRoleRequest requestId db with
  | None => Throw userNotFound
  | Some r =>
      match effectiveStatus at_ r with
      | Request.EXPIRED => Throw (conflict "ROLE_REQUEST_EXPIRED")
      | Request.PENDING => Ok r
      | _ => Throw (conflict "ROLE_REQUEST_NOT_PENDING")
      end
  end.

Definition assertCanDecide (actorId : string) (r : RoleRequest) : outcome unit :=
  if String.eqb actorId (rq_requestedBy r) then Throw (refused "SELF_APPROVAL_FORBIDDEN")
  else if String.eqb actorId (rq_targetUserId r) then Throw (refused "CONFLICT_OF_INTEREST")
  else Ok tt.

Definition stale : Exn := conflict "ROLE_REQUEST_STALE".

Definition approve_tx (actorId sessionId requestId reason correlationId : string) (newDate : Z)
  : UserM string :=
  let! db := gets id in
  let! at_ := now in
  let adminIds := lockAdminIds db in
  let! request := lift_outcome (openRequest requestId at_ db) in
  lift_outcome (assertCanDecide actorId request) ;;;
  let locked := lockUsers [actorId; rq_requestedBy request; rq_targetUserId request] db in
  lift_outcome (activeAdmin (locked actorId)) ;;;
  require (is_ok (activeAdmin (locked (rq_requestedBy request)))) stale ;;;
  match locked (rq_targetUserId request) with
  | None => throw userNotFound
  | Some target =>
      let! allowed := lift_outcome (roleRulesAllow (rq_requestedBy request) target (rq_role request) adminIds db) in
      require allowed stale ;;;
      requireStepUp sessionId ;;;
      decideRoleRequest (rq_id request) Request.APPROVED actorId reason ;;;
      applyRoleChange actorId (rq_requestedBy request) SECOND_ADMIN target (rq_role request) reason
        correlationId newDate ;;;
      ret (lk_id target)
  end.

Definition approveRoleRequest (actorId sessionId requestId reason correlationId : string) (newDate : Z)
    (e : Env) (db : UserDb) : outcome AdminUserView * UserDb :=
  match transaction (approve_tx actorId sessionId requestId reason correlationId newDate) e db with
  | (Ok u, db') => (get_user u db', db')
  | (Throw x, db') => (Throw x, db')
  end.

Definition reject_tx (actorId sessionId requestId reason correlationId : string)
  : UserM (option RoleRequest) :=
  let! db := gets id in
  let! at_ := now in
  let! request := lift_outcome (openRequest requestId at_ db) in
  require (negb (String.eqb actorId (rq_targetUserId request))) (refused "CONFLICT_OF_INTEREST") ;;;
  lift_outcome (activeAdmin (lockUsers [actorId] db actorId)) ;;;
  (if String.eqb actorId (rq_requestedBy request) then ret tt else requireStepUp sessionId) ;;;
  let! decided := decideRoleRequest (rq_id request) Request.REJECTED actorId reason in
  record actorId (rq_targetUserId request) ROLE_CHANGE_REJECTED reason correlationId None ;;;
  ret (toRoleRequestView at_ <$> decided).

Definition rejectRoleRequest (actorId sessionId requestId reason correlationId : string) (e : Env)
    (db : UserDb) : outcome (option RoleRequest) * UserDb :=
  transaction (reject_tx actorId sessionId requestId reason correlationId) e db.

(** ** Reading accounts *)

(** Three statements of their own: the reads, their count and, past the threshold, an alert. *)
Definition recordReads (actorId : string) (ids : list string) (correlationId : string) (e e' e'' : Env)
    (db : UserDb) : outcome unit * UserDb :=
  let others := List.filter (fun u => negb (String.eqb u actorId)) ids in
  match others with
  | [] => (Ok tt, db)
  | _ :: _ =>
      match transaction (insertAdminReads actorId correlationId others) e db with
      | (Throw x, db1) => (Throw x, db1)
      | (Ok _, db1) =>
          let reads := countReads actorId HOUR_SECONDS (env_now e') db1 in
          if (readsAlertPerHour settings <=? reads)%Z
          then transaction (raiseOncePerHour BULK_READS actorId
                 (CountDetails reads (readsAlertPerHour settings))) e'' db1
          else (Ok tt, db1)
      end
  end.

Definition readUser (actorId userId correlationId : string) (e e' e'' : Env) (db : UserDb)
  : outcome AdminUserView * UserDb :=
  match get_user (to_lower userId) db with
  | Throw x => (Throw x, db)
  | Ok view =>
      match recordReads actorId [av_id view] correlationId e e' e'' db with
      | (Ok _, db') => (Ok view, db')
      | (Throw x, db') => (Throw x, db')
      end
  end.

Definition admin_listUsers (actorId : string) (page_ pageSize : nat) (f : UserFilters)
    (correlationId : string) (e e' e'' : Env) (db : UserDb)
  : outcome (list AdminUserView * nat) * UserDb :=
  let '(rows, total) := listUsers page_ pageSize f db in
  match recordReads actorId (fst <$> rows) correlationId e e' e'' db with
  | (Ok _, db') => (Ok (toAdminUserView db <$> rows, total), db')
  | (Throw x, db') => (Throw x, db')
  end.

Definition listDirectory (page_ pageSize : nat) (f : UserFilters) (db : UserDb)
  : list DirectoryView * nat :=
  let '(rows, total) := listUsers page_ pageSize f db in (toDirectoryView db <$> rows, total).

(** ** Bootstrap administrators (seed.ts) *)

Definition seed_tx (u email passwordHash : string) (newDate : Z) : UserM bool :=
  let! inserted := insertSeededAdmin u email passwordHash "Administrator" in
  if negb inserted then ret false else
  let! auditId := randomUUID in
  insertAudit auditId None u ADMIN_BOOTSTRAP
    "Bootstrap administrator from deployment configuration (ADMIN_SEED_EMAILS)" "seed" None ;;;
  announce USER_ACTIVATED u (UserActivatedP u newDate) "seed" ;;;
  ret true.

(** One address of the list: its raw text, and what its account would be made of. *)
Record SeedEntry := mkSeedEntry { se_raw : string; se_id : string; se_hash : string; se_date : Z; se_env : Env }.

(** The addresses created and, by position, those skipped; the first bad address stops the boot. *)
Fixpoint seed_from (allowed : list string) (n : nat) (entries : list SeedEntry) (db : UserDb)
  : outcome (list string * list (nat * string)) * UserDb :=
  match entries with
  | [] => (Ok ([], []), db)
  | s :: rest =>
      let email := normalizeEmail (se_raw s) in
      if negb (isAllowedDomain email allowed)
      then (Throw (Failure "ADMIN_SEED_EMAILS address is not allowed"), db) else
      match transaction (seed_tx (se_id s) email (se_hash s) (se_date s)) (se_env s) db with
      | (Throw x, db1) => (Throw x, db1)
      | (Ok created, db1) =>
          match seed_from allowed (Datatypes.S n) rest db1 with
          | (Ok (c, k), db2) => (Ok (if created then (email :: c, k) else (c, (n, email) :: k)), db2)
          | (Throw x, db2) => (Throw x, db2)
          end
      end
  end.

Definition seedAdmins (password : option string) (allowed : list string) (entries : list SeedEntry)
    (db : UserDb) : outcome (list string * list (nat * string)) * UserDb :=
  match entries, password with
  | [], _ => (Ok ([], []), db)
  | _ :: _, None => (Throw (Failure "ADMIN_SEED_EMAILS is set but ADMIN_SEED_PASSWORD is not."), db)
  | _ :: _, Some p =>
      if nonempty p then seed_from allowed 1 entries db
      else (Throw (Failure "ADMIN_SEED_EMAILS is set but ADMIN_SEED_PASSWORD is not."), db)
  end.
End Admin.
