(* ===== verification/UserFacts.v ===== *)
(** * UserFacts: when each statement of the User Service succeeds, and what it then does

    One equivalence per table operation and per method; [inv_user] reads a successful computation
    through them. *)
From S2P Require Export AdminService.
#[local] Open Scope Z_scope.

Lemma where_elem {A} (p : A -> bool) f l (a : A) :
  a ∈ where_ p f l <-> exists b, b ∈ l /\ a = if p b then f b else b.
Proof. unfold where_. rewrite list_elem_of_fmap. naive_solver. Qed.

Lemma where_id {A} (p : A -> bool) f (l : list A) : (forall a, a ∈ l -> p a = false) -> where_ p f l = l.
Proof.
  intros Hp. unfold where_. induction l as [|a l IH]; [done|]. rewrite fmap_cons, (Hp a) by set_solver.
  f_equal. apply IH. set_solver.
Qed.

(** ** Tables *)

Section Tables.
Implicit Types db : UserDb.

Lemma user_fk_ok u name e n db r :
  user_fk u name e (n, db) = Ok r <-> has_user db u = true /\ r = (tt, (n, db)).
Proof.
  unfold user_fk, references_, bind, gets, id. simpl. apply require_ok.
Qed.

Lemma user_fk_null_ok u name e n db r :
  user_fk_null u name e (n, db) = Ok r <-> optP u (has_user db) = true /\ r = (tt, (n, db)).
Proof. destruct u; simpl; [apply user_fk_ok|]. rewrite ret_ok. naive_solver. Qed.

(** Runs a sequence of checks that ends in one write, both ways. *)
Ltac fk1 :=
  match goal with
  | K : user_fk _ _ _ _ = Ok _ |- _ => apply user_fk_ok in K as [? K]
  | K : user_fk_null _ _ _ _ = Ok _ |- _ => apply user_fk_null_ok in K as [? K]
  end.
Ltac by_checks :=
  unfold_checks; unfold id in *; split;
    [ let H := fresh in intros H;
      repeat (first [inv_tx1 | fk1]; simpl fst in *; simpl snd in *); subst; simpl in *;
      rewrite ?andb_true_iff; tauto
    | let H := fresh in intros [H ->]; rewrite ?andb_true_iff in H; destruct_and?;
      repeat (apply bind_ok; eexists _, _; split;
        [first [ by apply gets_ok | by apply require_ok | by apply user_fk_ok
               | by apply user_fk_null_ok | by apply modify_ok | by apply ret_ok ]|]; simpl);
      first [ by apply modify_ok | by apply ret_ok ] ].

Definition role_ok db (x : RoleRow) : bool :=
  negb (has_role db (rr_userId x) (rr_role x)) && has_user db (rr_userId x)
  && optP (rr_grantedBy x) (has_user db).
Lemma insert_role_ok x e n db r :
  insert_role x e (n, db) = Ok r <->
  role_ok db x = true /\ r = (tt, (n, set_userRoles (userRoles db ++ [x]) db)).
Proof. unfold insert_role, role_ok. by_checks. Qed.

Definition profile_ok db u (p : Profile) : bool :=
  len_between 1 50 (pf_displayName p) && negb (is_some (profiles db !! u)) && has_user db u.
Lemma insert_profile_ok u p e n db r :
  insert_profile u p e (n, db) = Ok r <->
  profile_ok db u p = true /\ r = (tt, (n, set_profiles (<[u := p]> (profiles db)) db)).
Proof. unfold insert_profile, profile_ok. by_checks. Qed.

Definition token_ok (get : UserDb -> list Token) db (t : Token) : bool :=
  negb (existsb (fun x => String.eqb (tk_id x) (tk_id t)) (get db))
  && negb (existsb (fun x => String.eqb (tk_tokenHash x) (tk_tokenHash t)) (get db))
  && has_user db (tk_userId t).
Lemma insert_token_ok get set table t e n db r :
  insert_token get set table t e (n, db) = Ok r <->
  token_ok get db t = true /\ r = (tt, (n, set (get db ++ [t]) db)).
Proof. unfold insert_token, token_ok. by_checks. Qed.

Definition session_ok db (s : Session) : bool :=
  negb (existsb (fun x => String.eqb (ss_id x) (ss_id s)) (refreshSessions db))
  && negb (existsb (fun x => String.eqb (ss_tokenHash x) (ss_tokenHash s)) (refreshSessions db))
  && has_user db (ss_userId s).
Lemma insert_session_ok s e n db r :
  insert_session s e (n, db) = Ok r <->
  session_ok db s = true /\ r = (tt, (n, set_refreshSessions (refreshSessions db ++ [s]) db)).
Proof. unfold insert_session, session_ok. by_checks. Qed.

Definition approval_ok (a : Audit) : bool :=
  match au_approval a with
  | None => true
  | Some _ => bool_decide (au_action a = ROLE_GRANT) || bool_decide (au_action a = ROLE_REVOKE)
  end.
Definition audit_ok db (a : Audit) : bool :=
  approval_ok a && len_between 1 500 (au_reason a)
  && negb (existsb (fun x => String.eqb (au_id x) (au_id a)) (auditRecords db))
  && optP (au_actorId a) (has_user db) && has_user db (au_targetUserId a).
Lemma insert_audit_ok a e n db r :
  insert_audit a e (n, db) = Ok r <->
  audit_ok db a = true /\ r = (tt, (n, set_auditRecords (auditRecords db ++ [a]) db)).
Proof. unfold insert_audit, audit_ok, approval_ok. by_checks. Qed.

Definition request_ok db (r : RoleRequest) : bool :=
  Bool.eqb (bool_decide (rq_status r = Request.APPROVED) || bool_decide (rq_status r = Request.REJECTED))
    (is_some (rq_decidedBy r))
  && len_between 1 500 (rq_reason r)
  && negb (existsb (fun x => String.eqb (rq_id x) (rq_id r)) (roleChangeRequests db))
  && negb (bool_decide (rq_status r = Request.PENDING)
           && existsb (fun x => String.eqb (rq_targetUserId x) (rq_targetUserId r)
                                && bool_decide (rq_status x = Request.PENDING)) (roleChangeRequests db))
  && has_user db (rq_targetUserId r) && has_user db (rq_requestedBy r)
  && optP (rq_decidedBy r) (has_user db).
Lemma insert_request_ok x e n db r :
  insert_request x e (n, db) = Ok r <->
  request_ok db x = true
  /\ r = (tt, (n, set_roleChangeRequests (roleChangeRequests db ++ [x]) db)).
Proof. unfold insert_request, request_ok. by_checks. Qed.

Definition read_ok db (x : AdminRead) : bool :=
  negb (existsb (fun y => String.eqb (rd_id y) (rd_id x)) (adminReads db))
  && has_user db (rd_actorId x) && has_user db (rd_targetUserId x).
Lemma insert_adminRead_ok x e n db r :
  insert_adminRead x e (n, db) = Ok r <->
  read_ok db x = true /\ r = (tt, (n, set_adminReads (adminReads db ++ [x]) db)).
Proof. unfold insert_adminRead, read_ok. by_checks. Qed.

Definition alert_ok db (x : AdminAlert) : bool :=
  negb (existsb (fun y => String.eqb (al_id y) (al_id x)) (adminAlerts db)) && has_user db (al_actorId x).
Lemma insert_adminAlert_ok x e n db r :
  insert_adminAlert x e (n, db) = Ok r <->
  alert_ok db x = true /\ r = (tt, (n, set_adminAlerts (adminAlerts db ++ [x]) db)).
Proof. unfold insert_adminAlert, alert_ok. by_checks. Qed.

Lemma update_user_ok u p f e n db r :
  update_user u p f e (n, db) = Ok r <->
  (exists row, users db !! u = Some row /\ p row = true
     /\ r = (true, (n, set_users (<[u := f row]> (users db)) db)))
  \/ ((forall row, users db !! u = Some row -> p row = false) /\ r = (false, (n, db))).
Proof.
  unfold update_user, bind at 1, gets, id. simpl. destruct (users db !! u) as [row|] eqn:Hrow.
  - destruct (p row) eqn:Hp.
    + unfold bind, modify, ret. simpl. split; [intros [= <-]; left; eauto|].
      intros [(row' & [= <-] & _ & ->)|[Hn _]]; [done|]. by specialize (Hn row eq_refl); congruence.
    + rewrite ret_ok. split; [intros ->; right; naive_solver|].
      intros [(row' & [= <-] & Hp' & _)|[_ ->]]; [congruence|done].
  - rewrite ret_ok. split; [intros ->; right; naive_solver|]. naive_solver.
Qed.
End Tables.
