(* ===== verification/UserEffects.v ===== *)
(** * UserEffects: every way the User Service's tables change

    [Core] is what the theorems speak of: accounts, roles, links, sessions, the audit trail and the
    role-change requests. [effect] lists the changes a transaction can make to it, each with the
    conditions under which it happens and the events it announces; every method of the service is
    shown to be one of these ([..._effect]), whatever the tables it met. *)
From S2P Require Export UserFacts.
#[local] Open Scope Z_scope.

Record Core := mkCore {
  c_users : gmap string User; c_roles : list RoleRow; c_links : list Token; c_resets : list Token;
  c_sessions : list Session; c_audit : list Audit; c_requests : list RoleRequest }.

Definition core (db : UserDb) : Core :=
  mkCore (users db) (userRoles db) (activationTokens db) (passwordResetTokens db)
    (refreshSessions db) (auditRecords db) (roleChangeRequests db).

(** An event announced: its type and the account it is about. *)
Notation Ev := (string * string)%type.
Definition event_of (r : OutboxRow) : Ev := (ob_eventType r, ob_aggregateId r).

(** The outbox grew by rows that announce [evs]. *)
Definition announced (db db' : UserDb) (evs : list Ev) : Prop :=
  exists rows, ob_rows (userOutbox db') = ob_rows (userOutbox db) ++ rows /\ event_of <$> rows = evs.

Definition holds (rs : list RoleRow) (u : string) (r : Role) : bool :=
  existsb (fun x => String.eqb (rr_userId x) u && bool_decide (rr_role x = r)) rs.
Definition without_admin (u : string) (rs : list RoleRow) : list RoleRow :=
  List.filter (fun x => negb (String.eqb (rr_userId x) u && bool_decide (rr_role x = ADMIN))) rs.

Definition drop_links (u : string) (l : list Token) : list Token :=
  List.filter (fun t => negb (String.eqb (tk_userId t) u && unused t)) l.
Definition revoke_where (p : Session -> bool) (at_ : Z) (l : list Session) : list Session :=
  where_ (fun s => p s && unrevoked s) (revoke_session at_) l.
Definition of_user (u : string) (s : Session) : bool := String.eqb (ss_userId s) u.
Definition of_family (f : string) (s : Session) : bool := String.eqb (ss_familyId s) f.
Definition with_id (i : string) (s : Session) : bool := String.eqb (ss_id s) i.

(** An account that may act as an administrator now. *)
Definition active_admin (c : Core) (u : string) : Prop :=
  exists r, c_users c !! u = Some r /\ u_status r = Account.ACTIVE /\ holds (c_roles c) u ADMIN = true.
Definition seeded (c : Core) (u : string) : Prop :=
  exists r, c_users c !! u = Some r /\ u_isSeededAdmin r = true.

(** The rules of a role change, for whoever asks. *)
Definition may_change (c : Core) (asker u : string) (role : Role) : Prop :=
  match role with
  | ADMIN => holds (c_roles c) u ADMIN = false
      /\ exists r, c_users c !! u = Some r /\ u_status r = Account.ACTIVE
  | STUDENT => holds (c_roles c) u ADMIN = true /\ asker <> u /\ seeded c asker
  end.
Definition role_action (role : Role) : AuditAction :=
  match role with ADMIN => ROLE_GRANT | STUDENT => ROLE_REVOKE end.
Definition roles_changed (u : string) (role : Role) (by_ : string) (at_ : Z) (rs : list RoleRow)
  : list RoleRow :=
  match role with ADMIN => rs ++ [mkRole u ADMIN (Some by_) at_] | STUDENT => without_admin u rs end.

(** What an emailed link makes of an account. *)
Definition proved (h : string) (at_ : Z) (r : User) : User :=
  let r' := set_password_columns h at_ r in
  if bool_decide (u_status r = Account.PENDING_ACTIVATION) then activate_columns at_ r' else r'.

(** [l'] is [l] with the live link of [u] under [tokenHash] claimed. *)
Definition claimed (tokenHash u : string) (at_ : Z) (l l' : list Token) : Prop :=
  let claim t := by_hash tokenHash t && live_token at_ t in
  l' = where_ claim (consume_token at_) l /\ exists t, List.find claim l = Some t /\ tk_userId t = u.

Definition fresh_token (l : list Token) (t : Token) : Prop :=
  unused t = true /\ forall x, x ∈ l -> tk_id x <> tk_id t /\ tk_tokenHash x <> tk_tokenHash t.
Definition fresh_session (l : list Session) (s : Session) : Prop :=
  ss_rotatedAt s = None /\ ss_revokedAt s = None
  /\ forall x, x ∈ l -> ss_id x <> ss_id s /\ ss_tokenHash x <> ss_tokenHash s.

Inductive effect (limit : Z) (c : Core) : list Ev -> Core -> Prop :=
  | ef_same : effect limit c [] c
  | ef_register u email at_ tok :
      c_users c !! u = None -> tk_userId tok = u -> fresh_token (drop_links u (c_links c)) tok ->
      effect limit c [] (mkCore
        (<[u := mkUser email None Account.PENDING_ACTIVATION false false None at_ at_]> (c_users c))
        (c_roles c ++ [mkRole u STUDENT None at_]) (drop_links u (c_links c) ++ [tok]) (c_resets c)
        (c_sessions c) (c_audit c) (c_requests c))
  | ef_link u r r' tok :
      c_users c !! u = Some r -> u_status r = Account.PENDING_ACTIVATION ->
      (r' = r \/ exists at_, r' = clear_password_columns at_ r) -> tk_userId tok = u ->
      fresh_token (drop_links u (c_links c)) tok ->
      effect limit c [] (mkCore (<[u := r']> (c_users c)) (c_roles c)
        (drop_links u (c_links c) ++ [tok]) (c_resets c) (c_sessions c) (c_audit c) (c_requests c))
  | ef_reset u r tok :
      c_users c !! u = Some r -> u_status r <> Account.SUSPENDED -> tk_userId tok = u ->
      fresh_token (drop_links u (c_resets c)) tok ->
      effect limit c [] (mkCore (c_users c) (c_roles c) (c_links c)
        (drop_links u (c_resets c) ++ [tok]) (c_sessions c) (c_audit c) (c_requests c))
  | ef_prove u r h tokenHash at_ links resets :
      c_users c !! u = Some r -> u_status r <> Account.SUSPENDED ->
      (u_status r = Account.PENDING_ACTIVATION /\ claimed tokenHash u at_ (c_links c) links
         /\ resets = c_resets c)
      \/ (links = c_links c /\ claimed tokenHash u at_ (c_resets c) resets) ->
      effect limit c
        (if bool_decide (u_status r = Account.PENDING_ACTIVATION) then [(USER_ACTIVATED, u)] else [])
        (mkCore (<[u := proved h at_ r]> (c_users c)) (c_roles c) (drop_links u links)
           (drop_links u resets) (revoke_where (of_user u) at_ (c_sessions c)) (c_audit c) (c_requests c))
  | ef_login s r h :
      c_users c !! ss_userId s = Some r -> loginable h r = true -> fresh_session (c_sessions c) s ->
      ss_steppedUpAt s = None -> (forall x, x ∈ c_sessions c -> ss_familyId x <> ss_familyId s) ->
      effect limit c [] (mkCore (c_users c) (c_roles c) (c_links c) (c_resets c) (c_sessions c ++ [s])
        (c_audit c) (c_requests c))
  | ef_refresh s s' r at_ :
      s ∈ c_sessions c -> ss_rotatedAt s = None -> unrevoked s = true -> at_ < ss_expiresAt s ->
      c_users c !! ss_userId s = Some r -> u_status r = Account.ACTIVE ->
      u_mustChangePassword r = false -> ss_familyId s' = ss_familyId s -> ss_userId s' = ss_userId s ->
      ss_expiresAt s' = ss_expiresAt s -> ss_steppedUpAt s' = ss_steppedUpAt s ->
      fresh_session (c_sessions c) s' ->
      effect limit c [] (mkCore (c_users c) (c_roles c) (c_links c) (c_resets c)
        (where_ (with_id (ss_id s)) (rotate_session at_) (c_sessions c) ++ [s']) (c_audit c)
        (c_requests c))
  | ef_revoke f at_ :
      effect limit c [] (mkCore (c_users c) (c_roles c) (c_links c) (c_resets c)
        (revoke_where (of_family f) at_ (c_sessions c)) (c_audit c) (c_requests c))
  | ef_stepup i u at_ :
      effect limit c [] (mkCore (c_users c) (c_roles c) (c_links c) (c_resets c)
        (where_ (fun s => with_id i s && of_user u s && unrevoked s) (step_up_session at_)
           (c_sessions c)) (c_audit c) (c_requests c))
  | ef_password u r h h' at_ :
      c_users c !! u = Some r -> u_passwordHash r = Some h ->
      effect limit c [] (mkCore (<[u := set_password_columns h' at_ r]> (c_users c)) (c_roles c)
        (c_links c) (drop_links u (c_resets c)) (revoke_where (of_user u) at_ (c_sessions c))
        (c_audit c) (c_requests c))
  | ef_suspend actor u r a :
      active_admin c actor -> actor <> u -> c_users c !! u = Some r -> u_status r = Account.ACTIVE ->
      (holds (c_roles c) u ADMIN = true -> seeded c actor) ->
      au_actorId a = Some actor -> au_targetUserId a = u -> au_action a = SUSPEND ->
      au_approval a = None ->
      Z.of_nat (length (List.filter (acted actor SUSPEND (au_occurredAt a - seconds HOUR_SECONDS))
        (c_audit c))) < limit ->
      effect limit c [(USER_SUSPENDED, u)] (mkCore
        (<[u := set_status_columns Account.SUSPENDED (au_occurredAt a) r]> (c_users c)) (c_roles c)
        (c_links c) (c_resets c) (revoke_where (of_user u) (au_occurredAt a) (c_sessions c))
        (c_audit c ++ [a]) (c_requests c))
  | ef_reactivate actor u r a :
      active_admin c actor -> c_users c !! u = Some r -> u_status r = Account.SUSPENDED ->
      (holds (c_roles c) u ADMIN = true -> seeded c actor) ->
      au_actorId a = Some actor -> au_targetUserId a = u -> au_action a = REACTIVATE ->
      au_approval a = None ->
      effect limit c [(USER_REACTIVATED, u)] (mkCore
        (<[u := set_status_columns Account.ACTIVE (au_occurredAt a) r]> (c_users c)) (c_roles c)
        (c_links c) (c_resets c) (c_sessions c) (c_audit c ++ [a]) (c_requests c))
  | ef_request actor u role a q at_ :
      active_admin c actor -> may_change c actor u role ->
      is_Some (c_users c !! u) -> rq_requestedBy q = actor -> rq_targetUserId q = u -> rq_role q = role ->
      rq_status q = Request.PENDING -> rq_decidedBy q = None ->
      (forall x, x ∈ c_requests c -> rq_id x <> rq_id q) ->
      (forall x, x ∈ c_requests c -> pending_for u x = true -> rq_expiresAt x <= at_) ->
      au_actorId a = Some actor -> au_targetUserId a = u -> au_action a = ROLE_CHANGE_REQUESTED ->
      au_approval a = None ->
      effect limit c [] (mkCore (c_users c) (c_roles c) (c_links c) (c_resets c) (c_sessions c)
        (c_audit c ++ [a])
        (where_ (fun x => pending_for u x && (rq_expiresAt x <=? at_)) expire_request (c_requests c)
           ++ [q]))
  | ef_alone actor u role a at_ :
      active_admin c actor -> may_change c actor u role ->
      (forall w, holds (c_roles c) w ADMIN = true -> w = actor \/ w = u) ->
      (forall x, x ∈ c_requests c -> pending_for u x = true -> rq_expiresAt x <= at_) ->
      au_actorId a = Some actor -> au_targetUserId a = u -> au_action a = role_action role ->
      au_approval a = Some NO_APPROVER ->
      effect limit c [(USER_ROLE_CHANGED, u)] (mkCore (c_users c)
        (roles_changed u role actor at_ (c_roles c)) (c_links c) (c_resets c) (c_sessions c)
        (c_audit c ++ [a])
        (where_ (fun x => pending_for u x && (rq_expiresAt x <=? at_)) expire_request (c_requests c)))
  | ef_approve actor q a reason at_ :
      active_admin c actor -> active_admin c (rq_requestedBy q) ->
      List.find (request_id (rq_id q)) (c_requests c) = Some q ->
      rq_status q = Request.PENDING -> at_ < rq_expiresAt q ->
      actor <> rq_requestedBy q -> actor <> rq_targetUserId q ->
      may_change c (rq_requestedBy q) (rq_targetUserId q) (rq_role q) ->
      au_actorId a = Some actor -> au_targetUserId a = rq_targetUserId q ->
      au_action a = role_action (rq_role q) -> au_approval a = Some SECOND_ADMIN ->
      au_occurredAt a = at_ ->
      effect limit c [(USER_ROLE_CHANGED, rq_targetUserId q)] (mkCore (c_users c)
        (roles_changed (rq_targetUserId q) (rq_role q) (rq_requestedBy q) at_ (c_roles c)) (c_links c)
        (c_resets c) (c_sessions c) (c_audit c ++ [a])
        (where_ (request_id (rq_id q)) (decide_request Request.APPROVED actor reason at_) (c_requests c)))
  | ef_reject actor q a reason at_ :
      active_admin c actor ->
      List.find (request_id (rq_id q)) (c_requests c) = Some q ->
      rq_status q = Request.PENDING -> at_ < rq_expiresAt q -> actor <> rq_targetUserId q ->
      au_actorId a = Some actor -> au_targetUserId a = rq_targetUserId q ->
      au_action a = ROLE_CHANGE_REJECTED -> au_approval a = None ->
      effect limit c [] (mkCore (c_users c) (c_roles c) (c_links c) (c_resets c) (c_sessions c)
        (c_audit c ++ [a])
        (where_ (request_id (rq_id q)) (decide_request Request.REJECTED actor reason at_) (c_requests c)))
  | ef_seed u email h a at_ :
      c_users c !! u = None -> au_actorId a = None -> au_targetUserId a = u ->
      au_action a = ADMIN_BOOTSTRAP -> au_approval a = None ->
      effect limit c [(USER_ACTIVATED, u)] (mkCore
        (<[u := mkUser email (Some h) Account.ACTIVE true true (Some at_) at_ at_]> (c_users c))
        (c_roles c ++ [mkRole u STUDENT None at_; mkRole u ADMIN None at_]) (c_links c) (c_resets c)
        (c_sessions c) (c_audit c ++ [a]) (c_requests c)).

(** ** Reading a successful computation *)

Ltac inv_user1 :=
  match goal with
  | H : lift_outcome _ _ _ = Ok _ |- _ => apply lift_ok in H as (? & ? & H)
  | H : insert_role _ _ _ = Ok _ |- _ => apply insert_role_ok in H as [? H]
  | H : insert_profile _ _ _ _ = Ok _ |- _ => apply insert_profile_ok in H as [? H]
  | H : insert_token _ _ _ _ _ _ = Ok _ |- _ => apply insert_token_ok in H as [? H]
  | H : insert_session _ _ _ = Ok _ |- _ => apply insert_session_ok in H as [? H]
  | H : insert_audit _ _ _ = Ok _ |- _ => apply insert_audit_ok in H as [? H]
  | H : insert_request _ _ _ = Ok _ |- _ => apply insert_request_ok in H as [? H]
  | H : insert_adminRead _ _ _ = Ok _ |- _ => apply insert_adminRead_ok in H as [? H]
  | H : insert_adminAlert _ _ _ = Ok _ |- _ => apply insert_adminAlert_ok in H as [? H]
  | H : user_fk _ _ _ _ = Ok _ |- _ => apply user_fk_ok in H as [? H]
  | H : update_user _ _ _ _ _ = Ok _ |- _ => apply update_user_ok in H as [(? & ? & ? & H)|[? H]]
  | H : context [id ?d] |- _ => change (id d) with d in H
  | _ => inv_tx1
  | s : (nat * UserDb)%type |- _ => destruct s
  | H : (if ?b then _ else _) _ _ = Ok _ |- _ => destruct b eqn:?; try discriminate
  | H : (match ?o with Some _ => _ | None => _ end) _ _ = Ok _ |- _ => destruct o eqn:?; try discriminate
  end.
Ltac inv_user := repeat (inv_user1; simpl fst in *; simpl snd in *); subst; try discriminate.

(** Nothing of the core changed, and nothing was announced. *)
Definition same_core (db db' : UserDb) : Prop := core db' = core db /\ userOutbox db' = userOutbox db.

Lemma announced_none db db' : userOutbox db' = userOutbox db -> announced db db' [].
Proof. intros E. exists []. by rewrite E, app_nil_r. Qed.

Section Methods.
Context `{Zod} `{Pg} `{Texts} `{Crypto}.
Implicit Types db : UserDb.

Lemma announce_ok ty u p corr e n db a n' db' :
  announce ty u p corr e (n, db) = Ok (a, (n', db')) ->
  core db' = core db /\ profiles db' = profiles db /\ announced db db' [(ty, u)].
Proof.
  unfold announce. intros Hrun. inv_tx. apply insertOutboxEvent_ok in Hm as (q & f & _ & _ & _ & _ & _ & ->).
  split; [done|]. split; [done|]. by exists [new_row a0 (ob_nextSeq (userOutbox db)) (env_now e) (mkNewEvent ty u p corr None) q].
Qed.

Lemma raise_ok kind actor d e n db a n' db' :
  raise kind actor d e (n, db) = Ok (a, (n', db')) -> same_core db db'.
Proof. unfold raise, insertAlert. intros Hrun. by inv_user. Qed.

Lemma record_ok actor u act reason corr ap e n db i n' db' :
  record actor u act reason corr ap e (n, db) = Ok (i, (n', db')) ->
  let a := mkAudit i (Some actor) u act reason (env_now e) corr ap in
  audit_ok db a = true /\ db' = set_auditRecords (auditRecords db ++ [a]) db.
Proof. unfold record, insertAudit. intros Hrun. by inv_user. Qed.

Lemma revoke_all_ok u e n db a n' db' :
  revokeAllForUser u e (n, db) = Ok (a, (n', db')) ->
  n' = n /\ db' = set_refreshSessions (revoke_where (of_user u) (env_now e) (refreshSessions db)) db.
Proof. unfold revokeAllForUser, update_sessions. intros Hrun. by inv_user. Qed.

Lemma revoke_family_ok f e n db a n' db' :
  revokeFamily f e (n, db) = Ok (a, (n', db')) ->
  n' = n /\ db' = set_refreshSessions (revoke_where (of_family f) (env_now e) (refreshSessions db)) db.
Proof. unfold revokeFamily, update_sessions. intros Hrun. by inv_user. Qed.

(** What one transaction does. *)
Definition does (limit : Z) (db db' : UserDb) : Prop :=
  exists evs, effect limit (core db) evs (core db') /\ announced db db' evs.

Lemma does_quiet limit db db' :
  effect limit (core db) [] (core db') -> userOutbox db' = userOutbox db -> does limit db db'.
Proof. intros He Ho. exists []. split; [done|by apply announced_none]. Qed.

Lemma does_nothing limit db db' : same_core db db' -> does limit db db'.
Proof. intros [Hc Ho]. apply does_quiet; [rewrite Hc; apply ef_same|done]. Qed.

(** ** Registration and links *)

Context (settings : UserSettings) (limit : Z).

Lemma link_ok tokenId u h ttl e n db a n' db' :
  insertActivationToken tokenId u h ttl e (n, db) = Ok (a, (n', db')) ->
  exists tok, tk_userId tok = u /\ fresh_token (activationTokens db) tok
    /\ db' = set_activationTokens (activationTokens db ++ [tok]) db.
Proof.
  unfold insertActivationToken, insert_link. intros Hrun. inv_user.
  unfold token_ok in *. rewrite !andb_true_iff, !negb_true_iff, !existsb_false in *. destruct_and!.
  eexists. split; [|split; [|reflexivity]]; [done|]. split; [done|]. intros x Hx.
  split; apply String.eqb_neq; auto.
Qed.

Lemma issue_link_ok u token e n db a n' db' :
  issueActivationToken settings u token e (n, db) = Ok (a, (n', db')) ->
  exists tok, tk_userId tok = u /\ fresh_token (drop_links u (activationTokens db)) tok
    /\ db' = set_activationTokens (drop_links u (activationTokens db) ++ [tok]) db.
Proof.
  unfold issueActivationToken, deleteUnconsumedActivationTokens, delete_unconsumed. intros Hrun. inv_user.
  by apply link_ok in Hrun.
Qed.

Lemma insertUser_ok u email dn e n db b n' db' :
  insertUser u email dn e (n, db) = Ok (b, (n', db')) ->
  (b = false /\ db' = db)
  \/ (b = true /\ users db !! u = None /\ userOutbox db' = userOutbox db
      /\ core db' = mkCore
           (<[u := mkUser email None Account.PENDING_ACTIVATION false false None (env_now e) (env_now e)]> (users db))
           (userRoles db ++ [mkRole u STUDENT None (env_now e)]) (activationTokens db)
           (passwordResetTokens db) (refreshSessions db) (auditRecords db) (roleChangeRequests db)).
Proof.
  unfold insertUser, insert_user. intros Hrun. unfold_checks. inv_user; [by left|right].
  unfold has_user in *. destruct (users db !! u); [done|]. done.
Qed.

(** A pending account was issued a link, in place of those it held. *)
Definition linked (db db' : UserDb) : Prop :=
  exists u r r' tok, users db !! u = Some r /\ u_status r = Account.PENDING_ACTIVATION
    /\ (r' = r \/ exists at_, r' = clear_password_columns at_ r) /\ tk_userId tok = u
    /\ fresh_token (drop_links u (activationTokens db)) tok
    /\ userOutbox db' = userOutbox db
    /\ core db' = mkCore (<[u := r']> (users db)) (userRoles db)
         (drop_links u (activationTokens db) ++ [tok]) (passwordResetTokens db) (refreshSessions db)
         (auditRecords db) (roleChangeRequests db).

Lemma linked_does db db' : linked db db' -> does limit db db'.
Proof.
  intros (u & r & r' & tok & Hu & Hs & Hr & Ht & Hf & Ho & Hc). apply does_quiet; [|done].
  rewrite Hc. by apply (ef_link limit (core db) u r).
Qed.

Lemma lockPendingUser_ok email e n db o s' :
  lockPendingUser email e (n, db) = Ok (o, s') ->
  s' = (n, db) /\ forall u, o = Some u -> exists r, users db !! u = Some r
    /\ u_status r = Account.PENDING_ACTIVATION.
Proof.
  unfold lockPendingUser. intros Hrun. inv_user. split; [done|]. intros u Hu.
  unfold find_by_email in Hu. destruct (List.find _ _) as [[k r]|] eqn:Hf; [|done].
  case_bool_decide; simplify_eq. apply find_elem in Hf as [Hf _]. apply elem_of_map_to_list in Hf. eauto.
Qed.

Lemma revive_ok email dn e n db o n' db' :
  reviveExpiredRegistration email dn e (n, db) = Ok (o, (n', db')) ->
  match o with
  | None => db' = db
  | Some u => exists r at_, users db !! u = Some r /\ u_status r = Account.PENDING_ACTIVATION
      /\ userOutbox db' = userOutbox db
      /\ core db' = core (set_users (<[u := clear_password_columns at_ r]> (users db)) db)
  end.
Proof.
  unfold reviveExpiredRegistration. intros Hrun. inv_tx. apply lockPendingUser_ok in Hm as [-> Hl].
  destruct a as [u|]; [|by inv_user]. destruct (Hl u eq_refl) as (r & Hr & Hs). unfold_checks. inv_user; try done.
  - simplify_eq. by eexists _, (env_now e).
  - match goal with K : forall row, _ -> _ |- _ => by specialize (K r Hr) end.
Qed.

Lemma register_does email dn token e n db o n' db' :
  register_tx settings email dn token e (n, db) = Ok (o, (n', db')) -> does limit db db'.
Proof.
  unfold register_tx. intros Hrun. inv_user.
  - apply insertUser_ok in Hm0 as [[? _]|(_ & Hu & Ho & Hc)]; [done|].
    apply issue_link_ok in Hm as (tok & Ht & Hf & ->). injection Hc as E1 E2 E3 E4 E5 E6 E7.
    apply does_quiet; [|done]. unfold core. simpl. rewrite E1, E2, E3, E4, E5, E6, E7.
    rewrite E3 in Hf. by eapply (ef_register limit (core db)).
  - apply insertUser_ok in Hm0 as [[_ ->]|(? & _)]; [|done]. apply revive_ok in Hm.
    destruct Hm as (r & at_ & Hr & Hs & Ho & Hc). apply issue_link_ok in Hm1 as (tok & Ht & Hf & ->).
    injection Hc as E1 E2 E3 E4 E5 E6 E7. simpl in *. rewrite E3 in Hf. apply linked_does.
    exists s, r, (clear_password_columns at_ r), tok. split_and!; try done; [by eauto|].
    unfold core. simpl. by rewrite E1, E2, E3, E4, E5, E6, E7.
  - apply insertUser_ok in Hm0 as [[_ ->]|(? & _)]; [|done]. apply revive_ok in Hm as ->.
    by apply does_nothing.
Qed.

Lemma resend_does email token e n db o n' db' :
  resend_tx settings email token e (n, db) = Ok (o, (n', db')) -> does limit db db'.
Proof.
  unfold resend_tx. intros Hrun. inv_tx. apply lockPendingUser_ok in Hm as [-> Hl].
  destruct a as [u|]; [|inv_user; by apply does_nothing]. inv_user.
  destruct (Hl u eq_refl) as (r & Hr & Hs). apply issue_link_ok in Hm as (tok & Ht & Hf & ->).
  apply linked_does. exists u, r, r, tok. split_and!; try done; [by left|].
  unfold core. simpl. by rewrite insert_id.
Qed.

Lemma reset_request_does email token e n db o n' db' :
  reset_request_tx settings email token e (n, db) = Ok (o, (n', db')) -> does limit db db'.
Proof.
  unfold reset_request_tx, lockResettableUser. intros Hrun. inv_tx.
  change (id db) with db in *.
  destruct (find_by_email email db) as [[u r]|] eqn:Hf; [|inv_user; by apply does_nothing].
  case_bool_decide; [|inv_user; by apply does_nothing].
  unfold deleteUnconsumedPasswordResetTokens, delete_unconsumed, insertPasswordResetToken, insert_link in *.
  inv_user. unfold token_ok in *. rewrite !andb_true_iff, !negb_true_iff, !existsb_false in *. destruct_and!.
  unfold find_by_email in Hf. apply find_elem in Hf as [Hf _]. apply elem_of_map_to_list in Hf.
  apply does_quiet; [|done]. eapply (ef_reset limit (core db) u r); simpl; try done.
  - intros E. rewrite E in *. set_solver.
  - split; [done|]. intros x Hx. split; apply String.eqb_neq; auto.
Qed.

(** ** Emailed links *)

Lemma consume_ok get set h e n db o n' db' :
  consume_link get set h e (n, db) = Ok (o, (n', db')) ->
  let claim t := by_hash h t && live_token (env_now e) t in
  db' = set (where_ claim (consume_token (env_now e)) (get db)) db
  /\ o = tk_userId <$> List.find claim (get db).
Proof. unfold consume_link. intros Hrun. by inv_user. Qed.

Lemma update_some u p f e n db row x :
  users db !! u = Some row -> update_user u p f e (n, db) = Ok x ->
  x = if p row then (true, (n, set_users (<[u := f row]> (users db)) db)) else (false, (n, db)).
Proof.
  intros Hrow. rewrite update_user_ok. intros [(r & Hr & Hp & ->)|[Hn ->]].
  - simplify_eq. by rewrite Hp.
  - by rewrite (Hn row Hrow).
Qed.

Lemma setPassword_ok u h e n db r a n' db' :
  users db !! u = Some r -> setPassword u h e (n, db) = Ok (a, (n', db')) ->
  n' = n /\ db' = set_users (<[u := set_password_columns h (env_now e) r]> (users db)) db.
Proof.
  unfold setPassword. intros Hr Hrun. apply bind_ok in Hrun as (t & s & Ht & Hrun). apply now_ok in Ht as [= -> ->].
  apply bind_ok in Hrun as (b & s & Hu & Hrun). apply (update_some _ _ _ _ _ _ _ _ Hr) in Hu as [= -> ->].
  by inv_user.
Qed.

(** What [setPasswordFromEmailedLink] does to an account that exists. *)
Lemma emailed_ok u status h corr date e n db r a n' db' :
  setPasswordFromEmailedLink u status h corr date e (n, db) = Ok (a, (n', db')) ->
  users db !! u = Some r -> status = u_status r ->
  announced db db' (if bool_decide (u_status r = Account.PENDING_ACTIVATION)
                    then [(USER_ACTIVATED, u)] else [])
  /\ core db' = mkCore (<[u := proved h (env_now e) r]> (users db)) (userRoles db)
       (drop_links u (activationTokens db)) (drop_links u (passwordResetTokens db))
       (revoke_where (of_user u) (env_now e) (refreshSessions db)) (auditRecords db)
       (roleChangeRequests db).
Proof.
  unfold setPasswordFromEmailedLink. intros Hrun Hr ->.
  apply bind_ok in Hrun as ([] & [n1 d1] & Hset & Hrun). apply (setPassword_ok _ _ _ _ _ _ _ _ _ Hr) in Hset as [-> ->].
  set (d1 := set_users _ db) in *.
  assert (users d1 !! u = Some (set_password_columns h (env_now e) r)) as Hd1 by apply lookup_insert_eq.
  apply bind_ok in Hrun as (b & [n2 d2] & Hact & Hrun).
  assert (b = bool_decide (u_status r = Account.PENDING_ACTIVATION)
    /\ userOutbox d2 = userOutbox db
    /\ d2 = set_users (<[u := proved h (env_now e) r]> (users db)) db) as (-> & Ho2 & Hd2).
  { unfold proved. destruct (bool_decide _) eqn:Hp; [|by inv_user]. unfold markActivated in Hact.
    apply bind_ok in Hact as (t & s & Ht & Hact). apply now_ok in Ht as [= -> ->].
    apply (update_some _ _ _ _ _ _ _ _ Hd1) in Hact. simpl in Hact. rewrite Hp in Hact.
    injection Hact as -> <- ->. subst d1. simpl. rewrite insert_insert_eq. done. }
  clearbody d1. clear Hd1 Hact.
  unfold deleteUnconsumedActivationTokens, deleteUnconsumedPasswordResetTokens, delete_unconsumed in Hrun.
  inv_user.
  - match goal with K : insertOutboxEvent _ _ _ = Ok _ |- _ =>
      apply insertOutboxEvent_ok in K as (q & f & _ & _ & _ & _ & _ & ->) end.
    apply revoke_all_ok in Hrun as [_ ->]. split; [|done]. eexists [_]. by split; [reflexivity|].
  - apply revoke_all_ok in Hrun as [_ ->]. split; [by apply announced_none|done].
Qed.

Lemma claimed_ok get h e db u :
  tk_userId <$> List.find (fun t => by_hash h t && live_token (env_now e) t) (get db) = Some u ->
  claimed h u (env_now e) (get db)
    (where_ (fun t => by_hash h t && live_token (env_now e) t) (consume_token (env_now e)) (get db)).
Proof. intros (t & Ht & ->)%fmap_Some. split; [done|]. by exists t. Qed.

Definition one_per_hash (l : list Token) : Prop := NoDup (tk_tokenHash <$> l).

Lemma find_same_hash h (p : Token -> bool) l t :
  one_per_hash l -> List.find (fun t => by_hash h t && p t) l = Some t -> List.find (by_hash h) l = Some t.
Proof.
  unfold one_per_hash. induction l as [|x l IH]; simpl; [done|]. intros [Hx Hnd]%NoDup_cons.
  unfold by_hash at 1 3. destruct (String.eqb_spec (tk_tokenHash x) h) as [Hh|]; [|by apply IH].
  simpl. destruct (p x); [done|]. intros Hf%find_elem. destruct Hf as [Ht Hb]. exfalso.
  apply andb_true_iff in Hb as [Hb _]. apply String.eqb_eq in Hb. apply Hx. rewrite Hh, <- Hb.
  by apply list_elem_of_fmap_2.
Qed.

(** The foreign key of either table of links. *)
Definition owned (db : UserDb) (l : list Token) : Prop :=
  forall t, t ∈ l -> is_Some (users db !! tk_userId t).

Lemma claimed_owner get h e db u :
  one_per_hash (get db) -> owned db (get db) ->
  tk_userId <$> List.find (fun t => by_hash h t && live_token (env_now e) t) (get db) = Some u ->
  exists r, users db !! u = Some r /\ lock_user_of_token get h db = Some (u_status r).
Proof.
  intros Hnd Hown (t & Ht & ->)%fmap_Some. destruct (find_elem _ _ _ Ht) as [Hin _].
  destruct (Hown t Hin) as [r Hr]. exists r. split; [done|].
  unfold lock_user_of_token. rewrite (find_same_hash _ _ _ _ Hnd Ht). simpl. by rewrite Hr.
Qed.

(** What a link that is claimed makes of the tables. *)
Definition proved_by (get : Core -> list Token) (h u : string) (at_ : Z) (ph : string) (r : User)
    (c c' : Core) (links resets : list Token) : Prop :=
  claimed h u at_ (get c) (get (mkCore (c_users c) (c_roles c) links resets (c_sessions c) (c_audit c) (c_requests c)))
  /\ c' = mkCore (<[u := proved ph at_ r]> (c_users c)) (c_roles c) (drop_links u links)
       (drop_links u resets) (revoke_where (of_user u) at_ (c_sessions c)) (c_audit c) (c_requests c).

(** An activation: either it makes the account active, or the tables stay. *)
Lemma activate_ok h ph corr date e n db u already n' db' :
  one_per_hash (activationTokens db) -> owned db (activationTokens db) ->
  activate_tx h ph corr date e (n, db) = Ok ((u, already), (n', db')) ->
  if already then same_core db db'
  else exists r links, users db !! u = Some r /\ u_status r = Account.PENDING_ACTIVATION
    /\ announced db db' [(USER_ACTIVATED, u)]
    /\ proved_by c_links h u (env_now e) ph r (core db) (core db') links (passwordResetTokens db).
Proof.
  intros Hnd Hown. unfold activate_tx. intros Hrun. apply bind_ok in Hrun as (d & s & Hg & Hrun).
  apply gets_ok in Hg as [= -> ->]. change (id db) with db in *. simpl snd in *.
  apply bind_ok in Hrun as (o & [n1 d1] & Hc & Hrun). apply consume_ok in Hc as [-> Ho]. simpl in Hrun.
  destruct o as [w|].
  - destruct (claimed_owner _ _ _ _ _ Hnd Hown (eq_sym Ho)) as (r & Hr & Hs).
    unfold lockUserOfToken in Hrun. rewrite Hs in Hrun. case_bool_decide as Hp; [|done].
    apply bind_ok in Hrun as ([] & [n2 d2] & Hset & Hrun). apply ret_ok in Hrun as [= -> -> -> ->].
    destruct (emailed_ok _ _ _ _ _ _ _ _ _ _ _ _ Hset Hr eq_refl) as [Hev Hc].
    rewrite bool_decide_true in Hev by done. eexists r, _. split; [done|]. split; [done|]. split; [exact Hev|].
    split; [|rewrite Hc; reflexivity]. by apply (claimed_ok activationTokens).
  - symmetry in Ho. apply fmap_None in Ho.
    assert (db = set_activationTokens (where_ (fun t => by_hash h t && live_token (env_now e) t)
      (consume_token (env_now e)) (activationTokens db)) db) as Hd.
    { rewrite where_id; [by destruct db|]. by apply find_none_elem. }
    rewrite <- Hd in Hrun. inv_user. destruct (unusableToken _ _) as [[v b]|x] eqn:Hun; inv_user.
    unfold unusableToken in Hun. destruct (findActivationToken _ _ _); [|done].
    destruct (tv_consumed _); [|done]. by destruct (isActivated _ _); simplify_eq.
Qed.

Lemma activate_does h ph corr date e n db a n' db' :
  one_per_hash (activationTokens db) -> owned db (activationTokens db) ->
  activate_tx h ph corr date e (n, db) = Ok (a, (n', db')) -> does limit db db'.
Proof.
  destruct a as [u []]; intros Hnd Hown Hrun; apply activate_ok in Hrun; try done; [by apply does_nothing|].
  destruct Hrun as (r & links & Hr & Hp & Hev & Hc & Hcore). eexists. split; [|exact Hev]. rewrite Hcore.
  pose proof (ef_prove limit (core db) u r ph h (env_now e) links (passwordResetTokens db)) as He.
  rewrite bool_decide_true in He by done. apply He; [done|congruence|]. by left.
Qed.

Lemma confirm_ok h ph corr date e n db a n' db' :
  one_per_hash (passwordResetTokens db) -> owned db (passwordResetTokens db) ->
  confirm_tx h ph corr date e (n, db) = Ok (a, (n', db')) ->
  exists u r resets, users db !! u = Some r /\ u_status r <> Account.SUSPENDED
    /\ announced db db' (if bool_decide (u_status r = Account.PENDING_ACTIVATION) then [(USER_ACTIVATED, u)] else [])
    /\ proved_by c_resets h u (env_now e) ph r (core db) (core db') (activationTokens db) resets.
Proof.
  intros Hnd Hown. unfold confirm_tx. intros Hrun. apply bind_ok in Hrun as (d & s & Hg & Hrun).
  apply gets_ok in Hg as [= -> ->]. change (id db) with db in *. simpl snd in *.
  apply bind_ok in Hrun as (o & [n1 d1] & Hc & Hrun). apply consume_ok in Hc as [-> Ho]. simpl in Hrun.
  destruct o as [u|]; [|by inv_user].
  destruct (claimed_owner _ _ _ _ _ Hnd Hown (eq_sym Ho)) as (r & Hr & Hs).
  unfold lockUserOfPasswordResetToken in Hrun. rewrite Hs in Hrun. case_bool_decide as Hp; [done|].
  destruct (emailed_ok _ _ _ _ _ _ _ _ _ _ _ _ Hrun Hr eq_refl) as [Hev Hc].
  eexists u, r, _. split; [done|]. split; [done|]. split; [exact Hev|].
  split; [|rewrite Hc; reflexivity]. by apply (claimed_ok passwordResetTokens).
Qed.

Lemma confirm_does h ph corr date e n db a n' db' :
  one_per_hash (passwordResetTokens db) -> owned db (passwordResetTokens db) ->
  confirm_tx h ph corr date e (n, db) = Ok (a, (n', db')) -> does limit db db'.
Proof.
  intros Hnd Hown Hrun. apply confirm_ok in Hrun as (u & r & resets & Hr & Hs & Hev & Hc & Hcore); [|done..].
  eexists. split; [|exact Hev]. rewrite Hcore. eapply (ef_prove limit (core db) u r); [done|done|].
  right. split; [done|]. exact Hc.
Qed.

(** ** Sessions *)

Lemma session_fresh db s :
  session_ok db s = true -> ss_rotatedAt s = None -> ss_revokedAt s = None ->
  fresh_session (refreshSessions db) s.
Proof.
  unfold session_ok. rewrite !andb_true_iff, !negb_true_iff, !existsb_false. intros [[Hi Hh] _] Hr Hv.
  split; [done|]. split; [done|]. intros x Hx. split; apply String.eqb_neq; auto.
Qed.

(** [new_family]: the family a sign-in draws is in nobody's use. *)
Lemma login_does u h vh e n db o n' db' :
  (forall x, x ∈ refreshSessions db -> ss_familyId x <> env_uuid e (S n)) ->
  login_tx u h vh e (n, db) = Ok (o, (n', db')) -> does limit db db'.
Proof.
  intros Hfam. unfold login_tx, insertIfLoginable. intros Hrun. inv_user; try by apply does_nothing.
  all: destruct (users db !! u) as [r|] eqn:Hr; inv_user; try by apply does_nothing.
  all: match goal with K : loginable _ _ = true |- _ => rename K into Hl end.
  all: match goal with K : session_ok _ _ = true |- _ => rename K into Hs end.
  all: apply does_quiet; [|done]; eapply (ef_login limit (core db) _ r vh); try done;
    by apply session_fresh.
Qed.

Definition one_per_id (l : list Session) : Prop := NoDup (ss_id <$> l).

Lemma filter_one_id i (l : list Session) s :
  one_per_id l -> s ∈ l -> ss_id s = i -> List.filter (fun x => String.eqb (ss_id x) i) l = [s].
Proof.
  unfold one_per_id. induction l as [|x l IH]; [set_solver|]. simpl. intros [Hx Hnd]%NoDup_cons Hs Hi.
  destruct (String.eqb_spec (ss_id x) i) as [E|E].
  - assert (List.filter (fun y => String.eqb (ss_id y) i) l = []) as ->.
    { destruct (List.filter _ l) as [|y l'] eqn:Hf; [done|exfalso].
      assert (y ∈ List.filter (fun y => String.eqb (ss_id y) i) l) as [Hy Hl]%elem_filter by (rewrite Hf; left).
      apply String.eqb_eq in Hy. apply Hx. rewrite E, <- Hy. by apply list_elem_of_fmap_2. }
    apply elem_of_cons in Hs as [->|Hs]; [done|]. exfalso. apply Hx. rewrite E, <- Hi.
    by apply list_elem_of_fmap_2.
  - apply elem_of_cons in Hs as [->|Hs]; [done|]. by apply IH.
Qed.

Lemma where_ids {A B} (key : A -> B) p f (l : list A) :
  (forall a, key (f a) = key a) -> key <$> where_ p f l = key <$> l.
Proof.
  intros Hk. unfold where_. rewrite <- list_fmap_compose. apply list_fmap_ext. intros _ x _. simpl.
  by destruct (p x).
Qed.

Lemma fresh_where p at_ l s :
  fresh_session (where_ p (rotate_session at_) l) s -> fresh_session l s.
Proof.
  intros (Hr & Hv & Hf). split; [done|]. split; [done|]. intros x Hx.
  specialize (Hf (if p x then rotate_session at_ x else x)).
  rewrite where_elem in Hf. destruct (p x) eqn:Hp; apply Hf; exists x; by rewrite Hp.
Qed.

Lemma refresh_does h nh e n db o n' db' :
  one_per_id (refreshSessions db) ->
  refresh_tx h nh e (n, db) = Ok (o, (n', db')) -> does limit db db'.
Proof.
  intros Hnd. unfold refresh_tx. intros Hrun. inv_user; try by apply does_nothing.
  all: match goal with K : lockByHash _ _ _ = Some _ |- _ => rename K into Hrow; unfold lockByHash in Hrow end.
  all: apply bind_Some in Hrow as (s & Hs & Hr); apply fmap_Some in Hr as (r & Hr & ->);
    apply find_elem in Hs as [Hs _]; simpl in *.
  all: repeat match goal with K : revokeFamily _ _ _ = Ok _ |- _ => apply revoke_family_ok in K as [-> ->] end.
  all: try (apply does_quiet; [|done]; apply (ef_revoke limit (core db))).
  unfold markRotated, update_sessions, rotate in *. inv_user.
  set (s1 := rotate_session (env_now e) s) in *.
  assert (List.filter (fun x => String.eqb (ss_id x) (ss_id s))
    (where_ (fun x => String.eqb (ss_id x) (ss_id s)) (rotate_session (env_now e)) (refreshSessions db)) = [s1]) as Hf.
  { apply filter_one_id; [|apply where_elem|done].
    - unfold one_per_id. by rewrite where_ids.
    - exists s. split; [done|]. by rewrite String.eqb_refl. }
  match goal with K : mapM_ _ _ _ _ = Ok _ |- _ => rename K into Hm; simpl in Hm; rewrite Hf in Hm; simpl in Hm end.
  inv_user. apply does_quiet; [|done].
  match goal with K : session_ok _ _ = true |- _ => apply session_fresh in K; [|done..]; apply fresh_where in K end.
  rewrite orb_false_iff, negb_false_iff, bool_decide_eq_true in *. destruct_and!.
  destruct (ss_rotatedAt s) eqn:Hrot; [done|].
  eapply (ef_refresh limit (core db) s _ r); try done.
  - unfold unrevoked. by destruct (ss_revokedAt s).
  - by apply Z.leb_gt.
Qed.

(** ** Passwords, re-entry and sign-out *)

Lemma change_does u h h' e n db b n' db' :
  change_tx u h h' e (n, db) = Ok (b, (n', db')) -> does limit db db'.
Proof.
  unfold change_tx, replacePassword. intros Hrun.
  inv_user; try (match goal with K : forall row, _ -> _ |- _ => by apply does_nothing end).
  unfold deleteUnconsumedPasswordResetTokens, delete_unconsumed in *. inv_user.
  match goal with K : revokeAllForUser _ _ _ = Ok _ |- _ => apply revoke_all_ok in K as [-> ->] end.
  match goal with K : bool_decide _ = true |- _ => apply bool_decide_eq_true in K end.
  apply does_quiet; [|done]. by eapply (ef_password limit (core db) u _ h).
Qed.

Lemma step_up_does sid u e n db b n' db' :
  markSteppedUp sid u e (n, db) = Ok (b, (n', db')) -> does limit db db'.
Proof.
  unfold markSteppedUp, update_sessions. intros Hrun. inv_user. apply does_quiet; [|done].
  apply (ef_stepup limit (core db) sid u).
Qed.

Lemma logout_does h e n db a n' db' :
  revokeFamilyByTokenHash h e (n, db) = Ok (a, (n', db')) -> does limit db db'.
Proof.
  unfold revokeFamilyByTokenHash. intros Hrun. inv_user; [|by apply does_nothing].
  apply revoke_family_ok in Hrun as [-> ->]. apply does_quiet; [|done]. apply (ef_revoke limit (core db)).
Qed.

Lemma profile_does u c e n db a n' db' :
  updateProfile u c e (n, db) = Ok (a, (n', db')) -> does limit db db'.
Proof. unfold updateProfile. unfold_checks. intros Hrun. inv_user; by apply does_nothing. Qed.
End Methods.
