(* ===== verification/AdminEffects.v ===== *)
(** * AdminEffects: administration, and everything the User Service can do

    Suspensions, role changes, their requests and the bootstrap are effects of [UserEffects], under
    exactly the conditions ADR 0008 asks for. *)
From S2P Require Export UserEffects.
#[local] Open Scope Z_scope.

Section Admin.
Context `{Zod} `{Pg} `{Texts} `{Crypto} (settings : AdminSettings).
Notation limit := (suspensionsLimitPerHour settings).
Notation does := (does limit).
Implicit Types db : UserDb.

(** ** Who was locked *)

Lemma is_admin_holds u db : is_admin (rolesOf u db) = holds (userRoles db) u ADMIN.
Proof.
  unfold is_admin, rolesOf. change (has_role db u) with (holds (userRoles db) u).
  destruct (holds (userRoles db) u ADMIN), (holds (userRoles db) u STUDENT); done.
Qed.

Lemma lockUsers_ok ids db u t :
  lockUsers ids db u = Some t ->
  lk_id t = u /\ lk_roles t = rolesOf u db /\ exists r, users db !! u = Some r
    /\ lk_status t = u_status r /\ lk_isSeededAdmin t = u_isSeededAdmin r.
Proof.
  unfold lockUsers, locked_user. destruct (existsb _ ids); [|done]. intros (r & Hr & ->)%fmap_Some.
  split; [done|]. split; [done|]. by exists r.
Qed.

Lemma activeAdmin_ok ids db a lk :
  activeAdmin (lockUsers ids db a) = Ok lk ->
  lk_id lk = a /\ active_admin (core db) a /\ (lk_isSeededAdmin lk = true -> seeded (core db) a).
Proof.
  unfold activeAdmin. destruct (lockUsers ids db a) as [l|] eqn:Hl; [|done].
  apply lockUsers_ok in Hl as (Hid & Hroles & r & Hr & Hs & Hseed).
  destruct (bool_decide _) eqn:Ha; [|done]. destruct (is_admin _) eqn:Hadm; [|done]. intros [= <-].
  apply bool_decide_eq_true in Ha. rewrite Hroles, is_admin_holds in Hadm.
  split; [done|]. split; [by exists r; rewrite <- Hs|]. intros Hse. exists r. by rewrite <- Hseed.
Qed.

Lemma locked_both actorId targetId db actor target :
  lockActorAndTarget actorId targetId db = Ok (actor, target) ->
  let u := to_lower targetId in
  active_admin (core db) actorId /\ (lk_isSeededAdmin actor = true -> seeded (core db) actorId)
  /\ lk_id target = u /\ is_admin (lk_roles target) = holds (userRoles db) u ADMIN
  /\ exists r, users db !! u = Some r /\ lk_status target = u_status r.
Proof.
  unfold lockActorAndTarget. intros Hl. destruct (activeAdmin _) as [a|] eqn:Ha; [|done].
  destruct (lockUsers _ db (to_lower targetId)) as [t|] eqn:Ht; [|done]. injection Hl as <- <-.
  apply activeAdmin_ok in Ha as (_ & Ha & Hs). apply lockUsers_ok in Ht as (Hid & Hr & r & Hu & Hst & _).
  split_and!; try done; [by rewrite Hr, is_admin_holds|]. eauto.
Qed.

Lemma stepUp_ok sid e n db a s' :
  requireStepUp settings sid e (n, db) = Ok (a, s') ->
  s' = (n, db) /\ steppedUpWithin sid (stepUpWindowSeconds settings) (env_now e) db = true.
Proof. unfold requireStepUp. intros Hrun. by inv_user. Qed.

Lemma guard_ok actor sid e n db a s' :
  guardAdminTarget settings actor sid e (n, db) = Ok (a, s') ->
  s' = (n, db) /\ lk_isSeededAdmin actor = true.
Proof. unfold guardAdminTarget. intros Hrun. inv_user. by apply stepUp_ok in Hrun as [[= -> ->] _]. Qed.

Lemma guard_if (b : bool) actor sid e n db a s' :
  (if b then guardAdminTarget settings actor sid else ret tt) e (n, db) = Ok (a, s') ->
  s' = (n, db) /\ (b = true -> lk_isSeededAdmin actor = true).
Proof. destruct b; intros Hrun; [|by inv_user]. by apply guard_ok in Hrun as [-> Hs]. Qed.

Lemma raise_if (b : bool) kind actor d e n db a n' db' :
  (if b then raise kind actor d else ret tt) e (n, db) = Ok (a, (n', db')) -> same_core db db'.
Proof. destruct b; intros Hrun; [by eapply raise_ok|by inv_user]. Qed.

Lemma setStatus_ok u s e n db r a n' db' :
  users db !! u = Some r -> setStatus u s e (n, db) = Ok (a, (n', db')) ->
  n' = n /\ db' = set_users (<[u := set_status_columns s (env_now e) r]> (users db)) db.
Proof.
  unfold setStatus. intros Hr Hrun. apply bind_ok in Hrun as (t & x & Ht & Hrun). apply now_ok in Ht as [= -> ->].
  apply bind_ok in Hrun as (b & x & Hu & Hrun). apply (update_some _ _ _ _ _ _ _ _ Hr) in Hu as [= -> ->].
  by inv_user.
Qed.

(** ** Suspension and reactivation *)

(** A suspension that goes through: the account, its sessions, the record and the event. *)
Lemma suspend_ok actor sid target reason corr date e n db o n' db' :
  suspend_tx settings actor sid target reason corr date e (n, db) = Ok (o, (n', db')) ->
  match o with
  | SuspendedNow k =>
      let u := to_lower target in
      exists r a, active_admin (core db) actor /\ actor <> u /\ users db !! u = Some r
        /\ u_status r = Account.ACTIVE /\ (holds (userRoles db) u ADMIN = true -> seeded (core db) actor)
        /\ au_actorId a = Some actor /\ au_targetUserId a = u /\ au_action a = SUSPEND
        /\ au_approval a = None /\ au_occurredAt a = env_now e
        /\ k = countActorActions actor SUSPEND HOUR_SECONDS (env_now e) db + 1 /\ k <= limit
        /\ announced db db' [(USER_SUSPENDED, u)]
        /\ core db' = mkCore (<[u := set_status_columns Account.SUSPENDED (env_now e) r]> (users db))
             (userRoles db) (activationTokens db) (passwordResetTokens db)
             (revoke_where (of_user u) (env_now e) (refreshSessions db)) (auditRecords db ++ [a])
             (roleChangeRequests db)
  | _ => db' = db
  end.
Proof.
  unfold suspend_tx. intros Hrun.
  apply bind_ok in Hrun as (d & s & Hg & Hrun). apply gets_ok in Hg as [= -> ->]. change (id db) with db in *.
  apply bind_ok in Hrun as (t & s & Hg & Hrun). apply now_ok in Hg as [= -> ->].
  apply bind_ok in Hrun as ([ak tk] & s & Hg & Hrun). apply lift_ok in Hg as (? & Hl & [= <- ->]).
  apply locked_both in Hl as (Ha & Hse & Hid & Hadm & r & Hr & Hst). rewrite <- Hid in *.
  set (u := lk_id tk) in *.
  apply bind_ok in Hrun as ([] & s & Hg & Hrun). apply require_ok in Hg as [Hself [= ->]].
  apply negb_true_iff, String.eqb_neq in Hself.
  apply bind_ok in Hrun as ([] & s & Hg & Hrun). apply guard_if in Hg as [-> Hguard].
  case_bool_decide as Hsus; [by inv_user|].
  apply bind_ok in Hrun as ([] & s & Hg & Hrun). apply require_ok in Hg as [Hact [= ->]].
  apply bool_decide_eq_true in Hact. rewrite Hst in Hact.
  destruct (limit <=? _) eqn:Hlim; [by inv_user|]. apply Z.leb_gt in Hlim.
  apply bind_ok in Hrun as ([] & [n1 d1] & Hg & Hrun).
  apply (setStatus_ok _ _ _ _ _ _ _ _ _ Hr) in Hg as [-> ->].
  apply bind_ok in Hrun as ([] & [n2 d2] & Hg & Hrun). apply revoke_all_ok in Hg as [-> ->].
  apply bind_ok in Hrun as (auditId & [n3 d3] & Hg & Hrun). apply record_ok in Hg as [_ ->].
  apply bind_ok in Hrun as ([] & [n4 d4] & Hg & Hrun). apply raise_if in Hg as [Hc4 Ho4].
  apply bind_ok in Hrun as ([] & [n5 d5] & Hg & Hrun). apply announce_ok in Hg as (Hc5 & _ & Hev).
  apply ret_ok in Hrun as [= -> -> ->]. cbv zeta.
  exists r, (mkAudit auditId (Some actor) u SUSPEND reason (env_now e) corr None). split_and!; try done.
  - intros Hh. apply Hse, Hguard. by rewrite Hadm.
  - lia.
  - destruct Hev as (rows & Hrows & Hr'). exists rows. by rewrite Hrows, Ho4.
  - by rewrite Hc5, Hc4.
Qed.

Lemma suspend_does actor sid target reason corr date e n db o n' db' :
  suspend_tx settings actor sid target reason corr date e (n, db) = Ok (o, (n', db')) -> does db db'.
Proof.
  intros Hs%suspend_ok. destruct o; try (subst; by apply does_nothing).
  destruct Hs as (r & a & ? & ? & ? & ? & ? & ? & ? & ? & ? & Ht & Hk & Hlim & Hev & Hc).
  eexists. split; [|exact Hev]. rewrite Hc, <- Ht. apply (ef_suspend limit (core db) actor _ r a); try done.
  rewrite Ht. unfold countActorActions in Hk. simpl. lia.
Qed.

Lemma reactivate_does actor sid target reason corr date e n db o n' db' :
  reactivate_tx settings actor sid target reason corr date e (n, db) = Ok (o, (n', db')) -> does db db'.
Proof.
  unfold reactivate_tx. intros Hrun.
  apply bind_ok in Hrun as (d & s & Hg & Hrun). apply gets_ok in Hg as [= -> ->]. change (id db) with db in *.
  apply bind_ok in Hrun as ([ak tk] & s & Hg & Hrun). apply lift_ok in Hg as (? & Hl & [= <- ->]).
  apply locked_both in Hl as (Ha & Hse & Hid & Hadm & r & Hr & Hst). rewrite <- Hid in *.
  set (u := lk_id tk) in *.
  apply bind_ok in Hrun as ([] & s & Hg & Hrun). apply guard_if in Hg as [-> Hguard].
  case_bool_decide as Hact; [inv_user; by apply does_nothing|].
  apply bind_ok in Hrun as ([] & s & Hg & Hrun). apply require_ok in Hg as [Hsus [= ->]].
  apply bool_decide_eq_true in Hsus. rewrite Hst in Hsus.
  apply bind_ok in Hrun as ([] & [n1 d1] & Hg & Hrun).
  apply (setStatus_ok _ _ _ _ _ _ _ _ _ Hr) in Hg as [-> ->].
  apply bind_ok in Hrun as (auditId & [n3 d3] & Hg & Hrun). apply record_ok in Hg as [_ ->].
  apply bind_ok in Hrun as ([] & [n4 d4] & Hg & Hrun). apply raise_if in Hg as [Hc4 Ho4].
  apply announce_ok in Hrun as (Hc5 & _ & Hev). exists [(USER_REACTIVATED, u)]. split.
  - rewrite Hc5, Hc4. eapply (ef_reactivate limit (core db) actor u r
      (mkAudit auditId (Some actor) u REACTIVATE reason (env_now e) corr None)); try done.
    intros Hh. apply Hse, Hguard. by rewrite Hadm.
  - destruct Hev as (rows & Hrows & Hr'). exists rows. by rewrite Hrows, Ho4.
Qed.

(** ** Role changes *)

Lemma rules_ok asker t role ids db :
  roleRulesAllow asker t role ids db = Ok true ->
  is_admin (lk_roles t) = holds (userRoles db) (lk_id t) ADMIN ->
  (exists r, users db !! lk_id t = Some r /\ lk_status t = u_status r) ->
  may_change (core db) asker (lk_id t) role.
Proof.
  unfold roleRulesAllow, isSeededAdmin, may_change. intros Hr Hadm (r & Hu & Hs). rewrite Hadm in Hr.
  destruct role.
  - destruct (holds (userRoles db) (lk_id t) ADMIN) eqn:Hh; [|done]. simpl in Hr.
    destruct (String.eqb_spec asker (lk_id t)) as [|Hne]; [done|].
    destruct (users db !! asker) as [x|] eqn:Hx; [|done]. destruct (u_isSeededAdmin x) eqn:Hse; [|done].
    split; [done|]. split; [done|]. by exists x.
  - destruct (holds (userRoles db) (lk_id t) ADMIN) eqn:Hh; [done|].
    case_bool_decide as Ha; [|done]. split; [done|]. exists r. by rewrite <- Hs.
Qed.

(** Granting or revoking, its record and its event. *)
Lemma apply_ok ap asker approval t role reason corr date e n db a n' db' :
  applyRoleChange ap asker approval t role reason corr date e (n, db) = Ok (a, (n', db')) ->
  may_change (core db) asker (lk_id t) role ->
  announced db db' [(USER_ROLE_CHANGED, lk_id t)]
  /\ exists au, au_actorId au = Some ap /\ au_targetUserId au = lk_id t
       /\ au_action au = role_action role /\ au_approval au = Some approval /\ au_occurredAt au = env_now e
       /\ core db' = mkCore (users db) (roles_changed (lk_id t) role asker (env_now e) (userRoles db))
            (activationTokens db) (passwordResetTokens db) (refreshSessions db)
            (auditRecords db ++ [au]) (roleChangeRequests db).
Proof.
  unfold applyRoleChange. intros Hrun Hmay.
  apply bind_ok in Hrun as ([] & [n1 d1] & Hg & Hrun).
  assert (d1 = set_userRoles (roles_changed (lk_id t) role asker (env_now e) (userRoles db)) db) as ->.
  { destruct role; simpl in *; [unfold revokeAdmin in Hg; by inv_user|]. unfold grantAdmin in Hg. inv_user.
    - destruct Hmay as [Hmay _]. change (has_role db (lk_id t) ADMIN = false) in Hmay. congruence.
    - done. }
  apply bind_ok in Hrun as (i & [n3 d3] & Hg' & Hrun). apply record_ok in Hg' as [_ ->].
  apply bind_ok in Hrun as ([] & [n4 d4] & Hg' & Hrun). apply announce_ok in Hg' as (Hc4 & _ & Hev).
  apply raise_ok in Hrun as [Hc5 Ho5]. split.
  - destruct Hev as (rows & Hrows & Hr'). exists rows. by rewrite Ho5, Hrows.
  - exists (mkAudit i (Some ap) (lk_id t) (role_action role) reason (env_now e) corr (Some approval)).
    rewrite Hc5, Hc4. by destruct role.
Qed.

Lemma no_pending u db :
  findPendingRequest u db = None -> forall x, x ∈ roleChangeRequests db -> pending_for u x = false.
Proof. apply find_none_elem. Qed.

(** What is still pending for the target after the stale requests were expired. *)
Lemma all_stale u at_ l :
  (forall x, x ∈ where_ (fun x => pending_for u x && (rq_expiresAt x <=? at_)) expire_request l ->
     pending_for u x = false) ->
  forall x, x ∈ l -> pending_for u x = true -> rq_expiresAt x <= at_.
Proof.
  intros Hn x Hx Hp. apply Z.leb_le. destruct (rq_expiresAt x <=? at_) eqn:Hle; [done|exfalso].
  specialize (Hn x). rewrite Hp in Hn. assert (true = false); [|done]. apply Hn, where_elem.
  exists x. by rewrite Hp, Hle.
Qed.

Lemma where_fresh {A B} (key : A -> B) f p (l : list A) (k : B) :
  (forall a, key (f a) = key a) -> (forall x, x ∈ where_ p f l -> key x <> k) ->
  forall y, y ∈ l -> key y <> k.
Proof.
  intros Hk Hl y Hy. specialize (Hl (if p y then f y else y)). rewrite where_elem in Hl.
  destruct (p y) eqn:Hp; rewrite ?Hk in Hl; apply Hl; exists y; by rewrite Hp.
Qed.

Lemma expire_ok u e n db a n' db' :
  expireStaleRequests u e (n, db) = Ok (a, (n', db')) ->
  n' = n /\ db' = set_roleChangeRequests
    (where_ (fun x => pending_for u x && (rq_expiresAt x <=? env_now e)) expire_request
       (roleChangeRequests db)) db.
Proof. unfold expireStaleRequests. intros Hrun. by inv_user. Qed.

Lemma decide_ok i s by_ reason e n db o n' db' :
  decideRoleRequest i s by_ reason e (n, db) = Ok (o, (n', db')) ->
  n' = n /\ db' = set_roleChangeRequests
    (where_ (request_id i) (decide_request s by_ reason (env_now e)) (roleChangeRequests db)) db.
Proof. unfold decideRoleRequest. intros Hrun. by inv_user. Qed.

Lemma open_ok i at_ db q :
  openRequest i at_ db = Ok q ->
  List.find (request_id i) (roleChangeRequests db) = Some q /\ rq_status q = Request.PENDING
  /\ at_ < rq_expiresAt q.
Proof.
  unfold openRequest, lockRoleRequest, effectiveStatus. destruct (List.find _ _) as [r|]; [|done].
  destruct (bool_decide (rq_status r = Request.PENDING)) eqn:Hp; simpl.
  - apply bool_decide_eq_true in Hp. destruct (rq_expiresAt r <=? at_) eqn:Hle; [done|].
    rewrite Hp. intros [= <-]. apply Z.leb_gt in Hle. done.
  - apply bool_decide_eq_false in Hp. by destruct (rq_status r).
Qed.

Lemma can_decide actor q u :
  assertCanDecide actor q = Ok u -> actor <> rq_requestedBy q /\ actor <> rq_targetUserId q.
Proof.
  unfold assertCanDecide. destruct (String.eqb_spec actor (rq_requestedBy q)); [done|].
  by destruct (String.eqb_spec actor (rq_targetUserId q)).
Qed.

Lemma nobody_else actor u db :
  List.filter (fun a => negb (String.eqb a actor) && negb (String.eqb a u)) (lockAdminIds db) = [] ->
  forall w, holds (userRoles db) w ADMIN = true -> w = actor \/ w = u.
Proof.
  intros Hf w Hw. apply existsb_true in Hw as (x & Hx & Hb). apply andb_true_iff in Hb as [E Hr].
  apply String.eqb_eq in E as <-.
  destruct (String.eqb_spec (rr_userId x) actor) as [|N1]; [by left|].
  destruct (String.eqb_spec (rr_userId x) u) as [|N2]; [by right|]. exfalso.
  assert (rr_userId x ∈ List.filter (fun a => negb (String.eqb a actor) && negb (String.eqb a u)) (lockAdminIds db)) as Hin.
  { apply elem_filter. split; [by rewrite (proj2 (String.eqb_neq _ _) N1), (proj2 (String.eqb_neq _ _) N2)|].
    unfold lockAdminIds. apply list_elem_of_fmap_2, elem_filter. done. }
  rewrite Hf in Hin. set_solver.
Qed.

Lemma request_does actor sid target role reason corr date e n db o n' db' :
  requestRoleChange_tx settings actor sid target role reason corr date e (n, db) = Ok (o, (n', db')) ->
  does db db'.
Proof.
  unfold requestRoleChange_tx. intros Hrun.
  apply bind_ok in Hrun as (d & s & Hg & Hrun). apply gets_ok in Hg as [= -> ->]. change (id db) with db in *.
  apply bind_ok in Hrun as ([ak tk] & s & Hg & Hrun). apply lift_ok in Hg as (? & Hl & [= <- ->]).
  apply locked_both in Hl as (Ha & _ & Hid & Hadm & r & Hr & Hst). simpl in Hrun. rewrite <- Hid in *.
  apply bind_ok in Hrun as (b & s & Hg & Hrun). apply lift_ok in Hg as (? & Hrules & [= <- ->]).
  destruct b; simpl in Hrun; [|inv_user; by apply does_nothing].
  assert (may_change (core db) actor (lk_id tk) role) as Hmay by (eapply rules_ok; eauto).
  set (u := lk_id tk) in *.
  apply bind_ok in Hrun as ([] & s & Hg & Hrun). apply stepUp_ok in Hg as [-> _].
  apply bind_ok in Hrun as ([] & [n1 d1] & Hg & Hrun). apply expire_ok in Hg as [-> ->].
  set (d1 := set_roleChangeRequests _ db) in *.
  apply bind_ok in Hrun as (d & s & Hg & Hrun). apply gets_ok in Hg as [= -> ->]. change (id d1) with d1 in *.
  apply bind_ok in Hrun as ([] & s & Hg & Hrun). apply require_ok in Hg as [Hpend [= ->]].
  destruct (findPendingRequest u d1) as [q|] eqn:Hq; [done|].
  pose proof (all_stale u (env_now e) (roleChangeRequests db) (no_pending u d1 Hq)) as Hstale.
  destruct (List.filter _ _) as [|w ws] eqn:Hothers.
  - apply bind_ok in Hrun as ([] & [n2 d2] & Hg & Hrun).
    apply apply_ok in Hg as (Hev & au & E1 & E2 & E3 & E4 & _ & Hc); [|exact Hmay].
    assert (db' = d2) as -> by by inv_user. exists [(USER_ROLE_CHANGED, u)]. split; [|exact Hev].
    rewrite Hc. apply (ef_alone limit (core db) actor u role au (env_now e)); try done.
    by apply nobody_else.
  - unfold insertRoleRequest in Hrun. inv_user.
    match goal with K : request_ok _ _ = true |- _ => rename K into Hok end.
    match goal with K : record _ _ _ _ _ _ _ _ = Ok _ |- _ => apply record_ok in K as [_ ->] end.
    apply does_quiet; [|done]. unfold request_ok in Hok.
    rewrite !andb_true_iff, !negb_true_iff, existsb_false in Hok. destruct_and!.
    eapply (ef_request limit (core db) actor u role _ _ (env_now e)); try done.
    apply (where_fresh rq_id expire_request
      (fun x => pending_for u x && (rq_expiresAt x <=? env_now e))); [done|].
    intros y Hy. apply String.eqb_neq. match goal with K : forall a, a ∈ _ -> _ |- _ => by apply K end.
Qed.

Lemma approve_does actor sid i reason corr date e n db o n' db' :
  approve_tx settings actor sid i reason corr date e (n, db) = Ok (o, (n', db')) -> does db db'.
Proof.
  unfold approve_tx. intros Hrun.
  apply bind_ok in Hrun as (d & s & Hg & Hrun). apply gets_ok in Hg as [= -> ->]. change (id db) with db in *.
  apply bind_ok in Hrun as (t & s & Hg & Hrun). apply now_ok in Hg as [= -> ->].
  apply bind_ok in Hrun as (q & s & Hg & Hrun). apply lift_ok in Hg as (? & Hopen & [= <- ->]).
  apply open_ok in Hopen as (Hfind & Hpend & Hexp).
  apply bind_ok in Hrun as ([] & s & Hg & Hrun). apply lift_ok in Hg as (? & Hcan & [= <- ->]).
  apply can_decide in Hcan as [Hna Hnt].
  apply bind_ok in Hrun as (lk & s & Hg & Hrun). apply lift_ok in Hg as (? & Hact & [= <- ->]).
  apply activeAdmin_ok in Hact as (_ & Ha & _).
  apply bind_ok in Hrun as ([] & s & Hg & Hrun). apply require_ok in Hg as [Hreq [= ->]].
  destruct (activeAdmin (lockUsers _ db (rq_requestedBy q))) as [rk|] eqn:Hrk; [|done].
  apply activeAdmin_ok in Hrk as (_ & Hr & _).
  destruct (lockUsers _ db (rq_targetUserId q)) as [tk|] eqn:Htk; [|done].
  apply lockUsers_ok in Htk as (Hid & Hroles & r & Hu & Hst & _).
  apply bind_ok in Hrun as (b & s & Hg & Hrun). apply lift_ok in Hg as (? & Hrules & [= <- ->]).
  apply bind_ok in Hrun as ([] & s & Hg & Hrun). apply require_ok in Hg as [-> [= ->]].
  assert (may_change (core db) (rq_requestedBy q) (lk_id tk) (rq_role q)) as Hmay.
  { eapply rules_ok; [exact Hrules|by rewrite Hroles, Hid, is_admin_holds|]. rewrite Hid. eauto. }
  apply bind_ok in Hrun as ([] & s & Hg & Hrun). apply stepUp_ok in Hg as [-> _].
  apply bind_ok in Hrun as (dq & [n1 d1] & Hg & Hrun). apply decide_ok in Hg as [-> ->].
  apply bind_ok in Hrun as ([] & [n2 d2] & Hg & Hrun).
  apply apply_ok in Hg as (Hev & au & E1 & E2 & E3 & E4 & E5 & Hc); [|exact Hmay].
  assert (db' = d2) as -> by by inv_user. exists [(USER_ROLE_CHANGED, rq_targetUserId q)].
  rewrite Hid in *. split; [|exact Hev]. rewrite Hc.
  assert (rq_id q = i) as <- by (apply find_elem in Hfind as [_ Hfind]; by apply String.eqb_eq).
  by apply (ef_approve limit (core db) actor q au reason (env_now e)).
Qed.

Lemma reject_does actor sid i reason corr e n db o n' db' :
  reject_tx settings actor sid i reason corr e (n, db) = Ok (o, (n', db')) -> does db db'.
Proof.
  unfold reject_tx. intros Hrun.
  apply bind_ok in Hrun as (d & s & Hg & Hrun). apply gets_ok in Hg as [= -> ->]. change (id db) with db in *.
  apply bind_ok in Hrun as (t & s & Hg & Hrun). apply now_ok in Hg as [= -> ->].
  apply bind_ok in Hrun as (q & s & Hg & Hrun). apply lift_ok in Hg as (? & Hopen & [= <- ->]).
  apply open_ok in Hopen as (Hfind & Hpend & Hexp).
  apply bind_ok in Hrun as ([] & s & Hg & Hrun). apply require_ok in Hg as [Hnt [= ->]].
  apply negb_true_iff, String.eqb_neq in Hnt.
  apply bind_ok in Hrun as (lk & s & Hg & Hrun). apply lift_ok in Hg as (? & Hact & [= <- ->]).
  apply activeAdmin_ok in Hact as (_ & Ha & _).
  apply bind_ok in Hrun as ([] & s & Hg & Hrun).
  assert (s = (n, db)) as -> by (destruct (String.eqb _ _); [by inv_user|by apply stepUp_ok in Hg as [-> _]]).
  apply bind_ok in Hrun as (dq & [n1 d1] & Hg' & Hrun). apply decide_ok in Hg' as [-> ->].
  apply bind_ok in Hrun as (au & [n2 d2] & Hg' & Hrun). apply record_ok in Hg' as [_ ->].
  apply ret_ok in Hrun as [= -> -> ->]. apply does_quiet; [|done].
  assert (rq_id q = i) as <- by (apply find_elem in Hfind as [_ Hfind]; by apply String.eqb_eq).
  by eapply (ef_reject limit (core db) actor q _ reason (env_now e)).
Qed.

(** ** Records and bootstrap *)

Lemma alert_does kind actor d e n db a n' db' :
  raiseOncePerHour kind actor d e (n, db) = Ok (a, (n', db')) -> does db db'.
Proof.
  unfold raiseOncePerHour. intros Hrun. inv_user; [by apply does_nothing|].
  apply does_nothing. by eapply raise_ok.
Qed.

Lemma reads_core actor corr targets e n db a n' db' :
  insertAdminReads actor corr targets e (n, db) = Ok (a, (n', db')) -> same_core db db'.
Proof.
  unfold insertAdminReads. intros Hrun. apply bind_ok in Hrun as (t & s & Ht & Hrun).
  apply now_ok in Ht as [= -> ->]. revert n db Hrun.
  induction targets as [|x l IH]; intros n db Hrun; simpl in Hrun; [by inv_user|].
  apply bind_ok in Hrun as ([] & [n1 d1] & Hx & Hrun). destruct (IH _ _ Hrun) as [Hc Ho].
  inv_user. split; [rewrite Hc|rewrite Ho]; done.
Qed.

Lemma insertSeeded_ok u email h dn e n db b n' db' :
  insertSeededAdmin u email h dn e (n, db) = Ok (b, (n', db')) ->
  (b = false /\ db' = db)
  \/ (b = true /\ users db !! u = None /\ userOutbox db' = userOutbox db
      /\ core db' = mkCore
           (<[u := mkUser email (Some h) Account.ACTIVE true true (Some (env_now e)) (env_now e) (env_now e)]> (users db))
           (userRoles db ++ [mkRole u STUDENT None (env_now e); mkRole u ADMIN None (env_now e)])
           (activationTokens db) (passwordResetTokens db) (refreshSessions db) (auditRecords db)
           (roleChangeRequests db)).
Proof.
  unfold insertSeededAdmin, insert_user. intros Hrun. unfold_checks. inv_user; [by left|right].
  unfold has_user in *. destruct (users db !! u); [done|]. split_and!; try done.
  unfold core. simpl. by rewrite <- app_assoc.
Qed.

Lemma seed_does u email h date e n db b n' db' :
  seed_tx u email h date e (n, db) = Ok (b, (n', db')) -> does db db'.
Proof.
  unfold seed_tx, insertAudit. intros Hrun.
  apply bind_ok in Hrun as (c & [n1 d1] & Hg & Hrun).
  apply insertSeeded_ok in Hg as [[-> ->]|(-> & Hu & Ho & Hc)]; [inv_user; by apply does_nothing|].
  inv_user. match goal with K : announce _ _ _ _ _ _ = Ok _ |- _ => apply announce_ok in K as (Hc2 & _ & Hev) end.
  exists [(USER_ACTIVATED, u)]. split.
  - injection Hc as E1 E2 E3 E4 E5 E6 E7. rewrite Hc2. unfold core. simpl. rewrite E1, E2, E3, E4, E5, E6, E7.
    by apply (ef_seed limit (core db)).
  - destruct Hev as (rows & Hrows & Hr). exists rows. by rewrite Hrows, <- Ho.
Qed.
End Admin.
