(* ===== verification/UserInvariant.v ===== *)
(** * UserSteps: the User Service as it runs

    [user_step] is one transaction of the service, whoever calls it and whatever the tables a caller
    read before it ([seen]); the relay and the pruner of its outbox are steps too. [user_reachable]
    are the states any sequence of them leads to. Each step is at most one [effect]. *)
From S2P Require Export AdminEffects Outbox.

#[local] Open Scope Z_scope.

(** What the outbox announces, and what a step can make of it. *)
Definition announcements (db : UserDb) : list Ev := event_of <$> ob_rows (userOutbox db).

Section Steps.
Context `{Zod} `{Pg} `{Texts} `{Crypto} (users_settings : UserSettings) (settings : AdminSettings).
Notation limit := (suspensionsLimitPerHour settings).

(** [us_login] takes [randomUUID] at its word: the family a sign-in starts is new. *)
Inductive user_step (db : UserDb) : UserDb -> Prop :=
  | us_register email dn token e r db' :
      register users_settings email dn token e db = (r, db') -> user_step db db'
  | us_resend email token e r db' :
      resendActivation users_settings email token e db = (r, db') -> user_step db db'
  | us_request_reset email token e r db' :
      requestPasswordReset users_settings email token e db = (r, db') -> user_step db db'
  | us_activate token ph corr date at_seen seen e r db' :
      activate token ph corr date at_seen seen e db = (r, db') -> user_step db db'
  | us_login email password token seen e r db' :
      (forall x, x ∈ refreshSessions db -> ss_familyId x <> env_uuid e 1) ->
      login email password token seen e db = (r, db') -> user_step db db'
  | us_refresh token next e r db' : refresh token next e db = (r, db') -> user_step db db'
  | us_password email old new hash seen e r db' :
      changePassword users_settings email old new hash seen e db = (r, db') -> user_step db db'
  | us_confirm token password ph corr date at_seen seen e r db' :
      confirmPasswordReset users_settings token password ph corr date at_seen seen e db = (r, db') ->
      user_step db db'
  | us_stepup u sid password seen e r db' : stepUp u sid password seen e db = (r, db') -> user_step db db'
  | us_logout token e r db' : logout token e db = (r, db') -> user_step db db'
  | us_profile u c e r db' : update_me u c e db = (r, db') -> user_step db db'
  | us_suspend actor sid target reason corr date e r db' :
      transaction (suspend_tx settings actor sid target reason corr date) e db = (r, db') ->
      user_step db db'
  | us_reactivate actor sid target reason corr date e r db' :
      reactivate settings actor sid target reason corr date e db = (r, db') -> user_step db db'
  | us_request actor sid target role reason corr date e r db' :
      requestRoleChange settings actor sid target role reason corr date e db = (r, db') ->
      user_step db db'
  | us_approve actor sid i reason corr date e r db' :
      approveRoleRequest settings actor sid i reason corr date e db = (r, db') -> user_step db db'
  | us_reject actor sid i reason corr e r db' :
      rejectRoleRequest settings actor sid i reason corr e db = (r, db') -> user_step db db'
  | us_alert kind actor d e r db' :
      transaction (raiseOncePerHour kind actor d) e db = (r, db') -> user_step db db'
  | us_reads actor corr targets e r db' :
      transaction (insertAdminReads actor corr targets) e db = (r, db') -> user_step db db'
  | us_seed u email hash date e r db' :
      transaction (seed_tx u email hash date) e db = (r, db') -> user_step db db'
  | us_relay opts broker locked at_ rows' res :
      claimAndPublish opts broker locked at_ (ob_rows (userOutbox db)) = (rows', res) ->
      user_step db (set_userOutbox (mkOutbox rows' (ob_nextSeq (userOutbox db))) db)
  | us_prune retention n fuel locked stop at_ rows' count :
      deleteInBatches (outbox_old retention at_) fuel n locked stop 0 (ob_rows (userOutbox db)) 0
        = Some (rows', count) ->
      user_step db (set_userOutbox (mkOutbox rows' (ob_nextSeq (userOutbox db))) db).

Definition user_reachable (db : UserDb) : Prop := rtc user_step empty_users db.

(** One effect, or the outbox's own housekeeping. *)
Definition moved (db db' : UserDb) : Prop :=
  does limit db db' \/ (core db' = core db /\ announcements db' `sublist_of` announcements db).

Lemma moved_nothing db : moved db db.
Proof. left. by apply does_nothing. Qed.

Lemma moved_transaction {A} (m : UserM A) e db r db' :
  (forall a n', m e (0%nat, db) = Ok (a, (n', db')) -> does limit db db') ->
  transaction m e db = (r, db') -> moved db db'.
Proof.
  intros Hm Ht. destruct r as [a|x]; [|apply transaction_throw in Ht as ->; apply moved_nothing].
  apply transaction_ok in Ht as [n' Hr]. left. by eapply Hm.
Qed.

(** What the foreign keys and unique columns of the links and sessions give each transaction. *)
Record Keys (db : UserDb) : Prop := mkKeys {
  k_links : one_per_hash (activationTokens db);
  k_resets : one_per_hash (passwordResetTokens db);
  k_links_owned : owned db (activationTokens db);
  k_resets_owned : owned db (passwordResetTokens db);
  k_sessions : one_per_id (refreshSessions db) }.

Ltac by_tx lem :=
  match goal with
  | Ht : transaction _ _ _ = (_, _) |- _ =>
      eapply moved_transaction; [|exact Ht]; intros;
      eapply lem; try eassumption
  end.

(** A method that runs one transaction and answers whatever it gave. *)
Ltac one_tx :=
  repeat match goal with
    | Hs : context [match transaction ?m ?e ?db with _ => _ end] |- _ =>
        destruct (transaction m e db) as [? ?] eqn:?
    | Hs : (match ?x with _ => _ end) = (_, _) |- _ => destruct x eqn:?
    | Hs : (_, _) = (_, _) |- _ => injection Hs as <- <-
    end; try apply moved_nothing.

(** Relaying and pruning announce nothing new. *)
Lemma relay_announces opts broker locked at_ db rows' res :
  claimAndPublish opts broker locked at_ (ob_rows (userOutbox db)) = (rows', res) ->
  moved db (set_userOutbox (mkOutbox rows' (ob_nextSeq (userOutbox db))) db).
Proof.
  intros Hr%publish_rows_published. right. split; [done|].
  unfold announcements. simpl. replace (event_of <$> rows') with (event_of <$> ob_rows (userOutbox db)); [done|].
  induction Hr as [|r r' l l' ((_ & _ & Ht & Ha & _) & _) _ IH]; [done|].
  rewrite !fmap_cons, IH. unfold event_of. by rewrite Ht, Ha.
Qed.

Lemma prune_announces old fuel n locked stop db rows' count :
  deleteInBatches old fuel n locked stop 0 (ob_rows (userOutbox db)) 0 = Some (rows', count) ->
  moved db (set_userOutbox (mkOutbox rows' (ob_nextSeq (userOutbox db))) db).
Proof.
  intros (_ & Hs & _)%deleteInBatches_spec. right. split; [done|]. by apply fmap_sublist.
Qed.

Lemma step_moved db db' : Keys db -> user_step db db' -> moved db db'.
Proof.
  intros K []; try (by eapply relay_announces); try (by eapply prune_announces).
  - unfold register in *. one_tx. all: by_tx register_does.
  - unfold resendActivation, mail_of in *. one_tx. all: by_tx resend_does.
  - unfold requestPasswordReset, mail_of in *. one_tx. all: by_tx reset_request_does.
  - unfold activate in *. one_tx. all: by_tx activate_does; by apply K.
  - unfold login in *. one_tx. all: by_tx login_does.
  - unfold refresh in *. one_tx. all: by_tx refresh_does; by apply K.
  - unfold changePassword in *. one_tx. all: by_tx change_does.
  - unfold confirmPasswordReset in *. one_tx. all: by_tx confirm_does; by apply K.
  - unfold stepUp in *. one_tx. all: by_tx step_up_does.
  - unfold logout in *. one_tx. all: by_tx logout_does.
  - unfold update_me in *. one_tx. all: by_tx profile_does.
  - by_tx suspend_does.
  - unfold reactivate in *. one_tx. all: by_tx reactivate_does.
  - unfold requestRoleChange in *. one_tx. all: by_tx request_does.
  - unfold approveRoleRequest in *. one_tx. all: by_tx approve_does.
  - unfold rejectRoleRequest in *. by_tx reject_does.
  - by_tx alert_does.
  - eapply moved_transaction; [|eassumption]. intros. apply does_nothing. by eapply reads_core.
  - by_tx seed_does.
Qed.
End Steps.

(** ** UserInvariant: what every effect of the User Service keeps

    One record per concern - keys and ownership, live sessions, rotation families, emailed links, the
    audit trail as the account of roles and suspensions, role-change requests and their two
    administrators, the suspension limit, the events announced - each kept by every [effect]. *)

#[local] Open Scope Z_scope.

(** ** Lists of rows *)

Ltac inv_elem :=
  repeat match goal with
    | H : _ ∈ _ ++ _ |- _ => apply elem_of_app in H as [H|H]
    | H : _ ∈ [_] |- _ => apply list_elem_of_singleton in H
    | H : _ ∈ [_; _] |- _ => apply elem_of_cons in H as [H|H]
    | H : _ ∈ drop_links _ _ |- _ => apply elem_filter in H as [? H]
    | H : _ ∈ without_admin _ _ |- _ => apply elem_filter in H as [? H]
    | H : _ ∈ where_ _ _ _ |- _ => apply where_elem in H as (? & H & ?)
    | H : _ ∈ revoke_where _ _ _ |- _ => apply where_elem in H as (? & H & ?)
    end.

Lemma filter_sublist {A} (p : A -> bool) l : List.filter p l `sublist_of` l.
Proof. induction l as [|a l IH]; simpl; [done|]. destruct (p a); [by apply sublist_skip|by apply sublist_cons]. Qed.

Lemma NoDup_keys_filter {A B} (key : A -> B) p (l : list A) :
  NoDup (key <$> l) -> NoDup (key <$> List.filter p l).
Proof. intros Hn. eapply sublist_NoDup; [exact Hn|]. apply fmap_sublist, filter_sublist. Qed.

Lemma NoDup_keys_snoc {A B} (key : A -> B) (l : list A) a :
  NoDup (key <$> l) -> (forall x, x ∈ l -> key x <> key a) -> NoDup (key <$> (l ++ [a])).
Proof.
  intros Hn Hf. rewrite fmap_app. apply NoDup_app. split; [done|]. split; [|apply NoDup_singleton].
  intros k Hk Hk'. simpl in Hk'. apply list_elem_of_singleton in Hk' as ->.
  apply list_elem_of_fmap in Hk as (x & Hx & Hin). by apply (Hf x).
Qed.

(** Two rows of one key are one row. *)
Lemma same_key {A B} (key : A -> B) (l : list A) a b :
  NoDup (key <$> l) -> a ∈ l -> b ∈ l -> key a = key b -> a = b.
Proof.
  intros Hn Ha Hb Hk. apply list_elem_of_lookup in Ha as [i Hi]. apply list_elem_of_lookup in Hb as [j Hj].
  assert (i = j) as <-; [|congruence].
  apply (NoDup_lookup (key <$> l) i j (key a) Hn); rewrite list_lookup_fmap; [by rewrite Hi|by rewrite Hj, Hk].
Qed.

(** ** Accounts are never deleted *)

Definition exists_ (c : Core) (u : string) : Prop := is_Some (c_users c !! u).

Lemma users_grow limit c evs c' v : effect limit c evs c' -> exists_ c v -> exists_ c' v.
Proof. unfold exists_. intros [] Hv; simpl; rewrite ?lookup_insert_is_Some; try destruct (decide (u = v)); auto. Qed.

(** ** Keys *)

Record Keyed (c : Core) : Prop := mkKeyed {
  kd_links : one_per_hash (c_links c);
  kd_resets : one_per_hash (c_resets c);
  kd_sessions : one_per_id (c_sessions c);
  kd_session_hashes : NoDup (ss_tokenHash <$> c_sessions c);
  kd_requests : NoDup (rq_id <$> c_requests c);
  kd_links_owned : forall t, t ∈ c_links c -> exists_ c (tk_userId t);
  kd_resets_owned : forall t, t ∈ c_resets c -> exists_ c (tk_userId t);
  kd_sessions_owned : forall s, s ∈ c_sessions c -> exists_ c (ss_userId s);
  kd_roles_owned : forall x, x ∈ c_roles c -> exists_ c (rr_userId x);
  kd_audit_owned : forall a, a ∈ c_audit c -> exists_ c (au_targetUserId a);
  kd_requests_owned : forall q, q ∈ c_requests c -> exists_ c (rq_targetUserId q) }.

Lemma keys_where {A B} (key : A -> B) p f (l : list A) :
  (forall a, key (f a) = key a) -> NoDup (key <$> l) -> NoDup (key <$> where_ p f l).
Proof. intros Hk Hn. by rewrite where_ids. Qed.

Lemma links_snoc l t : one_per_hash l -> fresh_token l t -> one_per_hash (l ++ [t]).
Proof. intros Hl [_ Hf]. apply NoDup_keys_snoc; [done|]. intros x Hx. by destruct (Hf x Hx). Qed.

Lemma links_claimed h u at_ l l' : claimed h u at_ l l' -> one_per_hash l -> one_per_hash l'.
Proof. intros [-> _] Hn. by apply keys_where. Qed.

Lemma claimed_elem h u at_ l l' t :
  claimed h u at_ l l' -> t ∈ l' -> exists x, x ∈ l /\ tk_userId x = tk_userId t.
Proof. intros [-> _] Ht. inv_elem. exists x. split; [done|]. subst. by destruct (_ && _). Qed.

#[export] Hint Resolve NoDup_keys_filter keys_where links_snoc links_claimed : users.

Lemma keyed_links limit c evs c' : Keyed c -> effect limit c evs c' -> one_per_hash (c_links c').
Proof.
  intros K E. pose proof (kd_links c K). destruct E; simpl; try done.
  1-2: apply links_snoc; [by apply NoDup_keys_filter|done].
  apply NoDup_keys_filter. destruct_or!; destruct_and!; subst; [by eapply links_claimed|done].
Qed.

Lemma keyed_resets limit c evs c' : Keyed c -> effect limit c evs c' -> one_per_hash (c_resets c').
Proof.
  intros K E. pose proof (kd_resets c K). destruct E; simpl; try done.
  - apply links_snoc; [by apply NoDup_keys_filter|done].
  - apply NoDup_keys_filter. destruct_or!; destruct_and!; subst; [done|by eapply links_claimed].
  - by apply NoDup_keys_filter.
Qed.

Lemma keyed_sessions limit c evs c' : Keyed c -> effect limit c evs c' -> one_per_id (c_sessions c').
Proof.
  intros K E. pose proof (kd_sessions c K). destruct E; simpl; try done; try (by apply keys_where).
  - apply NoDup_keys_snoc; [done|]. intros x Hx. unfold fresh_session in *. naive_solver.
  - apply NoDup_keys_snoc; [by apply keys_where|]. intros x Hx. inv_elem. subst. unfold fresh_session in *.
    destruct_and!. match goal with Hf : forall x, _ -> _ /\ _ |- _ => destruct (Hf x0) as [Hi _]; [done|] end.
    by destruct (with_id _ _).
Qed.

Lemma keyed_session_hashes limit c evs c' :
  Keyed c -> effect limit c evs c' -> NoDup (ss_tokenHash <$> c_sessions c').
Proof.
  intros K E. pose proof (kd_session_hashes c K). destruct E; simpl; try done; try (by apply keys_where).
  - apply NoDup_keys_snoc; [done|]. intros x Hx. unfold fresh_session in *. naive_solver.
  - apply NoDup_keys_snoc; [by apply keys_where|]. intros x Hx. inv_elem. subst. unfold fresh_session in *.
    destruct_and!. match goal with Hf : forall x, _ -> _ /\ _ |- _ => destruct (Hf x0) as [_ Hi]; [done|] end.
    by destruct (with_id _ _).
Qed.

Lemma keyed_requests limit c evs c' :
  Keyed c -> effect limit c evs c' -> NoDup (rq_id <$> c_requests c').
Proof.
  intros K E. pose proof (kd_requests c K). destruct E; simpl; try done; try (by apply keys_where).
  apply NoDup_keys_snoc; [by apply keys_where|]. intros x Hx. inv_elem. subst.
  match goal with Hf : forall x, _ -> rq_id _ <> _ |- _ => specialize (Hf x0) end. destruct (_ && _); auto.
Qed.

Lemma keyed_links_owned limit c evs c' :
  Keyed c -> effect limit c evs c' -> forall t, t ∈ c_links c' -> exists_ c' (tk_userId t).
Proof.
  intros K E t Ht. pose proof (kd_links_owned c K) as Ho. assert (Hg := fun v => users_grow limit c evs c' v E).
  assert ((exists x, x ∈ c_links c /\ tk_userId x = tk_userId t) -> exists_ c' (tk_userId t)) as Hx.
  { intros (x & Hx & <-). by apply Hg, Ho. }
  destruct E; simpl in *; try (apply Hx; eauto; fail).
  1-2: inv_elem; [apply Hx; eauto|]; subst; apply lookup_insert_is_Some; by left.
  inv_elem. apply Hx. destruct_or!; destruct_and!; subst; [by eapply claimed_elem|eauto].
Qed.

Lemma keyed_resets_owned limit c evs c' :
  Keyed c -> effect limit c evs c' -> forall t, t ∈ c_resets c' -> exists_ c' (tk_userId t).
Proof.
  intros K E t Ht. pose proof (kd_resets_owned c K) as Ho. assert (Hg := fun v => users_grow limit c evs c' v E).
  assert ((exists x, x ∈ c_resets c /\ tk_userId x = tk_userId t) -> exists_ c' (tk_userId t)) as Hx.
  { intros (x & Hx & <-). by apply Hg, Ho. }
  destruct E; simpl in *; try (apply Hx; eauto; fail).
  - inv_elem; [apply Hx; eauto|]. subst. by eexists.
  - inv_elem. apply Hx. destruct_or!; destruct_and!; subst; [eauto|by eapply claimed_elem].
  - inv_elem. apply Hx. eauto.
Qed.

Lemma keyed_sessions_owned limit c evs c' :
  Keyed c -> effect limit c evs c' -> forall s, s ∈ c_sessions c' -> exists_ c' (ss_userId s).
Proof.
  intros K E s Hs. pose proof (kd_sessions_owned c K) as Ho. assert (Hg := fun v => users_grow limit c evs c' v E).
  assert ((exists x, x ∈ c_sessions c /\ ss_userId x = ss_userId s) -> exists_ c' (ss_userId s)) as Hx.
  { intros (x & Hx & <-). by apply Hg, Ho. }
  destruct E; simpl in *; try (apply Hx; by eauto).
  all: inv_elem; subst; try (apply Hx; by eauto); try (apply Hg; by eexists).
  all: apply Hx; eexists; split; [done|]; by case_match.
Qed.

Lemma holds_elem rs u role : holds rs u role = true <-> exists x, x ∈ rs /\ rr_userId x = u /\ rr_role x = role.
Proof.
  unfold holds. rewrite existsb_true. split.
  - intros (x & Hx & [E%String.eqb_eq R%bool_decide_eq_true]%andb_true_iff). eauto.
  - intros (x & Hx & <- & <-). exists x. split; [done|]. by rewrite String.eqb_refl, bool_decide_true.
Qed.

Lemma keyed_roles_owned limit c evs c' :
  Keyed c -> effect limit c evs c' -> forall x, x ∈ c_roles c' -> exists_ c' (rr_userId x).
Proof.
  intros K E x Hx. pose proof (kd_roles_owned c K) as Ho. assert (Hg := fun v => users_grow limit c evs c' v E).
  assert (forall u role by_ at_, x ∈ roles_changed u role by_ at_ (c_roles c) -> x ∈ c_roles c
    \/ role = ADMIN /\ rr_userId x = u) as Hrc.
  { intros u role by_ at_ Hr. destruct role; simpl in Hr; inv_elem; subst; auto. }
  destruct E; simpl in *; try (by apply Hg, Ho).
  - inv_elem; [by apply Hg, Ho|]. subst. apply lookup_insert_is_Some. by left.
  - apply Hrc in Hx as [Hx|[-> ->]]; [by apply Ho|]. unfold may_change, exists_ in *. naive_solver.
  - apply Hrc in Hx as [Hx|[Hr ->]]; [by apply Ho|]. unfold may_change, exists_ in *. rewrite Hr in *. naive_solver.
  - inv_elem; [by apply Hg, Ho| |]; subst; apply lookup_insert_is_Some; by left.
Qed.

Lemma holds_exists c u role : Keyed c -> holds (c_roles c) u role = true -> exists_ c u.
Proof. intros K (x & Hx & <- & _)%holds_elem. by apply (kd_roles_owned c K). Qed.

Lemma keyed_audit_owned limit c evs c' :
  Keyed c -> effect limit c evs c' -> forall a, a ∈ c_audit c' -> exists_ c' (au_targetUserId a).
Proof.
  intros K E a Ha. pose proof (kd_audit_owned c K) as Ho. assert (Hg := fun v => users_grow limit c evs c' v E).
  assert (forall asker u role, may_change c asker u role -> exists_ c u) as Hm.
  { intros asker u [] Hm; [by eapply holds_exists, Hm|]. destruct Hm as (_ & r & Hr & _). by exists r. }
  destruct E; simpl in *; try (by apply Hg, Ho).
  all: inv_elem; [by apply Hg, Ho|]; subst.
  all: repeat match goal with E : au_targetUserId _ = _ |- _ => rewrite E end.
  all: try (apply Hg; by eexists); try (by eapply Hg, Hm); try done.
  - apply Hg, (kd_requests_owned c K). by eapply find_elem.
  - apply lookup_insert_is_Some. by left.
Qed.

Lemma keyed_requests_owned limit c evs c' :
  Keyed c -> effect limit c evs c' -> forall q, q ∈ c_requests c' -> exists_ c' (rq_targetUserId q).
Proof.
  intros K E q Hq. pose proof (kd_requests_owned c K) as Ho. assert (Hg := fun v => users_grow limit c evs c' v E).
  destruct E; simpl in *; try (by apply Hg, Ho).
  all: inv_elem; subst; try done.
  all: case_match; apply (Ho _ Hq).
Qed.

Lemma effect_keyed limit c evs c' : Keyed c -> effect limit c evs c' -> Keyed c'.
Proof.
  intros K E. constructor; [by eapply keyed_links|by eapply keyed_resets|by eapply keyed_sessions|by eapply keyed_session_hashes
    |by eapply keyed_requests|by eapply keyed_links_owned|by eapply keyed_resets_owned
    |by eapply keyed_sessions_owned|by eapply keyed_roles_owned|by eapply keyed_audit_owned
    |by eapply keyed_requests_owned].
Qed.

Lemma keyed_keys db : Keyed (core db) -> Keys db.
Proof. intros []. by constructor. Qed.

(** ** Sessions *)

(** An account whose sessions may be used. *)
Definition usable (c : Core) (u : string) : Prop :=
  exists r, c_users c !! u = Some r /\ u_status r = Account.ACTIVE
    /\ is_Some (u_passwordHash r) /\ u_mustChangePassword r = false.

Definition Live (c : Core) : Prop := forall s, s ∈ c_sessions c -> unrevoked s = true -> usable c (ss_userId s).

Lemma usable_other c c' u v r :
  c_users c' = <[u := r]> (c_users c) -> u <> v -> usable c v -> usable c' v.
Proof. unfold usable. intros -> Hne (x & Hx & Hr). exists x. by rewrite lookup_insert_ne. Qed.

Lemma revoked_where p at_ l s :
  s ∈ revoke_where p at_ l -> unrevoked s = true -> s ∈ l /\ p s = false.
Proof.
  intros Hs Hu. inv_elem. subst. destruct (p x && unrevoked x) eqn:Hp; [done|]. rewrite Hu in Hp.
  split; [done|]. by destruct (p x).
Qed.

Lemma not_of_user u s : of_user u s = false -> u <> ss_userId s.
Proof. unfold of_user. by intros ?%String.eqb_neq ->. Qed.

Lemma effect_live limit c evs c' : Keyed c -> Live c -> effect limit c evs c' -> Live c'.
Proof.
  intros K L E s Hs Hu. pose proof (kd_sessions_owned c K) as Ho.
  destruct E; simpl in Hs; try (by apply L).
  - eapply (usable_other c); [done| |by apply L]. intros ->. destruct (Ho s Hs). congruence.
  - eapply (usable_other c); [done| |by apply L]. intros ->. destruct (L s Hs Hu) as (x & ? & ? & _). congruence.
  - apply revoked_where in Hs as [Hs Hp]; [|done]. apply not_of_user in Hp.
    eapply (usable_other c); [done|done|by apply L].
  - inv_elem; [by apply L|]. subst. unfold loginable in *. rewrite !andb_true_iff, !bool_decide_eq_true in *.
    destruct_and!. exists r. rewrite negb_true_iff in *. split_and!; done.
  - inv_elem; subst; [by case_match; apply (L _ Hs)|].
    match goal with E : ss_userId _ = ss_userId _ |- _ => rewrite E end. apply L; [done|done].
  - apply revoked_where in Hs as [Hs Hp]; [|done]. by apply L.
  - inv_elem; subst. by case_match; apply (L _ Hs).
  - apply revoked_where in Hs as [Hs Hp]; [|done]. apply not_of_user in Hp.
    eapply (usable_other c); [done|done|by apply L].
  - apply revoked_where in Hs as [Hs Hp]; [|done]. apply not_of_user in Hp.
    eapply (usable_other c); [done|done|by apply L].
  - eapply (usable_other c); [done| |by apply L]. intros ->. destruct (L s Hs Hu) as (x & ? & ? & _). congruence.
  - eapply (usable_other c); [done| |by apply L]. intros ->. destruct (Ho s Hs). congruence.
Qed.

(** ** Rotation families *)

Definition unrotated (s : Session) : bool := negb (is_some (ss_rotatedAt s)).

(** A family has one owner, and at most one session of it was not yet rotated away. *)
Record Families (c : Core) : Prop := mkFamilies {
  fm_owner : forall s s', s ∈ c_sessions c -> s' ∈ c_sessions c -> ss_familyId s = ss_familyId s' ->
    ss_userId s = ss_userId s';
  fm_one : forall s s', s ∈ c_sessions c -> s' ∈ c_sessions c -> ss_familyId s = ss_familyId s' ->
    unrotated s = true -> unrotated s' = true -> ss_id s = ss_id s' }.

(** Revoking and re-entering a password leave families and rotation alone. *)
Definition keeps (l l' : list Session) : Prop :=
  forall s, s ∈ l' -> exists x, x ∈ l /\ ss_id x = ss_id s /\ ss_familyId x = ss_familyId s
    /\ ss_userId x = ss_userId s /\ unrotated x = unrotated s.

Lemma keeps_where p f l :
  (forall s, ss_id (f s) = ss_id s /\ ss_familyId (f s) = ss_familyId s /\ ss_userId (f s) = ss_userId s
     /\ unrotated (f s) = unrotated s) -> keeps l (where_ p f l).
Proof. intros Hf s Hs. inv_elem. subst. exists x. destruct (Hf x) as (? & ? & ? & ?). by case_match. Qed.

Lemma keeps_revoked p at_ l : keeps l (revoke_where p at_ l).
Proof. by apply keeps_where. Qed.

Lemma keeps_families c c' : Families c -> keeps (c_sessions c) (c_sessions c') -> Families c'.
Proof.
  intros [Ho H1] Hk. split; intros s s' Hs Hs' Hf; destruct (Hk s Hs) as (x & Hx & E1 & E2 & E3 & E4),
    (Hk s' Hs') as (x' & Hx' & F1 & F2 & F3 & F4).
  - rewrite <- E3, <- F3. apply Ho; congruence.
  - rewrite <- E1, <- F1, <- E4, <- F4. apply H1; congruence.
Qed.

Lemma effect_families limit c evs c' : Keyed c -> Families c -> effect limit c evs c' -> Families c'.
Proof.
  intros K F E. pose proof (fm_owner c F) as Ho. pose proof (fm_one c F) as H1.
  assert (forall l, keeps l l) as Hid by (intros l s Hs; by exists s).
  destruct E; try (by eapply keeps_families; [exact F|apply Hid]);
    try (by eapply keeps_families; [exact F|apply keeps_revoked]).
  - split; simpl; intros x x' Hx Hx' Hf; inv_elem; subst; auto; naive_solver.
  - assert (forall x, x ∈ where_ (with_id (ss_id s)) (rotate_session at_) (c_sessions c) ->
      ss_familyId x = ss_familyId s -> unrotated x = false /\ ss_userId x = ss_userId s) as Hall.
    { intros x Hx Hf. inv_elem. subst. unfold with_id in *.
      destruct (String.eqb_spec (ss_id x0) (ss_id s)) as [E|E]; simpl in *; [by auto|]. split; [|by auto].
      destruct (unrotated x0) eqn:Hu; [|done]. exfalso. apply E, H1; try done. unfold unrotated.
      by match goal with E : ss_rotatedAt s = None |- _ => rewrite E end. }
    assert (forall x, x ∈ where_ (with_id (ss_id s)) (rotate_session at_) (c_sessions c) ->
      exists y, y ∈ c_sessions c /\ ss_id y = ss_id x /\ ss_familyId y = ss_familyId x
        /\ ss_userId y = ss_userId x /\ (unrotated x = true -> unrotated y = true)) as Hold.
    { intros x Hx. inv_elem. exists x0. subst. by case_match. }
    split; simpl; intros x x' [Hx|Hx%list_elem_of_singleton]%elem_of_app
      [Hx'|Hx'%list_elem_of_singleton]%elem_of_app Hf; subst; try congruence.
    + destruct (Hold x Hx) as (y & ? & ? & ? & <- & _), (Hold x' Hx') as (y' & ? & ? & ? & <- & _).
      apply Ho; congruence.
    + destruct (Hall x Hx) as [_ ->]; congruence.
    + destruct (Hall x' Hx') as [_ ->]; congruence.
    + intros U U'. destruct (Hold x Hx) as (y & ? & <- & ? & _ & ?), (Hold x' Hx') as (y' & ? & <- & ? & _ & ?).
      apply H1; auto; congruence.
    + destruct (Hall x Hx) as [-> _]; congruence.
    + destruct (Hall x' Hx') as [-> _]; congruence.
  - eapply keeps_families; [exact F|by apply keeps_where].
Qed.

(** ** Emailed links *)

Definition pending (c : Core) (u : string) : Prop :=
  exists r, c_users c !! u = Some r /\ u_status r = Account.PENDING_ACTIVATION.

(** One link that works per account and table. *)
Definition one_unused (l : list Token) : Prop :=
  forall t t', t ∈ l -> t' ∈ l -> unused t = true -> unused t' = true -> tk_userId t = tk_userId t' ->
    tk_tokenHash t = tk_tokenHash t'.

Record Links (c : Core) : Prop := mkLinks {
  ln_pending : forall t, t ∈ c_links c -> unused t = true -> pending c (tk_userId t);
  ln_one : one_unused (c_links c);
  ln_one_reset : one_unused (c_resets c) }.

Lemma drop_unused u l t : t ∈ drop_links u l -> unused t = true -> t ∈ l /\ tk_userId t <> u.
Proof.
  intros [Hp Ht]%elem_filter Hu. split; [done|]. rewrite Hu, andb_true_r in Hp.
  by apply negb_true_iff, String.eqb_neq in Hp.
Qed.

Lemma one_unused_drop u l : one_unused l -> one_unused (drop_links u l).
Proof. intros Ho t t' Ht Ht' U U'. apply Ho; [by eapply drop_unused|by eapply drop_unused|done|done]. Qed.

Lemma one_unused_new u l t :
  one_unused l -> tk_userId t = u -> one_unused (drop_links u l ++ [t]).
Proof.
  intros Ho Hu x x' [Hx|Hx%list_elem_of_singleton]%elem_of_app
    [Hx'|Hx'%list_elem_of_singleton]%elem_of_app U U' E; subst; try done.
  - eapply one_unused_drop; eauto.
  - by apply drop_unused in Hx as [_ Hx].
  - by apply drop_unused in Hx' as [_ Hx'].
Qed.

Lemma claimed_unused h u at_ l l' t : claimed h u at_ l l' -> t ∈ l' -> unused t = true -> t ∈ l.
Proof. intros [-> _] Ht U. inv_elem. subst. by case_match. Qed.

Lemma one_unused_claimed h u at_ l l' : claimed h u at_ l l' -> one_unused l -> one_unused l'.
Proof. intros Hc Ho t t' Ht Ht' U U'. apply Ho; try done; by eapply claimed_unused. Qed.

Lemma pending_other c c' u v r :
  c_users c' = <[u := r]> (c_users c) -> u <> v -> pending c v -> pending c' v.
Proof. unfold pending. intros -> Hne (x & Hx & Hr). exists x. by rewrite lookup_insert_ne. Qed.

(** An account that is not pending holds no activation link that works. *)
Lemma effect_pending_links limit c evs c' :
  Keyed c -> Links c -> effect limit c evs c' ->
  forall t, t ∈ c_links c' -> unused t = true -> pending c' (tk_userId t).
Proof.
  intros K L E t Ht U. pose proof (kd_links_owned c K) as Ho. pose proof (ln_pending c L) as Hp.
  assert (forall u r, t ∈ c_links c -> c_users c !! u = Some r -> u_status r <> Account.PENDING_ACTIVATION ->
    u <> tk_userId t) as Hne.
  { intros u r Hin Hr Hs ->. destruct (Hp t Hin U) as (x & Hx & Hxs). congruence. }
  assert (forall u, t ∈ c_links c -> c_users c !! u = None -> u <> tk_userId t) as Hnew.
  { intros u Hin Hr ->. destruct (Ho t Hin). congruence. }
  destruct E; simpl in *; try (by apply Hp).
  all: try (eapply (pending_other c); [done|by eauto|by apply Hp]).
  - apply elem_of_app in Ht as [Ht|Ht%list_elem_of_singleton].
    + apply drop_unused in Ht as [Ht Hn]; [|done]. eapply (pending_other c); [done|done|by apply Hp].
    + subst. eexists. split; [apply lookup_insert_eq|done].
  - apply elem_of_app in Ht as [Ht|Ht%list_elem_of_singleton].
    + apply drop_unused in Ht as [Ht Hn]; [|done]. eapply (pending_other c); [done|done|by apply Hp].
    + subst. exists r'. split; [apply lookup_insert_eq|]. match goal with K : _ \/ _ |- _ => by destruct K as [->|[? ->]] end.
  - apply drop_unused in Ht as [Ht Hn]; [|done]. eapply (pending_other c); [done|done|].
    apply Hp; [|done]. destruct_or!; destruct_and!; subst; [by eapply claimed_unused|done].
  - destruct (Hp t Ht U) as (x & Hx & Hxs). destruct (decide (u = tk_userId t)) as [->|Hn].
    + eexists. split; [apply lookup_insert_eq|]. by simplify_eq.
    + eapply (pending_other c); [done|done|by apply Hp].
  - eapply (pending_other c); [done| |by apply Hp]. eapply Hne; [done|done|congruence].
  - eapply (pending_other c); [done| |by apply Hp]. eapply Hne; [done|done|congruence].
Qed.

Lemma effect_links limit c evs c' : Keyed c -> Links c -> effect limit c evs c' -> Links c'.
Proof.
  intros K L E. split; [by eapply effect_pending_links| |]; destruct L as [_ L1 L2];
    destruct E; simpl; try done; try (by apply one_unused_new); try (by apply one_unused_drop);
    apply one_unused_drop; destruct_or!; destruct_and!; subst; try done; by eapply one_unused_claimed.
Qed.

(** A bootstrap administrator excepted, an account that is pending has no password, and was never
    activated. *)
Definition Passwords (c : Core) : Prop :=
  forall u r, c_users c !! u = Some r -> u_status r = Account.PENDING_ACTIVATION -> u_passwordHash r = None.

Lemma effect_passwords limit c evs c' : Passwords c -> effect limit c evs c' -> Passwords c'.
Proof.
  intros P E v x Hx Hs. destruct E; simpl in *; try (by eapply P).
  all: apply lookup_insert_Some in Hx as [[<- <-]|[_ Hx]]; [|by eapply P]; simpl in *; try done.
  - match goal with K : _ \/ _ |- _ => destruct K as [->|[? ->]] end; [by eapply P|done].
  - unfold proved in Hs. by case_bool_decide.
  - match goal with K : u_passwordHash r = Some _ |- _ => by rewrite (P u r) in K end.
Qed.
