(* ===== verification/UserTrail.v ===== *)
(** * UserTrail: the audit trail as the specification of administration

    The trail alone says who is an administrator, who is suspended and who was set up at bootstrap
    ([admin_by], [suspended_by], [bootstrapped_by]), and [justified] says what ADR 0008 asks of a
    record, given the records before it. The tables agree with the trail, every record of it is
    justified, and the events announced follow it - whatever sequence of effects led there. *)
From S2P Require Export UserInvariant.

#[local] Open Scope Z_scope.

(** ** What the trail says *)

Definition admin_after (u : string) (b : bool) (a : Audit) : bool :=
  if String.eqb (au_targetUserId a) u then
    match au_action a with
    | ROLE_GRANT | ADMIN_BOOTSTRAP => true
    | ROLE_REVOKE => false
    | _ => b
    end
  else b.
Definition admin_by (trail : list Audit) (u : string) : bool := fold_left (admin_after u) trail false.

Definition suspended_after (u : string) (b : bool) (a : Audit) : bool :=
  if String.eqb (au_targetUserId a) u then
    match au_action a with SUSPEND => true | REACTIVATE => false | _ => b end
  else b.
Definition suspended_by (trail : list Audit) (u : string) : bool := fold_left (suspended_after u) trail false.

Definition bootstraps (u : string) (a : Audit) : bool :=
  String.eqb (au_targetUserId a) u && bool_decide (au_action a = ADMIN_BOOTSTRAP).
Definition bootstrapped_by (trail : list Audit) (u : string) : bool := existsb (bootstraps u) trail.

(** Who may act, by the trail. *)
Definition may_act (trail : list Audit) (u : string) : Prop :=
  admin_by trail u = true /\ suspended_by trail u = false.

(** What a role change needs of its target and of who asks for it. *)
Definition change_allowed (trail : list Audit) (asker u : string) (role : Role) : Prop :=
  match role with
  | ADMIN => admin_by trail u = false /\ suspended_by trail u = false
  | STUDENT => admin_by trail u = true /\ asker <> u /\ bootstrapped_by trail asker = true
  end.

(** The request a change with a second administrator answers. *)
Definition approved_by (reqs : list RoleRequest) (trail : list Audit) (a : Audit) (role : Role)
    (actor : string) : Prop :=
  exists q, q ∈ reqs /\ rq_status q = Request.APPROVED /\ rq_targetUserId q = au_targetUserId a
    /\ rq_role q = role /\ rq_decidedBy q = Some actor /\ rq_decidedAt q = Some (au_occurredAt a)
    /\ au_occurredAt a < rq_expiresAt q /\ actor <> rq_requestedBy q /\ actor <> rq_targetUserId q
    /\ may_act trail (rq_requestedBy q) /\ change_allowed trail (rq_requestedBy q) (au_targetUserId a) role.

Definition role_change_justified (reqs : list RoleRequest) (trail : list Audit) (a : Audit) (role : Role)
    (actor : string) : Prop :=
  (au_approval a = Some SECOND_ADMIN /\ approved_by reqs trail a role actor)
  \/ (au_approval a = Some NO_APPROVER /\ change_allowed trail actor (au_targetUserId a) role
      /\ forall w, admin_by trail w = true -> w = actor \/ w = au_targetUserId a).

(** An administrator's account is only a bootstrap administrator's to suspend or reactivate. *)
Definition over_admin (trail : list Audit) (actor u : string) : Prop :=
  admin_by trail u = true -> bootstrapped_by trail actor = true.

(** ADR 0008, of a record [a] that follows [trail]. *)
Definition justified (limit : Z) (reqs : list RoleRequest) (trail : list Audit) (a : Audit) : Prop :=
  match au_actorId a with
  | None => au_action a = ADMIN_BOOTSTRAP /\ admin_by trail (au_targetUserId a) = false
  | Some actor =>
      may_act trail actor
      /\ match au_action a with
         | SUSPEND => actor <> au_targetUserId a /\ suspended_by trail (au_targetUserId a) = false
             /\ over_admin trail actor (au_targetUserId a)
             /\ Z.of_nat (length (List.filter
                  (acted actor SUSPEND (au_occurredAt a - seconds HOUR_SECONDS)) trail)) < limit
         | REACTIVATE => suspended_by trail (au_targetUserId a) = true
             /\ over_admin trail actor (au_targetUserId a)
         | ROLE_GRANT => role_change_justified reqs trail a ADMIN actor
         | ROLE_REVOKE => role_change_justified reqs trail a STUDENT actor
         | ROLE_CHANGE_REJECTED => actor <> au_targetUserId a
         | ROLE_CHANGE_REQUESTED => True
         | ADMIN_BOOTSTRAP => False
         end
  end.

(** ** The tables agree with it *)

Record Trail (c : Core) : Prop := mkTrail {
  tr_roles : forall u, holds (c_roles c) u ADMIN = admin_by (c_audit c) u;
  tr_status : forall u r, c_users c !! u = Some r ->
    (u_status r = Account.SUSPENDED <-> suspended_by (c_audit c) u = true);
  tr_seeded : forall u r, c_users c !! u = Some r -> u_isSeededAdmin r = bootstrapped_by (c_audit c) u }.

Lemma admin_by_snoc trail a u : admin_by (trail ++ [a]) u = admin_after u (admin_by trail u) a.
Proof. unfold admin_by. by rewrite fold_left_app. Qed.
Lemma suspended_by_snoc trail a u : suspended_by (trail ++ [a]) u = suspended_after u (suspended_by trail u) a.
Proof. unfold suspended_by. by rewrite fold_left_app. Qed.
Lemma bootstrapped_by_snoc trail a u : bootstrapped_by (trail ++ [a]) u = bootstrapped_by trail u || bootstraps u a.
Proof. unfold bootstrapped_by. rewrite existsb_app. simpl. by rewrite orb_false_r. Qed.

(** Of an account no record is about, the trail says nothing. *)
Lemma untouched (f : string -> bool -> Audit -> bool) trail u :
  (forall b a, au_targetUserId a <> u -> f u b a = b) ->
  (forall a, a ∈ trail -> au_targetUserId a <> u) -> fold_left (f u) trail false = false.
Proof.
  intros Hf. induction trail as [|a l IH] using rev_ind; intros Ht; [done|].
  rewrite fold_left_app. simpl. rewrite Hf by (apply Ht; set_solver). apply IH. set_solver.
Qed.

Lemma new_account c u :
  Keyed c -> c_users c !! u = None ->
  suspended_by (c_audit c) u = false /\ bootstrapped_by (c_audit c) u = false
  /\ admin_by (c_audit c) u = false /\ holds (c_roles c) u ADMIN = false.
Proof.
  intros K Hu. assert (forall a, a ∈ c_audit c -> au_targetUserId a <> u) as Hn.
  { intros a Ha <-. destruct (kd_audit_owned c K a Ha). congruence. }
  split_and!.
  - apply (untouched suspended_after); [|done]. intros b a Hne. unfold suspended_after.
    by rewrite (proj2 (String.eqb_neq _ _) Hne).
  - apply existsb_false. intros a Ha. unfold bootstraps. by rewrite (proj2 (String.eqb_neq _ _) (Hn a Ha)).
  - apply (untouched admin_after); [|done]. intros b a Hne. unfold admin_after.
    by rewrite (proj2 (String.eqb_neq _ _) Hne).
  - destruct (holds _ _ _) eqn:Hh; [|done]. apply (holds_exists c) in Hh as [? Hh]; [congruence|done].
Qed.

Lemma holds_snoc rs u role by_ at_ v r :
  holds (rs ++ [mkRole u role by_ at_]) v r = holds rs v r || (String.eqb u v && bool_decide (role = r)).
Proof. unfold holds. rewrite existsb_app. simpl. by rewrite orb_false_r. Qed.

Lemma holds_without u rs v :
  holds (without_admin u rs) v ADMIN = holds rs v ADMIN && negb (String.eqb u v).
Proof.
  unfold holds, without_admin. induction rs as [|x rs IH]; simpl; [done|].
  destruct (String.eqb_spec (rr_userId x) u) as [Hx|Hx]; simpl.
  - destruct (bool_decide (rr_role x = ADMIN)) eqn:Hr; simpl; rewrite ?Hr, IH, Hx;
      destruct (String.eqb u v); simpl; by rewrite ?andb_false_r, ?andb_true_r.
  - rewrite IH. destruct (String.eqb_spec u v) as [Hv|]; simpl; rewrite ?andb_true_r; [|done].
    by rewrite !andb_false_r, <- Hv, (proj2 (String.eqb_neq _ _) Hx).
Qed.

Lemma holds_changed u role by_ at_ rs v :
  holds (roles_changed u role by_ at_ rs) v ADMIN
  = if String.eqb u v then match role with ADMIN => true | STUDENT => false end else holds rs v ADMIN.
Proof.
  destruct role; simpl; rewrite ?holds_without, ?holds_snoc; destruct (String.eqb u v); simpl;
    by rewrite ?andb_false_r, ?andb_true_r, ?orb_false_r, ?orb_true_r.
Qed.

Lemma trail_roles limit c evs c' :
  Trail c -> effect limit c evs c' -> forall u, holds (c_roles c') u ADMIN = admin_by (c_audit c') u.
Proof.
  intros T E v. pose proof (tr_roles c T v) as Hv.
  destruct E; simpl; rewrite ?admin_by_snoc, ?holds_changed, <- ?Hv; unfold admin_after; try done.
  all: repeat match goal with
    | E : au_targetUserId _ = _ |- _ => rewrite E; clear E
    | E : au_action _ = _ |- _ => rewrite E; clear E end.
  all: try (by destruct (String.eqb _ v)).
  - rewrite holds_snoc. simpl. by rewrite andb_false_r, orb_false_r.
  - destruct role; by destruct (String.eqb u v).
  - destruct (rq_role q); by destruct (String.eqb _ v).
  - change [mkRole u STUDENT None at_; mkRole u ADMIN None at_] with ([mkRole u STUDENT None at_] ++ [mkRole u ADMIN None at_]).
    rewrite app_assoc, !holds_snoc. simpl. rewrite andb_false_r, orb_false_r.
    destruct (String.eqb u v); simpl; by rewrite ?orb_true_r, ?orb_false_r.
Qed.

(** An account as the trail describes it. *)
Definition described (trail : list Audit) (u : string) (r : User) : Prop :=
  (u_status r = Account.SUSPENDED <-> suspended_by trail u = true)
  /\ u_isSeededAdmin r = bootstrapped_by trail u.

(** Records that change no account. *)
Definition of_roles (a : Audit) : bool :=
  match au_action a with
  | ROLE_GRANT | ROLE_REVOKE | ROLE_CHANGE_REQUESTED | ROLE_CHANGE_REJECTED => true
  | _ => false
  end.

Lemma described_snoc trail a u r :
  au_targetUserId a <> u \/ of_roles a = true -> described trail u r -> described (trail ++ [a]) u r.
Proof.
  unfold described, of_roles. rewrite suspended_by_snoc, bootstrapped_by_snoc. unfold suspended_after, bootstraps.
  destruct (String.eqb_spec (au_targetUserId a) u); [|by rewrite orb_false_r].
  intros [?|Ha]; [done|]. by destruct (au_action a); simpl; rewrite ?orb_false_r.
Qed.

Lemma described_status trail r r' u :
  u_status r' = u_status r -> u_isSeededAdmin r' = u_isSeededAdmin r ->
  described trail u r -> described trail u r'.
Proof. unfold described. by intros -> ->. Qed.

Definition Described (c : Core) : Prop :=
  forall u r, c_users c !! u = Some r -> described (c_audit c) u r.

(** A record about roles alone. *)
Lemma described_roles c users' a :
  Described c -> users' = c_users c -> of_roles a = true ->
  forall u r, users' !! u = Some r -> described (c_audit c ++ [a]) u r.
Proof. intros D -> Ha u r Hu. apply described_snoc; [by right|by apply D]. Qed.

(** A change to one account, and perhaps its record. *)
Lemma described_one c u r' trail :
  Described c ->
  (trail = c_audit c \/ exists a, trail = c_audit c ++ [a] /\ au_targetUserId a = u) ->
  described trail u r' ->
  forall v x, <[u := r']> (c_users c) !! v = Some x -> described trail v x.
Proof.
  intros D Ht Hr v x [[<- <-]|[Hv Hx]]%lookup_insert_Some; [done|].
  destruct Ht as [->|(a & -> & Ha)]; [by apply D|]. apply described_snoc; [left; congruence|by apply D].
Qed.

Lemma described_new c u r :
  Keyed c -> c_users c !! u = None -> u_status r <> Account.SUSPENDED -> u_isSeededAdmin r = false ->
  described (c_audit c) u r.
Proof.
  intros K Hu Hs Hb. destruct (new_account c u K Hu) as (Hs' & Hb' & _). unfold described. by rewrite Hs', Hb'.
Qed.

Lemma described_record trail a u r b :
  au_targetUserId a = u ->
  u_isSeededAdmin r = b || bool_decide (au_action a = ADMIN_BOOTSTRAP) -> bootstrapped_by trail u = b ->
  (u_status r = Account.SUSPENDED <-> suspended_after u (suspended_by trail u) a = true) ->
  described (trail ++ [a]) u r.
Proof.
  intros Ht Hr Hb Hs. unfold described. rewrite suspended_by_snoc, bootstrapped_by_snoc, Hb. split; [done|].
  unfold bootstraps. by rewrite Ht, String.eqb_refl.
Qed.

(** Reads the record an effect writes. *)
Ltac by_record :=
  repeat match goal with
    | E : au_targetUserId _ = _ |- _ => rewrite E
    | E : au_action _ = _ |- _ => rewrite E
    | E : au_approval _ = _ |- _ => rewrite E
    end; rewrite ?String.eqb_refl; simpl.

Lemma effect_described limit c evs c' :
  Keyed c -> Described c -> effect limit c evs c' -> Described c'.
Proof.
  intros K D E. destruct E; simpl; try exact D; unfold Described; simpl.
  - apply described_one; [done|by left|]. by apply described_new.
  - apply described_one; [done|by left|]. apply (described_status _ r); [..|by apply D];
      match goal with K : _ \/ _ |- _ => by destruct K as [->|[? ->]] end.
  - apply described_one; [done|by left|]. destruct (D u r ltac:(done)) as [Ds Db]. unfold described, proved.
    case_bool_decide as Hp; [|done]. rewrite <- Ds, Hp. done.
  - apply described_one; [done|by left|]. apply (described_status _ r); [done|done|by apply D].
  - apply described_one; [done|right; eauto|]. destruct (D u r ltac:(done)) as [Ds Db].
    apply (described_record _ _ _ _ (u_isSeededAdmin r)); unfold suspended_after; by_record;
      rewrite ?orb_false_r; done.
  - apply described_one; [done|right; eauto|]. destruct (D u r ltac:(done)) as [Ds Db].
    apply (described_record _ _ _ _ (u_isSeededAdmin r)); unfold suspended_after; by_record;
      rewrite ?orb_false_r; done.
  - apply described_roles; [done|done|]. unfold of_roles. by by_record.
  - apply described_roles; [done|done|]. unfold of_roles. by_record. by destruct role.
  - apply described_roles; [done|done|]. unfold of_roles. by_record. by destruct (rq_role q).
  - apply described_roles; [done|done|]. unfold of_roles. by by_record.
  - apply described_one; [done|right; eauto|]. destruct (new_account c u K ltac:(done)) as (Hs & Hb & _).
    apply (described_record _ _ _ _ false); unfold suspended_after; by_record; rewrite ?Hs; done.
Qed.

Lemma effect_trail limit c evs c' : Keyed c -> Trail c -> effect limit c evs c' -> Trail c'.
Proof.
  intros K T E. assert (Described c) as D by (intros u r Hu; split; [by apply T|by apply T]).
  pose proof (effect_described _ _ _ _ K D E) as D'.
  split; [by eapply trail_roles| |]; intros u r Hu; by apply D'.
Qed.

(** ** Every record is justified *)

Section Justified.
Context (c : Core) (T : Trail c).

Lemma not_suspended u r : c_users c !! u = Some r -> u_status r <> Account.SUSPENDED -> suspended_by (c_audit c) u = false.
Proof. intros Hu Hs. destruct (suspended_by _ _) eqn:E; [|done]. by apply (tr_status c T u r Hu) in E. Qed.

Lemma active_may_act u : active_admin c u -> may_act (c_audit c) u.
Proof.
  intros (r & Hu & Hs & Hh). split; [by rewrite <- (tr_roles c T)|]. eapply not_suspended; [done|congruence].
Qed.

Lemma seeded_bootstrapped u : seeded c u -> bootstrapped_by (c_audit c) u = true.
Proof. intros (r & Hu & Hb). by rewrite <- (tr_seeded c T u r Hu). Qed.

Lemma may_change_allowed asker u role : may_change c asker u role -> change_allowed (c_audit c) asker u role.
Proof.
  destruct role; simpl; rewrite <- (tr_roles c T).
  - intros (Hh & Hne & Hs). split_and!; [done|done|by apply seeded_bootstrapped].
  - intros (Hh & r & Hu & Hs). split; [done|]. eapply not_suspended; [done|congruence].
Qed.

Lemma over_admin_by actor u : (holds (c_roles c) u ADMIN = true -> seeded c actor) -> over_admin (c_audit c) actor u.
Proof. unfold over_admin. rewrite <- (tr_roles c T). intros Hh Ha. by apply seeded_bootstrapped, Hh. Qed.
End Justified.

(** A request once approved is never written again. *)
Lemma approved_kept limit c evs c' q :
  Keyed c -> effect limit c evs c' -> q ∈ c_requests c -> rq_status q = Request.APPROVED -> q ∈ c_requests c'.
Proof.
  intros K E Hq Hs.
  assert (forall p f, p q = false -> q ∈ where_ p f (c_requests c)) as Hw.
  { intros p f Hp. apply where_elem. exists q. by rewrite Hp. }
  assert (forall i q0, List.find (request_id i) (c_requests c) = Some q0 -> rq_status q0 = Request.PENDING ->
    request_id i q = false) as Hdec.
  { intros i q0 [Hin Hi]%find_elem Hp. unfold request_id in *. apply String.eqb_eq in Hi.
    apply String.eqb_neq. intros Hi'.
    assert (q = q0) as -> by (eapply (same_key rq_id); [apply (kd_requests c K)|done|done|congruence]). congruence. }
  assert (forall u, pending_for u q = false) as Hp.
  { intros u. unfold pending_for. by rewrite bool_decide_false, andb_false_r by congruence. }
  destruct E; simpl; try done; try apply elem_of_app; try left; apply Hw; rewrite ?Hp; try done; by eapply Hdec.
Qed.

Definition Justified (limit : Z) (c : Core) : Prop :=
  forall i a, c_audit c !! i = Some a -> justified limit (c_requests c) (take i (c_audit c)) a.

Lemma justified_mono limit reqs reqs' trail a :
  (forall q, q ∈ reqs -> rq_status q = Request.APPROVED -> q ∈ reqs') ->
  justified limit reqs trail a -> justified limit reqs' trail a.
Proof.
  intros Hm. unfold justified, role_change_justified, approved_by.
  destruct (au_actorId a); [|done]. intros [Hact Hj]. split; [done|].
  destruct (au_action a); try done.
  all: destruct Hj as [[Ha (q & Hq & Hs & Hj)]|Hj]; [left|by right]; split; [done|]; exists q; auto.
Qed.

Lemma justified_snoc limit c c' a :
  Justified limit c -> (forall q, q ∈ c_requests c -> rq_status q = Request.APPROVED -> q ∈ c_requests c') ->
  c_audit c' = c_audit c ++ [a] -> justified limit (c_requests c') (c_audit c) a -> Justified limit c'.
Proof.
  intros J Hm E Ha i x Hx. rewrite E in Hx |- *.
  destruct (decide (i < length (c_audit c))%nat) as [Hi|Hi].
  - rewrite lookup_app_l in Hx by done. rewrite take_app_le by lia.
    eapply justified_mono; [exact Hm|by apply J].
  - apply lookup_snoc_Some in Hx as [[? _]|[-> <-]]; [lia|]. by rewrite take_app_length.
Qed.

Lemma justified_same limit c c' :
  Justified limit c -> (forall q, q ∈ c_requests c -> rq_status q = Request.APPROVED -> q ∈ c_requests c') ->
  c_audit c' = c_audit c -> Justified limit c'.
Proof. intros J Hm E i x Hx. rewrite E in Hx |- *. eapply justified_mono; [exact Hm|by apply J]. Qed.

(** The record of each effect that writes one. *)
Ltac by_rules :=
  match goal with
  | T : Trail ?c |- may_act (c_audit ?c) _ => by apply (active_may_act c T)
  | T : Trail ?c |- over_admin (c_audit ?c) _ _ => by apply (over_admin_by c T)
  | T : Trail ?c |- change_allowed (c_audit ?c) _ _ _ => by apply (may_change_allowed c T)
  | T : Trail ?c |- suspended_by (c_audit ?c) _ = false => eapply (not_suspended c T); [done|congruence]
  | _ => done
  end.

Lemma effect_justified limit c evs c' :
  Keyed c -> Trail c -> Justified limit c -> effect limit c evs c' -> Justified limit c'.
Proof.
  intros K T J E. assert (forall q, q ∈ c_requests c -> rq_status q = Request.APPROVED -> q ∈ c_requests c') as Hm.
  { intros q. by eapply approved_kept. }
  destruct E; try (by eapply justified_same); eapply justified_snoc; try done; unfold justified; simpl in *;
    match goal with E : au_actorId _ = _ |- _ => rewrite E end; by_record.
  - split_and!; by_rules.
  - split_and!; try by_rules. by apply (tr_status c T u r).
  - split; [by_rules|done].
  - split; [by_rules|].
    assert (role_change_justified (where_ (fun x => pending_for u x && (rq_expiresAt x <=? at_)) expire_request
      (c_requests c)) (c_audit c) a role actor) as Hj; [|by destruct role].
    right. split; [done|]. split; [subst u; by_rules|]. intros w. rewrite <- (tr_roles c T). subst u. auto.
  - split; [by_rules|].
    assert (role_change_justified (where_ (request_id (rq_id q)) (decide_request Request.APPROVED actor reason at_)
      (c_requests c)) (c_audit c) a (rq_role q) actor) as Hj; [|by destruct (rq_role q)].
    left. split; [done|]. exists (decide_request Request.APPROVED actor reason at_ q).
    split; [apply where_elem; exists q; split; [by eapply find_elem|]; unfold request_id; by rewrite String.eqb_refl|].
    match goal with E : au_targetUserId a = _ |- _ => rewrite E end. subst at_.
    split_and!; by_rules.
  - split; [by_rules|done].
  - split; [done|]. by apply new_account.
Qed.

(** ** UserReach: what holds in every state the User Service reaches

    [Told] relates the events announced to the trail, [UserInv] gathers the invariants, and
    [reach_inv] carries them through every step, the relay's and the pruner's included. *)

#[local] Open Scope Z_scope.

(** ** Events *)

Definition is_activation (ev : Ev) : bool := String.eqb ev.1 USER_ACTIVATED.

(** The records that are announced, and as what. *)
Definition tells (a : Audit) : bool :=
  match au_action a with SUSPEND | REACTIVATE | ROLE_GRANT | ROLE_REVOKE => true | _ => false end.
Definition told_by (a : Audit) : Ev :=
  (match au_action a with
   | SUSPEND => USER_SUSPENDED | REACTIVATE => USER_REACTIVATED | _ => USER_ROLE_CHANGED
   end, au_targetUserId a).
Definition told (trail : list Audit) : list Ev := told_by <$> List.filter tells trail.

Record Told (evs : list Ev) (c : Core) : Prop := mkTold {
  td_trail : List.filter (fun ev => negb (is_activation ev)) evs `sublist_of` told (c_audit c);
  td_once : NoDup (List.filter is_activation evs);
  td_active : forall u, (USER_ACTIVATED, u) ∈ evs -> exists r, c_users c !! u = Some r
    /\ u_status r <> Account.PENDING_ACTIVATION }.

Lemma filter_sublists {A} (p : A -> bool) l l' :
  l' `sublist_of` l -> List.filter p l' `sublist_of` List.filter p l.
Proof.
  induction 1 as [|a l1 l2 _ IH|a l1 l2 _ IH]; simpl; [done| |]; destruct (p a); try done.
  - by apply sublist_skip.
  - by apply sublist_cons.
Qed.

Lemma told_pruned evs evs' c : Told evs c -> evs' `sublist_of` evs -> Told evs' c.
Proof.
  intros [Ht Ho Ha] Hs. split.
  - etrans; [|exact Ht]. by apply filter_sublists.
  - eapply sublist_NoDup; [exact Ho|by apply filter_sublists].
  - intros u Hu. apply Ha. by eapply elem_of_sublist.
Qed.

(** No account goes back to pending. *)
Lemma stays_active limit c evs c' u r :
  effect limit c evs c' -> c_users c !! u = Some r -> u_status r <> Account.PENDING_ACTIVATION ->
  exists r', c_users c' !! u = Some r' /\ u_status r' <> Account.PENDING_ACTIVATION.
Proof.
  intros E Hu Hs. destruct E as [|w| w x| |w x|  | | | |w x|ac w x|ac w x| | | | |w]; simpl; try (by exists r);
    try (destruct (decide (w = u)) as [->|Hw]; [|exists r; by rewrite lookup_insert_ne]).
  all: try congruence; eexists; (split; [by rewrite lookup_insert_eq|]); simpl; try congruence.
  unfold proved. by case_bool_decide.
Qed.

(** What an effect announces: its record if that is announced, or an account's one activation. *)
Definition announces (c c' : Core) (evs : list Ev) : Prop :=
  (evs = [] /\ (c_audit c' = c_audit c \/ exists a, c_audit c' = c_audit c ++ [a] /\ tells a = false))
  \/ (exists a, c_audit c' = c_audit c ++ [a] /\ tells a = true /\ evs = [told_by a])
  \/ (exists u, evs = [(USER_ACTIVATED, u)] /\ (c_users c !! u = None \/ pending c u)
      /\ (exists r, c_users c' !! u = Some r /\ u_status r <> Account.PENDING_ACTIVATION)
      /\ (c_audit c' = c_audit c \/ exists a, c_audit c' = c_audit c ++ [a] /\ tells a = false)).

Lemma effect_announces limit c evs c' : effect limit c evs c' -> announces c c' evs.
Proof.
  unfold announces, told_by, tells.
  destruct 1; simpl; try (left; split; [done|by left]).
  - case_bool_decide as Hp; [|left; split; [done|by left]]. right. right. exists u. split; [done|].
    split; [right; by exists r|]. split; [|by left]. eexists. split; [by rewrite lookup_insert_eq|].
    unfold proved. by rewrite bool_decide_true.
  - right. left. eexists. split; [done|]. by by_record.
  - right. left. eexists. split; [done|]. by by_record.
  - left. split; [done|]. right. eexists. split; [done|]. by by_record.
  - right. left. eexists. split; [done|]. by_record. by destruct role.
  - right. left. eexists. split; [done|]. by_record. by destruct (rq_role q).
  - left. split; [done|]. right. eexists. split; [done|]. by by_record.
  - right. right. exists u. split; [done|]. split; [by left|]. split.
    + eexists. by rewrite lookup_insert_eq.
    + right. eexists. split; [done|]. by by_record.
Qed.

Lemma told_snoc trail a : told (trail ++ [a]) = told trail ++ (if tells a then [told_by a] else []).
Proof. unfold told. rewrite List.filter_app, fmap_app. simpl. by destruct (tells a). Qed.

Lemma told_same c c' :
  (c_audit c' = c_audit c \/ exists a, c_audit c' = c_audit c ++ [a] /\ tells a = false) ->
  told (c_audit c') = told (c_audit c).
Proof. intros [->|(a & -> & Ha)]; [done|]. by rewrite told_snoc, Ha, app_nil_r. Qed.

Lemma effect_told limit evs0 c evs c' : Told evs0 c -> effect limit c evs c' -> Told (evs0 ++ evs) c'.
Proof.
  intros [Ht Ho Ha] E.
  assert (forall u, (USER_ACTIVATED, u) ∈ evs0 -> exists r, c_users c' !! u = Some r
    /\ u_status r <> Account.PENDING_ACTIVATION) as Hold.
  { intros u (r & Hu & Hs)%Ha. by eapply stays_active. }
  destruct (effect_announces _ _ _ _ E) as [[-> Hau]|[(a & Hau & Htl & ->)|(u & -> & Hu & Hr & Hau)]].
  - rewrite app_nil_r. split; [by rewrite (told_same _ _ Hau)|done|done].
  - assert (is_activation (told_by a) = false) as Hn by (unfold told_by, tells, is_activation in *; by destruct (au_action a)).
    split; rewrite ?List.filter_app; simpl; rewrite ?Hn; simpl.
    + rewrite Hau, told_snoc, Htl. by apply sublist_app.
    + by rewrite app_nil_r.
    + intros u [Hin|Hin%list_elem_of_singleton]%elem_of_app; [by apply Hold|].
      rewrite <- Hin in Hn. done.
  - split; rewrite ?List.filter_app; simpl.
    + by rewrite app_nil_r, (told_same _ _ Hau).
    + apply NoDup_app. split; [done|]. split; [|apply NoDup_singleton]. intros ev Hin Hev%list_elem_of_singleton.
      subst. apply elem_filter in Hin as [_ Hin]. apply Ha in Hin as (r & Hr' & Hs).
      destruct Hu as [Hu|(x & Hx & Hxs)]; congruence.
    + intros w [Hin|Hin%list_elem_of_singleton]%elem_of_app; [by apply Hold|]. by simplify_eq.
Qed.

(** ** The invariant *)

Record UserInv (limit : Z) (evs : list Ev) (c : Core) : Prop := mkUserInv {
  ui_keyed : Keyed c;
  ui_live : Live c;
  ui_families : Families c;
  ui_links : Links c;
  ui_passwords : Passwords c;
  ui_trail : Trail c;
  ui_justified : Justified limit c;
  ui_told : Told evs c }.

Lemma effect_inv limit evs0 c evs c' :
  UserInv limit evs0 c -> effect limit c evs c' -> UserInv limit (evs0 ++ evs) c'.
Proof.
  intros [K L F N P T J O] E. constructor; [by eapply effect_keyed|by eapply effect_live
    |by eapply effect_families|by eapply effect_links|by eapply effect_passwords|by eapply effect_trail
    |by eapply effect_justified|by eapply effect_told].
Qed.

Lemma inv_empty limit : UserInv limit [] (core empty_users).
Proof.
  split; try done; repeat split; simpl; try set_solver; try apply NoDup_nil_2; try done.
  all: intros t t' Ht; by apply not_elem_of_nil in Ht.
Qed.

Section Reach.
Context `{Zod} `{Pg} `{Texts} `{Crypto} (users_settings : UserSettings) (settings : AdminSettings).
Notation limit := (suspensionsLimitPerHour settings).
Notation user_step := (user_step users_settings settings).
Notation user_reachable := (user_reachable users_settings settings).
Notation inv db := (UserInv limit (announcements db) (core db)).

Lemma moved_inv db db' : inv db -> moved settings db db' -> inv db'.
Proof.
  intros I [(evs & E & rows & Hrows & <-)|[Hc Hs]].
  - unfold announcements. rewrite Hrows, fmap_app. by eapply effect_inv.
  - rewrite Hc. destruct I as [K L F N P T J O]. constructor; try done. by eapply told_pruned.
Qed.

Lemma step_inv db db' : inv db -> user_step db db' -> inv db'.
Proof. intros I S. eapply moved_inv; [exact I|]. eapply step_moved; [|exact S]. by apply keyed_keys, I. Qed.

Lemma steps_inv db db' : inv db -> rtc user_step db db' -> inv db'.
Proof. intros I S. revert I. induction S as [|a b d S _ IH]; intros I; [done|]. by eapply IH, step_inv. Qed.

Lemma reach_inv db : user_reachable db -> inv db.
Proof. apply steps_inv, inv_empty. Qed.

(** A property of the core that every effect keeps holds in every later state. *)
Lemma later (P : Core -> Prop) :
  (forall evs0 c evs c', UserInv limit evs0 c -> P c -> effect limit c evs c' -> P c') ->
  forall db db', user_reachable db -> P (core db) -> rtc user_step db db' -> P (core db').
Proof.
  intros HP db db' Hr Hp S. apply reach_inv in Hr as I. clear Hr. revert I Hp.
  induction S as [|a b d S _ IH]; intros I Hp; [done|].
  apply IH; [by eapply step_inv|].
  destruct (step_moved _ _ _ _ (keyed_keys _ (ui_keyed _ _ _ I)) S) as [(evs & E & _)|[-> _]]; [|done].
  by eapply HP.
Qed.
End Reach.
