(* ===== verification/UserTheorems.v ===== *)
(** * UserTheorems: what the User Service guarantees

    Administration under ADR 0008 - there is always an administrator, the trail explains every role
    and suspension, role changes take two administrators, suspensions are limited - and accounts:
    sessions, rotation, emailed links and sign-in. Each is about every state the service reaches
    ([user_reachable]), whoever calls it and in whatever order. *)
From S2P Require Export UserTrail.
#[local] Open Scope Z_scope.

(** ** Helpers *)

Lemma active_admin_users c c' u :
  c_users c' = c_users c -> c_roles c' = c_roles c -> active_admin c u -> active_admin c' u.
Proof. unfold active_admin. by intros -> ->. Qed.

(** Whatever happens to other accounts. *)
Lemma active_admin_insert c c' u v r :
  c_users c' = <[v := r]> (c_users c) -> (holds (c_roles c) u ADMIN = true -> holds (c_roles c') u ADMIN = true) ->
  (v = u -> u_status r = Account.ACTIVE) -> active_admin c u -> active_admin c' u.
Proof.
  intros E Hh Hv (x & Hx & Hs & Ha). unfold active_admin. rewrite E. destruct (decide (v = u)) as [->|Hne].
  - exists r. rewrite lookup_insert_eq. auto.
  - exists x. rewrite lookup_insert_ne by done. auto.
Qed.

Lemma holds_app rs l u r : holds rs u r = true -> holds (rs ++ l) u r = true.
Proof. unfold holds. rewrite existsb_app. by intros ->. Qed.

(** A role change leaves whoever is not its target an administrator. *)
Lemma active_admin_role c c' u v role by_ at_ :
  c_users c' = c_users c -> c_roles c' = roles_changed v role by_ at_ (c_roles c) -> v <> u ->
  active_admin c u -> active_admin c' u.
Proof.
  intros E R Hne (x & Hx & Hs & Ha). exists x. rewrite E, R, holds_changed.
  by rewrite (proj2 (String.eqb_neq _ _) Hne).
Qed.

Lemma active_admin_grant c c' u v by_ at_ :
  c_users c' = c_users c -> c_roles c' = roles_changed v ADMIN by_ at_ (c_roles c) ->
  active_admin c u -> active_admin c' u.
Proof. intros E R (x & Hx & Hs & Ha). exists x. rewrite E, R. split_and!; [done|done|by apply holds_app]. Qed.

(** Someone may act as an administrator. *)
Definition governed (c : Core) : Prop := exists u, active_admin c u.

Lemma effect_governed limit evs0 c evs c' :
  UserInv limit evs0 c -> governed c -> effect limit c evs c' -> governed c'.
Proof.
  intros I [w Hw] E.
  assert (forall r u, c_users c !! u = Some r -> u_status r <> Account.ACTIVE -> u <> w) as Hpend.
  { intros r u Hu Hs ->. destruct Hw as (x & Hx & ? & _). congruence. }
  assert (forall u, c_users c !! u = None -> u <> w) as Hnew.
  { intros u Hu ->. destruct Hw as (x & Hx & ? & _). congruence. }
  assert (forall v role by_ at_ c2, c_users c2 = c_users c -> c_roles c2 = roles_changed v role by_ at_ (c_roles c) ->
    may_change c by_ v role -> active_admin c by_ -> governed c2) as Hrole.
  { intros v [] by_ at_ c2 E1 E2 Hm Ha; [|by exists w; eapply active_admin_grant].
    exists by_. eapply active_admin_role; [done|done| |done]. destruct Hm as (_ & Hne & _). congruence. }
  destruct E; try (exists w; by apply (active_admin_users c)).
  - exists w. eapply active_admin_insert; [done|by apply holds_app|intros ->; by destruct (Hnew w)|done].
  - exists w. eapply active_admin_insert; [done|done|intros ->; exfalso; eapply Hpend; [done|congruence|done]|done].
  - exists w. eapply active_admin_insert; [done|done| |done]. intros ->. destruct Hw as (x & Hx & ? & _).
    unfold proved. case_bool_decide; [done|]. simpl. congruence.
  - exists w. eapply active_admin_insert; [done|done| |done]. intros ->. destruct Hw as (x & Hx & ? & _).
    simpl. congruence.
  - exists actor. eapply active_admin_insert; [done|done| |done]. by intros ->.
  - exists w. by eapply active_admin_insert.
  - by eapply Hrole.
  - by eapply Hrole.
  - exists w. eapply active_admin_insert; [done|by apply holds_app|done|done].
Qed.

(** ** Windows of the trail *)

Definition suspended_in (actor : string) (from to : Z) (a : Audit) : bool :=
  acted actor SUSPEND from a && (au_occurredAt a <=? to).

(** If no record brings its own window past the limit, no window of that length is past it, in
    whatever order the records were written. *)
Lemma window_bound limit actor t trail :
  (forall i a, trail !! i = Some a -> au_actorId a = Some actor -> au_action a = SUSPEND ->
     Z.of_nat (length (List.filter (acted actor SUSPEND (au_occurredAt a - seconds HOUR_SECONDS))
       (take i trail))) < limit) ->
  Z.of_nat (length (List.filter (suspended_in actor (t - seconds HOUR_SECONDS) t) trail)) <= Z.max 0 limit.
Proof.
  intros Hl. apply Z.max_case_strong; intros Hz.
  - destruct (List.filter _ _) as [|a r] eqn:Hr; [done|]. exfalso.
    assert (a ∈ a :: r) as Ha by set_solver. rewrite <- Hr in Ha. apply elem_filter in Ha as [Ha Hin].
    unfold suspended_in, acted in Ha. rewrite !andb_true_iff, !bool_decide_eq_true in Ha. destruct_and!.
    apply list_elem_of_lookup_1 in Hin as [i Hi]. specialize (Hl i a Hi ltac:(done) ltac:(done)). lia.
  - pose proof (window_count (fun x => bool_decide (au_actorId x = Some actor) && bool_decide (au_action x = SUSPEND))
      au_occurredAt (seconds HOUR_SECONDS) (Z.to_nat limit) trail) as Hw.
    rewrite <- (Z2Nat.id limit) by done. apply inj_le. refine (Hw t _).
    intros pre x post -> Hx. rewrite andb_true_iff, !bool_decide_eq_true in Hx. destruct Hx.
    specialize (Hl (length pre) x). rewrite list_lookup_middle, take_app_length in Hl by done.
    apply Nat2Z.inj_lt. rewrite Z2Nat.id by done. by apply Hl.
Qed.

(** ** Sessions through time *)

(** A session is never deleted, nor un-revoked, nor un-rotated. *)
Definition continues (s s' : Session) : Prop :=
  ss_id s' = ss_id s /\ ss_familyId s' = ss_familyId s /\ ss_userId s' = ss_userId s
  /\ (unrevoked s = false -> unrevoked s' = false) /\ (unrotated s = false -> unrotated s' = false).

Lemma where_continues p f l s :
  (forall x, continues x (f x)) -> s ∈ l -> exists s', s' ∈ where_ p f l /\ continues s s'.
Proof.
  intros Hf Hs. exists (if p s then f s else s). split; [apply where_elem; eauto|].
  destruct (p s); [done|by repeat split].
Qed.

Lemma sessions_continue limit c evs c' s :
  effect limit c evs c' -> s ∈ c_sessions c -> exists s', s' ∈ c_sessions c' /\ continues s s'.
Proof.
  intros E Hs.
  assert (exists s', s' ∈ c_sessions c /\ continues s s') as Hsame by (exists s; by repeat split).
  destruct E; simpl; try exact Hsame; try (by apply where_continues).
  - destruct Hsame as (s' & Hs' & Hc). exists s'. split; [|done]. apply elem_of_app. by left.
  - destruct (where_continues (with_id (ss_id s0)) (rotate_session at_) (c_sessions c) s) as (x & Hx & Hc);
      [done|done|]. exists x. split; [|done]. apply elem_of_app. by left.
Qed.

(** The session of this identifier is revoked. *)
Definition ended (i : string) (c : Core) : Prop :=
  exists s, s ∈ c_sessions c /\ ss_id s = i /\ unrevoked s = false.

Lemma effect_ended i limit evs0 c evs c' :
  UserInv limit evs0 c -> ended i c -> effect limit c evs c' -> ended i c'.
Proof.
  intros _ (s & Hs & <- & Hr) E. destruct (sessions_continue _ _ _ _ _ E Hs) as (s' & Hs' & ? & _ & _ & Hv & _).
  exists s'. auto.
Qed.

Lemma ended_all i c s : Keyed c -> ended i c -> s ∈ c_sessions c -> ss_id s = i -> unrevoked s = false.
Proof.
  intros K (x & Hx & Hi & Hr) Hs Hsi. by rewrite (same_key ss_id _ s x (kd_sessions c K) Hs Hx) by congruence.
Qed.

(** No session of the family may be used. *)
Definition dead_family (f : string) (c : Core) : Prop :=
  (exists s, s ∈ c_sessions c /\ ss_familyId s = f)
  /\ forall s, s ∈ c_sessions c -> ss_familyId s = f -> unrevoked s = false.

Lemma revoked_stays p f l s :
  (forall x, ss_familyId (f x) = ss_familyId x) -> (forall x, unrevoked x = false -> unrevoked (f x) = false) ->
  forall fam, (forall x, x ∈ l -> ss_familyId x = fam -> unrevoked x = false) ->
  s ∈ where_ p f l -> ss_familyId s = fam -> unrevoked s = false.
Proof.
  intros Hf Hr fam Hd Hs Hfam. inv_elem. subst s. destruct (p x); [apply Hr|]; apply Hd; congruence.
Qed.

Lemma effect_dead_family f limit evs0 c evs c' :
  UserInv limit evs0 c -> dead_family f c -> effect limit c evs c' -> dead_family f c'.
Proof.
  intros I [(x & Hx & Hxf) Hd] E. split.
  { destruct (sessions_continue _ _ _ _ _ E Hx) as (s' & Hs' & _ & Hf & _). exists s'. split; [done|congruence]. }
  intros s Hs Hf.
  destruct E; simpl in Hs; try (by apply Hd); try (by eapply revoked_stays; [..|exact Hd|exact Hs|exact Hf]).
  - apply elem_of_app in Hs as [Hs|Hs%list_elem_of_singleton]; [by apply Hd|]. subst s f.
    match goal with Hn : forall x, _ -> ss_familyId x <> ss_familyId s0 |- _ => by destruct (Hn x Hx) end.
  - apply elem_of_app in Hs as [Hs|Hs%list_elem_of_singleton];
      [by eapply revoked_stays; [..|exact Hd|exact Hs|exact Hf]|]. subst s.
    assert (unrevoked s0 = false); [|congruence]. apply Hd; [done|congruence].
Qed.

(** ** Emailed links through time *)

(** The link of this hash was used; a used link is never deleted. *)
Definition used_link (h : string) (l : list Token) : Prop :=
  exists t, t ∈ l /\ tk_tokenHash t = h /\ unused t = false.

Lemma used_where h p at_ l : used_link h l -> used_link h (where_ p (consume_token at_) l).
Proof.
  intros (t & Ht & Hh & Hu). exists (if p t then consume_token at_ t else t).
  split; [apply where_elem; eauto|]. by case_match.
Qed.

Lemma used_drop h u l : used_link h l -> used_link h (drop_links u l).
Proof.
  intros (t & Ht & Hh & Hu). exists t. split; [|done]. apply elem_filter. by rewrite Hu, andb_false_r.
Qed.

Lemma used_app h l l' : used_link h l -> used_link h (l ++ l').
Proof. intros (t & Ht & Hh). exists t. split; [|done]. apply elem_of_app. by left. Qed.

Lemma used_claimed h g u at_ l l' : claimed g u at_ l l' -> used_link h l -> used_link h l'.
Proof. intros [-> _]. apply used_where. Qed.

Lemma effect_used h limit evs0 c evs c' :
  UserInv limit evs0 c -> used_link h (c_links c) -> effect limit c evs c' -> used_link h (c_links c').
Proof.
  intros _ Hu E. destruct E; simpl; try done; try (by apply used_app, used_drop).
  apply used_drop. destruct_or!; destruct_and!; subst; [by eapply used_claimed|done].
Qed.

Lemma effect_used_reset h limit evs0 c evs c' :
  UserInv limit evs0 c -> used_link h (c_resets c) -> effect limit c evs c' -> used_link h (c_resets c').
Proof.
  intros _ Hu E. destruct E; simpl; try done; try (by apply used_app, used_drop); try (by apply used_drop).
  apply used_drop. destruct_or!; destruct_and!; subst; [done|by eapply used_claimed].
Qed.

Lemma claimed_used h u at_ l l' : claimed h u at_ l l' -> used_link h l'.
Proof.
  intros [-> (t & Hf & _)]. destruct (find_elem _ _ _ Hf) as [Ht Hb]. exists (consume_token at_ t).
  split; [apply where_elem; exists t; by rewrite Hb|]. split; [|done].
  apply andb_true_iff in Hb as [Hb _]. by apply String.eqb_eq in Hb.
Qed.

Lemma used_not_claimed h u at_ l l' : one_per_hash l -> used_link h l -> claimed h u at_ l l' -> False.
Proof.
  intros Hn (x & Hx & Hxh & Hxu) [_ (t & [Ht Hb]%find_elem & _)]. apply andb_true_iff in Hb as [Hb Hl].
  apply String.eqb_eq in Hb. rewrite (same_key tk_tokenHash l x t Hn Hx Ht) in Hxu by congruence.
  unfold live_token in Hl. by rewrite Hxu in Hl.
Qed.

Section Theorems.
Context `{Zod} `{Pg} `{Texts} `{Crypto} (users_settings : UserSettings) (settings : AdminSettings).
Notation limit := (suspensionsLimitPerHour settings).
Notation user_step := (user_step users_settings settings).
Notation reachable := (user_reachable users_settings settings).

(** Who may act as an administrator, by the tables themselves. *)
Definition is_active_admin (db : UserDb) (u : string) : Prop :=
  exists r, users db !! u = Some r /\ u_status r = Account.ACTIVE /\ has_role db u ADMIN = true.

(** C12: Once some active account holds the ADMIN role, in every later state - whatever is suspended,
    revoked, approved, reset or registered meanwhile - some active account holds it. *)
Theorem active_admin_remains (db db' : UserDb) (u : string) :
  reachable db -> is_active_admin db u -> rtc user_step db db' -> exists w, is_active_admin db' w.
Proof.
  intros Hr Hu S.
  apply (later users_settings settings governed (fun _ _ _ _ => effect_governed limit _ _ _ _) db db'); [done| |done].
  by exists u.
Qed.

(** C8: In every reachable state the audit trail alone explains the tables: an account holds the ADMIN
    role, is suspended, or was set up at bootstrap exactly when the trail says so, and every record
    of it is one ADR 0008 allows after the records before it. *)
Theorem trail_explains (db : UserDb) :
  reachable db ->
  (forall u, has_role db u ADMIN = admin_by (auditRecords db) u)
  /\ (forall u r, users db !! u = Some r ->
        (u_status r = Account.SUSPENDED <-> suspended_by (auditRecords db) u = true)
        /\ u_isSeededAdmin r = bootstrapped_by (auditRecords db) u)
  /\ (forall i a, auditRecords db !! i = Some a ->
        justified limit (roleChangeRequests db) (take i (auditRecords db)) a).
Proof.
  intros I%reach_inv. pose proof (ui_trail _ _ _ I) as T. split_and!.
  - apply (tr_roles _ T).
  - intros u r Hu. split; [by apply (tr_status _ T)|by apply (tr_seeded _ T)].
  - apply (ui_justified _ _ _ I).
Qed.

(** C9: Every grant or revocation of the ADMIN role was either approved, before its deadline, by an
    active administrator who neither asked for it nor is its target, at the request of another active
    administrator; or was made when nobody else but the asker and the target held the role. *)
Theorem two_person_rule (db : UserDb) (i : nat) (a : Audit) :
  reachable db -> auditRecords db !! i = Some a -> au_action a = ROLE_GRANT \/ au_action a = ROLE_REVOKE ->
  let before := take i (auditRecords db) in
  exists actor, au_actorId a = Some actor /\ may_act before actor
    /\ ((au_approval a = Some SECOND_ADMIN
         /\ exists q, q ∈ roleChangeRequests db /\ rq_status q = Request.APPROVED
            /\ rq_targetUserId q = au_targetUserId a /\ rq_decidedBy q = Some actor
            /\ rq_decidedAt q = Some (au_occurredAt a) /\ au_occurredAt a < rq_expiresAt q
            /\ actor <> rq_requestedBy q /\ actor <> rq_targetUserId q /\ may_act before (rq_requestedBy q))
        \/ (au_approval a = Some NO_APPROVER
            /\ forall w, admin_by before w = true -> w = actor \/ w = au_targetUserId a)).
Proof.
  intros I%reach_inv Hi Hact before. pose proof (ui_justified _ _ _ I i a Hi) as J. unfold justified in J.
  destruct (au_actorId a) as [actor|]; [|destruct J as [J _]; destruct Hact; congruence].
  destruct J as [Ha J]. exists actor. split; [done|]. split; [done|].
  assert (exists role, role_change_justified (roleChangeRequests db) before a role actor) as (role & [[Hap Hq]|Hq]).
  { destruct Hact as [E|E]; rewrite E in J; by eexists. }
  - left. split; [done|]. destruct Hq as (q & ? & ? & ? & _ & ? & ? & ? & ? & ? & ? & _). by exists q.
  - right. destruct Hq as (? & _ & ?). done.
Qed.

(** C20: No administrator suspends more accounts than the limit in any hour, whatever the order in
    which concurrent suspensions committed. *)
Theorem suspensions_limited (db : UserDb) (actor : string) (t : Z) :
  reachable db ->
  Z.of_nat (length (List.filter (suspended_in actor (t - seconds HOUR_SECONDS) t) (auditRecords db)))
    <= Z.max 0 limit.
Proof.
  intros I%reach_inv. apply window_bound. intros i a Hi Hac Hact.
  pose proof (ui_justified _ _ _ I i a Hi) as J. unfold justified in J. rewrite Hac, Hact in J. by destruct J as (_ & _ & _ & _ & J).
Qed.

(** ** Locking out *)

(** What takes an account's sessions away: a suspension, or a new password. *)
Inductive locks_out (db db1 : UserDb) (u : string) : Prop :=
  | lo_suspended actor sid target reason corr date e n :
      to_lower target = u ->
      transaction (suspend_tx settings actor sid target reason corr date) e db = (Ok (SuspendedNow n), db1) ->
      locks_out db db1 u
  | lo_changed email old new hash seen e c h :
      verifyCredentials email old seen = Ok (c, h) -> cr_id c = u ->
      changePassword users_settings email old new hash seen e db = (Ok tt, db1) -> locks_out db db1 u
  | lo_reset token password ph corr date at_seen seen e t :
      t ∈ passwordResetTokens db -> tk_tokenHash t = sha256Hex token -> tk_userId t = u ->
      confirmPasswordReset users_settings token password ph corr date at_seen seen e db = (Ok tt, db1) ->
      locks_out db db1 u.

Lemma change_revokes u h h' e n db n' db' :
  change_tx u h h' e (n, db) = Ok (true, (n', db')) ->
  refreshSessions db' = revoke_where (of_user u) (env_now e) (refreshSessions db).
Proof.
  unfold change_tx, replacePassword, deleteUnconsumedPasswordResetTokens, delete_unconsumed. intros Hrun. inv_user.
  by match goal with K : revokeAllForUser _ _ _ = Ok _ |- _ => apply revoke_all_ok in K as [-> ->] end.
Qed.

Lemma owner_of_link (l : list Token) h u at_ l' t :
  one_per_hash l -> claimed h u at_ l l' -> t ∈ l -> tk_tokenHash t = h -> tk_userId t = u.
Proof.
  intros Hn [_ (x & [Hx Hb]%find_elem & <-)] Ht Hh. apply andb_true_iff in Hb as [Hb _].
  apply String.eqb_eq in Hb. by rewrite (same_key tk_tokenHash l t x Hn Ht Hx) by congruence.
Qed.

Lemma revoke_ends u at_ l s :
  s ∈ l -> ss_userId s = u ->
  exists s', s' ∈ revoke_where (of_user u) at_ l /\ ss_id s' = ss_id s /\ unrevoked s' = false.
Proof.
  intros Hs <-. exists (if of_user (ss_userId s) s && unrevoked s then revoke_session at_ s else s).
  split; [apply where_elem; eauto|]. unfold of_user. rewrite String.eqb_refl. simpl.
  by destruct (unrevoked s) eqn:Hr.
Qed.

(** Locking out is a step, and revokes whatever sessions the account has. *)
Lemma locks_out_revokes db db1 u :
  Keys db -> locks_out db db1 u ->
  user_step db db1 /\ exists at_, refreshSessions db1 = revoke_where (of_user u) at_ (refreshSessions db).
Proof.
  intros K [actor sid target reason corr date e n <- Ht|email old new hash seen e c h Hv <- Hc
    |token password ph corr date at_seen seen e t Ht Hh <- Hc].
  - split; [by eapply us_suspend|]. exists (env_now e). apply transaction_ok in Ht as [n' Ht].
    apply suspend_ok in Ht as (r & a & _ & _ & _ & _ & _ & _ & _ & _ & _ & _ & _ & _ & _ & Hcore).
    by injection Hcore.
  - split; [by eapply us_password|]. exists (env_now e). unfold changePassword in Hc. rewrite Hv in Hc.
    destruct (String.eqb new old); [done|]. destruct (cr_isSeededAdmin c && _); [done|].
    destruct (transaction _ _ _) as [[[]|] d] eqn:Htx; try done. injection Hc as <-.
    apply transaction_ok in Htx as [n' Htx]. by eapply change_revokes.
  - split; [by eapply us_confirm|]. exists (env_now e). unfold confirmPasswordReset in Hc.
    destruct (findPasswordResetToken _ _ _) as [[v b]|]; [|done].
    destruct (tv_consumed v || tv_expired v); [done|]. destruct (b && _); [done|].
    apply transaction_ok in Hc as [n' Hc]. destruct K as [_ Kr _ Ko _].
    apply confirm_ok in Hc as (w & r & resets & _ & _ & _ & Hcl & Hcore); [|done|done].
    rewrite (owner_of_link _ _ _ _ _ _ Kr Hcl Ht Hh). by injection Hcore.
Qed.

(** What ends a user's sessions ends them for good. *)
Lemma sessions_ended (db db1 db2 : UserDb) (u : string) (s : Session) (at_ : Z) :
  reachable db -> locks_out db db1 u -> rtc user_step db1 db2 ->
  s ∈ refreshSessions db -> ss_userId s = u ->
  access_guard (Some (u, ss_id s)) at_ db2 = Throw unauthenticated /\ introspect (ss_id s) u at_ db2 = None.
Proof.
  intros Hr Hl Hs Hin Hu. pose proof (reach_inv _ _ _ Hr) as I.
  destruct (locks_out_revokes db db1 u (keyed_keys _ (ui_keyed _ _ _ I)) Hl) as [Hstep [t Hrev]].
  assert (reachable db1) as Hr1 by (by eapply rtc_r).
  assert (ended (ss_id s) (core db2)) as He.
  { apply (later users_settings settings (ended (ss_id s)) (effect_ended _ limit) db1 db2); [done| |done].
    destruct (revoke_ends u t _ s Hin Hu) as (s' & Hs' & Hi & Hv). exists s'. simpl. by rewrite Hrev. }
  assert (reachable db2) as Hr2 by (by unfold user_reachable in *; etrans).
  assert (forall b st, liveness (ss_id s) u at_ db2 = Some (b, st) -> b = false) as Hlive.
  { unfold liveness. intros b st Hf. apply bind_Some in Hf as (x & Hx & Hf). apply fmap_Some in Hf as (r & _ & [= -> _]).
    apply find_elem in Hx as [Hx Hb]. apply andb_true_iff in Hb as [Hb _]. apply String.eqb_eq in Hb.
    by rewrite (ended_all (ss_id s) (core db2) x (ui_keyed _ _ _ (reach_inv _ _ _ Hr2)) He Hx Hb). }
  unfold access_guard, introspect. destruct (liveness _ _ _ _) as [[b st]|] eqn:E; [|done].
  by rewrite (Hlive b st eq_refl).
Qed.



(** Of a family of sessions, at most one refresh token is not yet used: whoever holds another is
    detected by its use. *)
Theorem one_usable_token (db : UserDb) (s s' : Session) :
  reachable db -> s ∈ refreshSessions db -> s' ∈ refreshSessions db -> ss_familyId s = ss_familyId s' ->
  ss_rotatedAt s = None -> ss_rotatedAt s' = None -> s = s'.
Proof.
  intros I%reach_inv Hs Hs' Hf Hr Hr'. apply (same_key ss_id _ s s' (kd_sessions _ (ui_keyed _ _ _ I))); try done.
  apply (fm_one _ (ui_families _ _ _ I)); try done; unfold unrotated; by rewrite ?Hr, ?Hr'.
Qed.

(** What a link that activated its account, or reset its password, does afterwards. *)
Lemma unusable_never_activates found d u : unusableToken found d <> Ok (u, false).
Proof. destruct found as [t|]; simpl; [|done]. destruct (tv_consumed t); [|done]. by destruct (isActivated _ _). Qed.

Lemma activate_uses token ph corr date at_seen seen e u db db1 :
  Keys db -> activate token ph corr date at_seen seen e db = (Ok (u, false), db1) ->
  used_link (sha256Hex token) (activationTokens db1).
Proof.
  intros [Kl _ Ko _ _] Ha. unfold activate in Ha. destruct (findActivationToken _ _ _) as [t|]; [|done].
  destruct (tv_consumed t || tv_expired t);
    [by destruct (unusable_never_activates (Some t) seen u); injection Ha|].
  apply transaction_ok in Ha as [n' Ha]. apply activate_ok in Ha as (r & links & _ & _ & _ & Hc & Hcore); [|done|done].
  injection Hcore as _ _ -> _ _ _ _. apply used_drop. by eapply claimed_used.
Qed.

Lemma activate_used token ph corr date at_seen seen e db r db' :
  Keys db -> used_link (sha256Hex token) (activationTokens db) ->
  activate token ph corr date at_seen seen e db = (r, db') ->
  same_core db db' /\ forall v, r <> Ok (v, false).
Proof.
  intros [Kl _ Ko _ _] Hu Ha. unfold activate in Ha.
  assert (forall f d (x d' : UserDb), (unusableToken f d, x) = (r, d') -> forall v, r <> Ok (v, false)) as Hn.
  { intros f d x d' [= <- _]. apply unusable_never_activates. }
  destruct (findActivationToken _ _ _) as [t|].
  - destruct (tv_consumed t || tv_expired t); [split; [by injection Ha as _ <-|by eapply Hn]|].
    destruct r as [[v b]|x]; [|by apply transaction_throw in Ha as ->].
    apply transaction_ok in Ha as [n' Ha]. apply activate_ok in Ha; [|done|done].
    destruct b; [split; [done|congruence]|]. destruct Ha as (y & links & _ & _ & _ & Hc & _).
    by destruct (used_not_claimed _ _ _ _ _ Kl Hu Hc).
  - split; [by injection Ha as _ <-|by eapply Hn].
Qed.

Lemma confirm_uses token password ph corr date at_seen seen e db db1 :
  Keys db -> confirmPasswordReset users_settings token password ph corr date at_seen seen e db = (Ok tt, db1) ->
  used_link (sha256Hex token) (passwordResetTokens db1).
Proof.
  intros [_ Kr _ Ko _] Hc. unfold confirmPasswordReset in Hc.
  destruct (findPasswordResetToken _ _ _) as [[v b]|]; [|done].
  destruct (tv_consumed v || tv_expired v); [done|]. destruct (b && _); [done|].
  apply transaction_ok in Hc as [n' Hc]. apply confirm_ok in Hc as (w & r & resets & _ & _ & _ & Hcl & Hcore); [|done|done].
  injection Hcore as _ _ _ -> _ _ _. apply used_drop. by eapply claimed_used.
Qed.

Lemma confirm_used token password ph corr date at_seen seen e db r db' :
  Keys db -> used_link (sha256Hex token) (passwordResetTokens db) ->
  confirmPasswordReset users_settings token password ph corr date at_seen seen e db = (r, db') ->
  db' = db /\ exists x, r = Throw x.
Proof.
  intros [_ Kr _ Ko _] Hu Hc. unfold confirmPasswordReset in Hc.
  destruct (findPasswordResetToken _ _ _) as [[v b]|]; [|by injection Hc as <- <-; eauto].
  destruct (tv_consumed v || tv_expired v); [by injection Hc as <- <-; eauto|].
  destruct (b && _); [by injection Hc as <- <-; eauto|].
  destruct r as [[]|x]; [|by apply transaction_throw in Hc as ->; eauto].
  apply transaction_ok in Hc as [n' Hc]. apply confirm_ok in Hc as (w & y & resets & _ & _ & _ & Hcl & _); [|done|done].
  by destruct (used_not_claimed _ _ _ _ _ Kr Hu Hcl).
Qed.

(** C18: An emailed link works once. A second activation with it, whenever it comes and whatever the
    caller saw, changes nothing and activates nobody; a second reset with it is refused and changes
    nothing. *)
Theorem links_work_once (db db1 db2 db3 : UserDb) (token : string) :
  reachable db -> rtc user_step db1 db2 ->
  (forall ph corr date at_ seen e u ph' corr' date' at' seen' e' r,
     activate token ph corr date at_ seen e db = (Ok (u, false), db1) ->
     activate token ph' corr' date' at' seen' e' db2 = (r, db3) ->
     same_core db2 db3 /\ forall v, r <> Ok (v, false))
  /\ (forall password ph corr date at_ seen e password' ph' corr' date' at' seen' e' r,
     confirmPasswordReset users_settings token password ph corr date at_ seen e db = (Ok tt, db1) ->
     confirmPasswordReset users_settings token password' ph' corr' date' at' seen' e' db2 = (r, db3) ->
     db3 = db2 /\ exists x, r = Throw x).
Proof.
  intros Hr S. pose proof (keyed_keys _ (ui_keyed _ _ _ (reach_inv _ _ _ Hr))) as K.
  assert (user_step db db1 -> reachable db1 /\ Keys db2) as Hgo.
  { intros Hd. assert (reachable db1) as Hr1 by (by eapply rtc_r). split; [done|].
    eapply keyed_keys, ui_keyed, (reach_inv users_settings settings). unfold user_reachable in *. by etrans. }
  split.
  - intros ph corr date at_ seen e u ph' corr' date' at' seen' e' r Ha Hb.
    destruct (Hgo ltac:(by eapply us_activate)) as [Hr1 K2]. eapply activate_used; [done| |exact Hb].
    apply (later users_settings settings (fun c => used_link (sha256Hex token) (c_links c)) (effect_used _ limit) db1 db2);
      [done|exact (activate_uses _ _ _ _ _ _ _ _ _ _ K Ha)|done].
  - intros password ph corr date at_ seen e password' ph' corr' date' at' seen' e' r Ha Hb.
    destruct (Hgo ltac:(by eapply us_confirm)) as [Hr1 K2]. eapply confirm_used; [done| |exact Hb].
    apply (later users_settings settings (fun c => used_link (sha256Hex token) (c_resets c)) (effect_used_reset _ limit) db1 db2);
      [done|exact (confirm_uses _ _ _ _ _ _ _ _ _ _ K Ha)|done].
Qed.

(** ** The operations that run several transactions *)

Lemma seed_steps allowed n entries db r db' :
  seed_from allowed n entries db = (r, db') -> rtc user_step db db'.
Proof.
  revert n db r. induction entries as [|s rest IH]; intros n db r; simpl; [intros [= _ <-]; apply rtc_refl|].
  destruct (negb _); [intros [= _ <-]; apply rtc_refl|].
  destruct (transaction _ _ _) as [[created|x] d] eqn:Ht.
  - destruct (seed_from _ _ rest d) as [[[cs ks]|x] d'] eqn:Hs; intros [= _ <-];
      (eapply rtc_l; [by eapply us_seed|by eapply IH]).
  - intros [= _ <-]. apply rtc_once. by eapply us_seed.
Qed.

Lemma reads_steps actor ids corr e e' e'' db r db' :
  recordReads settings actor ids corr e e' e'' db = (r, db') -> rtc user_step db db'.
Proof.
  unfold recordReads. destruct (List.filter _ ids) as [|w ws]; [intros [= _ <-]; apply rtc_refl|].
  destruct (transaction (insertAdminReads _ _ _) _ _) as [[]d] eqn:Ht.
  - destruct (_ <=? _); [|intros [= _ <-]; apply rtc_once; by eapply us_reads].
    intros Ha. eapply rtc_l; [by eapply us_reads|]. apply rtc_once. by eapply us_alert.
  - intros [= _ <-]. apply rtc_once. by eapply us_reads.
Qed.

(** A suspension with its alert, a list or lookup of accounts with the record of what was read, and
    a whole bootstrap are sequences of the service's steps, whatever their transactions meet. *)
Theorem operations_are_steps (db db' : UserDb) :
  (forall actor sid target reason corr date e e' r,
     suspend settings actor sid target reason corr date e e' db = (r, db') -> rtc user_step db db')
  /\ (forall actor u corr e e' e'' r, readUser settings actor u corr e e' e'' db = (r, db') -> rtc user_step db db')
  /\ (forall actor p n f corr e e' e'' r,
        admin_listUsers settings actor p n f corr e e' e'' db = (r, db') -> rtc user_step db db')
  /\ (forall password allowed entries r, seedAdmins password allowed entries db = (r, db') -> rtc user_step db db').
Proof.
  split_and!.
  - intros actor sid target reason corr date e e' r. unfold suspend.
    destruct (transaction (suspend_tx _ _ _ _ _ _ _) _ _) as [[[|n|n]|x] d] eqn:Ht;
      try (intros [= _ <-]; apply rtc_once; by eapply us_suspend).
    + destruct (_ <=? n); [|intros [= _ <-]; apply rtc_once; by eapply us_suspend].
      destruct (transaction (raiseOncePerHour _ _ _) _ _) as [[] d'] eqn:Ha; intros [= _ <-];
        (eapply rtc_l; [by eapply us_suspend|apply rtc_once; by eapply us_alert]).
    + destruct (transaction (raiseOncePerHour _ _ _) _ _) as [[] d'] eqn:Ha; intros [= _ <-];
        (eapply rtc_l; [by eapply us_suspend|apply rtc_once; by eapply us_alert]).
  - intros actor u corr e e' e'' r. unfold readUser. destruct (get_user _ _) as [v|x]; [|intros [= _ <-]; apply rtc_refl].
    destruct (recordReads _ _ _ _ _ _ _ _) as [[] d] eqn:Hr; intros [= _ <-]; by eapply reads_steps.
  - intros actor p n f corr e e' e'' r. unfold admin_listUsers. destruct (listUsers _ _ _ _) as [rows total].
    destruct (recordReads _ _ _ _ _ _ _ _) as [[] d] eqn:Hr; intros [= _ <-]; by eapply reads_steps.
  - intros password allowed entries r. unfold seedAdmins.
    destruct entries as [|s l]; [intros [= _ <-]; apply rtc_refl|].
    destruct password as [p|]; [|intros [= _ <-]; apply rtc_refl].
    destruct (nonempty p); [|intros [= _ <-]; apply rtc_refl]. by eapply seed_steps.
Qed.

End Theorems.
