(* ===== verification/UserLive.v ===== *)
(** * UserLive: what the User Service lets people do

    Registering, activating and signing in succeed when nothing stands in the way, and sign-in answers
    a session that works - with exactly the checks that protect it. *)
From S2P Require Export UserTheorems.
#[local] Open Scope Z_scope.

(** ** One account per address *)

Section Found.
Context `{Pg}.

Lemma found_mine email u row (m : gmap string User) :
  (forall k r, m !! k = Some r -> k <> u -> same_email email (k, r) = false) ->
  m !! u = Some row -> same_email email (u, row) = true ->
  List.find (same_email email) (map_to_list m) = Some (u, row).
Proof.
  intros Ho Hu Hs. destruct (List.find _ _) as [[k r]|] eqn:E.
  - apply find_elem in E as [Hk Hb]. apply elem_of_map_to_list in Hk.
    destruct (decide (k = u)) as [->|Hne]; [congruence|]. by rewrite (Ho k r) in Hb.
  - eapply find_none_elem in E; [by rewrite Hs in E|]. by apply elem_of_map_to_list.
Qed.

Lemma none_other email db k r :
  find_by_email email db = None -> users db !! k = Some r -> same_email email (k, r) = false.
Proof. intros Hf Hk. eapply find_none_elem; [exact Hf|]. by apply elem_of_map_to_list. Qed.
End Found.

Section Live.
Context `{Zod} `{Pg} `{Texts} `{Crypto} (users_settings : UserSettings) (settings : AdminSettings).
Notation reachable := (user_reachable users_settings settings).

(** What registering leaves. *)
Definition registered (email u h : string) (at_ : Z) (db db' : UserDb) : Prop :=
  users db' = <[u := mkUser email None Account.PENDING_ACTIVATION false false None at_ at_]> (users db)
  /\ userOutbox db' = userOutbox db /\ refreshSessions db' = refreshSessions db
  /\ exists l i, activationTokens db' = l ++ [mkToken i u h (at_ + minutes (activationTokenTtlMinutes users_settings)) None]
      /\ forall t, t ∈ l -> tk_tokenHash t <> h.

Lemma register_runs raw dn token e db :
  let email := normalizeEmail raw in
  let u := env_uuid e 0 in
  Keyed (core db) -> isAllowedDomain email (allowedEmailDomains users_settings) = true ->
  find_by_email email db = None -> len_between 1 50 dn = true ->
  users db !! u = None -> profiles db !! u = None ->
  (forall t, t ∈ activationTokens db -> tk_id t <> env_uuid e 1 /\ tk_tokenHash t <> sha256Hex token) ->
  exists db', register users_settings raw dn token e db = (Ok (u, mkMail email u token), db')
    /\ registered email u (sha256Hex token) (env_now e) db db'.
Proof.
  intros email u K Hd Hf Hdn Hu Hp Ht.
  set (row := mkUser email None Account.PENDING_ACTIVATION false false None (env_now e) (env_now e)).
  set (p := mkProfile dn None None IN_APP AsRequester).
  set (tok := mkToken (env_uuid e 1) u (sha256Hex token) (env_now e + minutes (activationTokenTtlMinutes users_settings)) None).
  set (d1 := set_users (<[u := row]> (users db)) db).
  set (d2 := set_userRoles (userRoles db ++ [mkRole u STUDENT None (env_now e)]) d1).
  set (d3 := set_profiles (<[u := p]> (profiles db)) d2).
  set (links := drop_links u (activationTokens db)).
  set (d4 := set_activationTokens (links ++ [tok]) d3).
  exists d4. split.
  - unfold register. fold email. rewrite Hd. simpl.
    assert (transaction (register_tx users_settings email dn token) e db = (Ok (Some u), d4)) as ->; [|done].
    apply transaction_ok. exists 2%nat. unfold register_tx, insertUser. run_plain.
    eapply bind_step.
    { run_plain. eapply bind_step.
      { unfold insert_user. run_plain. simpl. unfold id. rewrite Hf. simpl. unfold unique_, has_user. fold u. rewrite Hu. simpl.
        run_plain. run_plain. reflexivity. }
      cbv beta iota. simpl. eapply bind_step; [apply insert_role_ok; split; [|reflexivity]|].
      - unfold role_ok, has_user. simpl. rewrite lookup_insert_eq. simpl. rewrite !andb_true_r, negb_true_iff.
        apply existsb_false. intros x Hx. destruct (String.eqb_spec (rr_userId x) (env_uuid e 0)) as [E|]; [|done].
        destruct (kd_roles_owned _ K x Hx) as [? Hx']. simpl in Hx'. fold u in E. congruence.
      - cbv beta iota. eapply bind_step; [apply insert_profile_ok; split; [|reflexivity]|cbv beta iota; reflexivity].
        unfold profile_ok, has_user. simpl. rewrite Hdn. fold u. rewrite Hp, lookup_insert_eq. done. }
    cbv beta iota. simpl. eapply bind_step; [|cbv beta iota; reflexivity].
    unfold issueActivationToken. run_plain. run_plain. unfold insertActivationToken, insert_link. run_plain.
    apply insert_token_ok. split; [|reflexivity]. unfold token_ok, has_user. simpl. rewrite lookup_insert_eq. simpl.
    rewrite andb_true_r, andb_true_iff, !negb_true_iff, !existsb_false.
    split; intros x [_ Hx]%elem_filter; apply String.eqb_neq; by apply Ht.
  - split_and!; [done|done|done|]. exists links, (env_uuid e 1). split; [done|].
    intros t [_ Hx]%elem_filter. by apply Ht.
Qed.

Lemma find_last {A} (p : A -> bool) l a :
  (forall x, x ∈ l -> p x = false) -> p a = true -> List.find p (l ++ [a]) = Some a.
Proof.
  intros Hl Ha. induction l as [|x l IH]; simpl; [by rewrite Ha|]. rewrite (Hl x) by set_solver.
  apply IH. set_solver.
Qed.

Lemma update_runs u p f e n db row :
  users db !! u = Some row -> p row = true ->
  update_user u p f e (n, db) = Ok (true, (n, set_users (<[u := f row]> (users db)) db)).
Proof. intros Hu Hp. apply update_user_ok. left. by exists row. Qed.

(** A pending account's emailed link always goes through. *)
Lemma emailed_runs u ph corr date e n db r :
  users db !! u = Some r -> u_status r = Account.PENDING_ACTIVATION -> nonempty u = true ->
  (forall x, x ∈ ob_rows (userOutbox db) -> ob_id x <> env_uuid e n) ->
  exists s', setPasswordFromEmailedLink u Account.PENDING_ACTIVATION ph corr date e (n, db) = Ok (tt, s').
Proof.
  intros Hu Hs Hne Hob. eexists. unfold setPasswordFromEmailedLink, setPassword. eapply bind_step.
  { run_plain. eapply bind_step; [by apply update_runs|]. cbv beta iota. reflexivity. }
  cbv beta iota. simpl. eapply bind_step.
  { unfold markActivated. run_plain. apply update_runs; [apply lookup_insert_eq|]. simpl. by rewrite Hs. }
  cbv beta iota. eapply bind_step.
  { eapply bind_step; [|cbv beta iota; reflexivity].
    eapply insertOutboxEvent_succeeds; [reflexivity|simpl; by rewrite Hne|exact Hob]. }
  cbv beta iota. do 2 run_plain. unfold revokeAllForUser, update_sessions. run_plain. reflexivity.
Qed.

(** Activating with a link that works. *)
Lemma activate_runs token ph corr date at_seen e db u r l i exp :
  let h := sha256Hex token in
  Keys db -> users db !! u = Some r -> u_status r = Account.PENDING_ACTIVATION -> nonempty u = true ->
  activationTokens db = l ++ [mkToken i u h exp None] -> (forall t, t ∈ l -> tk_tokenHash t <> h) ->
  at_seen < exp -> env_now e < exp -> (forall x, x ∈ ob_rows (userOutbox db) -> ob_id x <> env_uuid e 0) ->
  exists db', activate token ph corr date at_seen db e db = (Ok (u, false), db')
    /\ users db' = <[u := proved ph (env_now e) r]> (users db)
    /\ refreshSessions db' = revoke_where (of_user u) (env_now e) (refreshSessions db)
    /\ announcements db' = announcements db ++ [(USER_ACTIVATED, u)].
Proof.
  intros h K Hu Hs Hne Hl Hh Hat Hnow Hob. set (tok := mkToken i u h exp None) in *.
  assert (forall p, (forall t, by_hash h t = false -> p t = false) -> p tok = true ->
    List.find p (activationTokens db) = Some tok) as Hfind.
  { intros p Hp Ht. rewrite Hl. apply find_last; [|done]. intros x Hx. apply Hp, String.eqb_neq. by apply Hh. }
  assert (by_hash h tok = true) as Hb by apply String.eqb_refl.
  assert (List.find (fun t => by_hash h t && live_token (env_now e) t) (activationTokens db) = Some tok) as Hc.
  { apply Hfind; [by intros t ->|]. rewrite Hb. by apply Z.ltb_lt in Hnow. }
  assert (exists s', activate_tx h ph corr date e (0%nat, db) = Ok ((u, false), s')) as [[n' db'] Htx].
  { set (d1 := set_activationTokens (where_ (fun t => by_hash h t && live_token (env_now e) t)
      (consume_token (env_now e)) (activationTokens db)) db).
    destruct (emailed_runs u ph corr date e 0 d1 r Hu Hs Hne Hob) as [s' Hrun]. exists s'.
    unfold activate_tx, consumeActivationToken, consume_link. run_plain. simpl.
    eapply bind_step; [do 3 run_plain; reflexivity|]. cbv beta iota. simpl. unfold id.
    rewrite Hc. simpl. unfold lockUserOfToken, lock_user_of_token. rewrite (Hfind (by_hash h)) by done.
    simpl. rewrite Hu. simpl. rewrite Hs, bool_decide_true by done. eapply bind_step; [exact Hrun|].
    cbv beta iota. by destruct s'. }
  exists db'. unfold activate, findActivationToken, find_link. fold h. rewrite (Hfind (by_hash h)) by done. simpl.
  rewrite (proj2 (Z.leb_gt _ _) Hat). split; [apply transaction_ok; eauto|].
  destruct K as [Kl _ Ko _ _]. apply activate_ok in Htx as (r' & links & Hr' & _ & (rows & Hrows & Hev) & _ & Hcore); [|done|done].
  simplify_eq. split_and!; [by injection Hcore|by injection Hcore|].
  unfold announcements. by rewrite Hrows, fmap_app, Hev.
Qed.

(** ** Signing in *)

(** A session just started works until it expires. *)
Lemma new_session_works db u r (s : Session) at_ :
  (forall x, x ∈ refreshSessions db -> ss_id x <> ss_id s) -> users db !! u = Some r ->
  u_status r = Account.ACTIVE -> u_mustChangePassword r = false -> ss_userId s = u -> unrevoked s = true ->
  at_ < ss_expiresAt s ->
  access_guard (Some (u, ss_id s)) at_ (set_refreshSessions (refreshSessions db ++ [s]) db) = Ok (u, ss_id s).
Proof.
  intros Hf Hu Hs Hm <- Hr Hat. unfold access_guard, liveness. simpl. rewrite (find_last _ _ s).
  - simpl. rewrite Hu. simpl. rewrite Hr, Hm, (proj2 (Z.ltb_lt _ _) Hat). simpl. by rewrite Hs.
  - intros x Hx. by rewrite (proj2 (String.eqb_neq _ _) (Hf x Hx)).
  - by rewrite !String.eqb_refl.
Qed.

(** A sign-in that succeeds was given the password whose hash the account holds as the session
    starts, of an account active and past its first password change; it adds that one session, which
    the guard accepts for its seven days. A sign-in refused leaves the tables as they are. *)
Theorem login_sound (raw password token : string) (seen : UserDb) (e : Env) (db db' : UserDb)
    (r : outcome IssuedSession) :
  login raw password token seen e db = (r, db') ->
  match r with
  | Throw _ => db' = db
  | Ok iss => exists row h s, users db !! is_sub iss = Some row /\ u_passwordHash row = Some h
      /\ verifyPassword h password = true /\ u_status row = Account.ACTIVE /\ u_mustChangePassword row = false
      /\ db' = set_refreshSessions (refreshSessions db ++ [s]) db
      /\ ss_id s = is_sid iss /\ ss_userId s = is_sub iss /\ ss_tokenHash s = sha256Hex (is_refreshToken iss)
      /\ ss_expiresAt s = env_now e + days REFRESH_TTL_DAYS
      /\ forall at_, at_ < env_now e + days REFRESH_TTL_DAYS ->
           access_guard (Some (is_sub iss, is_sid iss)) at_ db' = Ok (is_sub iss, is_sid iss)
  end.
Proof.
  unfold login. intros Hl. destruct (verifyCredentials raw password seen) as [[c h]|x] eqn:Hv;
    [|by injection Hl as <- <-].
  destruct (cr_mustChangePassword c); [by injection Hl as <- <-|].
  destruct (transaction _ _ _) as [[[sid|]|x] d] eqn:Htx; injection Hl as <- <-.
  - apply transaction_ok in Htx as [n Htx]. unfold login_tx, insertIfLoginable in Htx. inv_user.
    destruct (users db !! cr_id c) as [row|] eqn:Hu; [|done]. inv_user.
    match goal with K : loginable _ _ = true |- _ => unfold loginable in K;
      rewrite !andb_true_iff, !bool_decide_eq_true, negb_true_iff in K; destruct K as [[Hh Hs] Hm] end.
    match goal with K : session_ok _ _ = true |- _ => apply session_fresh in K as (_ & _ & Hf); [|done|done] end.
    assert (verifyPassword h password = true) as Hp.
    { unfold verifyCredentials in Hv. destruct (findCredentials _ _) as [c'|]; [|done].
      destruct (cr_passwordHash c') as [h'|]; [|done]. destruct (verifyPassword h' password) eqn:Hp; [|done].
      case_bool_decide; by simplify_eq. }
    simplify_eq. eexists row, h, _. split_and!; try done. simpl. intros at_ Hat.
    apply (new_session_works db (cr_id c) row (mkSession _ _ _ _ _ _ _ _ _)); try done. intros x Hx. by apply Hf.
  - apply transaction_ok in Htx as [n Htx]. unfold login_tx, insertIfLoginable in Htx. inv_user. done.
  - by apply transaction_throw in Htx as ->.
Qed.

Lemma login_runs raw password token e db u row h :
  find_by_email (normalizeEmail raw) db = Some (u, row) -> u_passwordHash row = Some h ->
  verifyPassword h password = true -> u_status row = Account.ACTIVE -> u_mustChangePassword row = false ->
  users db !! u = Some row ->
  (forall s, s ∈ refreshSessions db -> ss_id s <> env_uuid e 0 /\ ss_tokenHash s <> sha256Hex token) ->
  exists iss db', login raw password token db e db = (Ok iss, db') /\ is_sub iss = u.
Proof.
  intros Hf Hh Hp Hs Hm Hu Hfresh.
  assert (verifyCredentials raw password db
    = Ok (mkCredentials u (Some h) Account.ACTIVE false (u_isSeededAdmin row) (display_name u db) (rolesOf u db), h)) as Hv.
  { unfold verifyCredentials, findCredentials. rewrite Hf. simpl. by rewrite Hh, Hp, Hs, Hm, bool_decide_true. }
  set (s := mkSession (env_uuid e 0) (env_uuid e 1) u (sha256Hex token) (env_now e)
    (env_now e + days REFRESH_TTL_DAYS) None None None).
  assert (transaction (login_tx u (sha256Hex token) h) e db
    = (Ok (Some (env_uuid e 0)), set_refreshSessions (refreshSessions db ++ [s]) db)) as Htx.
  { apply transaction_ok. exists 2%nat. unfold login_tx, insertIfLoginable. do 2 run_plain. eapply bind_step.
    - do 2 run_plain. simpl. unfold id. rewrite Hu. unfold loginable. rewrite Hh, Hs, Hm, !bool_decide_true by done. simpl.
      eapply bind_step; [apply insert_session_ok; split; [|reflexivity]|cbv beta iota; reflexivity].
      unfold session_ok, has_user. simpl. rewrite Hu. simpl. rewrite andb_true_r, andb_true_iff, !negb_true_iff, !existsb_false.
      split; intros x Hx; apply String.eqb_neq; by apply Hfresh.
    - reflexivity. }
  unfold login. rewrite Hv. simpl. rewrite Htx. by eexists _, _.
Qed.

(** C19: Whoever registers an allowed address nobody has, follows the link it is sent before it expires
    and signs in with the password chosen there, is signed in, to the account they registered, and
    the account's activation is announced exactly once. *)
Theorem registration_completes (raw dn token ph corr password refreshToken : string) (date at_seen : Z)
    (e1 e2 e3 : Env) (db : UserDb) :
  let email := normalizeEmail raw in
  let u := env_uuid e1 0 in
  let expiry := env_now e1 + minutes (activationTokenTtlMinutes users_settings) in
  reachable db -> isAllowedDomain email (allowedEmailDomains users_settings) = true ->
  find_by_email email db = None -> len_between 1 50 dn = true -> nonempty u = true ->
  users db !! u = None -> profiles db !! u = None ->
  (forall t, t ∈ activationTokens db -> tk_id t <> env_uuid e1 1 /\ tk_tokenHash t <> sha256Hex token) ->
  at_seen < expiry -> env_now e2 < expiry ->
  (forall x, x ∈ ob_rows (userOutbox db) -> ob_id x <> env_uuid e2 0) ->
  verifyPassword ph password = true ->
  (forall s, s ∈ refreshSessions db -> ss_id s <> env_uuid e3 0 /\ ss_tokenHash s <> sha256Hex refreshToken) ->
  exists db1 db2 db3 iss,
    register users_settings raw dn token e1 db = (Ok (u, mkMail email u token), db1)
    /\ activate token ph corr date at_seen db1 e2 db1 = (Ok (u, false), db2)
    /\ announcements db2 = announcements db ++ [(USER_ACTIVATED, u)]
    /\ login raw password refreshToken db2 e3 db2 = (Ok iss, db3) /\ is_sub iss = u.
Proof.
  intros email u expiry Hr Hd Hf Hdn Hne Hu Hp Ht Hat Hnow Hob Hv Hses.
  pose proof (ui_keyed _ _ _ (reach_inv _ _ _ Hr)) as K.
  destruct (register_runs raw dn token e1 db K Hd Hf Hdn Hu Hp Ht) as (db1 & Run1 & Hus & Ho & Hss & l & i & Hl & Hlh).
  fold email u in Run1, Hus, Hl. set (row := mkUser email None _ _ _ _ _ _) in *.
  assert (users db1 !! u = Some row) as Hu1 by (rewrite Hus; apply lookup_insert_eq).
  assert (Keys db1) as K1.
  { eapply keyed_keys, ui_keyed, (reach_inv users_settings settings). eapply rtc_r; [exact Hr|by eapply us_register]. }
  destruct (activate_runs token ph corr date at_seen e2 db1 u row l i expiry) as (db2 & Run2 & Hus2 & Hss2 & Hev);
    try done; [by rewrite Ho|].
  assert (users db2 = <[u := proved ph (env_now e2) row]> (users db)) as Hus3 by by rewrite Hus2, Hus, insert_insert_eq.
  destruct (login_runs raw password refreshToken e3 db2 u (proved ph (env_now e2) row) ph) as (iss & db3 & Run3 & Hsub); try done.
  - unfold find_by_email. fold email. rewrite Hus3. apply found_mine.
    + intros k r Hk Hku. rewrite lookup_insert_ne in Hk by done. by eapply none_other.
    + apply lookup_insert_eq.
    + apply String.eqb_refl.
  - rewrite Hus3. apply lookup_insert_eq.
  - rewrite Hss2, Hss. intros s Hs. inv_elem. subst s. destruct (Hses x) as [? ?]; [done|]. by case_match.
  - exists db1, db2, db3, iss. split_and!; try done. rewrite Hev. unfold announcements. by rewrite Ho.
Qed.
End Live.
