(* ===== verification/UserDemo.v ===== *)
(** * UserDemo: a concrete run of the User Service

    A bootstrap administrator, two students who register, and the administration of their roles and
    accounts, reachable from empty tables; the theorems are applied to it. *)
From Stdlib Require Import Ascii.
From S2P Require Export UserLive Envelope.
#[local] Open Scope Z_scope.
#[local] Open Scope string_scope.

#[local] Existing Instance demo_zod.
Definition user_pg : Pg := {| pg_uuid := nonempty; pg_lower := fun s => s |}.
#[local] Existing Instance user_pg.
Definition user_texts : Texts := {| nfkc := fun s => s; to_lower := fun s => s |}.
#[local] Existing Instance user_texts.

(** A password's hash is the password behind a dollar sign. *)
Definition user_crypto : Crypto :=
  {| sha256Hex := fun s => "#" ++ s; verifyPassword := fun h p => String.eqb h ("$" ++ p) |}.
#[local] Existing Instance user_crypto.

Definition campus : UserSettings := mkUserSettings ["u.nus.edu"] 60 30 (Some "boot").
Definition controls : AdminSettings := mkAdminSettings 72 300 2 3 20.

Notation campus_step := (user_step campus controls).
Notation campus_reachable := (user_reachable campus controls).

(** The [n]-th second, with identifiers of a letter of its own. *)
Definition at_sec (c : ascii) (n : Z) : Env := demo_env c (n * 1000000).

Definition signup (email token : string) (e : Env) (db : UserDb) : UserDb :=
  (register campus email "Someone" token e db).2.
Definition follow (token ph : string) (e : Env) (db : UserDb) : UserDb :=
  (activate token ph "corr" 0 (env_now e) db e db).2.
Definition signin (email password token : string) (e : Env) (db : UserDb) : UserDb :=
  (login email password token db e db).2.
Definition reenter (u sid password : string) (e : Env) (db : UserDb) : UserDb :=
  (stepUp u sid password db e db).2.
Definition ask (actor sid target : string) (role : Role) (e : Env) (db : UserDb) : UserDb :=
  (requestRoleChange controls actor sid target role "help wanted" "corr" 0 e db).2.

(** Identifiers: the first one each transaction draws. *)
Definition root : string := "root".
Definition root_sid : string := tagged "c"%char 0.
Definition ann : string := tagged "e"%char 0.
Definition ann_sid : string := tagged "g"%char 0.
Definition ben : string := tagged "i"%char 0.
Definition ben_sid : string := tagged "k"%char 0.
Definition request : string := tagged "l"%char 0.

Definition u1 : UserDb := (transaction (seed_tx root "root@u.nus.edu" "$boot" 0) (at_sec "a"%char 1) empty_users).2.
Definition u2 : UserDb := (changePassword campus "root@u.nus.edu" "boot" "first" "$first" u1 (at_sec "b"%char 2) u1).2.
Definition u3 : UserDb := signin "root@u.nus.edu" "first" "r1" (at_sec "c"%char 3) u2.
Definition u4 : UserDb := reenter root root_sid "first" (at_sec "d"%char 4) u3.
Definition u5 : UserDb := signup "ann@u.nus.edu" "la" (at_sec "e"%char 5) u4.
Definition u6 : UserDb := follow "la" "$ann" (at_sec "f"%char 6) u5.
Definition u7 : UserDb := signin "ann@u.nus.edu" "ann" "a1" (at_sec "g"%char 7) u6.
(** Nobody else is an administrator, so this one applies at once. *)
Definition u8 : UserDb := ask root root_sid ann ADMIN (at_sec "h"%char 8) u7.
Definition u9 : UserDb := signup "ben@u.nus.edu" "lb" (at_sec "i"%char 9) u8.
Definition u10 : UserDb := follow "lb" "$ben" (at_sec "j"%char 10) u9.
Definition u11 : UserDb := signin "ben@u.nus.edu" "ben" "b1" (at_sec "k"%char 11) u10.
(** Now there is someone to ask. *)
Definition u12 : UserDb := ask root root_sid ben ADMIN (at_sec "l"%char 12) u11.
Definition u13 : UserDb := reenter ann ann_sid "ann" (at_sec "m"%char 13) u12.
Definition u14 : UserDb :=
  (approveRoleRequest controls ann ann_sid request "agreed" "corr" 0 (at_sec "n"%char 14) u13).2.
Definition u15 : UserDb := (refresh (Some "b1") "b2" (at_sec "o"%char 15) u14).2.
Definition u16 : UserDb :=
  (transaction (suspend_tx controls root root_sid ben "misuse" "corr" 0) (at_sec "p"%char 16) u15).2.

Example the_run :
  (fun a => (au_action a, au_approval a, au_targetUserId a)) <$> auditRecords u16
  = [(ADMIN_BOOTSTRAP, None, root); (ROLE_GRANT, Some NO_APPROVER, ann);
     (ROLE_CHANGE_REQUESTED, None, ben); (ROLE_GRANT, Some SECOND_ADMIN, ben); (SUSPEND, None, ben)].
Proof. vm_compute. reflexivity. Qed.

(** ** Every state of the run is reachable *)

Lemma ran {A B} (p : A * B) : p = (p.1, p.2).
Proof. by destruct p. Qed.

Lemma new_family e db :
  forallb (fun x => negb (String.eqb (ss_familyId x) (env_uuid e 1))) (refreshSessions db) = true ->
  forall x, x ∈ refreshSessions db -> ss_familyId x <> env_uuid e 1.
Proof. intros Hf x Hx. rewrite forallb_forall in Hf. apply String.eqb_neq, negb_true_iff, Hf. by apply list_elem_of_In. Qed.

Ltac reach prev con := eapply rtc_r; [exact prev|]; eapply con; apply ran.
Ltac reach_login prev :=
  eapply rtc_r; [exact prev|]; eapply us_login; [|apply ran]; apply new_family; vm_compute; reflexivity.

Lemma reach1 : campus_reachable u1. Proof. eapply rtc_r; [apply rtc_refl|]. eapply us_seed. apply ran. Qed.
Lemma reach2 : campus_reachable u2. Proof. reach reach1 us_password. Qed.
Lemma reach3 : campus_reachable u3. Proof. reach_login reach2. Qed.
Lemma reach4 : campus_reachable u4. Proof. reach reach3 us_stepup. Qed.
Lemma reach5 : campus_reachable u5. Proof. reach reach4 us_register. Qed.
Lemma reach6 : campus_reachable u6. Proof. reach reach5 us_activate. Qed.
Lemma reach7 : campus_reachable u7. Proof. reach_login reach6. Qed.
Lemma reach8 : campus_reachable u8. Proof. reach reach7 us_request. Qed.
Lemma reach9 : campus_reachable u9. Proof. reach reach8 us_register. Qed.
Lemma reach10 : campus_reachable u10. Proof. reach reach9 us_activate. Qed.
Lemma reach11 : campus_reachable u11. Proof. reach_login reach10. Qed.
Lemma reach12 : campus_reachable u12. Proof. reach reach11 us_request. Qed.
Lemma reach13 : campus_reachable u13. Proof. reach reach12 us_stepup. Qed.
Lemma reach14 : campus_reachable u14. Proof. reach reach13 us_approve. Qed.
Lemma reach15 : campus_reachable u15. Proof. reach reach14 us_refresh. Qed.

Lemma suspended_now : exists n, transaction (suspend_tx controls root root_sid ben "misuse" "corr" 0) (at_sec "p"%char 16) u15
  = (Ok (SuspendedNow n), u16).
Proof. exists 1. vm_compute. reflexivity. Qed.
Lemma reach16 : campus_reachable u16. Proof. reach reach15 us_suspend. Qed.

(** ** The theorems applied *)

Lemma step16 : campus_step u15 u16.
Proof. eapply us_suspend. apply ran. Qed.

Lemma active_root db row :
  users db !! root = Some row -> u_status row = Account.ACTIVE -> has_role db root ADMIN = true ->
  is_active_admin db root.
Proof. by exists row. Qed.

Lemma active_admin_remains_witness : exists w, is_active_admin u16 w.
Proof.
  apply (active_admin_remains campus controls u15 u16 root reach15).
  - eexists. split; [vm_compute; reflexivity|]. by split; vm_compute.
  - apply rtc_once, step16.
Defined.

Lemma trail_explains_witness :
  has_role u16 ben ADMIN = admin_by (auditRecords u16) ben /\ has_role u16 ben ADMIN = true.
Proof. split; [exact (proj1 (trail_explains campus controls u16 reach16) ben)|vm_compute; reflexivity]. Defined.

Lemma two_person_rule_witness :
  exists a actor, auditRecords u16 !! 3%nat = Some a /\ au_actorId a = Some actor
    /\ au_approval a = Some SECOND_ADMIN /\ au_targetUserId a = ben.
Proof.
  destruct (auditRecords u16 !! 3%nat) as [a|] eqn:Ha; [|vm_compute in Ha; discriminate].
  assert (au_action a = ROLE_GRANT /\ au_approval a = Some SECOND_ADMIN /\ au_targetUserId a = ben) as (Hg & Hs & Ht).
  { vm_compute in Ha. injection Ha as <-. by repeat split. }
  destruct (two_person_rule campus controls u16 3 a reach16 Ha (or_introl Hg)) as (actor & Hact & _).
  exists a, actor. split; [reflexivity|]. split; [exact Hact|]. split; [exact Hs|exact Ht].
Defined.

Lemma suspensions_limited_witness :
  Z.of_nat (length (List.filter (suspended_in root (16000000 - seconds HOUR_SECONDS) 16000000) (auditRecords u16))) <= 3.
Proof. apply (suspensions_limited campus controls u16 root 16000000 reach16). Defined.



Lemma one_usable_token_witness :
  exists s s', List.find (session_hash (sha256Hex "b2")) (refreshSessions u15) = Some s
    /\ List.find (fun x => String.eqb (ss_id x) (tagged "o"%char 0)) (refreshSessions u15) = Some s' /\ s = s'.
Proof.
  destruct (List.find (session_hash (sha256Hex "b2")) (refreshSessions u15)) as [s|] eqn:Hs; [|vm_compute in Hs; discriminate].
  destruct (List.find (fun x => String.eqb (ss_id x) (tagged "o"%char 0)) (refreshSessions u15)) as [s'|] eqn:Hs';
    [|vm_compute in Hs'; discriminate].
  exists s, s'. split; [reflexivity|]. split; [reflexivity|].
  pose proof (proj1 (find_elem _ _ _ Hs)) as Hin. pose proof (proj1 (find_elem _ _ _ Hs')) as Hin'.
  vm_compute in Hs. vm_compute in Hs'. injection Hs as Hs. injection Hs' as Hs'.
  apply (one_usable_token campus controls u15 s s' reach15 Hin Hin'); rewrite <- ?Hs, <- ?Hs'; reflexivity.
Defined.

Lemma followed : activate "la" "$ann" "corr" 0 (env_now (at_sec "f"%char 6)) u5 (at_sec "f"%char 6) u5 = (Ok (ann, false), u6).
Proof. vm_compute. reflexivity. Qed.

Lemma links_work_once_witness :
  same_core u6 (activate "la" "$eve" "corr" 0 6000001 u5 (at_sec "r"%char 7) u6).2.
Proof.
  destruct (links_work_once campus controls u5 u6 u6 (activate "la" "$eve" "corr" 0 6000001 u5 (at_sec "r"%char 7) u6).2 "la"
    reach5 (rtc_refl _ _)) as [Ha _].
  exact (proj1 (Ha _ _ _ _ _ _ _ _ _ _ _ _ _ _ followed (ran _))).
Defined.

Lemma signed_in : exists iss, login "ann@u.nus.edu" "ann" "a1" u6 (at_sec "g"%char 7) u6 = (Ok iss, u7).
Proof. eexists. vm_compute. reflexivity. Qed.

Lemma login_sound_witness :
  exists iss row h, users u6 !! is_sub iss = Some row /\ u_passwordHash row = Some h /\ verifyPassword h "ann" = true.
Proof.
  destruct signed_in as [iss E].
  destruct (login_sound "ann@u.nus.edu" "ann" "a1" u6 (at_sec "g"%char 7) u6 u7 (Ok iss) E)
    as (row & h & s & Hrow & Hh & Hv & _).
  exists iss, row, h. split; [exact Hrow|]. split; [exact Hh|exact Hv].
Defined.

Lemma registration_completes_witness :
  exists db1 db2 db3 iss,
    register campus "eve@u.nus.edu" "Eve" "le" (at_sec "s"%char 20) u16
      = (Ok (env_uuid (at_sec "s"%char 20) 0,
             mkMail (normalizeEmail "eve@u.nus.edu") (env_uuid (at_sec "s"%char 20) 0) "le"), db1)
    /\ activate "le" "$eve" "corr" 0 21000000 db1 (at_sec "t"%char 21) db1
       = (Ok (env_uuid (at_sec "s"%char 20) 0, false), db2)
    /\ announcements db2 = (announcements u16 ++ [(USER_ACTIVATED, env_uuid (at_sec "s"%char 20) 0)])%list
    /\ login "eve@u.nus.edu" "eve" "e1" db2 (at_sec "u"%char 22) db2 = (Ok iss, db3)
    /\ is_sub iss = env_uuid (at_sec "s"%char 20) 0.
Proof.
  refine (registration_completes campus controls "eve@u.nus.edu" "Eve" "le" "$eve" "corr" "eve" "e1" 0 21000000
    (at_sec "s"%char 20) (at_sec "t"%char 21) (at_sec "u"%char 22) u16 reach16 _ _ _ _ _ _ _ _ _ _ _ _);
    try (vm_compute; reflexivity).
  - intros t Ht. assert (forallb (fun t => negb (String.eqb (tk_id t) (env_uuid (at_sec "s"%char 20) 1))
      && negb (String.eqb (tk_tokenHash t) (sha256Hex "le"))) (activationTokens u16) = true) as Hf by (vm_compute; reflexivity).
    rewrite forallb_forall in Hf. specialize (Hf t (proj1 (list_elem_of_In _ _) Ht)).
    rewrite andb_true_iff, !negb_true_iff, !String.eqb_neq in Hf. exact Hf.
  - intros x Hx. assert (forallb (fun x => negb (String.eqb (ob_id x) (env_uuid (at_sec "t"%char 21) 0)))
      (ob_rows (userOutbox u16)) = true) as Hf by (vm_compute; reflexivity).
    rewrite forallb_forall in Hf. apply String.eqb_neq, negb_true_iff, Hf. exact (proj1 (list_elem_of_In _ _) Hx).
  - intros s Hs. assert (forallb (fun s => negb (String.eqb (ss_id s) (env_uuid (at_sec "u"%char 22) 0))
      && negb (String.eqb (ss_tokenHash s) (sha256Hex "e1"))) (refreshSessions u16) = true) as Hf by (vm_compute; reflexivity).
    rewrite forallb_forall in Hf. specialize (Hf s (proj1 (list_elem_of_In _ _) Hs)).
    rewrite andb_true_iff, !negb_true_iff, !String.eqb_neq in Hf. exact Hf.
Defined.

Lemma operations_are_steps_witness :
  rtc campus_step u15 (suspend controls root root_sid ben "misuse" "corr" 0 (at_sec "p"%char 16) (at_sec "q"%char 16) u15).2.
Proof. exact (proj1 (operations_are_steps campus controls u15 _) _ _ _ _ _ _ _ _ _ (ran _)). Defined.
