(* ===== verification/ChatRepository.v ===== *)
(** * ChatRepository: channels, their messages and who read them
    (chat-service/src/db/schema.ts, chat/chat.repository.ts)

    One record per row, a field of [ChatDb] per table and one operation per method. Where a method
    stamps rows with [statement_timestamp()], the time of each of its statements is an argument,
    [stmt i] being the [i]-th: it is not the transaction's [now()], and locks may lie between. *)
From S2P Require Export Text Paging.
#[local] Open Scope Z_scope.

(** ** Tables *)

Record Channel := mkChannel { ch_latestSeq : Z; ch_createdAt : Z }.

Record ChatMessage := mkChatMessage {
  cm_orderId : string; cm_seq : Z; cm_senderId : string; cm_clientId : string; cm_body : string;
  cm_sentAt : Z }.

Inductive ReadResource := CHANNEL | MESSAGES.
#[export] Instance ReadResource_eq_dec : EqDecision ReadResource.
Proof. solve_decision. Defined.
#[export] Instance ReadResource_countable : Countable ReadResource.
Proof.
  refine (inj_countable' (fun r => match r with CHANNEL => false | MESSAGES => true end)
    (fun b : bool => if b then MESSAGES else CHANNEL) _). by intros [].
Defined.

(** Keyed by administrator, errand, resource and hour. *)
Record AdminChannelRead := mkAdminChannelRead {
  ar_id : string; ar_correlationId : string; ar_readAt : Z; ar_readCount : Z; ar_lastReadAt : Z }.
Notation ReadKey := (string * string * ReadResource * Z)%type.

(** The messages are in order of insertion. *)
Record ChatDb := mkChatDb {
  channels : gmap string Channel;
  chatMessages : list ChatMessage;
  readPositions : gmap (string * string) Z;
  adminChannelReads : gmap ReadKey AdminChannelRead }.

Definition empty_chat : ChatDb := mkChatDb ∅ [] ∅ ∅.

Definition set_channels v d := mkChatDb v (chatMessages d) (readPositions d) (adminChannelReads d).
Definition set_chatMessages v d := mkChatDb (channels d) v (readPositions d) (adminChannelReads d).
Definition set_readPositions v d := mkChatDb (channels d) (chatMessages d) v (adminChannelReads d).
Definition set_adminChannelReads v d := mkChatDb (channels d) (chatMessages d) (readPositions d) v.

Notation ChatM := (M ChatDb).

(** [messages_pkey], [messages_sender_client_key] and the foreign key to [channels]. *)
Definition same_seq (m x : ChatMessage) : bool :=
  String.eqb (cm_orderId x) (cm_orderId m) && (cm_seq x =? cm_seq m).
Definition sent_as (orderId senderId clientId : string) (m : ChatMessage) : bool :=
  String.eqb (cm_orderId m) orderId && String.eqb (cm_senderId m) senderId
  && String.eqb (cm_clientId m) clientId.

Definition insert_message (m : ChatMessage) : ChatM unit :=
  width_ok (cm_seq m) ;;;
  let! db := gets id in
  unique_ (negb (existsb (same_seq m) (chatMessages db))) "messages_order_id_seq_pk" ;;;
  unique_ (negb (existsb (sent_as (cm_orderId m) (cm_senderId m) (cm_clientId m)) (chatMessages db)))
    "messages_sender_client_key" ;;;
  references_ (is_some (channels db !! cm_orderId m)) "messages_order_id_channels_order_id_fk" ;;;
  modify (set_chatMessages (chatMessages db ++ [m])).

(** ** Channels *)

Definition latestSeq (orderId : string) (db : ChatDb) : option Z := ch_latestSeq <$> channels db !! orderId.

(** [INSERT … ON CONFLICT DO NOTHING], and its answer read after. *)
Definition open_channel (orderId : string) : ChatM (option Z) :=
  let! at_ := now in
  let! db := gets id in
  (if is_some (channels db !! orderId) then ret tt
   else modify (set_channels (<[orderId := mkChannel 0 at_]> (channels db)))) ;;;
  gets (latestSeq orderId).

Definition lastRead (orderId u : string) (db : ChatDb) : Z := default 0 (readPositions db !! (orderId, u)).

(** ** Reading messages *)

(** A message as answered: [sentAt] to the millisecond. *)
Record Message := mkMessage {
  ms_seq : Z; ms_clientId : string; ms_senderId : string; ms_body : string; ms_sentAt : Z }.
Definition toMessage (m : ChatMessage) : Message :=
  mkMessage (cm_seq m) (cm_clientId m) (cm_senderId m) (cm_body m) (iso (cm_sentAt m)).

Definition MAX_SEQ : Z := 2147483647.

Record PageQuery := mkPageQuery { pq_after : option Z; pq_before : option Z; pq_limit : nat }.

Definition in_page (orderId : string) (q : PageQuery) (m : ChatMessage) : bool :=
  String.eqb (cm_orderId m) orderId && (default 0 (pq_after q) <? cm_seq m)
  && (cm_seq m <? default MAX_SEQ (pq_before q)).
Definition ascending (a b : ChatMessage) : bool := cm_seq a <? cm_seq b.
Definition descending (a b : ChatMessage) : bool := cm_seq b <? cm_seq a.

(** The items, always ascending, and whether more lie in the direction read. *)
Definition page (orderId : string) (q : PageQuery) (db : ChatDb) : list Message * bool :=
  let newer := is_some (pq_after q) in
  let rows := take (Datatypes.S (pq_limit q))
                (order_by (if newer then ascending else descending)
                   (List.filter (in_page orderId q) (chatMessages db))) in
  let items := toMessage <$> take (pq_limit q) rows in
  (if newer then items else rev items, (pq_limit q <? length rows)%nat).

Definition findSent (orderId senderId clientId : string) (db : ChatDb) : option Message :=
  toMessage <$> List.find (sent_as orderId senderId clientId) (chatMessages db).

(** ** Sending *)

Definition SEND_LIMIT_messages : nat := 20.
Definition SEND_LIMIT_windowSeconds : Z := 60.
Definition window : Z := SEND_LIMIT_windowSeconds * 1000000.

Inductive SendAttempt :=
  | SentMessage (m : Message) (created : bool)
  | RetryAfter (secs : Z)
  | ClosedChannel
  | Busy.

Definition recent (senderId : string) (since : Z) (m : ChatMessage) : bool :=
  String.eqb (cm_senderId m) senderId && (since <? cm_sentAt m).

(** [CEIL(EXTRACT(EPOCH FROM …))]. *)
Definition ceil_seconds (us : Z) : Z := - ((- us) / 1000000).

Definition oldest_of (l : list ChatMessage) : option Z :=
  match l with [] => None | m :: l => Some (fold_left (fun a x => Z.min a (cm_sentAt x)) l (cm_sentAt m)) end.

(** [t]: the statement's timestamp. *)
Definition retryAfter (senderId : string) (t : Z) (db : ChatDb) : option Z :=
  let rows := List.filter (recent senderId (t - window)) (chatMessages db) in
  if (SEND_LIMIT_messages <=? length rows)%nat
  then (fun first => Z.max 1 (ceil_seconds (first + window - t))) <$> oldest_of rows
  else None.

(** Statements, in order: SET LOCAL, the sender's lock, the channel's row, the message already sent,
    the sender's recent messages, the insert, the channel's new number. *)
Definition sendUnderLocks (orderId senderId clientId body : string) (stmt : nat -> Z) : ChatM SendAttempt :=
  let! db := gets id in
  match channels db !! orderId with
  | None => ret ClosedChannel
  | Some c =>
      match findSent orderId senderId clientId db with
      | Some m => ret (SentMessage m false)
      | None =>
          match retryAfter senderId (stmt 4%nat) db with
          | Some secs => ret (RetryAfter secs)
          | None =>
              let seq := ch_latestSeq c + 1 in
              let m := mkChatMessage orderId seq senderId clientId body (stmt 5%nat) in
              insert_message m ;;;
              modify (fun d => set_channels (<[orderId := mkChannel seq (ch_createdAt c)]> (channels d)) d) ;;;
              ret (SentMessage (toMessage m) true)
          end
      end
  end.

(** [timeout]: a lock was not had within [LOCK_WAIT_MS], and everything was rolled back. *)
Definition repo_send (orderId senderId clientId body : string) (timeout : bool) (stmt : nat -> Z) (e : Env)
    (db : ChatDb) : outcome SendAttempt * ChatDb :=
  if timeout then (Ok Busy, db)
  else transaction (sendUnderLocks orderId senderId clientId body stmt) e db.

(** ** Read positions and administrators' reads *)

(** [GREATEST(stored, given)]: a position never goes back. *)
Definition repo_markRead (orderId u : string) (seq : Z) : ChatM Z :=
  width_ok seq ;;;
  let! db := gets id in
  references_ (is_some (channels db !! orderId)) "read_positions_order_id_channels_order_id_fk" ;;;
  let seq' := match readPositions db !! (orderId, u) with Some s => Z.max s seq | None => seq end in
  modify (set_readPositions (<[(orderId, u) := seq']> (readPositions db))) ;;;
  ret seq'.

Definition hour_of (t : Z) : Z := t / 3600000000 * 3600000000.

Definition recordAdminRead (adminUserId orderId : string) (resource : ReadResource) (correlationId : string)
  : ChatM unit :=
  let! at_ := now in
  let! id_ := randomUUID in
  let! db := gets id in
  let key := (adminUserId, orderId, resource, hour_of at_) in
  match adminChannelReads db !! key with
  | Some r =>
      width_ok (ar_readCount r + 1) ;;;
      modify (set_adminChannelReads (<[key := mkAdminChannelRead (ar_id r) (ar_correlationId r) (ar_readAt r)
                (ar_readCount r + 1) at_]> (adminChannelReads db)))
  | None =>
      unique_ (negb (existsb (fun kr => String.eqb (ar_id kr.2) id_) (map_to_list (adminChannelReads db))))
        "admin_channel_reads_pkey" ;;;
      modify (set_adminChannelReads (<[key := mkAdminChannelRead id_ correlationId at_ 1 at_]>
                (adminChannelReads db)))
  end.

(** ** Retention *)

(** [ORDER BY order_id], as the [uuid] type sorts: by its text. *)
Definition channelsOpenedBefore (cutoff : Z) (limit : nat) (after : option string) (db : ChatDb) : list string :=
  take limit (order_by String.ltb (fst <$> List.filter (fun kc =>
    (ch_createdAt kc.2 <? cutoff) && match after with Some a => String.ltb a kc.1 | None => true end)
    (map_to_list (channels db)))).

(** [ON DELETE CASCADE]: with its messages and read positions. *)
Definition deleteChannel (orderId : string) (db : ChatDb) : ChatDb :=
  mkChatDb (delete orderId (channels db))
    (List.filter (fun m => negb (String.eqb (cm_orderId m) orderId)) (chatMessages db))
    (filter (fun kp => kp.1.1 <> orderId) (readPositions db)) (adminChannelReads db).
