(* ===== verification/ChatService.v ===== *)
(** * ChatService: an errand's channel
    (chat-service/src/chat/chat.service.ts, chat/upstreams.ts, chat/validation.ts, chat/chat.controller.ts,
    chat/retention.ts)

    What the Order and User Services answer is an argument of each call, as [Upstreams] gives it: a
    value, or the exception of an upstream that could not answer. A call that reads before it writes
    takes the tables it read as [seen], so anything may happen in between. *)
From S2P Require Export Catalogue ChatRepository.
From Stdlib Require Import Ascii.
#[local] Open Scope Z_scope.
#[local] Open Scope string_scope.

(** ** Upstreams *)

Record OrderForChat := mkOrderForChat {
  oc_requesterId : string; oc_courierId : option string; oc_endedAt : option Z }.

(** [GET /internal/orders/:id/chat], once validated. *)
Notation OrderAnswer := (outcome (option OrderForChat)).
Notation NameAnswer := (string -> outcome string).

Definition unavailable : Exn := ApiException 503 "UNAVAILABLE".

(** A response: an HTTP error, a body that is not what was asked for, or one that is. *)
Inductive UpstreamResponse (A : Type) := Unreachable | HttpError (status : Z) | BadBody | GoodBody (a : A).
Arguments Unreachable {A}.
Arguments HttpError {A} status.
Arguments BadBody {A}.
Arguments GoodBody {A} a.

Definition upstream_parse {A} (r : UpstreamResponse A) : outcome A :=
  match r with GoodBody a => Ok a | _ => Throw unavailable end.
Definition upstream_order (r : UpstreamResponse OrderForChat) : OrderAnswer :=
  match r with
  | HttpError s => if (s =? 404)%Z then Ok None else Throw unavailable
  | _ => match upstream_parse r with Ok o => Ok (Some o) | Throw x => Throw x end
  end.

Definition FORMER_STUDENT : string := "A former student".
Record UserForChat := mkUserForChat { uc_exists : bool; uc_displayName : option string }.
Definition upstream_displayName (r : UpstreamResponse UserForChat) : outcome string :=
  match upstream_parse r with
  | Throw x => Throw x
  | Ok u => if negb (uc_exists u) then Ok FORMER_STUDENT
            else match uc_displayName u with
                 | Some n => if nonempty n then Ok n else Throw unavailable
                 | None => Throw unavailable
                 end
  end.

(** ** Validation *)

Definition MAX_BODY : nat := 280.
Definition valid_body (body : string) : bool :=
  nonempty body && (char_length body <=? MAX_BODY)%nat && nonempty (trim body) && negb (has_nul body).

(** [parseOrderId] and [parseSend]. Identifiers are taken in canonical text. *)
Definition parse_post `{Zod} (orderId clientId body : string) : outcome unit :=
  if negb (zod_uuid orderId) then Throw (ApiException 400 "INVALID_ORDER_ID")
  else if zod_uuid clientId && valid_body body then Ok tt
  else Throw (ApiException 422 "VALIDATION_FAILED").

Definition seq_between (low : Z) (s : option Z) : bool := optP s (fun s => ((low <=? s) && (s <=? MAX_SEQ))%Z).
Definition valid_page (q : PageQuery) : bool :=
  seq_between 0 (pq_after q) && seq_between 1 (pq_before q)
  && (1 <=? pq_limit q)%nat && (pq_limit q <=? 100)%nat
  && negb (is_some (pq_after q) && is_some (pq_before q)).

(** ** Access *)

Definition DAY_MS : Z := (24 * 60 * 60000)%Z.

(** [Date.now()] in milliseconds. *)
Definition pastRetention (o : OrderForChat) (retentionDays now_ms : Z) : bool :=
  match oc_endedAt o with Some t => (retentionDays * DAY_MS <? now_ms - t)%Z | None => false end.

Inductive ChatRole := ChatRequester | ChatCourier | ChatAdmin.
#[export] Instance ChatRole_eq_dec : EqDecision ChatRole.
Proof. solve_decision. Defined.

Record AuthContext := mkAuth { ac_userId : string; ac_isAdmin : bool; ac_displayName : string }.

Record Access := mkAccess { xs_order : OrderForChat; xs_role : ChatRole; xs_latestSeq : Z; xs_open : bool }.

Definition channelClosed : Exn := ApiException 409 "CHANNEL_CLOSED".
Definition chatNotFound : Exn := ApiException 404 "NOT_FOUND".
Definition notParticipant : Exn := ApiException 403 "NOT_PARTICIPANT".
Definition chatInvalid : Exn := ApiException 422 "VALIDATION_FAILED".

Definition role_in (o : OrderForChat) (who : AuthContext) : option ChatRole :=
  if String.eqb (ac_userId who) (oc_requesterId o) then Some ChatRequester
  else if bool_decide (oc_courierId o = Some (ac_userId who)) then Some ChatCourier
  else if ac_isAdmin who then Some ChatAdmin else None.

Definition open_for (o : OrderForChat) : bool := is_some (oc_courierId o) && negb (is_some (oc_endedAt o)).

Section Chat.
Context (retentionDays : Z).

(** [seen]: the tables the channel was looked up in. A participant's call may open it. *)
Definition access (ask : OrderAnswer) (now_ms : Z) (orderId : string) (who : AuthContext) (seen : ChatDb)
    (e : Env) (db : ChatDb) : outcome Access * ChatDb :=
  match ask with
  | Throw x => (Throw x, db)
  | Ok None => (Throw chatNotFound, db)
  | Ok (Some o) =>
      if pastRetention o retentionDays now_ms then (Throw chatNotFound, db) else
      let existing := latestSeq orderId seen in
      match role_in o who with
      | None =>
          (Throw (if negb (is_some existing) && negb (is_some (oc_courierId o)) then chatNotFound
                  else notParticipant), db)
      | Some role =>
          match existing with
          | Some s => (Ok (mkAccess o role s (open_for o)), db)
          | None =>
              if open_for o && negb (bool_decide (role = ChatAdmin)) then
                match transaction (open_channel orderId) e db with
                | (Ok (Some s), db') => (Ok (mkAccess o role s (open_for o)), db')
                | (Ok None, db') => (Throw chatNotFound, db')
                | (Throw x, db') => (Throw x, db')
                end
              else (Throw chatNotFound, db)
          end
      end
  end.

Definition participantAccess (ask : OrderAnswer) (now_ms : Z) (orderId : string) (who : AuthContext)
    (seen : ChatDb) (e : Env) (db : ChatDb) : outcome Access * ChatDb :=
  match access ask now_ms orderId who seen e db with
  | (Ok a, db') => if bool_decide (xs_role a = ChatAdmin) then (Throw notParticipant, db') else (Ok a, db')
  | r => r
  end.

(** ** The routes *)

Record ChannelView := mkChannelView {
  cv_orderId : string; cv_open : bool; cv_myRole : ChatRole; cv_requester : string * string;
  cv_courier : option (string * string); cv_lastReadSeq : Z; cv_latestSeq : Z }.

(** Records an administrator's read, if the reader is one. *)
Definition recorded_read (role : ChatRole) (who : AuthContext) (orderId : string) (resource : ReadResource)
    (correlationId : string) (e : Env) (db : ChatDb) : outcome unit * ChatDb :=
  if bool_decide (role = ChatAdmin)
  then transaction (recordAdminRead (ac_userId who) orderId resource correlationId) e db
  else (Ok tt, db).

(** [later]: the tables the read position is read from; [e'] the environment of the last write. *)
Definition channel (ask : OrderAnswer) (ask_name : NameAnswer) (now_ms : Z) (orderId : string)
    (who : AuthContext) (correlationId : string) (seen later : ChatDb) (e e' : Env) (db : ChatDb)
  : outcome ChannelView * ChatDb :=
  match access ask now_ms orderId who seen e db with
  | (Throw x, db1) => (Throw x, db1)
  | (Ok a, db1) =>
      let o := xs_order a in
      let name u := if String.eqb u (ac_userId who) then Ok (ac_displayName who) else ask_name u in
      let courier := match oc_courierId o with
                     | None => Ok None
                     | Some c => match name c with Ok n => Ok (Some (c, n)) | Throw x => Throw x end
                     end in
      match name (oc_requesterId o), courier with
      | Throw x, _ => (Throw x, db1)
      | Ok _, Throw x => (Throw x, db1)
      | Ok requester, Ok courier =>
          match recorded_read (xs_role a) who orderId CHANNEL correlationId e' db1 with
          | (Throw x, db2) => (Throw x, db2)
          | (Ok _, db2) =>
              (Ok (mkChannelView orderId (xs_open a) (xs_role a) (oc_requesterId o, requester) courier
                     (if bool_decide (xs_role a = ChatAdmin) then 0 else lastRead orderId (ac_userId who) later)
                     (xs_latestSeq a)), db2)
          end
      end
  end.

(** [later]: the tables the page is read from. *)
Definition messages (ask : OrderAnswer) (now_ms : Z) (orderId : string) (who : AuthContext)
    (correlationId : string) (q : PageQuery) (seen later : ChatDb) (e e' : Env) (db : ChatDb)
  : outcome (list Message * bool) * ChatDb :=
  match access ask now_ms orderId who seen e db with
  | (Throw x, db1) => (Throw x, db1)
  | (Ok a, db1) =>
      match recorded_read (xs_role a) who orderId MESSAGES correlationId e' db1 with
      | (Throw x, db2) => (Throw x, db2)
      | (Ok _, db2) => (Ok (page orderId q later), db2)
      end
  end.

(** Whom a new message nudges, and how far the channel now goes. *)
Record Nudged := mkNudged { nd_users : list (option string); nd_orderId : string; nd_latestSeq : Z }.

Inductive SendResult := Stored (m : Message) (created : bool) | Limited (retryAfter : Z).

Definition finish_send (o : OrderForChat) (orderId body : string) (sent : SendAttempt)
  : outcome (SendResult * option Nudged) :=
  match sent with
  | ClosedChannel => Throw channelClosed
  | Busy => Throw unavailable
  | RetryAfter s => Ok (Limited s, None)
  | SentMessage m created =>
      if negb created && negb (String.eqb (ms_body m) body) then Throw (ApiException 422 "IDEMPOTENCY_KEY_REUSED")
      else Ok (Stored m created,
               if created then Some (mkNudged [Some (oc_requesterId o); oc_courierId o] orderId (ms_seq m))
               else None)
  end.

(** [later]: the tables an earlier send is looked for in. *)
Definition send (ask : OrderAnswer) (now_ms : Z) (orderId : string) (who : AuthContext)
    (clientId body : string) (timeout : bool) (stmt : nat -> Z) (seen later : ChatDb) (e e' : Env)
    (db : ChatDb) : outcome (SendResult * option Nudged) * ChatDb :=
  match participantAccess ask now_ms orderId who seen e db with
  | (Throw x, db1) => (Throw x, db1)
  | (Ok a, db1) =>
      match findSent orderId (ac_userId who) clientId later with
      | Some m => (finish_send (xs_order a) orderId body (SentMessage m false), db1)
      | None =>
          if negb (xs_open a) then (Throw channelClosed, db1) else
          match repo_send orderId (ac_userId who) clientId body timeout stmt e' db1 with
          | (Ok sent, db2) => (finish_send (xs_order a) orderId body sent, db2)
          | (Throw x, db2) => (Throw x, db2)
          end
      end
  end.

Definition markRead (ask : OrderAnswer) (now_ms : Z) (orderId : string) (who : AuthContext) (seq : Z)
    (seen : ChatDb) (e e' : Env) (db : ChatDb) : outcome Z * ChatDb :=
  match participantAccess ask now_ms orderId who seen e db with
  | (Throw x, db1) => (Throw x, db1)
  | (Ok a, db1) =>
      if (xs_latestSeq a <? seq)%Z then (Throw chatInvalid, db1)
      else transaction (repo_markRead orderId (ac_userId who) seq) e' db1
  end.

(** [POST /channels/:orderId/messages]: the status and the message, or the refusal. *)
Definition post_message `{Zod} (ask : OrderAnswer) (now_ms : Z) (orderId : string) (who : AuthContext)
    (clientId body : string) (timeout : bool) (stmt : nat -> Z) (seen later : ChatDb) (e e' : Env)
    (db : ChatDb) : outcome (Z * Message) * ChatDb :=
  match parse_post orderId clientId body with
  | Throw x => (Throw x, db)
  | Ok _ =>
      match send ask now_ms orderId who clientId body timeout stmt seen later e e' db with
      | (Throw x, db') => (Throw x, db')
      | (Ok (Limited _, _), db') => (Throw (ApiException 429 "RATE_LIMITED"), db')
      | (Ok (Stored m created, _), db') => (Ok (if created then 201 else 200, m), db')
      end
  end.

(** ** Retention (retention.ts) *)

Record CleanupResult := mkCleanup { cl_deleted : nat; cl_kept : nat; cl_skipped : nat; cl_unknown : nat }.
Definition noResult : CleanupResult := mkCleanup 0 0 0 0.

(** One channel. [ask]: what the Order Service answers about an errand; [fails]: whose deletion the
    database refuses. The exception is the deletion's. *)
Definition settle (ask : string -> OrderAnswer) (fails : string -> bool) (now_ms : Z) (orderId : string)
    (s : CleanupResult * ChatDb) : outcome unit * (CleanupResult * ChatDb) :=
  let '(r, db) := s in
  match ask orderId with
  | Throw _ => (Ok tt, (mkCleanup (cl_deleted r) (cl_kept r) (Datatypes.S (cl_skipped r)) (cl_unknown r), db))
  | Ok None => (Ok tt, (mkCleanup (cl_deleted r) (cl_kept r) (cl_skipped r) (Datatypes.S (cl_unknown r)), db))
  | Ok (Some o) =>
      if pastRetention o retentionDays now_ms then
        if fails orderId then (Throw (Failure "delete"), s)
        else (Ok tt, (mkCleanup (Datatypes.S (cl_deleted r)) (cl_kept r) (cl_skipped r) (cl_unknown r),
                      deleteChannel orderId db))
      else (Ok tt, (mkCleanup (cl_deleted r) (Datatypes.S (cl_kept r)) (cl_skipped r) (cl_unknown r), db))
  end.

(** [eachAtMost]: every item is tried, and then the first failure is thrown. Items settled at once
    touch different channels, so their order is the queue's. *)
Fixpoint eachAtMost {St} (work : string -> St -> outcome unit * St) (items : list string) (s : St)
  : outcome unit * St :=
  match items with
  | [] => (Ok tt, s)
  | i :: rest =>
      let '(r, s1) := work i s in
      let '(r', s2) := eachAtMost work rest s1 in
      (match r with Throw x => Throw x | Ok _ => r' end, s2)
  end.

(** [None]: the fuel ran out. Pages are read from the tables as they then are. *)
Fixpoint sweep_pages (fuel batchSize : nat) (ask : string -> OrderAnswer) (fails : string -> bool) (now_ms : Z)
    (after : option string) (s : CleanupResult * ChatDb) : option (outcome unit * (CleanupResult * ChatDb)) :=
  match fuel with
  | O => None
  | Datatypes.S fuel' =>
      let cutoff := ((now_ms - retentionDays * DAY_MS) * 1000)%Z in
      let page_ := channelsOpenedBefore cutoff batchSize after s.2 in
      match eachAtMost (settle ask fails now_ms) page_ s with
      | (Throw x, s') => Some (Throw x, s')
      | (Ok _, s') =>
          if (length page_ <? batchSize)%nat then Some (Ok tt, s')
          else sweep_pages fuel' batchSize ask fails now_ms (last page_) s'
      end
  end.

(** A run: the default is a hundred at a time. *)
Definition SWEEP_BATCH_SIZE : nat := 100.
Definition sweep_channels (batchSize : nat) (ask : string -> OrderAnswer) (fails : string -> bool) (now_ms : Z)
    (db : ChatDb) : option (outcome unit * (CleanupResult * ChatDb)) :=
  sweep_pages (Datatypes.S (size (channels db))) batchSize ask fails now_ms None (noResult, db).
End Chat.
