(* ===== verification/ChatTheorems.v ===== *)
(** * ChatFacts: what each method of the chat repository does, and what every sequence of them keeps

    One lemma per transaction gives its effect on the tables. [ChatInv] is the invariant: a channel's
    messages are numbered from 1 without a gap, nobody's message is stored twice, nobody has sent more
    than the limit in any window, and nobody has read past the end. *)
From S2P Require Export ChatService.

#[local] Open Scope Z_scope.

Definition of_channel (orderId : string) (m : ChatMessage) : bool := String.eqb (cm_orderId m) orderId.

(** A channel's messages, in order. *)
Definition conversation (orderId : string) (db : ChatDb) : list ChatMessage :=
  List.filter (of_channel orderId) (chatMessages db).

Definition send_key (m : ChatMessage) : string * string * string :=
  (cm_orderId m, cm_senderId m, cm_clientId m).

Lemma sent_as_key o s c m : sent_as o s c m = true <-> send_key m = (o, s, c).
Proof. unfold sent_as, send_key. rewrite !andb_true_iff, !String.eqb_eq. naive_solver. Qed.

(** ** Effects *)

Definition stored_row (o s cl body : string) (c : Channel) (at_ : Z) : ChatMessage :=
  mkChatMessage o (ch_latestSeq c + 1) s cl body at_.
Definition after_send (o : string) (c : Channel) (m : ChatMessage) (db : ChatDb) : ChatDb :=
  mkChatDb (<[o := mkChannel (cm_seq m) (ch_createdAt c)]> (channels db)) (chatMessages db ++ [m])
    (readPositions db) (adminChannelReads db).

Inductive sent (o s cl body : string) (stmt : nat -> Z) (db : ChatDb) : SendAttempt -> ChatDb -> Prop :=
  | sent_closed : channels db !! o = None -> sent o s cl body stmt db ClosedChannel db
  | sent_before c m : channels db !! o = Some c -> findSent o s cl db = Some m ->
      sent o s cl body stmt db (SentMessage m false) db
  | sent_limited c secs : channels db !! o = Some c -> findSent o s cl db = None ->
      retryAfter s (stmt 4%nat) db = Some secs -> sent o s cl body stmt db (RetryAfter secs) db
  | sent_stored c : channels db !! o = Some c -> findSent o s cl db = None ->
      retryAfter s (stmt 4%nat) db = None -> in_int4 (ch_latestSeq c + 1) = true ->
      let m := stored_row o s cl body c (stmt 5%nat) in
      existsb (same_seq m) (chatMessages db) = false ->
      sent o s cl body stmt db (SentMessage (toMessage m) true) (after_send o c m db).

Lemma insert_message_ok m e n db r :
  insert_message m e (n, db) = Ok r <->
  in_int4 (cm_seq m) = true /\ existsb (same_seq m) (chatMessages db) = false
  /\ existsb (sent_as (cm_orderId m) (cm_senderId m) (cm_clientId m)) (chatMessages db) = false
  /\ is_some (channels db !! cm_orderId m) = true
  /\ r = (tt, (n, set_chatMessages (chatMessages db ++ [m]) db)).
Proof.
  unfold insert_message. unfold_checks. unfold id. split.
  - intros H. inv_tx. rewrite negb_true_iff in *. done.
  - intros (H1 & H2 & H3 & H4 & ->). repeat (eapply bind_step; [first [by apply gets_ok | apply require_ok; split;
      [rewrite ?negb_true_iff; done|reflexivity]]|]; simpl). by apply modify_ok.
Qed.

Lemma send_does o s cl body stmt e n db a n' db' :
  sendUnderLocks o s cl body stmt e (n, db) = Ok (a, (n', db')) -> sent o s cl body stmt db a db'.
Proof.
  unfold sendUnderLocks, id. intros H. inv_tx1. apply gets_ok in Hm. simplify_eq/=.
  destruct (channels db !! o) as [c|] eqn:Hc; [|inv_tx; by apply sent_closed].
  destruct (findSent o s cl db) as [m|] eqn:Hs; [inv_tx; by eapply sent_before|].
  destruct (retryAfter s (stmt 4%nat) db) as [secs|] eqn:Hr; [inv_tx; by eapply sent_limited|].
  inv_tx1. destruct s0 as [n0 db0], a0. apply insert_message_ok in Hm as (? & ? & _ & _ & [= -> ->]).
  inv_tx. by apply sent_stored.
Qed.

Lemma repo_send_does o s cl body timeout stmt e db a db' :
  repo_send o s cl body timeout stmt e db = (Ok a, db') ->
  (a = Busy /\ db' = db) \/ sent o s cl body stmt db a db'.
Proof.
  unfold repo_send. destruct timeout; [intros [= <- <-]; by left|].
  intros [n H]%transaction_ok. right. by eapply send_does.
Qed.

Lemma repo_send_throws o s cl body timeout stmt e db x db' :
  repo_send o s cl body timeout stmt e db = (Throw x, db') -> db' = db.
Proof. unfold repo_send. destruct timeout; [done|]. apply transaction_throw. Qed.

Definition after_open (o : string) (at_ : Z) (db : ChatDb) : ChatDb :=
  match channels db !! o with
  | Some _ => db
  | None => set_channels (<[o := mkChannel 0 at_]> (channels db)) db
  end.

(** Opening never fails, and answers the channel's number. *)
Lemma open_does o e db :
  transaction (open_channel o) e db
  = (Ok (latestSeq o (after_open o (env_now e) db)), after_open o (env_now e) db).
Proof.
  unfold transaction, open_channel, after_open, bind, now, gets, modify, id. simpl.
  destruct (channels db !! o) eqn:Hc; simpl; unfold ret, set_channels, latestSeq; simpl; [by rewrite Hc|].
  by destruct db.
Qed.

Lemma latest_after_open o at_ db : is_Some (latestSeq o (after_open o at_ db)).
Proof.
  unfold latestSeq, after_open. destruct (channels db !! o) eqn:Hc; simpl; [rewrite Hc|rewrite lookup_insert_eq];
    simpl; eauto.
Qed.

Definition after_read (o u : string) (seq : Z) (db : ChatDb) : ChatDb :=
  set_readPositions (<[(o, u) := seq]> (readPositions db)) db.
Definition position_after (o u : string) (seq : Z) (db : ChatDb) : Z :=
  match readPositions db !! (o, u) with Some s => Z.max s seq | None => seq end.

Lemma markRead_does o u seq e db p db' :
  transaction (repo_markRead o u seq) e db = (Ok p, db') <->
  in_int4 seq = true /\ is_some (channels db !! o) = true /\ p = position_after o u seq db
  /\ db' = after_read o u p db.
Proof.
  rewrite transaction_ok. unfold repo_markRead, after_read, position_after. unfold_checks. unfold id. split.
  - intros [n H]. inv_tx. simplify_eq/=. by destruct db.
  - intros (H1 & H2 & -> & ->). exists 0%nat.
    repeat (eapply bind_step; [first [by apply gets_ok | apply require_ok; split; [done|reflexivity]]|]; simpl).
    eapply bind_step; [by apply modify_ok|]. by apply ret_ok.
Qed.

Lemma record_does a o res corr e db r db' :
  transaction (recordAdminRead a o res corr) e db = (r, db') ->
  db' = db \/ exists v, db' = set_adminChannelReads
                          (<[(a, o, res, hour_of (env_now e)) := v]> (adminChannelReads db)) db
                        /\ ar_lastReadAt v = env_now e.
Proof.
  intros H. destruct r as [[]|x]; [|left; by eapply transaction_throw].
  apply transaction_ok in H as [n H]. unfold recordAdminRead, id in H. inv_tx.
  unfold_checks. destruct (adminChannelReads db !! _) as [v|]; inv_tx; right; eexists; split; try done; by destruct db.
Qed.

(** ** Steps *)

(** One transaction on the service's tables. Messages carry the time of the statement that wrote them,
    which comes after the statement that counted; a read position is at most the channel's number, as
    [markRead] of the service checked; a deletion is the retention run's. *)
Inductive chat_step (db db' : ChatDb) : Prop :=
  | cs_open o e r : transaction (open_channel o) e db = (r, db') -> chat_step db db'
  | cs_send o s cl body timeout stmt e r :
      stmt 4%nat <= stmt 5%nat -> repo_send o s cl body timeout stmt e db = (r, db') -> chat_step db db'
  | cs_read o u seq e r :
      0 <= seq -> (forall c, channels db !! o = Some c -> seq <= ch_latestSeq c) ->
      transaction (repo_markRead o u seq) e db = (r, db') -> chat_step db db'
  | cs_record a o res corr e r : transaction (recordAdminRead a o res corr) e db = (r, db') -> chat_step db db'
  | cs_delete o : db' = deleteChannel o db -> chat_step db db'.

Definition chat_reachable : ChatDb -> ChatDb -> Prop := rtc chat_step.

(** ** The invariant *)

Record ChatInv (db : ChatDb) : Prop := mkChatInv {
  ci_numbered : forall o c, channels db !! o = Some c ->
    0 <= ch_latestSeq c <= MAX_SEQ /\ cm_seq <$> conversation o db = seqZ 1 (ch_latestSeq c);
  ci_owned : forall m, m ∈ chatMessages db -> is_Some (channels db !! cm_orderId m);
  ci_once : NoDup (send_key <$> chatMessages db);
  ci_limited : forall pre m post, chatMessages db = pre ++ m :: post ->
    (length (List.filter (recent (cm_senderId m) (cm_sentAt m - window)) pre) < SEND_LIMIT_messages)%nat;
  ci_read : forall o u p, readPositions db !! (o, u) = Some p ->
    exists c, channels db !! o = Some c /\ 0 <= p <= ch_latestSeq c }.

(** Where an element of a filtered list stands in the list itself. *)
Lemma filter_split {A} (p : A -> bool) l pre m post :
  List.filter p l = pre ++ m :: post ->
  exists pre' post', l = pre' ++ m :: post' /\ List.filter p pre' = pre.
Proof.
  revert pre. induction l as [|a l IH]; intros pre H; simpl in H; [by destruct pre|].
  destruct (p a) eqn:Ha.
  - destruct pre as [|b pre]; injection H as <- H; [by exists [], l|].
    destruct (IH pre H) as (pre' & post' & -> & <-). exists (a :: pre'), post'. simpl. by rewrite Ha.
  - destruct (IH pre H) as (pre' & post' & -> & <-). exists (a :: pre'), post'. simpl. by rewrite Ha.
Qed.

Lemma seqZ_snoc n : 0 <= n -> seqZ 1 (n + 1) = seqZ 1 n ++ [n + 1].
Proof.
  intros Hn. rewrite <- (Z2Nat.id n) by done. replace (Z.of_nat (Z.to_nat n) + 1) with (Z.of_nat (Datatypes.S (Z.to_nat n))) at 1 by lia.
  rewrite seqZ_S. do 2 f_equal. lia.
Qed.

Section Keeps.
Context (db : ChatDb) (I : ChatInv db).

Lemma no_messages o : channels db !! o = None -> conversation o db = [].
Proof.
  intros Hc. apply filter_nil. intros m Hm. unfold of_channel. destruct (String.eqb_spec (cm_orderId m) o) as [<-|]; [|done].
  destruct (ci_owned db I m Hm). congruence.
Qed.

Lemma open_keeps o at_ : ChatInv (after_open o at_ db).
Proof.
  unfold after_open. destruct (channels db !! o) as [c0|] eqn:Hc; [done|]. constructor; simpl; try apply I.
  - intros o' c Hl. unfold conversation. simpl. destruct (decide (o' = o)) as [->|Hne].
    + rewrite lookup_insert_eq in Hl. simplify_eq/=. split; [unfold MAX_SEQ; lia|].
      fold (conversation o db). by rewrite no_messages.
    + rewrite lookup_insert_ne in Hl by done. by apply I.
  - intros m Hm. destruct (decide (cm_orderId m = o)) as [->|Hne]; [rewrite lookup_insert_eq; eauto|].
    rewrite lookup_insert_ne by done. by apply I.
  - intros o' u p Hp. destruct (ci_read db I o' u p Hp) as (c & Hl & ?). exists c.
    rewrite lookup_insert_ne by congruence. done.
Qed.

Lemma recent_few s t : retryAfter s t db = None ->
  (length (List.filter (recent s (t - window)) (chatMessages db)) < SEND_LIMIT_messages)%nat.
Proof.
  unfold retryAfter. destruct (Nat.leb_spec SEND_LIMIT_messages
    (length (List.filter (recent s (t - window)) (chatMessages db)))) as [Hle|Hlt]; [|by intros _].
  destruct (List.filter _ _); simpl in *; [unfold SEND_LIMIT_messages in Hle; lia|done].
Qed.

Lemma stored_keeps o s cl body c t t' :
  channels db !! o = Some c -> findSent o s cl db = None -> retryAfter s t db = None -> t <= t' ->
  in_int4 (ch_latestSeq c + 1) = true -> ChatInv (after_send o c (stored_row o s cl body c t') db).
Proof.
  intros Hc Hf Hr Ht Hw. pose proof (ci_numbered db I o c Hc) as [Hb Hn].
  constructor; simpl.
  - intros o' c' Hl. unfold conversation. simpl. rewrite List.filter_app, fmap_app. simpl. unfold of_channel at 2. simpl.
    destruct (decide (o' = o)) as [->|Hne].
    + rewrite lookup_insert_eq in Hl. simplify_eq/=. rewrite String.eqb_refl. fold (conversation o db). rewrite Hn.
      unfold in_int4, INT4_MAX, MAX_SEQ in *. split; [lia|].
      by rewrite seqZ_snoc by lia.
    + rewrite lookup_insert_ne in Hl by done. rewrite (proj2 (String.eqb_neq o o')) by done. simpl. rewrite app_nil_r.
      by apply I.
  - intros m [Hm| ->%list_elem_of_singleton]%elem_of_app; simpl; [|rewrite lookup_insert_eq; eauto].
    destruct (decide (cm_orderId m = o)) as [->|Hne]; [rewrite lookup_insert_eq; eauto|].
    rewrite lookup_insert_ne by done. by apply I.
  - rewrite fmap_app. apply NoDup_app. split_and!; [apply I| |apply NoDup_singleton].
    intros k (m & -> & Hm)%list_elem_of_fmap Hk%list_elem_of_singleton. unfold findSent in Hf.
    destruct (List.find _ _) eqn:Hfind; [done|]. pose proof (find_none_elem _ _ Hfind m Hm) as Hno.
    by rewrite (proj2 (sent_as_key o s cl m)) in Hno.
  - intros pre m post Heq. destruct post as [|m' post _] using rev_ind.
    + apply app_inj_tail in Heq as [<- <-]. simpl. eapply Nat.le_lt_trans; [|by apply (recent_few s t)].
      apply filter_length_mono. intros a. unfold recent. rewrite !andb_true_iff, !Z.ltb_lt. intros [? ?]. split; [done|lia].
    + change (pre ++ m :: post ++ [m']) with (pre ++ (m :: post) ++ [m']) in Heq. rewrite app_assoc in Heq.
      apply app_inj_tail in Heq as [Heq _]. by apply (ci_limited db I pre m post).
  - intros o' u p Hp. destruct (ci_read db I o' u p Hp) as (c' & Hl & ?). destruct (decide (o' = o)) as [->|Hne].
    + simplify_eq. eexists. rewrite lookup_insert_eq. split; [done|]. simpl. lia.
    + exists c'. by rewrite lookup_insert_ne.
Qed.

Lemma read_keeps o u seq :
  is_some (channels db !! o) = true -> 0 <= seq -> (forall c, channels db !! o = Some c -> seq <= ch_latestSeq c) ->
  ChatInv (after_read o u (position_after o u seq db) db).
Proof.
  intros Hc Hs Hle. constructor; try apply I. simpl. intros o' u' p Hp.
  destruct (decide ((o', u') = (o, u))) as [[= -> ->]|Hne]; [|rewrite lookup_insert_ne in Hp by congruence; by eapply I].
  rewrite lookup_insert_eq in Hp. injection Hp as <-. unfold position_after.
  destruct (channels db !! o) as [c|] eqn:Hl; [|done]. specialize (Hle c eq_refl). exists c. split; [done|].
  destruct (readPositions db !! (o, u)) as [q|] eqn:Hq; [|lia].
  destruct (ci_read db I o u q Hq) as (c' & Hl' & ?). simplify_eq. lia.
Qed.

Lemma delete_keeps o : ChatInv (deleteChannel o db).
Proof.
  constructor; simpl.
  - intros o' c [Hne Hl]%lookup_delete_Some. unfold conversation. simpl. rewrite filter_filter.
    rewrite (filter_ext_in _ (of_channel o')); [by apply I|].
    intros m _. unfold of_channel. destruct (String.eqb_spec (cm_orderId m) o') as [->|]; [|by rewrite andb_false_r].
    rewrite (proj2 (String.eqb_neq o' o)) by done. done.
  - intros m [Hm Hin]%elem_filter. rewrite negb_true_iff, String.eqb_neq in Hm.
    rewrite lookup_delete_ne by done. by apply I.
  - apply NoDup_fmap_filter, I.
  - intros pre m post (pre' & post' & Hs & <-)%filter_split. eapply Nat.le_lt_trans; [|by eapply ci_limited].
    rewrite filter_filter. apply filter_length_mono. intros a. by intros [_ ?]%andb_true_iff.
  - intros o' u p [Hp Hne]%map_lookup_filter_Some. destruct (ci_read db I o' u p Hp) as (c & ? & ?). exists c.
    by rewrite lookup_delete_ne.
Qed.
End Keeps.

Lemma step_keeps db db' : ChatInv db -> chat_step db db' -> ChatInv db'.
Proof.
  intros I [o e r Hs|o s cl body timeout stmt e r Ht Hs|o u seq e r Hn Hle Hs|a o res corr e r Hs|o ->].
  - rewrite open_does in Hs. injection Hs as _ <-. by apply open_keeps.
  - destruct r as [a|x]; [|by apply repo_send_throws in Hs as ->].
    apply repo_send_does in Hs as [[_ ->]|Hs]; [done|]. destruct Hs; try exact I. apply (stored_keeps db I _ _ _ _ _ (stmt 4%nat)); done.
  - destruct r as [p|x]; [|by apply transaction_throw in Hs as ->].
    apply markRead_does in Hs as (_ & Hc & -> & ->). by apply read_keeps.
  - apply record_does in Hs as [->|(v & -> & _)]; [done|]. constructor; simpl; apply I.
  - by apply delete_keeps.
Qed.

Lemma empty_chat_inv : ChatInv empty_chat.
Proof.
  constructor; simpl.
  - intros o c Hc. by rewrite lookup_empty in Hc.
  - intros m Hm. set_solver.
  - apply NoDup_nil_2.
  - intros [|??] ?? Heq; done.
  - intros o u p Hp. by rewrite lookup_empty in Hp.
Qed.

Lemma chat_inv db : chat_reachable empty_chat db -> ChatInv db.
Proof.
  intros H. assert (forall a b, chat_reachable a b -> ChatInv a -> ChatInv b) as Hk.
  { induction 1 as [|a b c Hab _ IH]; [done|]. intros I. apply IH. by eapply step_keeps. }
  eapply Hk; [exact H|]. apply empty_chat_inv.
Qed.

(** ** ChatTheorems: what the Chat Service promises

    Messages are numbered, stored once and limited in number; only the errand's people read and write
    its channel, and an administrator's reading leaves a record; pages are slices of the conversation;
    a post answers as its specification says. *)

#[local] Open Scope Z_scope.

Section Routes.
Context {zod : Zod} (days : Z).
Implicit Types (o : string) (who : AuthContext) (db seen later : ChatDb) (ord : OrderForChat).

(** ** Access *)

(** Whom a call is let in as. *)
Definition admitted (ask : OrderAnswer) (now_ms : Z) (who : AuthContext) (ord : OrderForChat) (r : ChatRole) : Prop :=
  ask = Ok (Some ord) /\ pastRetention ord days now_ms = false /\ role_in ord who = Some r.

Lemma access_ok ask now_ms o who seen e db a db' :
  access days ask now_ms o who seen e db = (Ok a, db') ->
  admitted ask now_ms who (xs_order a) (xs_role a) /\ xs_open a = open_for (xs_order a)
  /\ (latestSeq o seen = Some (xs_latestSeq a) /\ db' = db
      \/ latestSeq o seen = None /\ xs_open a = true /\ xs_role a <> ChatAdmin
         /\ db' = after_open o (env_now e) db /\ latestSeq o db' = Some (xs_latestSeq a)).
Proof.
  unfold access, admitted. intros H. destruct ask as [[ord|]|]; [|done|done].
  destruct (pastRetention _ _ _) eqn:Hp; [done|]. destruct (role_in ord who) as [r|] eqn:Hr; [|done].
  destruct (latestSeq o seen) as [s|] eqn:Hs; [injection H as <- <-; simpl; auto|].
  destruct (open_for ord && _) eqn:Ho; [|done]. apply andb_true_iff in Ho as [Ho Hadm].
  rewrite negb_true_iff, bool_decide_eq_false in Hadm. rewrite open_does in H.
  destruct (latestSeq o (after_open _ _ _)) eqn:Hl; [|done]. injection H as <- <-. simpl.
  split_and!; auto. right. auto.
Qed.

Lemma access_moves ask now_ms o who seen e db r db' :
  access days ask now_ms o who seen e db = (r, db') -> db' = db \/ db' = after_open o (env_now e) db.
Proof.
  unfold access. intros H. destruct ask as [[ord|]|]; [|by injection H as _ <-; left..].
  destruct (pastRetention _ _ _); [by injection H as _ <-; left|].
  destruct (role_in ord who); [|by injection H as _ <-; left].
  destruct (latestSeq o seen); [by injection H as _ <-; left|].
  destruct (open_for ord && _); [|by injection H as _ <-; left]. rewrite open_does in H.
  destruct (latestSeq o (after_open _ _ _)); injection H as _ <-; by right.
Qed.

Lemma participant_ok ask now_ms o who seen e db a db' :
  participantAccess days ask now_ms o who seen e db = (Ok a, db') <->
  access days ask now_ms o who seen e db = (Ok a, db') /\ xs_role a <> ChatAdmin.
Proof.
  unfold participantAccess. destruct (access _ _ _ _ _ _ _ _) as [[b|x] d]; [|naive_solver].
  case_bool_decide; naive_solver.
Qed.

(** ** Who reads *)

(** An administrator's read was put down, now. *)
Definition read_recorded (admin o : string) (res : ReadResource) (at_ : Z) (db : ChatDb) : Prop :=
  exists v, adminChannelReads db !! (admin, o, res, hour_of at_) = Some v /\ ar_lastReadAt v = at_.

(** A caller who may read: a participant, or an administrator whose read is recorded. *)
Definition may_read (ord : OrderForChat) (who : AuthContext) (o : string) (res : ReadResource) (at_ : Z)
    (db : ChatDb) : Prop :=
  ac_userId who = oc_requesterId ord \/ oc_courierId ord = Some (ac_userId who)
  \/ ac_isAdmin who = true /\ read_recorded (ac_userId who) o res at_ db.

Lemma recorded_ok role who o res corr e db db' :
  recorded_read role who o res corr e db = (Ok tt, db') -> role = ChatAdmin ->
  read_recorded (ac_userId who) o res (env_now e) db'.
Proof.
  unfold recorded_read. intros H ->. case_bool_decide; [|done].
  apply transaction_ok in H as [n H]. unfold recordAdminRead, id in H. inv_tx. unfold_checks.
  destruct (adminChannelReads db !! _) as [v|]; inv_tx; eexists; simpl; rewrite lookup_insert_eq; split; done.
Qed.

Lemma role_admitted ord who r :
  role_in ord who = Some r ->
  match r with
  | ChatRequester => ac_userId who = oc_requesterId ord
  | ChatCourier => oc_courierId ord = Some (ac_userId who)
  | ChatAdmin => ac_isAdmin who = true
  end.
Proof.
  unfold role_in. destruct (String.eqb_spec (ac_userId who) (oc_requesterId ord)) as [|_]; [by intros [= <-]|].
  case_bool_decide; [by intros [= <-]|]. destruct (ac_isAdmin who); [by intros [= <-]|done].
Qed.

Lemma reader_admitted ask now_ms who ord r o res corr e db db' :
  admitted ask now_ms who ord r -> recorded_read r who o res corr e db = (Ok tt, db') ->
  may_read ord who o res (env_now e) db'.
Proof.
  intros (_ & _ & Hr%role_admitted) Hrec. unfold may_read.
  destruct r; [by left|by right; left|]. right. right. split; [done|]. by eapply recorded_ok.
Qed.

(** The messages of a channel are answered only to the errand's requester, to its current courier, or
    to an administrator whose read is then on record, at this time and under this errand; never once the
    errand is past retention; and what is answered is the page of that channel. *)
Theorem messages_private ask now_ms o who corr q seen later e e' db page_ db' :
  messages days ask now_ms o who corr q seen later e e' db = (Ok page_, db') ->
  exists ord, ask = Ok (Some ord) /\ pastRetention ord days now_ms = false
    /\ may_read ord who o MESSAGES (env_now e') db' /\ page_ = page o q later.
Proof.
  unfold messages. intros H. destruct (access _ _ _ _ _ _ _ _) as [[a|x] db1] eqn:Ha; [|done].
  apply access_ok in Ha as [Hadm _]. destruct (recorded_read _ _ _ _ _ _ _) as [[[]|x] db2] eqn:Hr; [|done].
  injection H as <- <-. exists (xs_order a). pose proof Hadm as (? & ? & _). split_and!; try done.
  by eapply reader_admitted.
Qed.

(** ** Sending *)

Definition may_send (ord : OrderForChat) (who : AuthContext) : Prop :=
  ac_userId who = oc_requesterId ord \/ oc_courierId ord = Some (ac_userId who).

Lemma participant_role ord who : may_send ord who <-> exists r, role_in ord who = Some r /\ r <> ChatAdmin.
Proof.
  unfold may_send, role_in. destruct (String.eqb_spec (ac_userId who) (oc_requesterId ord)) as [|Hr]; [naive_solver|].
  case_bool_decide as Hc; [naive_solver|]. destruct (ac_isAdmin who); naive_solver.
Qed.

Lemma find_sent_to o s cl db m :
  findSent o s cl db = Some m -> exists x, x ∈ chatMessages db /\ send_key x = (o, s, cl) /\ m = toMessage x.
Proof.
  unfold findSent. destruct (List.find _ _) as [x|] eqn:Hf; [|done]. intros [= <-].
  apply find_elem in Hf as [? Hk%sent_as_key]. eauto.
Qed.

(** A message is taken only from the errand's requester or its current courier, and a new one only
    while the errand has a courier and has not ended; then it is the next in the channel, in the sender's
    name, and the channel's other messages are as they were. *)
Theorem post_authorised ask now_ms o who cl body timeout stmt seen later e e' db st m db' :
  post_message days ask now_ms o who cl body timeout stmt seen later e e' db = (Ok (st, m), db') ->
  exists ord, ask = Ok (Some ord) /\ pastRetention ord days now_ms = false /\ may_send ord who
    /\ (st = 201 -> open_for ord = true /\ ms_body m = body /\ ms_senderId m = ac_userId who
         /\ exists x, toMessage x = m /\ cm_orderId x = o /\ chatMessages db' = chatMessages db ++ [x]).
Proof.
  unfold post_message, send. intros Hpost. destruct (parse_post o cl body) as [[]|]; [|done].
  destruct (participantAccess _ _ _ _ _ _ _ _) as [[a|x] db1] eqn:Ha; [|done].
  apply participant_ok in Ha as [Ha Hrole]. pose proof (access_ok _ _ _ _ _ _ _ _ _ Ha) as ((Hask & Hp & Hr) & Ho & _).
  exists (xs_order a). split_and!; try done; [apply participant_role; eauto|].
  destruct (findSent o (ac_userId who) cl later) as [m0|].
  { simpl in Hpost. destruct (negb _); [done|]. injection Hpost as <- _ _. done. }
  rewrite Ho in Hpost. destruct (open_for (xs_order a)) eqn:Hop; [|done]. simpl in Hpost.
  destruct (repo_send _ _ _ _ _ _ _ _) as [[s|x] db2] eqn:Hs; [|done].
  apply repo_send_does in Hs as [[-> _]|Hs]; [done|].
  destruct Hs as [|c m1 _ _|c secs _ _ _|c _ _ _ _ x _]; simpl in Hpost; [done| |done|].
  { destruct (negb _); [done|]. injection Hpost as <- _ _. done. }
  injection Hpost as <- <- <-. intros _. split_and!; try done. exists x. split_and!; [done..|]. simpl.
  apply access_moves in Ha as [->| ->]; [done|]. unfold after_open. by destruct (channels db !! o).
Qed.

(** The invariant's form of the sender's limit. *)
Definition sent_in (s : string) (from to : Z) (m : ChatMessage) : bool :=
  recent s from m && (cm_sentAt m <=? to).

Lemma limited_in_window db s t :
  ChatInv db -> (length (List.filter (sent_in s (t - window) t) (chatMessages db)) <= SEND_LIMIT_messages)%nat.
Proof.
  intros I. apply (window_count (fun m => String.eqb (cm_senderId m) s) cm_sentAt window).
  intros pre x post Heq <-%String.eqb_eq. by apply (ci_limited db I pre x post).
Qed.

(** In whatever order people send, retry, read and are swept away, and on however many channels, no
    sender ever has more than 20 stored messages in any 60 seconds, wherever those seconds start. *)
Theorem sends_limited db s t :
  chat_reachable empty_chat db ->
  (length (List.filter (sent_in s (t - window) t) (chatMessages db)) <= 20)%nat.
Proof. intros I%chat_inv. by apply limited_in_window. Qed.

(** C28: the messages of every channel are numbered 1, 2, 3 and so on to the channel's latest number, in
    the order they were stored; no sender's client ID is stored twice in a channel; every message has its
    channel, and nobody's read position is past its end. *)
Theorem channels_numbered db o c :
  chat_reachable empty_chat db -> channels db !! o = Some c ->
  cm_seq <$> conversation o db = seqZ 1 (ch_latestSeq c)
  /\ NoDup (send_key <$> chatMessages db)
  /\ (forall m, m ∈ chatMessages db -> is_Some (channels db !! cm_orderId m))
  /\ (forall u p, readPositions db !! (o, u) = Some p -> 0 <= p <= Z.of_nat (length (conversation o db))).
Proof.
  intros I%chat_inv Hc. pose proof (ci_numbered db I o c Hc) as [Hb Hn]. split_and!; [done|apply I|apply I|].
  intros u p Hp. destruct (ci_read db I o u p Hp) as (c' & Hc' & Hle). simplify_eq.
  apply (f_equal length) in Hn. rewrite length_fmap, length_seqZ in Hn. lia.
Qed.
(** ** Routes are sequences of steps *)

Lemma open_reaches db o e : chat_reachable db (after_open o (env_now e) db).
Proof. apply rtc_once. eapply cs_open. apply open_does. Qed.

Lemma access_reaches ask now_ms o who seen e db r db' :
  access days ask now_ms o who seen e db = (r, db') -> chat_reachable db db'.
Proof. intros [->| ->]%access_moves; [done|apply open_reaches]. Qed.

Lemma participant_reaches ask now_ms o who seen e db r db' :
  participantAccess days ask now_ms o who seen e db = (r, db') -> chat_reachable db db'.
Proof.
  unfold participantAccess. destruct (access _ _ _ _ _ _ _ _) as [[a|x] d] eqn:Ha.
  - case_bool_decide; intros [= _ <-]; by eapply access_reaches.
  - intros [= _ <-]. by eapply access_reaches.
Qed.

Lemma recorded_reaches role who o res corr e db r db' :
  recorded_read role who o res corr e db = (r, db') -> chat_reachable db db'.
Proof.
  unfold recorded_read. case_bool_decide; [|by intros [= _ <-]]. intros Hs. apply rtc_once. by eapply cs_record.
Qed.

Lemma post_reaches ask now_ms o who cl body timeout stmt seen later e e' db r db' :
  stmt 4%nat <= stmt 5%nat ->
  post_message days ask now_ms o who cl body timeout stmt seen later e e' db = (r, db') -> chat_reachable db db'.
Proof.
  intros Ht. unfold post_message, send. destruct (parse_post o cl body) as [[]|]; simpl; [|by intros [= _ <-]].
  destruct (participantAccess _ _ _ _ _ _ _ _) as [[a|x] db1] eqn:Ha; apply participant_reaches in Ha;
    [|by intros [= _ <-]].
  assert (forall (r : outcome (SendResult * option Nudged)) db2 r' db3, chat_reachable db db2 ->
    match (r, db2) with
    | (Throw x, db') => (Throw x, db')
    | (Ok (Limited _, _), db') => (Throw (ApiException 429 "RATE_LIMITED"), db')
    | (Ok (Stored m created, _), db') => (Ok (if created then 201 else 200, m), db')
    end = (r', db3) -> chat_reachable db db3) as Hend.
  { intros [[[m c|s] n]|x] db2 r' db3 Hd [= _ <-]; done. }
  destruct (findSent _ _ _ later); [by apply Hend|]. destruct (negb (xs_open a)); [by intros [= _ <-]|].
  destruct (repo_send _ _ _ _ _ _ _ _) as [s db2] eqn:Hs.
  assert (chat_reachable db db2) as Hd by (etrans; [done|]; apply rtc_once; by eapply cs_send).
  destruct s; [by apply Hend|by intros [= _ <-]].
Qed.

(** What the channel was seen to be, it still is or is past, if it was not deleted since. *)
Definition seen_before o seen db : Prop :=
  forall s, latestSeq o seen = Some s -> forall c, channels db !! o = Some c -> s <= ch_latestSeq c.

Lemma mark_reaches ask now_ms o who seq seen e e' db r db' :
  0 <= seq -> seen_before o seen db ->
  markRead days ask now_ms o who seq seen e e' db = (r, db') -> chat_reachable db db'.
Proof.
  intros Hs Hseen. unfold markRead. destruct (participantAccess _ _ _ _ _ _ _ _) as [[a|x] db1] eqn:Ha;
    pose proof (participant_reaches _ _ _ _ _ _ _ _ _ Ha) as Hd; [|by intros [= _ <-]].
  destruct (Z.ltb_spec (xs_latestSeq a) seq) as [|Hle]; [by intros [= _ <-]|]. intros Hm.
  etrans; [done|]. apply rtc_once. eapply cs_read; [done| |done]. intros c Hc.
  apply participant_ok in Ha as [Ha _]. apply access_ok in Ha as (_ & _ & [[Hl ->]|(_ & _ & _ & -> & Hl)]).
  - specialize (Hseen _ Hl c Hc). lia.
  - unfold latestSeq in Hl. rewrite Hc in Hl. simpl in Hl. injection Hl as Hl. by rewrite Hl.
Qed.

(** Every route of the service, and every deletion of the retention run, is a sequence of the
    service's transactions, so what holds in every reachable state holds between any two of them, however
    the requests interleave. *)
Theorem routes_are_steps ask ask_name now_ms o who corr cl body q seq timeout stmt seen later e e' db :
  stmt 4%nat <= stmt 5%nat -> 0 <= seq -> seen_before o seen db ->
  chat_reachable db (channel days ask ask_name now_ms o who corr seen later e e' db).2
  /\ chat_reachable db (messages days ask now_ms o who corr q seen later e e' db).2
  /\ chat_reachable db (post_message days ask now_ms o who cl body timeout stmt seen later e e' db).2
  /\ chat_reachable db (markRead days ask now_ms o who seq seen e e' db).2
  /\ chat_reachable db (deleteChannel o db).
Proof.
  intros Ht Hs Hseen. split_and!.
  - unfold channel. destruct (access _ _ _ _ _ _ _ _) as [[a|x] db1] eqn:Ha; apply access_reaches in Ha; [|exact Ha].
    cbv zeta.
    repeat match goal with |- context [match ?x with _ => _ end] => destruct x eqn:? end; simpl; try exact Ha;
      match goal with K : recorded_read _ _ _ _ _ _ _ = _ |- _ =>
        etrans; [exact Ha|exact (recorded_reaches _ _ _ _ _ _ _ _ _ K)] end.
  - unfold messages. destruct (access _ _ _ _ _ _ _ _) as [[a|x] db1] eqn:Ha; apply access_reaches in Ha; [|exact Ha].
    destruct (recorded_read _ _ _ _ _ _ _) as [[[]|x] db2] eqn:Hr; apply recorded_reaches in Hr; (etrans; [exact Ha|exact Hr]).
  - destruct (post_message _ _ _ _ _ _ _ _ _ _ _ _ _ _) eqn:Hp. by eapply post_reaches.
  - destruct (markRead _ _ _ _ _ _ _ _ _ _) eqn:Hm. by eapply mark_reaches.
  - apply rtc_once. by eapply cs_delete.
Qed.
End Routes.
