(* ===== verification/ChatPosts.v ===== *)
(** * ChatPosts: what a post answers, repeated posts, and pages of a conversation

    [post_spec] says what a post must answer, from the tables alone; [page_spec] what a page must hold. *)
From S2P Require Export ChatTheorems.
#[local] Open Scope Z_scope.
#[local] Arguments Nat.leb : simpl never.
#[local] Arguments repo_send : simpl never.

(** ** The answer of a post *)

Definition reused : Exn := ApiException 422 "IDEMPOTENCY_KEY_REUSED".
Definition over_limit : Exn := ApiException 429 "RATE_LIMITED".

(** A message already sent under this ID is answered, if it said the same. A new one needs the errand
    under way and fewer than 20 of the sender's in the last minute; its number is one more than the
    channel has messages. *)
Definition post_spec (ord : OrderForChat) (o s cl body : string) (t_count t_write : Z) (db : ChatDb)
  : outcome (Z * Message) :=
  match List.find (sent_as o s cl) (chatMessages db) with
  | Some m => if String.eqb (cm_body m) body then Ok (200, toMessage m) else Throw reused
  | None =>
      if negb (open_for ord) then Throw channelClosed
      else if (20 <=? length (List.filter (recent s (t_count - window)) (chatMessages db)))%nat then Throw over_limit
      else Ok (201, mkMessage (Z.of_nat (length (conversation o db)) + 1) cl s body (iso t_write))
  end.

Lemma latest_is_length db o c :
  ChatInv db -> channels db !! o = Some c -> ch_latestSeq c = Z.of_nat (length (conversation o db)).
Proof.
  intros I Hc. destruct (ci_numbered db I o c Hc) as [Hb Hn]. apply (f_equal length) in Hn.
  rewrite length_fmap, length_seqZ in Hn. lia.
Qed.

Lemma limited_iff s t db :
  retryAfter s t db = None <->
  (20 <=? length (List.filter (recent s (t - window)) (chatMessages db)))%nat = false.
Proof.
  unfold retryAfter, SEND_LIMIT_messages. destruct (Nat.leb 20 _) eqn:Hle; [|done].
  destruct (List.filter _ _); simpl in *; [done|]. naive_solver.
Qed.

(** A number is never taken twice: the row a send writes meets no other. *)
Lemma seq_free db o c s cl body t :
  ChatInv db -> channels db !! o = Some c ->
  existsb (same_seq (stored_row o s cl body c t)) (chatMessages db) = false.
Proof.
  intros I Hc. apply existsb_false. intros m Hm. unfold same_seq. simpl.
  destruct (String.eqb_spec (cm_orderId m) o) as [Heq|]; [|done]. simpl. apply Z.eqb_neq. intros Hs.
  destruct (ci_numbered db I o c Hc) as [Hb Hn].
  assert (cm_seq m ∈ cm_seq <$> conversation o db) as Hin.
  { apply list_elem_of_fmap_2, elem_filter. split; [|done]. unfold of_channel. by apply String.eqb_eq. }
  rewrite Hn in Hin. apply elem_of_seqZ in Hin. lia.
Qed.

Lemma repo_send_runs db o c s cl body stmt e :
  ChatInv db -> channels db !! o = Some c -> findSent o s cl db = None ->
  retryAfter s (stmt 4%nat) db = None -> ch_latestSeq c < MAX_SEQ ->
  let m := stored_row o s cl body c (stmt 5%nat) in
  repo_send o s cl body false stmt e db = (Ok (SentMessage (toMessage m) true), after_send o c m db).
Proof.
  intros I Hc Hf Hr Hlt m. unfold repo_send. apply transaction_ok. exists 0%nat.
  unfold sendUnderLocks. eapply bind_step; [by apply gets_ok|]. simpl. unfold id. rewrite Hc, Hf, Hr.
  eapply bind_step.
  { apply insert_message_ok. split_and!; [|by apply seq_free| |by simpl; rewrite Hc|reflexivity].
    - destruct (ci_numbered db I o c Hc) as [Hb _]. unfold in_int4, INT4_MIN, INT4_MAX, MAX_SEQ in *. simpl. lia.
    - unfold findSent in Hf. simpl. destruct (List.find _ _) eqn:Hfind; [done|]. apply existsb_false.
      by apply find_none_elem. }
  eapply bind_step; [by apply modify_ok|]. reflexivity.
Qed.

Section Posts.
Context {zod : Zod} (days : Z).
Implicit Types (o : string) (who : AuthContext) (db : ChatDb) (ord : OrderForChat).

(** The tables as they are once a participant is let in. *)
Definition entered o at_ ord db : ChatDb := if open_for ord then after_open o at_ db else db.

Lemma access_enters ord now_ms o who e db r :
  admitted days (Ok (Some ord)) now_ms who ord r -> r <> ChatAdmin ->
  (is_some (channels db !! o) || open_for ord) = true ->
  exists c, channels (entered o (env_now e) ord db) !! o = Some c
    /\ participantAccess days (Ok (Some ord)) now_ms o who db e db
       = (Ok (mkAccess ord r (ch_latestSeq c) (open_for ord)), entered o (env_now e) ord db).
Proof.
  intros (_ & Hp & Hr) Hne Hopen. unfold participantAccess, access, entered, latestSeq, after_open. rewrite Hp, Hr.
  destruct (channels db !! o) as [c|] eqn:Hc; simpl.
  - exists c. split; [by destruct (open_for ord)|]. rewrite bool_decide_eq_false_2 by done. by destruct (open_for ord).
  - simpl in Hopen. rewrite Hopen. simpl. rewrite bool_decide_eq_false_2 by done. simpl. rewrite open_does.
    unfold latestSeq, after_open. rewrite Hc. simpl. rewrite lookup_insert_eq. simpl. eexists. split; [done|].
    by rewrite bool_decide_eq_false_2.
Qed.

Lemma entered_same o at_ ord db : chatMessages (entered o at_ ord db) = chatMessages db.
Proof. unfold entered, after_open. destruct (open_for ord); [|done]. by destruct (channels db !! o). Qed.

Lemma entered_inv o at_ ord db : ChatInv db -> ChatInv (entered o at_ ord db).
Proof. intros I. unfold entered. destruct (open_for ord); [by apply open_keeps|done]. Qed.

(** a post by one of the errand's two people answers exactly what [post_spec] says, when nothing else
    runs in between and its locks are had in time: the stored message again, a refusal of another text
    under the same ID, a closed channel, too many messages, or the new message under the next number. *)
Theorem post_answers ord now_ms o who cl body stmt e e' db :
  chat_reachable empty_chat db ->
  pastRetention ord days now_ms = false -> may_send ord who -> parse_post o cl body = Ok tt ->
  (is_some (channels db !! o) || open_for ord) = true ->
  Z.of_nat (length (conversation o db)) < MAX_SEQ ->
  (post_message days (Ok (Some ord)) now_ms o who cl body false stmt db db e e' db).1
  = post_spec ord o (ac_userId who) cl body (stmt 4%nat) (stmt 5%nat) db.
Proof.
  intros I%chat_inv Hp (r & Hr & Hne)%participant_role Hb Hopen Hlen. unfold post_message, send. rewrite Hb. simpl.
  destruct (access_enters ord now_ms o who e db r) as (c & Hc & ->); [by split_and!|done|done|].
  pose proof (entered_same o (env_now e) ord db) as Hsame. pose proof (entered_inv o (env_now e) ord db I) as I'.
  set (db1 := entered o (env_now e) ord db) in *. unfold post_spec, findSent at 1.
  destruct (List.find (sent_as o (ac_userId who) cl) (chatMessages db)) as [m|] eqn:Hf; simpl.
  { by destruct (String.eqb (cm_body m) body). }
  destruct (open_for ord) eqn:Ho; simpl; [|done].
  assert (findSent o (ac_userId who) cl db1 = None) as Hf1 by (unfold findSent; by rewrite Hsame, Hf).
  assert (conversation o db1 = conversation o db) as Hconv by (unfold conversation; by rewrite Hsame).
  pose proof (latest_is_length db1 o c I' Hc) as Hlat. rewrite Hconv in Hlat.
  match goal with |- context [if ?b then Throw over_limit else _] => destruct b eqn:Hmany end.
  - assert (retryAfter (ac_userId who) (stmt 4%nat) db1 <> None) as Hret by (rewrite limited_iff, Hsame, Hmany; done).
    destruct (retryAfter _ _ db1) as [secs|] eqn:Hretry; [|done].
    unfold repo_send, transaction, sendUnderLocks, bind, gets, id. simpl. by rewrite Hc, Hf1, Hretry.
  - rewrite (repo_send_runs db1 o c); [|done|done|done|by rewrite limited_iff, Hsame|lia].
    simpl. unfold toMessage. simpl. by rewrite Hlat.
Qed.

(** ** Repeated posts *)

Lemma find_app_l {A} (p : A -> bool) l l' x : List.find p l = Some x -> List.find p (l ++ l') = Some x.
Proof. induction l as [|a l IH]; simpl; [done|]. destruct (p a); auto. Qed.

Lemma find_app_last {A} (p : A -> bool) l x :
  List.find p l = None -> p x = true -> List.find p (l ++ [x]) = Some x.
Proof. induction l as [|a l IH]; simpl; [by intros _ ->|]. destruct (p a); auto. done. Qed.

Lemma find_filter {A} (p q : A -> bool) l x :
  (forall a, p a = true -> q a = true) -> List.find p l = Some x -> List.find p (List.filter q l) = Some x.
Proof.
  intros Hpq. induction l as [|a l IH]; simpl; [done|]. destruct (p a) eqn:Hp.
  - intros [= <-]. rewrite Hpq by done. simpl. by rewrite Hp.
  - destruct (q a); simpl; [rewrite Hp|]; auto.
Qed.

(** A step after which the channel is still there: no deletion of it. *)
Definition kept_step o db db' : Prop := chat_step db db' /\ is_Some (channels db' !! o).

Lemma sent_stays o s cl db db' m :
  kept_step o db db' -> findSent o s cl db = Some m -> findSent o s cl db' = Some m.
Proof.
  intros [Hs Hc] Hf. assert (forall l, findSent o s cl (set_chatMessages (chatMessages db ++ l) db) = Some m) as Happ.
  { intros l. unfold findSent in *. simpl. destruct (List.find _ _) eqn:Hfind; [|done]. by rewrite (find_app_l _ _ _ _ Hfind). }
  destruct Hs as [o' e r Hs|o' s' cl' body timeout stmt e r Ht Hs|o' u seq e r Hn Hle Hs|a o' res corr e r Hs|o' ->].
  - rewrite open_does in Hs. injection Hs as _ <-. unfold after_open. by destruct (channels db !! o').
  - destruct r as [a|x]; [|by apply repo_send_throws in Hs as ->].
    apply repo_send_does in Hs as [[_ ->]|Hs]; [done|]. destruct Hs; try done. apply Happ.
  - destruct r as [p|x]; [|by apply transaction_throw in Hs as ->]. by apply markRead_does in Hs as (_ & _ & _ & ->).
  - by apply record_does in Hs as [->|(v & -> & _)].
  - simpl in Hc. destruct (decide (o' = o)) as [->|Hne]; [rewrite lookup_delete_eq in Hc; by destruct Hc|].
    unfold findSent in *. simpl. destruct (List.find _ _) as [x|] eqn:Hfind; [|done].
    rewrite (find_filter _ (fun m => negb (String.eqb (cm_orderId m) o')) _ x); [done| |done].
    intros a Ha%sent_as_key. unfold send_key in Ha. simplify_eq. by rewrite negb_true_iff, String.eqb_neq.
Qed.

Lemma post_found ask now_ms o who cl body timeout stmt seen e e' db st m db' :
  ChatInv db ->
  post_message days ask now_ms o who cl body timeout stmt seen db e e' db = (Ok (st, m), db') ->
  findSent o (ac_userId who) cl db' = Some m /\ ms_body m = body /\ is_Some (channels db' !! o).
Proof.
  intros I. unfold post_message, send. destruct (parse_post o cl body) as [[]|]; [|done]. simpl. intros Hpost.
  destruct (participantAccess _ _ _ _ _ _ _ _) as [[a|x] db1] eqn:Ha; [|done].
  apply participant_ok in Ha as [Ha Hrole]. apply access_moves in Ha.
  assert (chatMessages db1 = chatMessages db /\ ChatInv db1) as [Hsame I1].
  { destruct Ha as [->| ->]; [done|]. split; [|by apply open_keeps]. unfold after_open. by destruct (channels db !! o). }
  assert (forall d x, ChatInv d -> findSent o (ac_userId who) cl d = Some x -> is_Some (channels d !! o)) as Hown.
  { intros d x Id (y & Hy & Hk & _)%find_sent_to. destruct (ci_owned d Id y Hy) as [c Hc].
    unfold send_key in Hk. simplify_eq. eauto. }
  destruct (findSent o (ac_userId who) cl db) as [m0|] eqn:Hf.
  { simpl in Hpost. destruct (String.eqb_spec (ms_body m0) body) as [Hb|]; [|done]. injection Hpost as _ <- <-.
    assert (findSent o (ac_userId who) cl db1 = Some m0) as Hf1 by (unfold findSent in *; by rewrite Hsame). eauto. }
  destruct (negb (xs_open a)); [done|]. destruct (repo_send _ _ _ _ _ _ _ _) as [[s|x] db2] eqn:Hs; [|done].
  apply repo_send_does in Hs as [[-> _]|Hs]; [done|].
  destruct Hs as [|c m1 _ Hf1|c secs _ _ _|c Hc Hf1 _ _ x _]; simpl in Hpost; [done| |done|].
  { destruct (String.eqb_spec (ms_body m1) body) as [Hb|]; [|done]. injection Hpost as _ <- <-. eauto. }
  injection Hpost as _ <- <-. split_and!; [|done|simpl; rewrite lookup_insert_eq; eauto].
  unfold findSent in *. simpl. destruct (List.find _ (chatMessages db1)) eqn:Hfind; [done|].
  rewrite (find_app_last _ _ x Hfind); [done|]. by apply sent_as_key.
Qed.

(** C29: once a message has been taken, the same client ID never stores another while the channel is kept:
    whatever the service did in between, a repeated post answers the first message, or refuses a different
    text, and changes nothing, even once the errand has ended, the sender is over the limit or the locks
    cannot be had. *)
Theorem send_once ask now_ms o who cl body timeout stmt seen e e' db st m db' db2 ord2 now2 body2 timeout2 stmt2 e2 e2' :
  chat_reachable empty_chat db -> stmt 4%nat <= stmt 5%nat ->
  post_message days ask now_ms o who cl body timeout stmt seen db e e' db = (Ok (st, m), db') ->
  rtc (kept_step o) db' db2 ->
  pastRetention ord2 days now2 = false -> may_send ord2 who -> parse_post o cl body2 = Ok tt ->
  post_message days (Ok (Some ord2)) now2 o who cl body2 timeout2 stmt2 db2 db2 e2 e2' db2
  = (if String.eqb body body2 then Ok (200, m) else Throw reused, db2).
Proof.
  intros I%chat_inv Ht Hpost Hkept Hp (r & Hr & Hne)%participant_role Hb.
  apply post_found in Hpost as (Hf & Hbody & Hc); [|done].
  assert (findSent o (ac_userId who) cl db2 = Some m /\ is_Some (channels db2 !! o)) as [Hf2 [c Hc2]].
  { clear -Hf Hc Hkept. induction Hkept as [|a b d Hab _ IH]; [done|].
    apply IH; [by eapply sent_stays|by destruct Hab]. }
  unfold post_message, send. rewrite Hb. simpl.
  destruct (access_enters ord2 now2 o who e2 db2 r) as (c' & Hc' & ->); [by split_and!|done|by rewrite Hc2|].
  rewrite Hf2. simpl. rewrite Hbody.
  assert (entered o (env_now e2) ord2 db2 = db2) as ->.
  { unfold entered, after_open. rewrite Hc2. by destruct (open_for ord2). }
  by destruct (String.eqb body body2).
Qed.
End Posts.

(** ** Waiting as told *)

Lemma oldest_in l first : oldest_of l = Some first -> exists m, m ∈ l /\ cm_sentAt m = first.
Proof.
  destruct l as [|m l]; simpl; [done|]. intros [= <-].
  assert (forall l a, (exists x, x ∈ l /\ cm_sentAt x = fold_left (fun b x => Z.min b (cm_sentAt x)) l a)
    \/ fold_left (fun b x => Z.min b (cm_sentAt x)) l a = a) as Hfold.
  { clear. induction l as [|y l IH]; intros a; simpl; [by right|].
    destruct (IH (Z.min a (cm_sentAt y))) as [(x & Hx & Hm)|Hm]; [left; exists x; set_solver|]. rewrite Hm.
    destruct (Z.min_spec a (cm_sentAt y)) as [[_ Hmin]|[_ Hmin]]; rewrite Hmin; [by right|left; exists y; set_solver]. }
  destruct (Hfold l (cm_sentAt m)) as [(x & ? & ?)|Heq]; [exists x; set_solver|exists m; set_solver].
Qed.

Lemma filter_drops {A} (p : A -> bool) l x :
  x ∈ l -> p x = false -> (length (List.filter p l) < length l)%nat.
Proof.
  intros Hx Hp. induction l as [|a l IH]; [set_solver|]. simpl.
  assert (forall l', (length (List.filter p l') <= length l')%nat) as Hle.
  { clear. induction l' as [|b l' IH]; simpl; [lia|]. destruct (p b); simpl; lia. }
  apply elem_of_cons in Hx as [->|Hx]; [rewrite Hp; specialize (Hle l); lia|].
  specialize (IH Hx). destruct (p a); simpl; lia.
Qed.

Lemma ceil_seconds_spec us : us <= ceil_seconds us * 1000000 < us + 1000000.
Proof.
  unfold ceil_seconds. pose proof (Z.div_mod (- us) 1000000). pose proof (Z.mod_pos_bound (- us) 1000000). lia.
Qed.

(** A refused sender is told to wait between 1 and 60 seconds, and one who waits that long without
    another message being stored is under the limit again. *)
Theorem retry_after_suffices db s t secs :
  chat_reachable empty_chat db -> (forall m, m ∈ chatMessages db -> cm_sentAt m <= t) ->
  retryAfter s t db = Some secs ->
  1 <= secs <= 60 /\ forall t', t + secs * 1000000 <= t' -> retryAfter s t' db = None.
Proof.
  intros I%chat_inv Hpast. unfold retryAfter at 1.
  destruct (Nat.leb_spec SEND_LIMIT_messages (length (List.filter (recent s (t - window)) (chatMessages db)))) as [Hmany|];
    [|done].
  destruct (oldest_of _) as [first|] eqn:Hold; [|done]. intros [= <-].
  apply oldest_in in Hold as (m & [Hm Hin]%elem_filter & <-). pose proof (Hpast m Hin) as Hle.
  pose proof (ceil_seconds_spec (cm_sentAt m + window - t)) as Hceil.
  assert (window = 60000000) as Hw by done. unfold recent in Hm. rewrite andb_true_iff, Z.ltb_lt in Hm.
  split; [lia|]. intros t' Ht'. apply limited_iff, Nat.leb_gt.
  pose proof (limited_in_window db s t I) as Hlim.
  rewrite (filter_ext_in _ (recent s (t - window))) in Hlim.
  2:{ intros x Hx. unfold sent_in. rewrite (proj2 (Z.leb_le _ _)) by auto. apply andb_true_r. }
  eapply Nat.lt_le_trans; [|exact Hlim].
  rewrite (filter_ext_in (recent s (t' - window)) (fun x => recent s (t - window) x && recent s (t' - window) x)).
  2:{ intros x _. unfold recent. apply eq_true_iff_eq. rewrite !andb_true_iff, !Z.ltb_lt.
      split; [intros [? ?]; split_and!; [done|lia|done|done]|tauto]. }
  rewrite <- filter_filter. apply (filter_drops _ _ m); [apply elem_filter; split; [|done]|].
  - unfold recent. by rewrite andb_true_iff, Z.ltb_lt.
  - unfold recent. rewrite (proj2 (Z.ltb_ge _ _)) by lia. apply andb_false_r.
Qed.

(** ** Pages *)

(** The messages after a number, oldest first; or the last ones before a number, or of all. *)
Definition page_spec (o : string) (q : PageQuery) (db : ChatDb) : list Message * bool :=
  let l := conversation o db in
  match pq_after q with
  | Some a => let newer := drop (Z.to_nat a) l in (toMessage <$> take (pq_limit q) newer, (pq_limit q <? length newer)%nat)
  | None =>
      let older := match pq_before q with Some b => take (Z.to_nat (b - 1)) l | None => l end in
      (toMessage <$> drop (length older - pq_limit q) older, (pq_limit q <? length older)%nat)
  end.

Lemma slice k n a b l :
  cm_seq <$> l = seqZ k n ->
  List.filter (fun m => (a <? cm_seq m) && (cm_seq m <? b)) l = drop (Z.to_nat (a + 1 - k)) (take (Z.to_nat (b - k)) l).
Proof.
  revert k n. induction l as [|m l IH]; intros k n Hn; simpl; [by rewrite take_nil, drop_nil|].
  destruct (decide (0 < n)) as [Hpos|]; [|by rewrite seqZ_nil in Hn by lia].
  rewrite seqZ_cons in Hn by done. injection Hn as Hk Hn. rewrite (IH _ _ Hn). rewrite Hk.
  destruct (Z.ltb_spec a k) as [Ha|Ha]; simpl.
  - replace (Z.to_nat (a + 1 - k)) with 0%nat by lia. replace (Z.to_nat (a + 1 - Z.succ k)) with 0%nat by lia. simpl.
    destruct (Z.ltb_spec k b); [replace (Z.to_nat (b - k)) with (Datatypes.S (Z.to_nat (b - Z.succ k))) by lia; done|].
    replace (Z.to_nat (b - k)) with 0%nat by lia. by replace (Z.to_nat (b - Z.succ k)) with 0%nat by lia.
  - replace (Z.to_nat (a + 1 - k)) with (Datatypes.S (Z.to_nat (a + 1 - Z.succ k))) by lia.
    destruct (Z.ltb_spec k b); [replace (Z.to_nat (b - k)) with (Datatypes.S (Z.to_nat (b - Z.succ k))) by lia; done|].
    replace (Z.to_nat (b - k)) with 0%nat by lia. replace (Z.to_nat (b - Z.succ k)) with 0%nat by lia. by rewrite !take_0, !drop_nil.
Qed.

Lemma numbered_ascending k n l : cm_seq <$> l = seqZ k n -> in_order ascending l.
Proof.
  revert k n. induction l as [|m l IH]; intros k n Hn; [constructor|].
  destruct (decide (0 < n)) as [Hpos|]; [|by rewrite seqZ_nil in Hn by lia].
  rewrite seqZ_cons in Hn by done. injection Hn as Hk Hn. change (list_fmap _ _ cm_seq l) with (cm_seq <$> l) in Hn.
  constructor; [by eapply IH|].
  apply Forall_forall. intros x Hx. unfold ascending. apply Z.ltb_lt.
  assert (cm_seq x ∈ cm_seq <$> l) as Hin by by apply list_elem_of_fmap_2. rewrite Hn in Hin.
  apply elem_of_seqZ in Hin. lia.
Qed.

(** A page of a channel is the slice of its conversation asked for, oldest first: the first messages
    after a number, the last before a number, or the latest; and it says whether more lie that way. *)
Theorem page_slices db o q :
  chat_reachable empty_chat db -> valid_page q = true -> Z.of_nat (length (conversation o db)) < MAX_SEQ ->
  page o q db = page_spec o q db.
Proof.
  intros I%chat_inv Hq Hlen. unfold valid_page in Hq. rewrite !andb_true_iff in Hq.
  destruct Hq as ((((Ha & Hb) & _) & _) & Hboth).
  assert (exists n, cm_seq <$> conversation o db = seqZ 1 n) as [n Hn].
  { destruct (channels db !! o) as [c|] eqn:Hc; [eexists; by apply (ci_numbered db I o c)|].
    exists 0. by rewrite (no_messages db I o Hc). }
  pose proof (f_equal length Hn) as Hl. rewrite length_fmap, length_seqZ in Hl.
  set (a := default 0 (pq_after q)). set (b := default MAX_SEQ (pq_before q)).
  assert (List.filter (in_page o q) (chatMessages db)
    = drop (Z.to_nat (a + 1 - 1)) (take (Z.to_nat (b - 1)) (conversation o db))) as Hrows.
  { rewrite <- (slice _ _ a b _ Hn). unfold conversation. rewrite filter_filter. apply filter_ext_in. intros m _.
    unfold in_page, of_channel. by rewrite andb_assoc. }
  assert (in_order ascending (List.filter (in_page o q) (chatMessages db))) as Hord.
  { rewrite Hrows, <- (slice _ _ a b _ Hn). apply in_order_filter. by eapply numbered_ascending. }
  assert (MAX_SEQ = 2147483647) as Hmax by done.
  unfold page, page_spec. rewrite Z.add_simpl_r in Hrows. destruct (pq_after q) as [a0|] eqn:Hqa; simpl.
  - simpl in Hboth. destruct (pq_before q); [done|]. rewrite order_by_id; [|..|done];
      [|intros x; apply Z.ltb_irrefl|intros x y z; unfold ascending; rewrite !Z.ltb_lt; lia].
    rewrite Hrows. subst a b. simpl. rewrite (take_ge (conversation o db)) by lia.
    rewrite take_take, length_take, (Nat.min_l (pq_limit q)) by lia. f_equal.
    destruct (Nat.ltb_spec (pq_limit q) (length (drop (Z.to_nat a0) (conversation o db))));
      [apply Nat.ltb_lt|apply Nat.ltb_ge]; lia.
  - change (order_by descending) with (order_by (fun x y => ascending y x)). rewrite order_by_rev by done.
    assert (List.filter (in_page o q) (chatMessages db)
      = match pq_before q with Some b => take (Z.to_nat (b - 1)) (conversation o db) | None => conversation o db end) as ->.
    { rewrite Hrows. subst a b. simpl. destruct (pq_before q); [done|]. simpl. by rewrite take_ge by lia. }
    set (older := match pq_before q with Some b => _ | None => _ end).
    rewrite take_take, length_take, (Nat.min_l (pq_limit q)) by lia. f_equal.
    + rewrite List.firstn_rev. change fmap with (@map ChatMessage Message). by rewrite <- map_rev, rev_involutive.
    + rewrite length_rev. destruct (Nat.ltb_spec (pq_limit q) (length older)); [apply Nat.ltb_lt|apply Nat.ltb_ge]; lia.
Qed.
