(* ===== verification/ChatSweep.v ===== *)
(** * ChatSweep: the retention run

    The run reads the channels opened before its cutoff a page at a time, deleting as it goes; that is one
    pass over all of them. It deletes exactly the channels whose errand the Order Service says ended more
    than the retention period ago, and ends. *)
From stdpp Require Import sorting.
From S2P Require Export ChatPosts.
#[local] Open Scope Z_scope.
#[local] Arguments settle : simpl never.

Definition deleteChannels (l : list string) (db : ChatDb) : ChatDb := foldl (fun d o => deleteChannel o d) db l.

Definition listed (l : list string) (o : string) : bool := existsb (String.eqb o) l.

Lemma listed_spec l o : listed l o = true <-> o ∈ l.
Proof.
  unfold listed. rewrite existsb_true. split; [intros (x & Hx & ->%String.eqb_eq); done|].
  intros Ho. exists o. by rewrite String.eqb_refl.
Qed.

(** The tables without the channels of a list. *)
Definition without (l : list string) (db : ChatDb) : ChatDb :=
  mkChatDb (filter (fun kc => listed l kc.1 = false) (channels db))
    (List.filter (fun m => negb (listed l (cm_orderId m))) (chatMessages db))
    (filter (fun kp => listed l kp.1.1 = false) (readPositions db)) (adminChannelReads db).

Lemma filter_true {A} (l : list A) : List.filter (fun _ => true) l = l.
Proof. induction l as [|a l IH]; simpl; [done|]. by rewrite IH. Qed.

Lemma deleteChannels_without l db : deleteChannels l db = without l db.
Proof.
  revert db. induction l as [|o l IH]; intros db; simpl.
  - unfold without, listed. simpl. rewrite filter_true. destruct db as [a b c d]; simpl.
    f_equal; symmetry; apply map_filter_id; done.
  - rewrite IH. unfold without. simpl. f_equal.
    + apply map_eq. intros k. apply option_eq. intros c. rewrite !map_lookup_filter_Some, lookup_delete_Some. simpl.
      unfold listed. simpl. rewrite orb_false_iff, String.eqb_neq. naive_solver.
    + rewrite filter_filter. apply filter_ext_in. intros m _. unfold listed. simpl. by rewrite negb_orb.
    + apply map_eq. intros k. apply option_eq. intros c. rewrite !map_lookup_filter_Some. simpl.
      unfold listed. simpl. rewrite orb_false_iff, String.eqb_neq. naive_solver.
Qed.

Section Sweep.
Context (days : Z) (batchSize : nat) (ask : string -> OrderAnswer) (fails : string -> bool) (now_ms : Z).

(** The Order Service says the errand ended more than the retention period ago. *)
Definition expired (o : string) : bool :=
  match ask o with Ok (Some ord) => pastRetention ord days now_ms | _ => false end.
Definition removes (o : string) : bool := expired o && negb (fails o).

Definition counted (r r' : CleanupResult) (n : nat) : Prop :=
  (cl_deleted r' + cl_kept r' + cl_skipped r' + cl_unknown r'
   = cl_deleted r + cl_kept r + cl_skipped r + cl_unknown r + n)%nat.

Lemma settle_does o r db :
  exists out r', settle days ask fails now_ms o (r, db)
    = (out, (r', if removes o then deleteChannel o db else db))
    /\ (out = Ok tt <-> expired o && fails o = false)
    /\ (out = Ok tt -> counted r r' 1 /\ cl_deleted r' = (cl_deleted r + if expired o then 1 else 0)%nat).
Proof.
  unfold settle, removes, expired, counted. destruct (ask o) as [[ord|]|x]; simpl.
  - destruct (pastRetention ord days now_ms); simpl; [destruct (fails o); simpl|];
      (eexists _, _; split; [done|]; split; [done|]; simpl; (done || (intros _; lia))).
  - eexists _, _; split; [done|]; split; [done|]; simpl; intros _; lia.
  - eexists _, _; split; [done|]; split; [done|]; simpl; intros _; lia.
Qed.

Lemma eachAtMost_does l r db :
  exists out r', eachAtMost (settle days ask fails now_ms) l (r, db) = (out, (r', deleteChannels (List.filter removes l) db))
    /\ (out = Ok tt <-> forall o, o ∈ l -> expired o && fails o = false)
    /\ (out = Ok tt -> counted r r' (length l) /\ cl_deleted r' = (cl_deleted r + length (List.filter expired l))%nat).
Proof.
  revert r db. induction l as [|o l IH]; intros r db; simpl.
  { eexists _, _. split; [done|]. split; [set_solver|]. unfold counted. simpl. intros _. lia. }
  destruct (settle_does o r db) as (out & r1 & -> & Hout & Hcnt).
  destruct (IH r1 (if removes o then deleteChannel o db else db)) as (out2 & r2 & -> & Hout2 & Hcnt2).
  eexists _, r2. split; [by destruct (removes o)|]. destruct out as [[]|x].
  - split; [rewrite Hout2; destruct Hout as [Hout _]; specialize (Hout eq_refl); set_solver|].
    intros Hok. destruct (Hcnt eq_refl) as [Hc1 Hd1]. destruct (Hcnt2 Hok) as [Hc2 Hd2]. unfold counted in *. simpl.
    rewrite Hd2, Hd1. destruct (expired o); simpl; lia.
  - split; [|done]. split; [done|]. intros Hall. apply Hout. set_solver.
Qed.

(** ** The pages *)

Definition cutoff : Z := (now_ms - days * DAY_MS) * 1000.

Definition opened_before (o : string) (c : Channel) : bool := ch_createdAt c <? cutoff.

(** Every channel opened before the cutoff, in order. *)
Definition candidates (after : option string) (db : ChatDb) : list string :=
  order_by String.ltb (fst <$> List.filter (fun kc =>
    opened_before kc.1 kc.2 && match after with Some a => String.ltb a kc.1 | None => true end) (map_to_list (channels db))).

Lemma candidates_elem after db o :
  o ∈ candidates after db <->
  (exists c, channels db !! o = Some c /\ opened_before o c = true)
  /\ match after with Some a => String.ltb a o = true | None => True end.
Proof.
  unfold candidates. rewrite order_by_perm, list_elem_of_fmap. split.
  - intros ((k & c) & -> & [Hb Hin]%elem_filter). apply elem_of_map_to_list in Hin. apply andb_true_iff in Hb as [Hb Ha].
    simpl in *. split; [by exists c|]. by destruct after.
  - intros [(c & Hc & Hb) Ha]. exists (o, c). split; [done|]. apply elem_filter. simpl. rewrite Hb.
    split; [by destruct after|]. by apply elem_of_map_to_list.
Qed.

Lemma candidates_nodup after db : NoDup (candidates after db).
Proof. unfold candidates. rewrite order_by_perm. apply NoDup_fmap_filter, NoDup_fst_map_to_list. Qed.

Lemma candidates_order after db : in_order String.ltb (candidates after db).
Proof.
  apply order_by_order.
  - intros a b c. apply string_ltb_trans.
  - apply NoDup_fmap_filter, NoDup_fst_map_to_list.
  - intros a b _ _. apply string_ltb_total.
Qed.

Lemma same_candidates l l' :
  in_order String.ltb l -> in_order String.ltb l' -> NoDup l -> NoDup l' -> (forall o, o ∈ l <-> o ∈ l') -> l = l'.
Proof.
  intros Hl Hl' Hn Hn' Heq. apply (in_order_unique String.ltb); try done.
  - apply string_ltb_irrefl.
  - apply string_ltb_trans.
  - by apply NoDup_Permutation.
Qed.

(** After part of the candidates has been settled, the rest are what is still to be read. *)
Lemma candidates_rest db seen rest :
  candidates None db = seen ++ rest ->
  candidates (last seen) (deleteChannels (List.filter removes seen) db) = rest.
Proof.
  intros Hs. pose proof (candidates_order None db) as Hord. pose proof (candidates_nodup None db) as Hnd.
  rewrite Hs in Hord, Hnd. apply NoDup_app in Hnd as (Hn1 & Hdisj & Hn2).
  apply same_candidates; [apply candidates_order|by apply StronglySorted_app in Hord as (_ & _ & ?)|
    apply candidates_nodup|done|].
  intros o. rewrite candidates_elem, deleteChannels_without.
  pose proof (candidates_elem None db o) as Hall. rewrite Hs, elem_of_app in Hall.
  assert (o ∈ seen -> match last seen with Some a => String.ltb a o = false | None => False end) as Hseen.
  { intros Ho. destruct seen as [|x seen' _] using rev_ind; [set_solver|]. rewrite last_snoc.
    apply elem_of_app in Ho as [Ho| ->%list_elem_of_singleton]; [|apply string_ltb_irrefl].
    apply StronglySorted_app in Hord as (_ & Hord & _). apply StronglySorted_app in Hord as (Hlt & _ & _).
    specialize (Hlt o x Ho ltac:(set_solver)). destruct (String.ltb x o) eqn:Hxo; [|done].
    pose proof (string_ltb_trans _ _ _ Hlt Hxo). by rewrite string_ltb_irrefl in *. }
  split.
  - intros [(c & [Hc _]%map_lookup_filter_Some & Hb) Hlast]. destruct (proj2 Hall) as [Ho|Ho]; [split; eauto| |done].
    specialize (Hseen Ho). destruct (last seen); [congruence|done].
  - intros Ho. destruct (proj1 Hall (or_intror Ho)) as [(c & Hc & Hb) _]. split.
    + exists c. split; [|done]. apply map_lookup_filter_Some. split; [done|]. simpl.
      destruct (listed _ o) eqn:Hl; [|done]. apply listed_spec, elem_filter in Hl as [_ Hl]. by destruct (Hdisj o).
    + destruct (last seen) as [a|] eqn:Hla; [|done]. apply last_Some in Hla as [pre ->].
      apply StronglySorted_app in Hord as (Hlt & _ & _). apply Hlt; set_solver.
Qed.

Lemma deleteChannels_app l l' db : deleteChannels (l ++ l') db = deleteChannels l' (deleteChannels l db).
Proof. apply foldl_app. Qed.

Lemma candidates_size after db : (length (candidates after db) <= size (channels db))%nat.
Proof.
  unfold candidates. rewrite (Permutation_length (order_by_perm _ _)), length_fmap, <- length_map_to_list.
  clear. induction (map_to_list (channels db)) as [|a l IH]; simpl; [lia|]. destruct (_ && _); simpl; lia.
Qed.

(** What a run that has settled [seen] does with the rest. *)
Lemma pages_do fuel db seen rest r :
  (1 <= batchSize)%nat -> candidates None db = seen ++ rest -> (length rest < fuel)%nat ->
  exists out r' done_ left_, rest = done_ ++ left_
    /\ sweep_pages days fuel batchSize ask fails now_ms (last seen) (r, deleteChannels (List.filter removes seen) db)
       = Some (out, (r', deleteChannels (List.filter removes (seen ++ done_)) db))
    /\ ((forall o, o ∈ rest -> expired o && fails o = false) ->
        out = Ok tt /\ left_ = [] /\ counted r r' (length rest)
        /\ cl_deleted r' = (cl_deleted r + length (List.filter expired rest))%nat)
    /\ (out = Ok tt -> forall o, o ∈ rest -> expired o && fails o = false).
Proof.
  intros Hb. revert seen rest r. induction fuel as [|fuel IH]; intros seen rest r Hs Hf; [lia|]. simpl.
  assert (channelsOpenedBefore ((now_ms - days * DAY_MS) * 1000) batchSize (last seen)
    (deleteChannels (List.filter removes seen) db) = take batchSize rest) as ->.
  { change (take batchSize (candidates (last seen) (deleteChannels (List.filter removes seen) db)) = take batchSize rest).
    by rewrite (candidates_rest _ _ _ Hs). }
  destruct (eachAtMost_does (take batchSize rest) r (deleteChannels (List.filter removes seen) db))
    as (out & r1 & -> & Hout & Hcnt).
  rewrite <- deleteChannels_app, <- List.filter_app. rewrite length_take.
  destruct out as [[]|x].
  - pose proof (proj1 Hout eq_refl) as Hgood. destruct (Hcnt eq_refl) as [Hc1 Hd1].
    destruct (Nat.ltb_spec (Nat.min batchSize (length rest)) batchSize) as [Hlast|Hmore].
    + rewrite take_ge in * by lia. exists (Ok tt), r1, rest, []. rewrite app_nil_r. repeat split; auto; apply Hc1 || apply Hd1.
    + destruct (IH (seen ++ take batchSize rest) (drop batchSize rest) r1) as (out & r2 & d & lf & Hrest & Hrun & Hok & Hbad).
      { by rewrite <- app_assoc, take_drop. }
      { rewrite length_drop. lia. }
      rewrite last_app in Hrun.
      destruct (last (take batchSize rest)) as [y|] eqn:Hy.
      2:{ apply last_None in Hy. apply (f_equal length) in Hy. rewrite length_take in Hy. simpl in Hy. lia. }
      exists out, r2, (take batchSize rest ++ d), lf. rewrite <- app_assoc, <- Hrest, take_drop, (app_assoc seen).
      split; [done|]. split; [done|]. split.
      * intros Hall. destruct Hok as (-> & -> & Hc2 & Hd2).
        { intros o Ho. apply Hall. rewrite <- (take_drop batchSize rest). set_solver. }
        split_and!; [done|done| |].
        -- unfold counted in *. rewrite Hc2, Hc1, length_take, length_drop. lia.
        -- rewrite Hd2, Hd1. rewrite <- (take_drop batchSize rest) at 3. rewrite List.filter_app, length_app. lia.
      * intros Hok' o Ho. rewrite <- (take_drop batchSize rest) in Ho. apply elem_of_app in Ho as [Ho|Ho]; auto.
  - exists (Throw x), r1, (take batchSize rest), (drop batchSize rest). rewrite take_drop. split_and!; try done.
    intros Hall. exfalso. assert (@Throw unit x = Ok tt) as Habs; [|done]. apply Hout. intros o Ho. apply Hall.
    rewrite <- (take_drop batchSize rest). set_solver.
Qed.

(** ** Whole runs *)

(** What a run is to delete. *)
Definition due (db : ChatDb) (o : string) : bool :=
  match channels db !! o with Some c => opened_before o c && expired o | None => false end.

Lemma due_candidates db o : due db o = true <-> o ∈ candidates None db /\ expired o = true.
Proof.
  rewrite candidates_elem. unfold due. destruct (channels db !! o) as [c|]; [rewrite andb_true_iff|]; naive_solver.
Qed.

(** a retention run over any number of channels ends, whatever the page size, the Order Service's
    answers and the database's refusals; and whatever it meets, it deletes only channels opened before the
    cutoff whose errand the Order Service says ended more than the retention period ago, with their
    messages and read positions and nothing else: a channel it has no clear answer for stays. *)
Theorem sweep_spares db :
  (1 <= batchSize)%nat ->
  exists out r l, sweep_channels days batchSize ask fails now_ms db = Some (out, (r, without l db))
    /\ forall o, o ∈ l -> due db o = true /\ exists ord, ask o = Ok (Some ord) /\ pastRetention ord days now_ms = true.
Proof.
  intros Hb. unfold sweep_channels.
  destruct (pages_do (Datatypes.S (size (channels db))) db [] (candidates None db) noResult) as (out & r & d & lf & Hs & Hrun & _);
    [done|done|pose proof (candidates_size None db); lia|].
  exists out, r, (List.filter removes d). rewrite <- deleteChannels_without. split; [exact Hrun|].
  intros o [Hr Ho]%elem_filter. apply andb_true_iff in Hr as [Hr _]. split.
  - apply due_candidates. split; [|done]. rewrite Hs. set_solver.
  - unfold expired in Hr. destruct (ask o) as [[ord|]|]; [by exists ord|done|done].
Qed.

(** C39: a run whose deletions all succeed deletes every channel that is due, in one pass, however many
    pages it took; it counts each channel opened before its cutoff once, as deleted, kept, skipped or
    unknown, and the deleted ones are those gone. *)
Theorem sweep_deletes db :
  (1 <= batchSize)%nat -> (forall o, fails o = false) ->
  exists r l, sweep_channels days batchSize ask fails now_ms db = Some (Ok tt, (r, without l db))
    /\ (forall o, o ∈ l <-> due db o = true) /\ cl_deleted r = length l
    /\ counted noResult r (length (candidates None db)).
Proof.
  intros Hb Hf. unfold sweep_channels.
  destruct (pages_do (Datatypes.S (size (channels db))) db [] (candidates None db) noResult)
    as (out & r & d & lf & Hs & Hrun & Hok & _); [done|done|pose proof (candidates_size None db); lia|].
  destruct Hok as (-> & -> & Hc & Hd); [intros o _; by rewrite Hf, andb_false_r|].
  rewrite app_nil_r in Hs. subst d. exists r, (List.filter expired (candidates None db)).
  rewrite <- deleteChannels_without. split_and!; [|intros o; rewrite elem_filter, due_candidates; tauto|done|done].
  rewrite (filter_ext_in expired removes); [exact Hrun|]. intros o _. unfold removes. by rewrite Hf, andb_true_r.
Qed.
End Sweep.
