(* ===== verification/SocketHub.v ===== *)
(** * SocketHub: the chat sockets of an instance
    (chat-service/src/chat/socket/socket-hub.ts, socket/socket-status.ts, socket/socket.gateway.ts)

    The hub is a state machine. An event is a connection, a frame, an answer of the authenticator, a timer
    that fires, or a call of another part of the service; its outputs are what the peers are sent. A timer
    is part of the state of the socket that set it, and fires only while it is set. A socket is named by a
    number; sets hold them in order of insertion, as JavaScript's do. *)
From S2P Require Export Catalogue.
#[local] Open Scope Z_scope.

Record SocketOptions := mkSocketOptions { perUser : nat; perInstance : nat; pendingPerInstance : nat }.

Inductive CloseReason :=
  AuthTimeout | Unauthenticated | IdentityUnavailable | IdentityChanged | TooMany | TooManyPending
  | BadFrame | Shutdown.
#[export] Instance CloseReason_eq_dec : EqDecision CloseReason.
Proof. solve_decision. Defined.

Definition close_code (r : CloseReason) : Z :=
  match r with
  | AuthTimeout => 4408
  | Unauthenticated | IdentityChanged => 4401
  | IdentityUnavailable => 4503
  | TooMany | TooManyPending => 4429
  | BadFrame => 4400
  | Shutdown => 1001
  end.

Inductive Ending := ByServer (r : CloseReason) | ClientClosed | NoPong.

(** [refusal]: a User Service that cannot answer says nothing about the token. *)
Definition refusal (x : Exn) : CloseReason :=
  match x with
  | ApiException _ code => if String.eqb code "IDENTITY_UNAVAILABLE" then IdentityUnavailable else Unauthenticated
  | _ => Unauthenticated
  end.

(** An open socket's check of its session: its timer is set, or the answer is awaited. *)
Inductive Recheck := RecheckSet | RecheckAsked.

Inductive Phase :=
  | AwaitingAuth
  | Authenticating (token : string)
  | Opened (userId token : string) (recheck : Recheck) (expiry : option Z)
  | Closed.

(** [authTimer]: whether it is set. *)
Record ChatSocket := mkChatSocket { sk_phase : Phase; sk_authTimer : bool; sk_alive : bool }.

Inductive Inbound := AuthFrame (token : string) | Malformed.

(** [parseFrame]: [auth_token] is [JSON.parse] and the schema's reading of what is not too long. *)
Definition MAX_FRAME_BYTES : nat := 8192.
Definition parseFrame (auth_token : string -> option string) (data : string) (isBinary : bool) : Inbound :=
  if isBinary || (MAX_FRAME_BYTES <? String.length data)%nat then Malformed
  else match auth_token data with Some t => AuthFrame t | None => Malformed end.

Inductive HubFrame := Ready | NewMessages (orderId : string) (latestSeq : Z).

(** What a peer is made to do. *)
Inductive Output :=
  | Send (s : nat) (f : HubFrame)
  | CloseWith (s : nat) (code : Z)
  | Ping (s : nat)
  | Terminate (s : nat).

Definition output_socket (o : Output) : nat :=
  match o with Send s _ | CloseWith s _ | Ping s | Terminate s => s end.

Record Hub := mkHub {
  table : gmap nat ChatSocket;
  sockets : list nat;
  pending : list nat;
  byUser : gmap string (list nat);
  heartbeat : bool;
  stopping : bool }.

Definition new_hub : Hub := mkHub ∅ [] [] ∅ false false.

Definition set_phase (s : nat) (p : Phase) (timer : bool) (h : Hub) : Hub :=
  mkHub (alter (fun k => mkChatSocket p timer (sk_alive k)) s (table h)) (sockets h) (pending h) (byUser h)
    (heartbeat h) (stopping h).
Definition set_alive (s : nat) (b : bool) (h : Hub) : Hub :=
  mkHub (alter (fun k => mkChatSocket (sk_phase k) (sk_authTimer k) b) s (table h)) (sockets h) (pending h)
    (byUser h) (heartbeat h) (stopping h).

(** [Set.delete]. *)
Definition without_socket (s : nat) (l : list nat) : list nat := List.filter (fun x => negb (Nat.eqb x s)) l.

Definition phase_of (s : nat) (h : Hub) : Phase :=
  match table h !! s with Some k => sk_phase k | None => Closed end.
Definition own_sockets (u : string) (h : Hub) : list nat := default [] (byUser h !! u).

Definition leave_user (p : Phase) (s : nat) (m : gmap string (list nat)) : gmap string (list nat) :=
  match p with
  | Opened u _ _ _ =>
      match m !! u with
      | Some own => match without_socket s own with [] => delete u m | own' => <[u := own']> m end
      | None => m
      end
  | _ => m
  end.

(** ** The one way out *)

Definition end_ (s : nat) (ending : Ending) (h : Hub) : Hub * list Output :=
  match phase_of s h with
  | Closed => (h, [])
  | p =>
      let left_ := without_socket s (sockets h) in
      (mkHub (alter (fun k => mkChatSocket Closed false (sk_alive k)) s (table h)) left_
         (without_socket s (pending h)) (leave_user p s (byUser h))
         (heartbeat h && match left_ with [] => false | _ => true end) (stopping h),
       match ending with
       | NoPong => [Terminate s]
       | ClientClosed => []
       | ByServer r => [CloseWith s (close_code r)]
       end)
  end.

(** [for (const socket of […]) this.end(socket, …)], over a copy. *)
Fixpoint end_all (l : list nat) (ending : Ending) (h : Hub) : Hub * list Output :=
  match l with
  | [] => (h, [])
  | s :: l =>
      let '(h1, o1) := end_ s ending h in
      let '(h2, o2) := end_all l ending h1 in (h2, o1 ++ o2)
  end.

Section Hub.
Context (options : SocketOptions).

(** ** Connections *)

Definition awaits (h : Hub) (s : nat) : bool :=
  match phase_of s h with AwaitingAuth => true | _ => false end.

(** The refusal, if no room is made. *)
Definition makeRoomToWait (h : Hub) : option CloseReason * (Hub * list Output) :=
  if (length (pending h) <? pendingPerInstance options)%nat then (None, (h, []))
  else match List.find (awaits h) (pending h) with
       | Some s => (None, end_ s (ByServer TooManyPending) h)
       | None => (Some TooManyPending, (h, []))
       end.

Definition connect (s : nat) (h : Hub) : Hub * list Output :=
  let '(refused, (h1, o1)) :=
    if stopping h then (Some Shutdown, (h, []))
    else if (perInstance options <=? length (sockets h))%nat then (Some TooMany, (h, []))
    else makeRoomToWait h in
  let h2 := mkHub (<[s := mkChatSocket AwaitingAuth true true]> (table h1)) (sockets h1 ++ [s])
              (pending h1 ++ [s]) (byUser h1) (heartbeat h1) (stopping h1) in
  match refused with
  | Some r => let '(h3, o3) := end_ s (ByServer r) h2 in (h3, o1 ++ o3)
  | None => (mkHub (table h2) (sockets h2) (pending h2) (byUser h2) true (stopping h2), o1)
  end.

(** ** Signing in *)

(** The first frame: the token goes to the authenticator. *)
Definition received (s : nat) (frame : Inbound) (h : Hub) : Hub * list Output :=
  match phase_of s h, frame with
  | Closed, _ => (h, [])
  | AwaitingAuth, AuthFrame t =>
      (set_phase s (Authenticating t) (match table h !! s with Some k => sk_authTimer k | None => false end) h, [])
  | _, _ => end_ s (ByServer BadFrame) h
  end.

Definition MAX_TIMER_MS : Z := 2147483647.

(** [tokenExpiry]: the token's expiry in epoch milliseconds, if it has one that can be read. *)
Context (tokenExpiry : string -> option Z).

Definition open_ (s : nat) (userId token : string) (now_ms : Z) (h : Hub) : Hub * list Output :=
  let h1 := mkHub (alter (fun k => mkChatSocket (sk_phase k) false (sk_alive k)) s (table h)) (sockets h)
              (without_socket s (pending h)) (byUser h) (heartbeat h) (stopping h) in
  let own := own_sockets userId h1 in
  if (perUser options <=? length own)%nat then end_ s (ByServer TooMany) h1
  else
    let untilExpiry := (fun t => t - now_ms) <$> tokenExpiry token in
    if match untilExpiry with Some d => d <=? 0 | None => false end then end_ s (ByServer Unauthenticated) h1
    else
      let expiry := match untilExpiry with
                    | Some d => if MAX_TIMER_MS <? d then None else Some (now_ms + d)
                    | None => None
                    end in
      let h2 := set_phase s (Opened userId token RecheckSet expiry) false h1 in
      (mkHub (table h2) (sockets h2) (pending h2) (<[userId := own ++ [s]]> (byUser h2)) (heartbeat h2) (stopping h2),
       [Send s Ready]).

(** The authenticator's answer: the user, or why not. *)
Definition authenticated (s : nat) (answer : outcome string) (now_ms : Z) (h : Hub) : Hub * list Output :=
  match phase_of s h with
  | Authenticating token =>
      match answer with
      | Ok userId => open_ s userId token now_ms h
      | Throw x => end_ s (ByServer (refusal x)) h
      end
  | _ => (h, [])
  end.

(** ** Timers *)

Definition auth_timeout (s : nat) (h : Hub) : Hub * list Output :=
  match table h !! s with
  | Some k => if sk_authTimer k then end_ s (ByServer AuthTimeout) h else (h, [])
  | None => (h, [])
  end.

(** The token's expiry. *)
Definition expire (s : nat) (h : Hub) : Hub * list Output :=
  match phase_of s h with
  | Opened _ _ _ (Some _) => end_ s (ByServer Unauthenticated) h
  | _ => (h, [])
  end.

Definition recheck_due (s : nat) (h : Hub) : Hub * list Output :=
  match phase_of s h with
  | Opened u t RecheckSet x => (set_phase s (Opened u t RecheckAsked x) false h, [])
  | _ => (h, [])
  end.

(** The answer to a check: whoever it names, only a refusal counts. *)
Definition rechecked (s : nat) (answer : outcome string) (h : Hub) : Hub * list Output :=
  match phase_of s h with
  | Opened u t RecheckAsked x =>
      match answer with
      | Ok _ => (set_phase s (Opened u t RecheckSet x) false h, [])
      | Throw e => end_ s (ByServer (refusal e)) h
      end
  | _ => (h, [])
  end.

Definition beat_one (s : nat) (h : Hub) : Hub * list Output :=
  match table h !! s with
  | Some k => if sk_alive k then (set_alive s false h, [Ping s]) else end_ s NoPong h
  | None => (h, [])
  end.

Fixpoint beat_all (l : list nat) (h : Hub) : Hub * list Output :=
  match l with
  | [] => (h, [])
  | s :: l =>
      let '(h1, o1) := beat_one s h in
      let '(h2, o2) := beat_all l h1 in (h2, o1 ++ o2)
  end.

Definition beat (h : Hub) : Hub * list Output := if heartbeat h then beat_all (sockets h) h else (h, []).

(** ** What the rest of the service calls *)

Definition pong (s : nat) (h : Hub) : Hub * list Output := (set_alive s true h, []).
Definition disconnected (s : nat) (h : Hub) : Hub * list Output := end_ s ClientClosed h.

(** [new Set(userIds)], without null; the order of outputs is the sets'. *)
Fixpoint distinct_users (seen : list string) (l : list (option string)) : list string :=
  match l with
  | [] => []
  | None :: l => distinct_users seen l
  | Some u :: l =>
      if existsb (String.eqb u) seen || negb (nonempty u) then distinct_users seen l
      else u :: distinct_users (u :: seen) l
  end.

(** [writable]: whether a socket takes a frame; one that throws is skipped. *)
Definition notify (writable : nat -> bool) (userIds : list (option string)) (orderId : string) (latestSeq : Z)
    (h : Hub) : Hub * list Output :=
  (h, (fun s => Send s (NewMessages orderId latestSeq))
        <$> List.filter writable (mjoin ((fun u => own_sockets u h) <$> distinct_users [] userIds))).

Definition identityChanged (userId : string) (h : Hub) : Hub * list Output :=
  end_all (own_sockets userId h) (ByServer IdentityChanged) h.

Definition onModuleDestroy (h : Hub) : Hub * list Output :=
  end_all (sockets h) (ByServer Shutdown)
    (mkHub (table h) (sockets h) (pending h) (byUser h) (heartbeat h) true).

(** ** Events *)

Inductive HubEvent :=
  | EvConnect (s : nat)
  | EvFrame (s : nat) (f : Inbound)
  | EvAuthenticated (s : nat) (answer : outcome string) (now_ms : Z)
  | EvAuthTimeout (s : nat)
  | EvExpire (s : nat)
  | EvRecheckDue (s : nat)
  | EvRechecked (s : nat) (answer : outcome string)
  | EvBeat
  | EvPong (s : nat)
  | EvDisconnected (s : nat)
  | EvNotify (writable : nat -> bool) (userIds : list (option string)) (orderId : string) (latestSeq : Z)
  | EvIdentityChanged (userId : string)
  | EvDestroy.

Definition hub_step (h : Hub) (ev : HubEvent) : Hub * list Output :=
  match ev with
  | EvConnect s => if is_some (table h !! s) then (h, []) else connect s h
  | EvFrame s f => received s f h
  | EvAuthenticated s a t => authenticated s a t h
  | EvAuthTimeout s => auth_timeout s h
  | EvExpire s => expire s h
  | EvRecheckDue s => recheck_due s h
  | EvRechecked s a => rechecked s a h
  | EvBeat => beat h
  | EvPong s => pong s h
  | EvDisconnected s => disconnected s h
  | EvNotify w us o n => notify w us o n h
  | EvIdentityChanged u => identityChanged u h
  | EvDestroy => onModuleDestroy h
  end.

Fixpoint hub_run (h : Hub) (evs : list HubEvent) : Hub * list Output :=
  match evs with
  | [] => (h, [])
  | ev :: evs =>
      let '(h1, o1) := hub_step h ev in
      let '(h2, o2) := hub_run h1 evs in (h2, o1 ++ o2)
  end.
End Hub.
