(* ===== verification/SocketHubFacts.v ===== *)
(** * SocketHubFacts: what each operation of the hub does to its sockets, and the hub's invariant

    [phase_of] is what a socket is; [end_phase] and its kin say what an operation makes of it. [HubInv]
    ties the hub's three sets to the sockets' phases and bounds them. *)
From S2P Require Export SocketHub.
#[local] Open Scope Z_scope.

(** ** Sets *)

Lemma without_elem s x l : x ∈ without_socket s l <-> x ∈ l /\ x <> s.
Proof. unfold without_socket. rewrite elem_filter, negb_true_iff, Nat.eqb_neq. tauto. Qed.

Lemma without_nodup s l : NoDup l -> NoDup (without_socket s l).
Proof. apply NoDup_filter_bool. Qed.

Lemma without_length s l : (length (without_socket s l) <= length l)%nat.
Proof. unfold without_socket. induction l as [|a l IH]; simpl; [done|]. destruct (negb _); simpl; lia. Qed.

Lemma without_shorter s l : s ∈ l -> (length (without_socket s l) < length l)%nat.
Proof.
  intros Hs. unfold without_socket. induction l as [|a l IH]; [set_solver|]. simpl.
  pose proof (without_length s l) as Hl. unfold without_socket in Hl. destruct (Nat.eqb_spec a s); simpl; [lia|].
  apply elem_of_cons in Hs as [->|Hs]; [done|]. specialize (IH Hs). lia.
Qed.

Lemma without_absent s l : s ∉ l -> without_socket s l = l.
Proof.
  unfold without_socket. induction l as [|a l IH]; [done|]. rewrite not_elem_of_cons. intros [Ha Hl]. simpl.
  rewrite (proj2 (Nat.eqb_neq a s)) by done. simpl. by rewrite IH.
Qed.

Lemma without_twice s l : without_socket s (without_socket s l) = without_socket s l.
Proof. apply without_absent. rewrite without_elem. tauto. Qed.

Lemma without_app s l l' : without_socket s (l ++ l') = without_socket s l ++ without_socket s l'.
Proof. apply List.filter_app. Qed.

Lemma without_self s : without_socket s [s] = [].
Proof. unfold without_socket. simpl. by rewrite Nat.eqb_refl. Qed.

(** ** Phases *)

Definition waiting (p : Phase) : bool := match p with AwaitingAuth | Authenticating _ => true | _ => false end.
Definition open_for_user (u : string) (p : Phase) : bool :=
  match p with Opened v _ _ _ => String.eqb v u | _ => false end.
Definition closed (p : Phase) : bool := match p with Closed => true | _ => false end.

Lemma phase_alter s x f h l pd b hb st :
  phase_of x (mkHub (alter f s (table h)) l pd b hb st)
  = if decide (x = s) then (match table h !! s with Some k => sk_phase (f k) | None => Closed end) else phase_of x h.
Proof.
  unfold phase_of. simpl. destruct (decide (x = s)) as [->|Hne].
  - rewrite lookup_alter_eq. by destruct (table h !! s).
  - by rewrite lookup_alter_ne.
Qed.

Lemma phase_some s h : closed (phase_of s h) = false -> is_Some (table h !! s).
Proof. unfold phase_of. destruct (table h !! s); [eauto|done]. Qed.

Lemma end_closed s w h : closed (phase_of s h) = true -> end_ s w h = (h, []).
Proof. unfold end_. by destruct (phase_of s h). Qed.

Definition end_output (s : nat) (w : Ending) : list Output :=
  match w with NoPong => [Terminate s] | ClientClosed => [] | ByServer r => [CloseWith s (close_code r)] end.

Definition ended (s : nat) (h : Hub) : Hub :=
  mkHub (alter (fun k => mkChatSocket Closed false (sk_alive k)) s (table h)) (without_socket s (sockets h))
    (without_socket s (pending h)) (leave_user (phase_of s h) s (byUser h))
    (heartbeat h && match without_socket s (sockets h) with [] => false | _ => true end) (stopping h).

Lemma end_live s w h : closed (phase_of s h) = false -> end_ s w h = (ended s h, end_output s w).
Proof. unfold end_, ended. by destruct (phase_of s h). Qed.

(** Ending a socket closes it and leaves the others as they are. *)
Lemma end_phase s w h x : phase_of x (end_ s w h).1 = if decide (x = s) then Closed else phase_of x h.
Proof.
  destruct (closed (phase_of s h)) eqn:Hc.
  - rewrite end_closed by done. simpl. destruct (decide (x = s)) as [->|]; [|done]. by destruct (phase_of s h).
  - rewrite end_live by done. simpl. unfold ended. rewrite phase_alter. destruct (decide (x = s)); [|done].
    by destruct (table h !! s).
Qed.

Lemma end_all_phase l w h x : phase_of x (end_all l w h).1 = if decide (x ∈ l) then Closed else phase_of x h.
Proof.
  revert h. induction l as [|s l IH]; intros h; simpl; [done|].
  destruct (end_ s w h) as [h1 o1] eqn:He. pose proof (IH h1) as Hl. destruct (end_all l w h1) as [h2 o2]. simpl in *.
  rewrite Hl. pose proof (end_phase s w h x) as Hp. rewrite He in Hp. simpl in Hp. rewrite Hp.
  repeat case_decide; set_solver.
Qed.

(** ** The invariant *)

(** The sets are what the phases say. *)
Record HubSets (h : Hub) : Prop := mkHubSets {
  hs_sockets : forall s, s ∈ sockets h <-> closed (phase_of s h) = false;
  hs_nodup : NoDup (sockets h);
  hs_pending : forall s, s ∈ pending h <-> waiting (phase_of s h) = true;
  hs_pending_nodup : NoDup (pending h);
  hs_user : forall u s, s ∈ own_sockets u h <-> open_for_user u (phase_of s h) = true;
  hs_user_nodup : forall u, NoDup (own_sockets u h);
  hs_user_some : forall u, byUser h !! u <> Some [];
  hs_timer : forall s k, table h !! s = Some k -> sk_authTimer k = waiting (sk_phase k);
  hs_heartbeat : heartbeat h = match sockets h with [] => false | _ => true end }.

Lemma leave_own u s p (h : Hub) :
  (forall v, s ∈ own_sockets v h -> open_for_user v p = true) ->
  default [] (leave_user p s (byUser h) !! u) = without_socket s (own_sockets u h).
Proof.
  intros Hs. assert (forall v, open_for_user v p = false -> without_socket s (own_sockets v h) = own_sockets v h) as Hother.
  { intros v Hv. apply without_absent. intros Hin%Hs. congruence. }
  unfold leave_user. destruct p as [|t|v t r x|]; try (symmetry; by apply Hother).
  unfold own_sockets in *. destruct (decide (v = u)) as [->|Hne].
  - destruct (byUser h !! u) as [own|] eqn:Hu; simpl; [|by rewrite Hu].
    destruct (without_socket s own) eqn:Hw; [by rewrite lookup_delete_eq|by rewrite lookup_insert_eq].
  - rewrite Hother by (simpl; by apply String.eqb_neq).
    destruct (byUser h !! v) as [own|]; [|done].
    destruct (without_socket s own); [by rewrite lookup_delete_ne|by rewrite lookup_insert_ne].
Qed.

Lemma leave_some u s p m : (forall v, m !! v <> Some []) -> leave_user p s m !! u <> Some [].
Proof.
  intros Hm. destruct p as [|t|v t r x|]; simpl; try apply Hm. destruct (m !! v) as [own|]; [|apply Hm].
  destruct (without_socket s own) eqn:Hw; destruct (decide (v = u)) as [->|Hne].
  - by rewrite lookup_delete_eq.
  - rewrite lookup_delete_ne by done. apply Hm.
  - by rewrite lookup_insert_eq.
  - rewrite lookup_insert_ne by done. apply Hm.
Qed.

Lemma ended_own s u h : HubSets h -> own_sockets u (ended s h) = without_socket s (own_sockets u h).
Proof. intros I. unfold own_sockets at 1, ended. simpl. apply leave_own. intros v. apply I. Qed.

Lemma ended_keeps s h : HubSets h -> closed (phase_of s h) = false -> HubSets (ended s h).
Proof.
  intros I Hc. pose proof (end_phase s ClientClosed h) as Hp. rewrite end_live in Hp by done. simpl in Hp.
  assert (forall f : Phase -> bool, f Closed = false -> forall l, (forall x, x ∈ l <-> f (phase_of x h) = true) ->
    forall x, x ∈ without_socket s l <-> f (phase_of x (ended s h)) = true) as Hset.
  { intros f Hf l Hl x. rewrite without_elem, Hp, Hl. destruct (decide (x = s)) as [->|]; [rewrite Hf|]; naive_solver. }
  constructor.
  - intros x. simpl. rewrite (Hset (fun p => negb (closed p))); [by rewrite negb_true_iff|done|].
    intros y. rewrite negb_true_iff. apply I.
  - apply without_nodup, I.
  - intros x. simpl. apply Hset; [done|]. apply I.
  - apply without_nodup, I.
  - intros u x. rewrite ended_own by done. apply Hset; [done|]. apply I.
  - intros u. rewrite ended_own by done. apply without_nodup, I.
  - intros u. simpl. apply leave_some, I.
  - intros x k. simpl. destruct (decide (x = s)) as [->|Hne].
    + rewrite lookup_alter_eq. by intros (k' & _ & ->)%fmap_Some.
    + rewrite lookup_alter_ne by done. apply I.
  - simpl. rewrite (hs_heartbeat h I). destruct (sockets h) as [|a l] eqn:Hl; [done|].
    destruct (without_socket s (a :: l)); done.
Qed.

Lemma end_keeps s w h : HubSets h -> HubSets (end_ s w h).1.
Proof.
  intros I. destruct (closed (phase_of s h)) eqn:Hc; [by rewrite end_closed|].
  rewrite end_live by done. by apply ended_keeps.
Qed.

(** A smaller hub: fewer sockets in each of its sets. *)
Definition smaller (h' h : Hub) : Prop :=
  (length (sockets h') <= length (sockets h))%nat /\ (length (pending h') <= length (pending h))%nat
  /\ (forall u, length (own_sockets u h') <= length (own_sockets u h))%nat /\ stopping h' = stopping h.

Lemma smaller_refl h : smaller h h.
Proof. by repeat split. Qed.
Lemma smaller_trans a b c : smaller a b -> smaller b c -> smaller a c.
Proof. intros (? & ? & Hu & Hab) (? & ? & Hv & Hbc). rewrite Hbc in Hab. split_and!; [lia..| |done]. intros u. specialize (Hu u). specialize (Hv u). lia. Qed.

Lemma end_smaller s w h : HubSets h -> smaller (end_ s w h).1 h.
Proof.
  intros I. destruct (closed (phase_of s h)) eqn:Hc; [rewrite end_closed by done; apply smaller_refl|].
  rewrite end_live by done. split_and!; simpl; try apply without_length; [|done].
  intros u. rewrite ended_own by done. apply without_length.
Qed.

Lemma end_all_keeps l w h : HubSets h -> HubSets (end_all l w h).1 /\ smaller (end_all l w h).1 h.
Proof.
  revert h. induction l as [|s l IH]; intros h I; simpl; [split; [done|apply smaller_refl]|].
  pose proof (end_keeps s w h I) as I1. pose proof (end_smaller s w h I) as Hs.
  destruct (end_ s w h) as [h1 o1]. simpl in *. destruct (IH h1 I1) as [I2 Hs2].
  destruct (end_all l w h1) as [h2 o2]. simpl in *. split; [done|]. by eapply smaller_trans.
Qed.

(** ** Steps keep the invariant *)

Definition HubRoom (options : SocketOptions) (h : Hub) : Prop :=
  (length (sockets h) <= perInstance options)%nat /\ (length (pending h) <= pendingPerInstance options)%nat
  /\ (forall u, length (own_sockets u h) <= perUser options)%nat.

Definition HubInv (options : SocketOptions) (h : Hub) : Prop :=
  HubSets h /\ HubRoom options h /\ (stopping h = true -> sockets h = []).

Lemma smaller_keeps options h h' : HubSets h' -> smaller h' h -> HubInv options h -> HubInv options h'.
Proof.
  intros I' (Hs & Hp & Hu & Hst) (_ & (? & ? & Hown) & Hstop). split_and!; [done| |].
  - split_and!; [lia|lia|]. intros u. specialize (Hown u). specialize (Hu u). lia.
  - rewrite Hst. intros Hstopped. rewrite (Hstop Hstopped) in Hs. simpl in Hs. destruct (sockets h'); [done|simpl in Hs; lia].
Qed.

Lemma end_inv options s w h : HubInv options h -> HubInv options (end_ s w h).1.
Proof. intros I. eapply smaller_keeps; [apply end_keeps, I|apply end_smaller, I|done]. Qed.

Lemma end_all_inv options l w h : HubInv options h -> HubInv options (end_all l w h).1.
Proof. intros I. eapply smaller_keeps; [apply end_all_keeps, I|apply end_all_keeps, I|done]. Qed.

(** A change of phase that changes no set. *)
Lemma set_phase_keeps options s p timer h :
  HubInv options h -> closed (phase_of s h) = false -> closed p = false -> waiting p = waiting (phase_of s h) ->
  (forall u, open_for_user u p = open_for_user u (phase_of s h)) -> timer = waiting p ->
  HubInv options (set_phase s p timer h).
Proof.
  intros ([I1 I2 I3 I4 I5 I6 I7 I8 I9] & Hroom & Hst) Hc Hp Hw Ho ->.
  assert (forall f : Phase -> bool, f p = f (phase_of s h) -> forall x, f (phase_of x (set_phase s p (waiting p) h)) = f (phase_of x h))
    as Hf.
  { intros f Hf x. unfold set_phase. rewrite phase_alter. destruct (decide (x = s)) as [->|]; [|done].
    apply phase_some in Hc as [k ->]. done. }
  split; [|done]. constructor; simpl; try done.
  - intros x. rewrite (Hf closed) by congruence. apply I1.
  - intros x. rewrite (Hf waiting) by done. apply I3.
  - intros u x. rewrite (Hf (open_for_user u)) by done. apply I5.
  - intros x k. destruct (decide (x = s)) as [->|Hne].
    + rewrite lookup_alter_eq. by intros (k' & _ & ->)%fmap_Some.
    + rewrite lookup_alter_ne by done. apply I8.
Qed.

Lemma set_alive_phase s b h x : phase_of x (set_alive s b h) = phase_of x h.
Proof.
  unfold set_alive. rewrite phase_alter. destruct (decide (x = s)) as [->|]; [|done]. unfold phase_of.
  by destruct (table h !! s).
Qed.

Lemma set_alive_keeps options s b h : HubInv options h -> HubInv options (set_alive s b h).
Proof.
  intros ([I1 I2 I3 I4 I5 I6 I7 I8 I9] & Hroom & Hst). split; [|done].
  constructor; simpl; try done; try (by intros; rewrite set_alive_phase; first [apply I1|apply I3|apply I5]).
  intros x k. destruct (decide (x = s)) as [->|Hne].
  - rewrite lookup_alter_eq. intros (k' & Hk & ->)%fmap_Some. simpl. by apply (I8 s).
  - rewrite lookup_alter_ne by done. apply I8.
Qed.

Section Steps.
Context (options : SocketOptions) (tokenExpiry : string -> option Z).

(** A token that has not expired. *)
Definition unexpired (token : string) (now_ms : Z) : Prop := forall t, tokenExpiry token = Some t -> now_ms < t.

Definition opened (s : nat) (u token : string) (expiry : option Z) (h : Hub) : Hub :=
  mkHub (alter (fun k => mkChatSocket (Opened u token RecheckSet expiry) false (sk_alive k)) s (table h)) (sockets h)
    (without_socket s (pending h)) (<[u := own_sockets u h ++ [s]]> (byUser h)) (heartbeat h) (stopping h).

Lemma alter_twice s f g (m : gmap nat ChatSocket) : alter f s (alter g s m) = alter (fun k => f (g k)) s m.
Proof.
  apply map_eq. intros x. destruct (decide (x = s)) as [->|Hne].
  - rewrite !lookup_alter_eq. by destruct (m !! s).
  - by rewrite !lookup_alter_ne.
Qed.

(** Signing in ends the socket, or opens it. *)
Lemma signing_in_does s u token now_ms h :
  phase_of s h = Authenticating token ->
  (exists r, open_ options tokenExpiry s u token now_ms h = end_ s (ByServer r) h)
  \/ exists expiry, open_ options tokenExpiry s u token now_ms h = (opened s u token expiry h, [Send s Ready])
     /\ unexpired token now_ms /\ (length (own_sockets u h) < perUser options)%nat.
Proof.
  intros Hp. assert (forall r, end_ s (ByServer r)
      (mkHub (alter (fun k => mkChatSocket (sk_phase k) false (sk_alive k)) s (table h)) (sockets h)
        (without_socket s (pending h)) (byUser h) (heartbeat h) (stopping h)) = end_ s (ByServer r) h) as Hend.
  { intros r. set (h1 := mkHub (alter _ _ _) _ _ _ _ _).
    assert (phase_of s h1 = phase_of s h) as Hsame.
    { unfold h1. rewrite phase_alter, decide_True by done. unfold phase_of. by destruct (table h !! s). }
    rewrite !end_live by (by rewrite ?Hsame, Hp). unfold ended. rewrite Hsame. simpl.
    by rewrite alter_twice, without_twice. }
  unfold open_. change (own_sockets u (mkHub _ _ _ (byUser h) _ _)) with (own_sockets u h).
  destruct (Nat.leb_spec (perUser options) (length (own_sockets u h))) as [|Hroom]; [left; eauto|].
  unfold unexpired. destruct (tokenExpiry token) as [t|]; simpl.
  - destruct (Z.leb_spec (t - now_ms) 0) as [|Hlt]; [left; eauto|]. right. eexists. split; [|split; [|done]].
    + unfold opened. simpl. by rewrite alter_twice.
    + intros t' [= <-]. lia.
  - right. exists None. split; [|done]. unfold opened. simpl. by rewrite alter_twice.
Qed.

Lemma opened_phase s u token expiry h x :
  closed (phase_of s h) = false ->
  phase_of x (opened s u token expiry h) = if decide (x = s) then Opened u token RecheckSet expiry else phase_of x h.
Proof.
  intros Hc. unfold opened. rewrite phase_alter. destruct (decide (x = s)); [|done].
  apply phase_some in Hc as [k ->]. done.
Qed.

Lemma opened_own s u token expiry h v :
  own_sockets v (opened s u token expiry h) = if decide (v = u) then own_sockets u h ++ [s] else own_sockets v h.
Proof.
  unfold own_sockets, opened. simpl. destruct (decide (v = u)) as [->|]; [by rewrite lookup_insert_eq|].
  by rewrite lookup_insert_ne.
Qed.

Lemma opened_keeps s u token expiry h :
  HubInv options h -> phase_of s h = Authenticating token -> (length (own_sockets u h) < perUser options)%nat ->
  HubInv options (opened s u token expiry h).
Proof.
  intros (I & (Hs & Hpd & Hu) & Hst) Hp Hroom. assert (closed (phase_of s h) = false) as Hc by (by rewrite Hp).
  assert (forall v, s ∉ own_sockets v h) as Hno.
  { intros v Hin. apply I in Hin. by rewrite Hp in Hin. }
  split; [|split; [|done]].
  - constructor; simpl; try apply I.
    + intros x. rewrite opened_phase by done. destruct (decide (x = s)) as [->|]; [|apply I].
      rewrite (hs_sockets h I). by rewrite Hp.
    + intros x. rewrite opened_phase, without_elem by done. rewrite (hs_pending h I). destruct (decide (x = s)); naive_solver.
    + apply without_nodup, I.
    + intros v x. rewrite opened_phase, opened_own by done. destruct (decide (v = u)) as [->|Hv].
      * rewrite elem_of_app, list_elem_of_singleton, (hs_user h I). destruct (decide (x = s)) as [->|]; simpl.
        -- rewrite String.eqb_refl. tauto.
        -- tauto.
      * destruct (decide (x = s)) as [->|]; [|apply I]. simpl. rewrite (proj2 (String.eqb_neq u v)) by congruence.
        split; [|done]. intros Hin. by destruct (Hno v).
    + intros v. rewrite opened_own. destruct (decide (v = u)); [|apply I]. apply NoDup_app.
      split_and!; [apply I| |apply NoDup_singleton]. intros x Hx ->%list_elem_of_singleton. by destruct (Hno u).
    + intros v. destruct (decide (v = u)) as [->|]; [rewrite lookup_insert_eq; by destruct (own_sockets u h)|].
      rewrite lookup_insert_ne by done. apply I.
    + intros x k. destruct (decide (x = s)) as [->|Hne].
      * rewrite lookup_alter_eq. by intros (k' & _ & ->)%fmap_Some.
      * rewrite lookup_alter_ne by done. apply I.
  - split_and!; [done|simpl; pose proof (without_length s (pending h)); lia|]. intros v. rewrite opened_own.
    destruct (decide (v = u)); [rewrite length_app; simpl; lia|apply Hu].
Qed.
End Steps.
