(* ===== verification/SocketHubSteps.v ===== *)
(** * SocketHubSteps: how an event moves each socket, and what it makes the peers do

    [moved] lists every way a phase changes; [hub_step_moved] says there is no other. [told] says that an event
    makes each peer do one thing at most, that only sockets still connected are told anything, and that
    one told to close is closed. *)
From S2P Require Export SocketHubFacts.
#[local] Open Scope Z_scope.

Section Steps.
Context (options : SocketOptions) (tokenExpiry : string -> option Z).

(** ** Phases *)

Inductive moved (ev : HubEvent) (x : nat) (h : Hub) : Phase -> Phase -> Prop :=
  | mv_same p : moved ev x h p p
  | mv_closed p : moved ev x h p Closed
  | mv_connect : ev = EvConnect x -> table h !! x = None -> moved ev x h Closed AwaitingAuth
  | mv_frame t : ev = EvFrame x (AuthFrame t) -> moved ev x h AwaitingAuth (Authenticating t)
  | mv_open u t now_ms e : ev = EvAuthenticated x (Ok u) now_ms -> unexpired tokenExpiry t now_ms ->
      moved ev x h (Authenticating t) (Opened u t RecheckSet e)
  | mv_recheck u t r r' e : moved ev x h (Opened u t r e) (Opened u t r' e).

Lemma end_moved ev x s w h : moved ev x h (phase_of x h) (phase_of x (end_ s w h).1).
Proof. rewrite end_phase. destruct (decide (x = s)); constructor. Qed.

Lemma end_all_moved ev x l w h : moved ev x h (phase_of x h) (phase_of x (end_all l w h).1).
Proof. rewrite end_all_phase. case_decide; constructor. Qed.

Lemma set_phase_phase s p timer h x :
  phase_of x (set_phase s p timer h) = if decide (x = s) then (match table h !! s with Some _ => p | None => Closed end) else phase_of x h.
Proof. unfold set_phase. rewrite phase_alter. done. Qed.

Lemma beat_all_phase l h x : phase_of x (beat_all l h).1 = phase_of x h \/ phase_of x (beat_all l h).1 = Closed.
Proof.
  revert h. induction l as [|s l IH]; intros h; simpl; [by left|].
  assert (phase_of x (beat_one s h).1 = phase_of x h \/ phase_of x (beat_one s h).1 = Closed) as H1.
  { unfold beat_one. destruct (table h !! s); [|by left]. destruct (sk_alive _); simpl; [left; apply set_alive_phase|].
    rewrite end_phase. destruct (decide (x = s)); auto. }
  destruct (beat_one s h) as [h1 o1]. specialize (IH h1). destruct (beat_all l h1) as [h2 o2]. simpl in *.
  destruct IH as [->| ->]; auto.
Qed.

(** The hub a connection leaves, refused or not. *)
Definition joined (s : nat) (h : Hub) : Hub :=
  mkHub (<[s := mkChatSocket AwaitingAuth true true]> (table h)) (sockets h ++ [s]) (pending h ++ [s]) (byUser h) true
    (stopping h).
Definition turned_away (s : nat) (h : Hub) : Hub :=
  mkHub (<[s := mkChatSocket Closed false true]> (table h)) (sockets h) (pending h) (byUser h) (heartbeat h) (stopping h).

Inductive connects (s : nat) (h : Hub) : Hub -> list Output -> Prop :=
  | cn_stopping : stopping h = true -> connects s h (turned_away s h) [CloseWith s 1001]
  | cn_full : stopping h = false -> (perInstance options <= length (sockets h))%nat ->
      connects s h (turned_away s h) [CloseWith s 4429]
  | cn_all_signing_in : stopping h = false -> (forall x, x ∈ pending h -> phase_of x h <> AwaitingAuth) ->
      (pendingPerInstance options <= length (pending h))%nat -> connects s h (turned_away s h) [CloseWith s 4429]
  | cn_joined : stopping h = false -> (length (sockets h) < perInstance options)%nat ->
      (length (pending h) < pendingPerInstance options)%nat -> connects s h (joined s h) []
  | cn_pushed x pre post : stopping h = false -> (length (sockets h) < perInstance options)%nat ->
      (pendingPerInstance options <= length (pending h))%nat ->
      pending h = pre ++ x :: post -> phase_of x h = AwaitingAuth ->
      (forall y, y ∈ pre -> phase_of y h <> AwaitingAuth) ->
      connects s h (joined s (ended x h)) [CloseWith x 4429].

Lemma awaits_spec h x : awaits h x = true <-> phase_of x h = AwaitingAuth.
Proof. unfold awaits. destruct (phase_of x h); done. Qed.

Lemma first_found {A} (p : A -> bool) l x :
  List.find p l = Some x -> exists pre post, l = pre ++ x :: post /\ forall y, y ∈ pre -> p y = false.
Proof.
  induction l as [|a l IH]; simpl; [done|]. destruct (p a) eqn:Ha.
  - intros [= <-]. exists [], l. split; [done|set_solver].
  - intros (pre & post & -> & Hpre)%IH. exists (a :: pre), post. split; [done|]. set_solver.
Qed.

Lemma away_does s h r st :
  HubSets h -> table h !! s = None -> stopping h = st ->
  end_ s (ByServer r) (mkHub (<[s := mkChatSocket AwaitingAuth true true]> (table h)) (sockets h ++ [s]) (pending h ++ [s])
    (byUser h) (heartbeat h) st) = (turned_away s h, [CloseWith s (close_code r)]).
Proof.
  intros I Hs <-. assert (phase_of s h = Closed) as Hc by (unfold phase_of; by rewrite Hs).
  set (h2 := mkHub _ _ _ _ _ _). assert (phase_of s h2 = AwaitingAuth) as Hp.
  { unfold phase_of, h2. simpl. by rewrite lookup_insert_eq. }
  assert (s ∉ sockets h /\ s ∉ pending h) as [Hn1 Hn2].
  { split; [rewrite (hs_sockets h I)|rewrite (hs_pending h I)]; by rewrite Hc. }
  rewrite end_live by (by rewrite Hp). unfold ended. rewrite Hp. simpl. unfold turned_away.
  rewrite !without_app, !without_self, !app_nil_r, !without_absent by done. f_equal. f_equal.
  - apply map_eq. intros x. destruct (decide (x = s)) as [->|Hne].
    + by rewrite lookup_alter_eq, !lookup_insert_eq.
    + by rewrite lookup_alter_ne, !lookup_insert_ne.
  - rewrite (hs_heartbeat h I). by destruct (sockets h).
Qed.

Lemma connect_does s h :
  HubSets h -> table h !! s = None -> connects s h (connect options s h).1 (connect options s h).2.
Proof.
  intros I Hs. unfold connect. destruct (stopping h) eqn:Hst.
  { rewrite away_does by done. by apply cn_stopping. }
  destruct (Nat.leb_spec (perInstance options) (length (sockets h))) as [Hfull|Hroom].
  { rewrite away_does by done. by apply cn_full. }
  unfold makeRoomToWait. destruct (Nat.ltb_spec (length (pending h)) (pendingPerInstance options)) as [Hwait|Hfull].
  { replace false with (stopping h). by apply cn_joined. }
  destruct (List.find (awaits h) (pending h)) as [x|] eqn:Hf.
  - destruct (find_elem _ _ _ Hf) as [_ Hx%awaits_spec]. apply first_found in Hf as (pre & post & Heq & Hpre).
    rewrite end_live by (by rewrite Hx). simpl. eapply (cn_pushed s h x); try done.
    intros y Hy Hyp. specialize (Hpre y Hy). by rewrite (proj2 (awaits_spec h y) Hyp) in Hpre.
  - rewrite away_does by done. apply cn_all_signing_in; try done.
    intros x Hx Hxp. pose proof (find_none_elem _ _ Hf x Hx) as Hno. by rewrite (proj2 (awaits_spec h x) Hxp) in Hno.
Qed.

Lemma joined_phase s h x : phase_of x (joined s h) = if decide (x = s) then AwaitingAuth else phase_of x h.
Proof.
  unfold phase_of, joined. simpl. destruct (decide (x = s)) as [->|]; [by rewrite lookup_insert_eq|by rewrite lookup_insert_ne].
Qed.
Lemma turned_away_phase s h x : phase_of x (turned_away s h) = if decide (x = s) then Closed else phase_of x h.
Proof.
  unfold phase_of, turned_away. simpl. destruct (decide (x = s)) as [->|]; [by rewrite lookup_insert_eq|by rewrite lookup_insert_ne].
Qed.
Lemma ended_phase s h x : closed (phase_of s h) = false -> phase_of x (ended s h) = if decide (x = s) then Closed else phase_of x h.
Proof. intros Hc. pose proof (end_phase s ClientClosed h x) as Hp. by rewrite end_live in Hp. Qed.

Lemma connect_phase s h h' out x :
  table h !! s = None -> connects s h h' out -> moved (EvConnect s) x h (phase_of x h) (phase_of x h').
Proof.
  intros Hs Hc. assert (phase_of s h = Closed) as Hp by (unfold phase_of; by rewrite Hs).
  destruct Hc as [| | | |y pre post _ _ _ _ Hy _]; rewrite ?turned_away_phase, ?joined_phase; try rewrite ended_phase by (by rewrite Hy);
    repeat case_decide; subst; try (by constructor); rewrite Hp; by apply mv_connect.
Qed.

(** Every way an event changes what a socket is. *)
Lemma hub_step_moved h ev x :
  HubInv options h -> moved ev x h (phase_of x h) (phase_of x (hub_step options tokenExpiry h ev).1).
Proof.
  intros (I & _ & _). destruct ev as [s|s f|s a now_ms|s|s|s|s a| |s|s|w us o n|u| ]; simpl.
  - destruct (table h !! s) eqn:Hs; simpl; [constructor|]. eapply connect_phase; [done|]. by apply connect_does.
  - unfold received. destruct (phase_of s h) eqn:Hp, f as [t|]; try apply end_moved; try constructor. simpl.
    rewrite set_phase_phase. destruct (decide (x = s)) as [->|]; [|constructor]. rewrite Hp.
    destruct (phase_some s h) as [k Hk]; [by rewrite Hp|]. rewrite Hk. by apply mv_frame.
  - unfold authenticated. destruct (phase_of s h) as [|t|u t r e|] eqn:Hp; try constructor.
    destruct a as [u|e]; [|apply end_moved].
    destruct (signing_in_does options tokenExpiry s u t now_ms h Hp) as [[r ->]|(e & -> & Hun & _)]; [apply end_moved|]. simpl.
    rewrite opened_phase by (by rewrite Hp). destruct (decide (x = s)) as [->|]; [|constructor]. rewrite Hp. by eapply mv_open.
  - unfold auth_timeout. destruct (table h !! s) as [k|]; [|constructor]. destruct (sk_authTimer k); [apply end_moved|constructor].
  - unfold expire. destruct (phase_of s h) as [|t|u t r [e|]|]; try constructor. apply end_moved.
  - unfold recheck_due. destruct (phase_of s h) as [|t|u t [|] e|] eqn:Hp; try constructor. simpl. rewrite set_phase_phase.
    destruct (decide (x = s)) as [->|]; [|constructor]. rewrite Hp. destruct (table h !! s); constructor.
  - unfold rechecked. destruct (phase_of s h) as [|t|u t [|] e|] eqn:Hp; try constructor.
    destruct a as [v|y]; [|apply end_moved]. simpl. rewrite set_phase_phase.
    destruct (decide (x = s)) as [->|]; [|constructor]. rewrite Hp. destruct (table h !! s); constructor.
  - unfold beat. destruct (heartbeat h); [|constructor]. destruct (beat_all_phase (sockets h) h x) as [->| ->]; constructor.
  - rewrite set_alive_phase. constructor.
  - apply end_moved.
  - constructor.
  - apply end_all_moved.
  - unfold onModuleDestroy. rewrite end_all_phase. case_decide; constructor.
Qed.

(** ** The invariant holds *)

Lemma joined_keeps s h :
  HubSets h -> table h !! s = None -> stopping h = false -> (length (sockets h) < perInstance options)%nat ->
  (length (pending h) < pendingPerInstance options)%nat -> (forall u, length (own_sockets u h) <= perUser options)%nat ->
  HubInv options (joined s h).
Proof.
  intros I Hs Hst H1 H2 Hu. assert (phase_of s h = Closed) as Hc by (unfold phase_of; by rewrite Hs).
  split; [|split].
  - constructor; simpl; try apply I.
    + intros x. rewrite joined_phase, elem_of_app, list_elem_of_singleton, (hs_sockets h I).
      destruct (decide (x = s)) as [->|]; naive_solver.
    + apply NoDup_app. split_and!; [apply I| |apply NoDup_singleton]. intros x Hx ->%list_elem_of_singleton.
      apply I in Hx. by rewrite Hc in Hx.
    + intros x. rewrite joined_phase, elem_of_app, list_elem_of_singleton, (hs_pending h I).
      destruct (decide (x = s)) as [->|]; naive_solver.
    + apply NoDup_app. split_and!; [apply I| |apply NoDup_singleton]. intros x Hx ->%list_elem_of_singleton.
      apply I in Hx. by rewrite Hc in Hx.
    + intros u x. rewrite joined_phase. change (own_sockets u (joined s h)) with (own_sockets u h).
      rewrite (hs_user h I). destruct (decide (x = s)) as [->|]; [rewrite Hc; done|done].
    + intros x k. destruct (decide (x = s)) as [->|]; [rewrite lookup_insert_eq; by intros [= <-]|].
      rewrite lookup_insert_ne by done. apply I.
    + by destruct (sockets h).
  - split_and!; simpl; rewrite ?length_app; simpl; [lia|lia|done].
  - simpl. by rewrite Hst.
Qed.

Lemma turned_away_keeps s h : HubInv options h -> table h !! s = None -> HubInv options (turned_away s h).
Proof.
  intros (I & Hroom & Hst) Hs. assert (phase_of s h = Closed) as Hc by (unfold phase_of; by rewrite Hs).
  assert (forall x, phase_of x (turned_away s h) = phase_of x h) as Hp.
  { intros x. rewrite turned_away_phase. by destruct (decide (x = s)) as [->|]. }
  split; [|done]. constructor; simpl; try apply I; try (intros; rewrite Hp; apply I).
  intros x k. destruct (decide (x = s)) as [->|]; [rewrite lookup_insert_eq; by intros [= <-]|].
  rewrite lookup_insert_ne by done. apply I.
Qed.

Lemma connect_keeps s h h' out : HubInv options h -> table h !! s = None -> connects s h h' out -> HubInv options h'.
Proof.
  intros (I & (Hs & Hp & Hu) & Hst) Hn Hc. destruct Hc as [Hc|Hc H1|Hc H1 H2|Hc H1 H2|x pre post Hc H1 H2 Heq Hx _].
  - by apply turned_away_keeps.
  - by apply turned_away_keeps.
  - by apply turned_away_keeps.
  - by apply joined_keeps.
  - assert (closed (phase_of x h) = false) as Hlive by (by rewrite Hx).
    pose proof (ended_keeps x h I Hlive) as I'. pose proof (end_smaller x ClientClosed h I) as Hsm.
    rewrite end_live in Hsm by done. destruct Hsm as (Hs' & _ & Hu' & Hst'). simpl in Hs', Hu', Hst'.
    apply joined_keeps; simpl; [done| |done|lia| |].
    + rewrite lookup_alter_ne; [done|]. intros ->. unfold phase_of in Hx. by rewrite Hn in Hx.
    + pose proof (without_shorter x (pending h)) as Hlt. rewrite Heq in Hlt at 1. specialize (Hlt ltac:(set_solver)). lia.
    + intros u. specialize (Hu u). specialize (Hu' u). lia.
Qed.

Lemma beat_all_keeps l h : HubInv options h -> HubInv options (beat_all l h).1.
Proof.
  revert h. induction l as [|s l IH]; intros h I; simpl; [done|].
  assert (HubInv options (beat_one s h).1) as I1.
  { unfold beat_one. destruct (table h !! s); [|done]. destruct (sk_alive _); [by apply set_alive_keeps|by apply end_inv]. }
  destruct (beat_one s h) as [h1 o1]. specialize (IH h1 I1). by destruct (beat_all l h1).
Qed.

Lemma step_keeps_hub h ev : HubInv options h -> HubInv options (hub_step options tokenExpiry h ev).1.
Proof.
  intros I. pose proof I as (I0 & _ & _). destruct ev as [s|s f|s a now_ms|s|s|s|s a| |s|s|w us o n|u| ]; simpl.
  - destruct (table h !! s) eqn:Hs; simpl; [done|]. eapply connect_keeps; [done|done|]. by apply connect_does.
  - unfold received. destruct (phase_of s h) eqn:Hp, f as [t|]; try apply end_inv; try done. simpl.
    apply set_phase_keeps; rewrite ?Hp; try done. unfold phase_of in Hp. destruct (table h !! s) as [k|] eqn:Hk; [|done].
    rewrite (hs_timer h I0 s k Hk). by rewrite Hp.
  - unfold authenticated. destruct (phase_of s h) as [|t|u t r e|] eqn:Hp; try done.
    destruct a as [u|e]; [|by apply end_inv].
    destruct (signing_in_does options tokenExpiry s u t now_ms h Hp) as [[r ->]|(e & -> & _ & Hlt)]; [by apply end_inv|]. simpl.
    by apply opened_keeps.
  - unfold auth_timeout. destruct (table h !! s) as [k|]; [|done]. destruct (sk_authTimer k); [by apply end_inv|done].
  - unfold expire. destruct (phase_of s h) as [|t|u t r [e|]|]; try done. by apply end_inv.
  - unfold recheck_due. destruct (phase_of s h) as [|t|u t [|] e|] eqn:Hp; try done. by apply set_phase_keeps; rewrite ?Hp.
  - unfold rechecked. destruct (phase_of s h) as [|t|u t [|] e|] eqn:Hp; try done.
    destruct a as [v|y]; [|by apply end_inv]. by apply set_phase_keeps; rewrite ?Hp.
  - unfold beat. destruct (heartbeat h); [by apply beat_all_keeps|done].
  - by apply set_alive_keeps.
  - by apply end_inv.
  - done.
  - by apply end_all_inv.
  - unfold onModuleDestroy. set (h1 := mkHub _ _ _ _ _ true).
    assert (HubSets h1) as I1 by (destruct I0; by constructor).
    destruct (end_all_keeps (sockets h) (ByServer Shutdown) h1 I1) as [I2 (Hs & Hp & Hu & Hst)].
    destruct I as (_ & (? & ? & Hroom) & _). split; [done|]. split.
    + split_and!; [simpl in *; lia..|]. intros u. specialize (Hroom u). specialize (Hu u).
      change (own_sockets u h1) with (own_sockets u h) in Hu. lia.
    + intros _. destruct (sockets (end_all _ _ h1).1) as [|x l] eqn:Hl; [done|]. exfalso.
      assert (x ∈ sockets (end_all (sockets h) (ByServer Shutdown) h1).1) as Hx by (rewrite Hl; set_solver).
      apply (hs_sockets _ I2) in Hx. rewrite end_all_phase in Hx. case_decide as Hin; [done|].
      apply Hin, (hs_sockets h I0). done.
Qed.

(** ** Outputs *)

Definition known (s : nat) (h : Hub) : Prop := is_Some (table h !! s).
(** Known, and closed for good. *)
Definition gone (s : nat) (h : Hub) : Prop := known s h /\ phase_of s h = Closed.

Lemma alter_known s x f h l pd b hb st : known x (mkHub (alter f s (table h)) l pd b hb st) <-> known x h.
Proof.
  unfold known. simpl. destruct (decide (x = s)) as [->|]; [rewrite lookup_alter_eq|by rewrite lookup_alter_ne].
  by rewrite fmap_is_Some.
Qed.

Lemma end_known s w h x : known x (end_ s w h).1 <-> known x h.
Proof.
  destruct (closed (phase_of s h)) eqn:Hc; [by rewrite end_closed|]. rewrite end_live by done. apply alter_known.
Qed.

Lemma beat_one_known s h x : known x (beat_one s h).1 <-> known x h.
Proof.
  unfold beat_one. destruct (table h !! s); [|done]. destruct (sk_alive _); [apply alter_known|apply end_known].
Qed.

Definition last_word (o : Output) : bool := match o with CloseWith _ _ | Terminate _ => true | _ => false end.

(** What one round of a loop over sockets makes the peers do: one thing each at most, in the loop's order,
    to live sockets only, and one whose last word it was is gone. *)
Definition told (h : Hub) (r : Hub * list Output) : Prop :=
  NoDup (output_socket <$> r.2)
  /\ (forall o, o ∈ r.2 -> closed (phase_of (output_socket o) h) = false)
  /\ (forall o, o ∈ r.2 -> last_word o = true -> gone (output_socket o) r.1).

Lemma told_nothing h h' : told h (h', []).
Proof. split_and!; [constructor|set_solver|set_solver]. Qed.

Lemma told_one h h' o :
  closed (phase_of (output_socket o) h) = false -> (last_word o = true -> gone (output_socket o) h') -> told h (h', [o]).
Proof. intros H1 H2. split_and!; simpl; [apply NoDup_singleton|set_solver|set_solver]. Qed.

Lemma end_gone s w h : closed (phase_of s h) = false -> gone s (end_ s w h).1.
Proof. intros Hc. split; [by apply end_known, phase_some|]. by rewrite end_phase, decide_True. Qed.

Lemma end_told s w h : told h (end_ s w h).
Proof.
  destruct (closed (phase_of s h)) eqn:Hc; [rewrite end_closed by done; apply told_nothing|].
  pose proof (end_gone s w h Hc) as Hg. rewrite end_live in * by done. simpl in Hg.
  destruct w; simpl; [by apply told_one|apply told_nothing|by apply told_one].
Qed.

Lemma end_out_socket s w h o : o ∈ (end_ s w h).2 -> output_socket o = s.
Proof.
  destruct (closed (phase_of s h)) eqn:Hc; [rewrite end_closed by done; set_solver|].
  rewrite end_live by done. destruct w; simpl; set_solver.
Qed.

(** A loop over sockets, each of which tells at most the one it is at. *)
Section Loop.
Context (one : nat -> Hub -> Hub * list Output) (all : list nat -> Hub -> Hub * list Output)
  (all_nil : forall h, all [] h = (h, []))
  (all_cons : forall s l h, all (s :: l) h = ((all l (one s h).1).1, (one s h).2 ++ (all l (one s h).1).2))
  (one_told : forall s h, closed (phase_of s h) = false -> told h (one s h)) (one_socket : forall s h o, o ∈ (one s h).2 -> output_socket o = s)
  (one_gone : forall s h x, gone x h -> gone x (one s h).1)
  (one_phase : forall s h x, x <> s -> phase_of x (one s h).1 = phase_of x h).

Lemma all_gone l h x : gone x h -> gone x (all l h).1.
Proof. revert h. induction l as [|s l IH]; intros h Hg; [by rewrite all_nil|]. rewrite all_cons. simpl. auto. Qed.

Lemma all_socket l h o : o ∈ (all l h).2 -> output_socket o ∈ l.
Proof.
  clear one_told one_gone one_phase. revert h. induction l as [|s l IH]; intros h; [rewrite all_nil; set_solver|]. rewrite all_cons. simpl.
  intros [Ho|Ho]%elem_of_app; [rewrite (one_socket _ _ _ Ho); set_solver|apply IH in Ho; set_solver].
Qed.

Lemma all_told l h : NoDup l -> (forall s, s ∈ l -> closed (phase_of s h) = false) -> told h (all l h).
Proof.
  revert h. induction l as [|s l IH]; intros h Hn Hlive; [rewrite all_nil; apply told_nothing|].
  apply NoDup_cons in Hn as [Hs Hn]. rewrite all_cons.
  destruct (one_told s h) as (N1 & L1 & G1); [apply Hlive; set_solver|].
  destruct (IH (one s h).1 Hn) as (N2 & L2 & G2).
  { intros x Hx. rewrite one_phase by (by intros ->). apply Hlive. set_solver. } split_and!; simpl.
  - rewrite fmap_app. apply NoDup_app. split_and!; [done| |done].
    intros x (o & -> & Ho)%list_elem_of_fmap (o' & Heq & Ho')%list_elem_of_fmap.
    apply one_socket in Ho. apply all_socket in Ho'. congruence.
  - intros o [Ho|Ho]%elem_of_app; [by apply L1|]. specialize (L2 o Ho). rewrite one_phase in L2; [done|].
    apply all_socket in Ho. by intros Heq; rewrite Heq in Ho.
  - intros o [Ho|Ho]%elem_of_app Hw; [apply all_gone; by apply G1|by apply G2].
Qed.
End Loop.

Lemma end_all_told l w h :
  NoDup l -> (forall s, s ∈ l -> closed (phase_of s h) = false) -> told h (end_all l w h).
Proof.
  apply (all_told (fun s => end_ s w) (fun l => end_all l w)).
  - done.
  - intros s l' h'. simpl. destruct (end_ s w h') as [h1 o1]. simpl. by destruct (end_all l' w h1).
  - intros. apply end_told.
  - intros s h' o. apply end_out_socket.
  - intros s h' x [Hk Hp]. split; [by apply end_known|]. rewrite end_phase. by destruct (decide (x = s)).
  - intros s h' x Hne. by rewrite end_phase, decide_False.
Qed.

Lemma beat_one_does s h :
  beat_one s h = (h, []) \/ beat_one s h = (set_alive s false h, [Ping s]) \/ beat_one s h = end_ s NoPong h.
Proof. unfold beat_one. destruct (table h !! s) as [k|]; [destruct (sk_alive k)|]; auto. Qed.

Lemma beat_all_told l h :
  NoDup l -> (forall s, s ∈ l -> closed (phase_of s h) = false) -> told h (beat_all l h).
Proof.
  apply (all_told beat_one beat_all).
  - done.
  - intros s l' h'. simpl. destruct (beat_one s h') as [h1 o1]. simpl. by destruct (beat_all l' h1).
  - intros s h' Hc. destruct (beat_one_does s h') as [->|[->| ->]]; [apply told_nothing|by apply told_one|apply end_told].
  - intros s h' o. destruct (beat_one_does s h') as [->|[->| ->]]; [set_solver|set_solver|apply end_out_socket].
  - intros s h' x [Hk Hp]. destruct (beat_one_does s h') as [->|[->| ->]]; [done| |].
    + split; [by apply alter_known|simpl; by rewrite set_alive_phase].
    + split; [by apply end_known|]. rewrite end_phase. by destruct (decide (x = s)).
  - intros s h' x Hne. destruct (beat_one_does s h') as [->|[->| ->]]; [done|apply set_alive_phase|].
    by rewrite end_phase, decide_False.
Qed.

(** ** What an event tells the peers *)

Lemma step_known h ev s : known s h -> known s (hub_step options tokenExpiry h ev).1.
Proof.
  assert (forall l w h, known s h -> known s (end_all l w h).1) as Hall.
  { induction l as [|x l IH]; intros w h' Hk; simpl; [done|]. apply (end_known x w h' s) in Hk.
    destruct (end_ x w h') as [h1 o1]. specialize (IH w h1 Hk). by destruct (end_all l w h1). }
  assert (forall l h, known s h -> known s (beat_all l h).1) as Hbeat.
  { induction l as [|x l IH]; intros h' Hk; simpl; [done|]. apply (beat_one_known x h' s) in Hk.
    destruct (beat_one x h') as [h1 o1]. specialize (IH h1 Hk). by destruct (beat_all l h1). }
  intros Hk. destruct ev as [x|x f|x a now_ms|x|x|x|x a| |x|x|w us o n|u| ]; simpl.
  - destruct (is_some (table h !! x)); [done|]. unfold connect.
    destruct (if stopping h then _ else _) as [[r|] [h1 o1]] eqn:He.
    + assert (known s h1) as Hk1.
      { unfold makeRoomToWait in He. repeat case_match; by simplify_eq. }
      match goal with |- context [end_ x ?w ?h2] => pose proof (proj2 (end_known x w h2 s)) as Hend; destruct (end_ x w h2) end.
      apply Hend. unfold known in *. simpl. destruct (decide (s = x)) as [->|]; [rewrite lookup_insert_eq; eauto|by rewrite lookup_insert_ne].
    + assert (known s h1) as Hk1.
      { unfold makeRoomToWait in He. repeat case_match; simplify_eq; try done.
        match goal with K : end_ ?y ?w h = _ |- _ => pose proof (proj2 (end_known y w h s) Hk) as Hy; by rewrite K in Hy end. }
      unfold known in *. simpl. destruct (decide (s = x)) as [->|]; [rewrite lookup_insert_eq; eauto|by rewrite lookup_insert_ne].
  - unfold received. destruct (phase_of x h), f; try done; try (by apply end_known); by apply alter_known.
  - unfold authenticated. destruct (phase_of x h) as [|t|u t r e|] eqn:Hp; try done.
    destruct a as [u|y]; [|by apply end_known].
    destruct (signing_in_does options tokenExpiry x u t now_ms h Hp) as [[r ->]|(e & -> & _)]; [by apply end_known|by apply alter_known].
  - unfold auth_timeout. destruct (table h !! x) as [k|]; [|done]. destruct (sk_authTimer k); [by apply end_known|done].
  - unfold expire. destruct (phase_of x h) as [|t|u t r [e|]|]; try done. by apply end_known.
  - unfold recheck_due. destruct (phase_of x h) as [|t|u t [|] e|]; try done. by apply alter_known.
  - unfold rechecked. destruct (phase_of x h) as [|t|u t [|] e|]; try done. destruct a; [by apply alter_known|by apply end_known].
  - unfold beat. destruct (heartbeat h); [by apply Hbeat|done].
  - by apply alter_known.
  - by apply end_known.
  - done.
  - by apply Hall.
  - by apply Hall.
Qed.

Lemma step_gone h ev s : HubInv options h -> gone s h -> gone s (hub_step options tokenExpiry h ev).1.
Proof.
  intros I [Hk Hp]. split; [by apply step_known|]. pose proof (hub_step_moved h ev s I) as Hm. rewrite Hp in Hm.
  inversion Hm as [| | -> Hn| | |]; try done. destruct Hk as [k Hk]. congruence.
Qed.
End Steps.
