(* ===== verification/SocketHubTheorems.v ===== *)
(** * SocketHubTheorems: what the chat sockets promise

    For every sequence of events from an empty hub: its sets agree and stay within their limits, a socket
    is open only for whom its token named and only until something ends it, a nudge reaches exactly the
    open sockets of its users, a socket told to close is told nothing more, and a stopping hub stays
    empty. *)
From S2P Require Export SocketHubSteps.
#[local] Open Scope Z_scope.

Section Theorems.
Context (options : SocketOptions) (tokenExpiry : string -> option Z).
Implicit Types (evs : list HubEvent) (s : nat) (h : Hub).

Let step := hub_step options tokenExpiry.
Let run := hub_run options tokenExpiry.

Lemma new_hub_inv : HubInv options new_hub.
Proof.
  split; [|split; [|done]].
  - assert (forall x, phase_of x new_hub = Closed) as Hp by (intros x; unfold phase_of; simpl; by rewrite lookup_empty).
    constructor; simpl; try (by constructor); try (intros x; rewrite Hp; set_solver); unfold own_sockets, new_hub; simpl.
    + intros u x. change (x ∈ default [] ((∅ : gmap string (list nat)) !! u) <-> open_for_user u (phase_of x new_hub) = true).
      rewrite Hp, lookup_empty. simpl. set_solver.
    + intros u. by rewrite lookup_empty.
    + intros x k. by rewrite lookup_empty.
  - split_and!; simpl; [lia|lia|]. intros u. unfold own_sockets, new_hub. simpl. rewrite lookup_empty. simpl. lia.
Qed.

Lemma hub_run_inv evs h : HubInv options h -> HubInv options (run h evs).1.
Proof.
  unfold run. revert h. induction evs as [|ev evs IH]; intros h I; simpl; [done|].
  pose proof (step_keeps_hub options tokenExpiry h ev I) as I1. destruct (hub_step _ _ h ev) as [h1 o1].
  specialize (IH h1 I1). by destruct (hub_run _ _ h1 evs).
Qed.

Lemma run_snoc h evs ev :
  run h (evs ++ [ev]) = ((step (run h evs).1 ev).1, (run h evs).2 ++ (step (run h evs).1 ev).2).
Proof.
  unfold run, step. revert h. induction evs as [|e evs IH]; intros h; simpl.
  - destruct (hub_step _ _ h ev). by rewrite app_nil_r.
  - destruct (hub_step _ _ h e) as [h1 o1]. rewrite IH. destruct (hub_run _ _ h1 evs) as [h2 o2]. simpl. by rewrite app_assoc.
Qed.

(** whatever happens, in whatever order, the hub's sets say exactly what its sockets are: the sockets
    it holds are those not closed, the waiting ones are those not signed in, each user's are those open for
    that user. The instance, its waiting places and each user stay within their limits, and the heartbeat
    runs exactly while there is a socket. *)
Theorem hub_bounded evs :
  let h := (hub_run options tokenExpiry new_hub evs).1 in
  (forall s, s ∈ sockets h <-> closed (phase_of s h) = false)
  /\ (forall s, s ∈ pending h <-> waiting (phase_of s h) = true)
  /\ (forall u s, s ∈ own_sockets u h <-> open_for_user u (phase_of s h) = true)
  /\ NoDup (sockets h) /\ NoDup (pending h) /\ (forall u, NoDup (own_sockets u h))
  /\ (length (sockets h) <= perInstance options)%nat
  /\ (length (pending h) <= pendingPerInstance options)%nat
  /\ (forall u, (length (own_sockets u h) <= perUser options)%nat)
  /\ heartbeat h = match sockets h with [] => false | _ => true end.
Proof.
  destruct (hub_run_inv evs new_hub new_hub_inv) as (I & (? & ? & ?) & _). cbv zeta. fold run.
  split_and!; try apply I; done.
Qed.

(** ** Who is open *)

(** What ends the socket of a user: a change of the user's identity, the service's stop, the client's
    leaving, or another frame. *)
Definition ends_open (s : nat) (u : string) (ev : HubEvent) : Prop :=
  match ev with
  | EvIdentityChanged v => v = u
  | EvDestroy => True
  | EvDisconnected x | EvFrame x _ => x = s
  | _ => False
  end.

Lemma ends_open_closes h ev s u t r e :
  HubInv options h -> phase_of s h = Opened u t r e -> ends_open s u ev -> phase_of s (step h ev).1 = Closed.
Proof.
  intros (I & _) Hp He. unfold step.
  destruct ev as [x|x f|x a now_ms|x|x|x|x a| |x|x|w us o n|v| ]; simpl in *; try done; subst.
  - unfold received. rewrite Hp, end_phase, decide_True by done. done.
  - unfold disconnected. by rewrite end_phase, decide_True.
  - unfold identityChanged. rewrite end_all_phase, decide_True; [done|]. apply (hs_user h I). rewrite Hp. simpl.
    apply String.eqb_refl.
  - unfold onModuleDestroy. rewrite end_all_phase, decide_True; [done|]. apply (hs_sockets h I). by rewrite Hp.
Qed.

Lemma step_opened h ev s u t r e :
  HubInv options h -> phase_of s (step h ev).1 = Opened u t r e ->
  ((exists r', phase_of s h = Opened u t r' e) /\ ~ ends_open s u ev)
  \/ exists now_ms, phase_of s h = Authenticating t /\ ev = EvAuthenticated s (Ok u) now_ms /\ unexpired tokenExpiry t now_ms.
Proof.
  intros I Hp. pose proof (hub_step_moved options tokenExpiry h ev s I) as Hm. fold step in Hm. rewrite Hp in Hm.
  inversion Hm as [p Heq Heq2|p Heq Heq2| | |u' t' now_ms e' Hev Hun Heq|u' t' r0 r' e' Heq]; subst.
  - left. split; [eauto|]. intros He. rewrite (ends_open_closes h ev s u t r e I Heq2 He) in Hp. done.
  - right. eauto.
  - left. split; [eauto|]. intros He. rewrite (ends_open_closes h ev s u t r0 e I (eq_sym Heq) He) in Hp. done.
Qed.

Lemma step_authenticating h ev s t :
  HubInv options h -> phase_of s (step h ev).1 = Authenticating t ->
  phase_of s h = Authenticating t \/ ev = EvFrame s (AuthFrame t).
Proof.
  intros I Hp. pose proof (hub_step_moved options tokenExpiry h ev s I) as Hm. fold step in Hm. rewrite Hp in Hm.
  inversion Hm; subst; auto.
Qed.

Lemma run_authenticating evs s t :
  phase_of s (run new_hub evs).1 = Authenticating t -> exists e1 e2, evs = e1 ++ EvFrame s (AuthFrame t) :: e2.
Proof.
  induction evs as [|ev evs IH] using rev_ind; [unfold phase_of; simpl; by rewrite lookup_empty|].
  rewrite run_snoc. simpl. intros [Hp| ->]%step_authenticating; [| |apply hub_run_inv, new_hub_inv].
  - destruct (IH Hp) as (e1 & e2 & ->). exists e1, (e2 ++ [ev]). by rewrite <- app_assoc.
  - by exists evs, [].
Qed.


(** ** Nudges *)

Lemma distinct_users_elem seen l u :
  u ∈ distinct_users seen l <-> Some u ∈ l /\ u <> "" /\ u ∉ seen.
Proof.
  revert seen. induction l as [|[v|] l IH]; intros seen; simpl; [set_solver| |rewrite IH; set_solver].
  assert (nonempty v = true <-> v <> "") as Hv by (unfold nonempty; rewrite negb_true_iff; apply String.eqb_neq).
  destruct (existsb (String.eqb v) seen) eqn:Hs; simpl.
  - apply existsb_true in Hs as (y & Hy & ->%String.eqb_eq). rewrite IH. set_solver.
  - assert (v ∉ seen) as Hns.
    { intros Hin. rewrite existsb_false in Hs. specialize (Hs v Hin). by rewrite String.eqb_refl in Hs. }
    destruct (nonempty v) eqn:Hn; simpl; [rewrite elem_of_cons, IH|rewrite IH].
    + apply proj1 in Hv. specialize (Hv eq_refl). destruct (decide (u = v)) as [->|]; set_solver.
    + assert (v = "") as -> by (destruct (decide (v = "")) as [|Hne]; [done|apply Hv in Hne; congruence]). set_solver.
Qed.

Lemma distinct_users_nodup seen l : NoDup (distinct_users seen l).
Proof.
  revert seen. induction l as [|[v|] l IH]; intros seen; simpl; [constructor| |apply IH].
  destruct (_ || _); [apply IH|]. constructor; [|apply IH]. rewrite distinct_users_elem. set_solver.
Qed.

Lemma own_disjoint h us :
  HubSets h -> NoDup us -> NoDup (mjoin ((fun u => own_sockets u h) <$> us)).
Proof.
  intros I. induction 1 as [|u us Hu _ IH]; simpl; [constructor|]. apply NoDup_app. split_and!; [apply I| |done].
  intros s Hs Hin. apply list_elem_of_join in Hin as (l & Hl & (v & -> & Hv)%list_elem_of_fmap).
  apply (hs_user h I) in Hs, Hl. destruct (phase_of s h); try done. apply String.eqb_eq in Hs, Hl. congruence.
Qed.

(** a new message makes the service write once to every open socket of its two people that takes it,
    the sender's other tabs included, and to no other socket, whoever is named twice or not at all; and it
    writes only the errand and the channel's number. *)
Theorem nudges_exact evs writable us o n :
  let h := (hub_run options tokenExpiry new_hub evs).1 in
  let out := (hub_step options tokenExpiry h (EvNotify writable us o n)).2 in
  NoDup out
  /\ (forall x, x ∈ out -> exists s, x = Send s (NewMessages o n))
  /\ (forall s, Send s (NewMessages o n) ∈ out <->
        writable s = true /\ exists u t r e, Some u ∈ us /\ u <> "" /\ phase_of s h = Opened u t r e)
  /\ (hub_step options tokenExpiry h (EvNotify writable us o n)).1 = h.
Proof.
  cbv zeta. fold run. destruct (hub_run_inv evs new_hub new_hub_inv) as (I & _ & _). set (h := (run new_hub evs).1) in *.
  simpl. split_and!; [| | |done].
  - apply NoDup_fmap_2_strong; [by intros x y _ _ [=]|].
    apply NoDup_filter_bool, own_disjoint; [done|apply distinct_users_nodup].
  - intros x (s & -> & _)%list_elem_of_fmap. eauto.
  - intros s. rewrite list_elem_of_fmap. split.
    + intros (s' & [= <-] & [Hw Hin]%elem_filter). split; [done|].
      apply list_elem_of_join in Hin as (l & Hl & (u & -> & (Hu & Hne & _)%distinct_users_elem)%list_elem_of_fmap).
      apply (hs_user h I) in Hl. destruct (phase_of s h) as [| |v t r e|] eqn:Hp; try done. apply String.eqb_eq in Hl as ->. eauto 8.
    + intros (Hw & u & t & r & e & Hu & Hne & Hp). exists s. split; [done|]. apply elem_filter. split; [done|].
      apply list_elem_of_join. exists (own_sockets u h). split.
      * apply (hs_user h I). rewrite Hp. simpl. apply String.eqb_refl.
      * apply list_elem_of_fmap. exists u. split; [done|]. apply distinct_users_elem. set_solver.
Qed.

(** ** The last word *)

Lemma live_not_gone h s : closed (phase_of s h) = false -> ~ gone s h.
Proof. intros Hc [_ Hp]. by rewrite Hp in Hc. Qed.

Definition step_told h (r : Hub * list Output) : Prop :=
  NoDup (output_socket <$> r.2)
  /\ (forall o, o ∈ r.2 -> ~ gone (output_socket o) h)
  /\ (forall o, o ∈ r.2 -> last_word o = true -> gone (output_socket o) r.1).

Lemma told_step h r : told h r -> step_told h r.
Proof. intros (N & L & G). split_and!; [done| |done]. intros o Ho. by apply live_not_gone, L. Qed.

Lemma turned_away_gone s h : gone s (turned_away s h).
Proof.
  split; [unfold known, turned_away; simpl; rewrite lookup_insert_eq; eauto|].
  by rewrite turned_away_phase, decide_True.
Qed.

Lemma connects_told s h h' out :
  table h !! s = None -> connects options s h h' out -> step_told h (h', out).
Proof.
  intros Hs Hc. assert (~ gone s h) as Hng by (intros [[k Hk] _]; congruence).
  assert (forall c, step_told h (turned_away s h, [CloseWith s c])) as Haway.
  { intros c. split_and!; simpl; [apply NoDup_singleton|set_solver|].
    intros o ->%list_elem_of_singleton _. apply turned_away_gone. }
  destruct Hc as [| | | |x pre post _ _ _ _ Hx _]; try apply Haway.
  - split_and!; simpl; [constructor|set_solver|set_solver].
  - assert (closed (phase_of x h) = false) as Hlive by (by rewrite Hx).
    split_and!; simpl; [apply NoDup_singleton|intros o ->%list_elem_of_singleton; by apply live_not_gone|].
    intros o ->%list_elem_of_singleton _. simpl. pose proof (end_gone x NoPong h Hlive) as [Hk Hp].
    rewrite end_live in Hk, Hp by done. simpl in Hk, Hp.
    assert (x <> s) as Hne by (intros ->; apply phase_some in Hlive as [k Hk']; congruence). split.
    + unfold known, joined. simpl. by rewrite lookup_insert_ne.
    + by rewrite joined_phase, decide_False.
Qed.

Lemma step_tells h ev : HubInv options h -> step_told h (step h ev).
Proof.
  intros (I & _ & _). unfold step. destruct ev as [s|s f|s a now_ms|s|s|s|s a| |s|s|w us o n|u| ]; simpl.
  1: { destruct (table h !! s) eqn:Hs; simpl; [apply told_step, told_nothing|].
       rewrite (surjective_pairing (connect options s h)). by apply (connects_told s), connect_does. }
  all: apply told_step.
  - unfold received. destruct (phase_of s h), f; try apply end_told; apply told_nothing.
  - unfold authenticated. destruct (phase_of s h) as [|t|u t r e|] eqn:Hp; try apply told_nothing.
    destruct a as [u|y]; [|apply end_told].
    destruct (signing_in_does options tokenExpiry s u t now_ms h Hp) as [[r ->]|(e & -> & _)]; [apply end_told|].
    apply told_one; [simpl; by rewrite Hp|done].
  - unfold auth_timeout. destruct (table h !! s) as [k|]; [|apply told_nothing].
    destruct (sk_authTimer k); [apply end_told|apply told_nothing].
  - unfold expire. destruct (phase_of s h) as [|t|u t r [e|]|]; try apply told_nothing. apply end_told.
  - unfold recheck_due. destruct (phase_of s h) as [|t|u t [|] e|]; apply told_nothing.
  - unfold rechecked. destruct (phase_of s h) as [|t|u t [|] e|]; try apply told_nothing.
    destruct a; [apply told_nothing|apply end_told].
  - unfold beat. destruct (heartbeat h); [|apply told_nothing]. apply beat_all_told; [apply I|]. intros s. apply I.
  - apply told_nothing.
  - apply end_told.
  - unfold notify. split_and!; simpl; [| |intros x (s & -> & _)%list_elem_of_fmap; done].
    + rewrite <- list_fmap_compose. rewrite (list_fmap_ext _ id) by done. rewrite list_fmap_id.
      apply NoDup_filter_bool, own_disjoint; [done|apply distinct_users_nodup].
    + intros x (s & -> & [_ Hin]%elem_filter)%list_elem_of_fmap. simpl.
      apply list_elem_of_join in Hin as (l & Hl & (u & -> & _)%list_elem_of_fmap). apply (hs_user h I) in Hl.
      by destruct (phase_of s h).
  - unfold identityChanged. apply end_all_told; [apply I|]. intros s Hs. apply (hs_user h I) in Hs. by destruct (phase_of s h).
  - exact (end_all_told (sockets h) (ByServer Shutdown)
      (mkHub (table h) (sockets h) (pending h) (byUser h) (heartbeat h) true) (hs_nodup h I) (fun s => proj1 (hs_sockets h I s))).
Qed.

Lemma run_gone evs o : o ∈ (run new_hub evs).2 -> last_word o = true -> gone (output_socket o) (run new_hub evs).1.
Proof.
  induction evs as [|ev evs IH] using rev_ind; [simpl; set_solver|]. rewrite run_snoc. cbn [fst snd].
  pose proof (hub_run_inv evs new_hub new_hub_inv) as I. intros [Ho|Ho]%elem_of_app Hw.
  - by apply step_gone, IH.
  - by apply (step_tells _ ev I).
Qed.

(** A socket that has been told to close, or cut off, is never sent anything again and never closed a
    second time, whatever timers and answers still come in for it. *)
Theorem close_is_last evs i j o o' :
  (hub_run options tokenExpiry new_hub evs).2 !! i = Some o -> last_word o = true ->
  (hub_run options tokenExpiry new_hub evs).2 !! j = Some o' -> (i < j)%nat -> output_socket o' <> output_socket o.
Proof.
  fold run. intros Hi Hw. revert j Hi. induction evs as [|ev evs IH] using rev_ind; intros j Hi Hj Hlt; [done|].
  rewrite run_snoc in Hi, Hj. cbn [snd] in Hi, Hj. pose proof (hub_run_inv evs new_hub new_hub_inv) as I.
  destruct (step_tells (run new_hub evs).1 ev I) as (N & L & _).
  apply lookup_app_Some in Hi as [Hi|[Hge Hi]].
  - apply lookup_app_Some in Hj as [Hj|[_ Hj]]; [by apply (IH j)|].
    apply list_elem_of_lookup_2 in Hi, Hj. intros Heq. apply (L o' Hj). rewrite Heq. by apply run_gone.
  - rewrite lookup_app_r in Hj by lia. intros Heq.
    assert (i - length (run new_hub evs).2 = j - length (run new_hub evs).2)%nat; [|lia].
    eapply (NoDup_lookup _ _ _ (output_socket o) N); rewrite list_lookup_fmap; [by rewrite Hi|by rewrite Hj, <- Heq].
Qed.

(** ** Identity changes, and stopping *)

Lemma end_all_says l r h s :
  NoDup l -> s ∈ l -> closed (phase_of s h) = false -> CloseWith s (close_code r) ∈ (end_all l (ByServer r) h).2.
Proof.
  intros Hn. revert h. induction Hn as [|x l Hx _ IH]; intros h Hs Hc; [set_solver|]. simpl.
  pose proof (end_phase x (ByServer r) h s) as Hp. destruct (end_ x (ByServer r) h) as [h1 o1] eqn:He. simpl in Hp.
  specialize (IH h1). destruct (end_all l (ByServer r) h1) as [h2 o2]. simpl in *. apply elem_of_app.
  apply elem_of_cons in Hs as [->|Hs].
  - left. rewrite end_live in He by done. simplify_eq. simpl. set_solver.
  - right. apply IH; [done|]. rewrite Hp, decide_False by (by intros ->). done.
Qed.

(** When a user is suspended or reactivated, or a role of theirs changes, every open socket of theirs is
    closed at once, with the code that makes it sign in again, and no other socket is touched. *)
Theorem identity_change_closes evs u :
  let h := (hub_run options tokenExpiry new_hub evs).1 in
  let r := hub_step options tokenExpiry h (EvIdentityChanged u) in
  own_sockets u r.1 = []
  /\ (forall s, open_for_user u (phase_of s h) = true -> phase_of s r.1 = Closed /\ CloseWith s 4401 ∈ r.2)
  /\ (forall s, open_for_user u (phase_of s h) = false -> phase_of s r.1 = phase_of s h /\ forall c, CloseWith s c ∉ r.2).
Proof.
  cbv zeta. fold run. pose proof (hub_run_inv evs new_hub new_hub_inv) as I. set (h := (run new_hub evs).1) in *.
  pose proof I as (I0 & _). simpl. unfold identityChanged.
  assert (forall s, phase_of s (end_all (own_sockets u h) (ByServer IdentityChanged) h).1
    = if open_for_user u (phase_of s h) then Closed else phase_of s h) as Hp.
  { intros s. rewrite end_all_phase. pose proof (hs_user h I0 u s) as Hu. case_decide as Hin; destruct (open_for_user u _); naive_solver. }
  split_and!.
  - destruct (end_all_keeps (own_sockets u h) (ByServer IdentityChanged) h I0) as [I1 _].
    destruct (own_sockets u _) as [|x l] eqn:Hl at 1; [done|]. exfalso.
    assert (open_for_user u (phase_of x (end_all (own_sockets u h) (ByServer IdentityChanged) h).1) = true) as Hx.
    { apply (hs_user _ I1). rewrite Hl. set_solver. }
    rewrite Hp in Hx. destruct (open_for_user u (phase_of x h)) eqn:Ho; [done|congruence].
  - intros s Hs. rewrite Hp, Hs. split; [done|]. apply (end_all_says _ IdentityChanged); [apply I0|by apply (hs_user h I0)|].
    by destruct (phase_of s h).
  - intros s Hs. rewrite Hp, Hs. split; [done|]. intros c Hin.
    assert (s ∈ own_sockets u h) as Hmem; [|apply (hs_user h I0) in Hmem; congruence].
    refine (all_socket (fun s => end_ s (ByServer IdentityChanged)) (fun l => end_all l (ByServer IdentityChanged)) _ _ _
      (own_sockets u h) h (CloseWith s c) Hin).
    + done.
    + intros s' l' h'. simpl. destruct (end_ s' _ h') as [h1 o1]. simpl. by destruct (end_all l' _ h1).
    + intros s' h' o. apply end_out_socket.
Qed.

Lemma empty_step h ev :
  HubInv options h -> stopping h = true -> stopping (step h ev).1 = true
  /\ forall o, o ∈ (step h ev).2 -> exists s, o = CloseWith s 1001.
Proof.
  intros (I & _ & Hst) Hstop. specialize (Hst Hstop).
  assert (forall s, phase_of s h = Closed) as Hp.
  { intros s. destruct (closed (phase_of s h)) eqn:Hc; [by destruct (phase_of s h)|]. apply (hs_sockets h I) in Hc. rewrite Hst in Hc. set_solver. }
  assert (forall s w, end_ s w h = (h, [])) as Hend by (intros s w; apply end_closed; by rewrite Hp).
  unfold step. destruct ev as [s|s f|s a now_ms|s|s|s|s a| |s|s|w us o n|u| ]; simpl;
    unfold received, authenticated, auth_timeout, expire, recheck_due, rechecked, beat, disconnected; rewrite ?Hp, ?Hend;
    try (split; [done|set_solver]).
  - destruct (table h !! s) eqn:Hs; simpl; [split; [done|set_solver]|].
    pose proof (connect_does options s h I Hs) as Hc. destruct Hc as [| | | |]; try congruence.
    split; [done|]. intros o ->%list_elem_of_singleton. eauto.
  - destruct (table h !! s) as [k|]; [destruct (sk_authTimer k)|]; rewrite ?Hend; (split; [done|set_solver]).
  - rewrite (hs_heartbeat h I), Hst. split; [done|set_solver].
  - split; [done|]. intros x (s & -> & [_ Hin]%elem_filter)%list_elem_of_fmap.
    apply list_elem_of_join in Hin as (l & Hl & (u & -> & _)%list_elem_of_fmap). apply (hs_user h I) in Hl. by rewrite Hp in Hl.
  - unfold identityChanged. assert (own_sockets u h = []) as ->; [|split; [done|set_solver]]. destruct (own_sockets u h) as [|x l] eqn:Hl; [done|].
    assert (x ∈ own_sockets u h) as Hx by (rewrite Hl; set_solver). apply (hs_user h I) in Hx. by rewrite Hp in Hx.
  - unfold onModuleDestroy. rewrite Hst. simpl. split; [done|set_solver].
Qed.

(** Once the service begins to stop, the hub holds no socket and never will: whatever comes in then, no
    peer is sent anything but the close of a new connection, with the code of a stopping service. *)
Theorem stopped_for_good evs evs' :
  let h := (hub_run options tokenExpiry new_hub (evs ++ [EvDestroy])).1 in
  sockets (hub_run options tokenExpiry h evs').1 = []
  /\ forall o, o ∈ (hub_run options tokenExpiry h evs').2 -> exists s, o = CloseWith s 1001.
Proof.
  cbv zeta. change (hub_run options tokenExpiry) with run. set (h := (run new_hub (evs ++ [EvDestroy])).1).
  pose proof (hub_run_inv (evs ++ [EvDestroy]) new_hub new_hub_inv) as I. fold h in I.
  assert (stopping h = true) as Hst.
  { unfold h. rewrite run_snoc. cbn [fst]. unfold step. simpl. unfold onModuleDestroy. set (h1 := mkHub _ _ _ _ _ true).
    destruct (hub_run_inv evs new_hub new_hub_inv) as (I0 & _).
    assert (HubSets h1) as I1 by (destruct I0; by constructor).
    by destruct (end_all_keeps (sockets (run new_hub evs).1) (ByServer Shutdown) h1 I1) as [_ (_ & _ & _ & ->)]. }
  clearbody h. assert (stopping (run h evs').1 = true /\ forall o, o ∈ (run h evs').2 -> exists s, o = CloseWith s 1001) as [Hs Ho].
  { induction evs' as [|ev evs' IH] using rev_ind; [split; [done|simpl; set_solver]|]. rewrite run_snoc. cbn [fst snd].
    destruct IH as [Hs Ho]. destruct (empty_step _ ev (hub_run_inv evs' h I) Hs) as [Hs' Ho'].
    split; [exact Hs'|]. intros o [Hin|Hin]%elem_of_app; auto. }
  split; [|exact Ho]. by apply (hub_run_inv evs' h I).
Qed.

(** ** New connections *)

(** A new connection is refused only while the service stops, the instance is full, or every waiting
    place is held by a socket whose token is being checked. Otherwise it waits to sign in; and if that takes
    a place from another, it is from the one waiting longest of those that have sent no token yet: a socket
    signing in or signed in is never closed for a new one. *)
Theorem newcomers evs s :
  let h := (hub_run options tokenExpiry new_hub evs).1 in
  let r := hub_step options tokenExpiry h (EvConnect s) in
  table h !! s = None ->
  (phase_of s r.1 = Closed ->
     stopping h = true \/ length (sockets h) = perInstance options
     \/ length (pending h) = pendingPerInstance options /\ forall x, x ∈ pending h -> phase_of x h <> AwaitingAuth)
  /\ (phase_of s r.1 = Closed \/ phase_of s r.1 = AwaitingAuth)
  /\ (forall x, x <> s -> phase_of x r.1 <> phase_of x h ->
        phase_of x r.1 = Closed /\ length (pending h) = pendingPerInstance options
        /\ exists pre post, pending h = pre ++ x :: post /\ phase_of x h = AwaitingAuth
             /\ forall y, y ∈ pre -> phase_of y h <> AwaitingAuth).
Proof.
  cbv zeta. fold run. intros Hs. destruct (hub_run_inv evs new_hub new_hub_inv) as (I & (H1 & H2 & _) & _).
  set (h := (run new_hub evs).1) in *. simpl. rewrite Hs. simpl.
  destruct (connect_does options s h I Hs) as [Hc|Hc Hf|Hc Hall Hf|Hc Hr Hw|x pre post Hc Hr Hf Heq Hx Hpre].
  1-3: rewrite turned_away_phase, decide_True by done; split_and!; [intros _; auto with lia|by left|];
    intros x Hne; by rewrite turned_away_phase, decide_False.
  - rewrite joined_phase, decide_True by done. split_and!; [done|by right|].
    intros x Hne. by rewrite joined_phase, decide_False.
  - rewrite joined_phase, decide_True by done. split_and!; [done|by right|].
    intros y Hne. rewrite joined_phase, decide_False by done. rewrite ended_phase by (by rewrite Hx).
    destruct (decide (y = x)) as [->|]; [|done]. intros _. split_and!; [done|lia|]. by exists pre, post.
Qed.
End Theorems.
