(* ===== verification/ChatDemo.v ===== *)
(** * ChatDemo: a conversation about an errand, and the theorems at it

    Rae's errand, run by Cal: Rae writes, Cal answers, Rae's post is repeated after the errand has ended,
    an administrator reads, and the channel is swept away. *)
From S2P Require Export ChatSweep SocketHubTheorems.
#[local] Open Scope Z_scope.

#[local] Instance chat_zod : Zod := {| zod_uuid := nonempty; zod_datetime := nonempty |}.

Definition demo_errand : OrderForChat := mkOrderForChat "rae" (Some "cal") None.
Definition demo_ended : OrderForChat := mkOrderForChat "rae" (Some "cal") (Some 5000).
Definition rae : AuthContext := mkAuth "rae" false "Rae".
Definition cal : AuthContext := mkAuth "cal" false "Cal".
Definition ada : AuthContext := mkAuth "ada" true "Ada".
Definition at_s (t : Z) : Env := mkEnv (t * 1000000) (fun _ => "row").
Definition stamped (t : Z) : nat -> Z := fun _ => t * 1000000.

Definition post_at (t : Z) (who : AuthContext) (cl body : string) (db : ChatDb) :=
  post_message 90 (Ok (Some demo_errand)) (t * 1000) "errand" who cl body false (stamped t) db db (at_s t) (at_s t) db.

Definition chat1 : ChatDb := (post_at 1 rae "m1" "Is the gate open?" empty_chat).2.
Definition chat2 : ChatDb := (post_at 2 cal "m1" "It is." chat1).2.
Definition first_message : Message := mkMessage 1 "m1" "rae" "Is the gate open?" 1000000.

Lemma chat1_reached : chat_reachable empty_chat chat1.
Proof. unfold chat1. destruct (post_at 1 rae _ _ _) eqn:H. eapply post_reaches; [|exact H]. done. Qed.
Lemma chat2_reached : chat_reachable empty_chat chat2.
Proof.
  unfold chat_reachable. etrans; [apply chat1_reached|]. unfold chat2. destruct (post_at 2 cal _ _ _) eqn:H.
  eapply post_reaches; [|exact H]. done.
Qed.

(** Cal's post is one step from Rae's, and keeps the channel. *)
Lemma chat2_kept : rtc (kept_step "errand") chat1 chat2.
Proof.
  apply rtc_once. split; [|vm_compute; eauto].
  eapply (cs_send _ _ "errand" "cal" "m1" "It is." false (stamped 2) (at_s 2)); [done|]. vm_compute. reflexivity.
Qed.

Example conversation_of_two : ms_seq <$> (page "errand" (mkPageQuery None None 20) chat2).1 = [1; 2].
Proof. vm_compute. reflexivity. Qed.

Lemma messages_private_witness :
  exists ord, Ok (Some demo_errand) = Ok (Some ord) /\ pastRetention ord 90 3000 = false
    /\ may_read ord ada "errand" MESSAGES 3000000
         (messages 90 (Ok (Some demo_errand)) 3000 "errand" ada "corr" (mkPageQuery None None 20) chat2 chat2 (at_s 3) (at_s 3) chat2).2
    /\ page "errand" (mkPageQuery None None 20) chat2 = page "errand" (mkPageQuery None None 20) chat2.
Proof.
  apply (messages_private 90 (Ok (Some demo_errand)) 3000 "errand" ada "corr" (mkPageQuery None None 20) chat2 chat2
    (at_s 3) (at_s 3) chat2). vm_compute. reflexivity.
Defined.

Lemma sends_limited_witness :
  (length (List.filter (sent_in "rae" (2000000 - window) 2000000) (chatMessages chat2)) <= 20)%nat.
Proof. exact (sends_limited chat2 "rae" 2000000 chat2_reached). Defined.

Lemma channels_numbered_witness :
  cm_seq <$> conversation "errand" chat2 = seqZ 1 2
  /\ NoDup (send_key <$> chatMessages chat2)
  /\ (forall m, m ∈ chatMessages chat2 -> is_Some (channels chat2 !! cm_orderId m))
  /\ (forall u p, readPositions chat2 !! ("errand", u) = Some p -> 0 <= p <= Z.of_nat (length (conversation "errand" chat2))).
Proof. exact (channels_numbered chat2 "errand" (mkChannel 2 1000000) chat2_reached eq_refl). Defined.

Lemma post_answers_witness :
  (post_at 2 cal "m1" "It is." chat1).1 = Ok (201, mkMessage 2 "m1" "cal" "It is." 2000000).
Proof.
  etrans; [apply (post_answers 90 demo_errand (2 * 1000) "errand" cal "m1" "It is." (stamped 2) (at_s 2) (at_s 2) chat1 chat1_reached)|];
    [vm_compute; reflexivity|right; reflexivity|vm_compute; reflexivity..].
Defined.

(** Repeated after Cal's answer, with the errand ended and no lock to be had. *)
Lemma send_once_witness :
  post_message 90 (Ok (Some demo_ended)) 9000 "errand" rae "m1" "Is the gate open?" true (stamped 9) chat2 chat2 (at_s 9) (at_s 9) chat2
  = (Ok (200, first_message), chat2).
Proof.
  refine (send_once 90 (Ok (Some demo_errand)) 1000 "errand" rae "m1" "Is the gate open?" false (stamped 1) empty_chat (at_s 1) (at_s 1)
    empty_chat 201 first_message chat1 chat2 demo_ended 9000 "Is the gate open?" true (stamped 9) (at_s 9) (at_s 9) _ _ _ chat2_kept _ _ _).
  - apply rtc_refl.
  - done.
  - vm_compute. reflexivity.
  - vm_compute. reflexivity.
  - left. reflexivity.
  - vm_compute. reflexivity.
Defined.

(** ** Retention *)

Definition long_after : Z := 100 * DAY_MS.
Definition demo_ask (o : string) : OrderAnswer := Ok (Some demo_ended).

Lemma sweep_deletes_witness :
  exists r l, sweep_channels 90 1 demo_ask (fun _ => false) long_after chat2 = Some (Ok tt, (r, without l chat2))
    /\ (forall o, o ∈ l <-> due 90 demo_ask long_after chat2 o = true) /\ cl_deleted r = length l
    /\ counted noResult r (length (candidates 90 long_after None chat2)).
Proof. apply (sweep_deletes 90 1 demo_ask (fun _ => false) long_after chat2); [lia|reflexivity]. Defined.

Lemma sweep_spares_witness :
  exists out r l, sweep_channels 90 1 demo_ask (fun _ => true) long_after chat2 = Some (out, (r, without l chat2))
    /\ forall o, o ∈ l -> due 90 demo_ask long_after chat2 o = true
         /\ exists ord, demo_ask o = Ok (Some ord) /\ pastRetention ord 90 long_after = true.
Proof. apply (sweep_spares 90 1 demo_ask (fun _ => true) long_after chat2). lia. Defined.

Example swept_away : (fun r => chatMessages r.2.2) <$> sweep_channels 90 1 demo_ask (fun _ => false) long_after chat2 = Some [].
Proof. vm_compute. reflexivity. Qed.

(** ** Sockets *)

Definition demo_options : SocketOptions := mkSocketOptions 2 10 3.
Definition no_expiry (t : string) : option Z := None.


Example a_nudge :
  (hub_run demo_options no_expiry new_hub
     [EvConnect 1%nat; EvFrame 1%nat (AuthFrame "t"); EvAuthenticated 1%nat (Ok "rae") 5;
      EvNotify (fun _ => true) [Some "rae"; None; Some "rae"] "errand" 7; EvIdentityChanged "rae";
      EvNotify (fun _ => true) [Some "rae"] "errand" 8]).2
  = [Send 1 Ready; Send 1 (NewMessages "errand" 7); CloseWith 1 4401].
Proof. vm_compute. reflexivity. Qed.
