(* ===== verification/ErrandChat.v ===== *)
(** * ErrandChat: the Chat Service asking the Order Service
    (order-service/src/orders/internal-orders.controller.ts, chat-service/src/chat/upstreams.ts)

    Chat keeps nothing about an errand and asks on every request. Here what it is answered is what the
    Order Service's own tables say, in any state that service reaches: so chat is open exactly while the
    errand is under way, and no message is taken for an errand that has ended, ever again. *)
From S2P Require Import OrderDemo.
From S2P Require Import OrderTheorems.
From S2P Require Import ChatDemo.
#[local] Open Scope Z_scope.

(** [GET /internal/orders/:id/chat], and what [Upstreams] makes of the answer: a time in milliseconds. *)
Definition chat_response (o : string) (db : OrderDb) : UpstreamResponse OrderForChat :=
  match findForChat o db with
  | None => HttpError 404
  | Some v => GoodBody (mkOrderForChat (cv_requesterId v) (cv_courierId v) ((fun t => t / 1000) <$> cv_endedAt v))
  end.
Definition order_answer (o : string) (db : OrderDb) : OrderAnswer := upstream_order (chat_response o db).

(** ** The history's final entry *)

Lemma trace_ends o hs s v :
  trace o hs s v -> s ∈ TERMINAL_ORDER_STATUSES <-> exists h, h ∈ hs /\ h_new h ∈ TERMINAL_ORDER_STATUSES.
Proof.
  induction 1 as [h Ho Hp Hn Ha Hv|hs s v h a actor c d Ht IH Hd Ho Hp Hn Ha Hat Hv].
  - split; [intros Hs; exists h; rewrite Hn; set_solver|]. intros (h' & ->%list_elem_of_singleton & Hs). by rewrite Hn in Hs.
  - split; [intros Hs; exists h; rewrite Hn; set_solver|].
    intros (h' & [Hin| ->%list_elem_of_singleton]%elem_of_app & Hs); [|by rewrite Hn in Hs].
    assert (s ∈ TERMINAL_ORDER_STATUSES) as Hs' by (apply IH; eauto). by rewrite (terminal_final s a actor c Hs') in Hd.
Qed.

Lemma terminal_spec s : is_terminal_status s = true <-> s ∈ TERMINAL_ORDER_STATUSES.
Proof. unfold is_terminal_status. apply bool_decide_eq_true. Qed.

Section Together.
Context `{Zod} `{Pg} (periods : Periods) (hashRequest : HashedRequest -> string).
Implicit Types (odb : OrderDb) (o : string).

(** The Order Service says an errand has ended exactly when its status is final. *)
Lemma ended_iff odb o st :
  order_reachable periods hashRequest odb -> orders odb !! o = Some st ->
  exists ord, order_answer o odb = Ok (Some ord)
    /\ oc_requesterId ord = or_requesterId (st_row st) /\ oc_courierId ord = or_courierId (st_row st)
    /\ is_some (oc_endedAt ord) = is_terminal_status (or_status (st_row st)).
Proof.
  intros Hr Hst. pose proof (oi_trace odb (order_reachable_inv _ _ _ Hr) _ _ Hst) as Ht.
  unfold order_answer, chat_response, findForChat. rewrite Hst. simpl. eexists. split; [done|]. simpl. split_and!; try done.
  apply trace_ends in Ht. destruct (List.find _ (history_of o odb)) as [h|] eqn:Hf; simpl.
  - symmetry. apply terminal_spec, Ht. apply find_elem in Hf as [Hin Hh%terminal_spec].
    unfold history_of in Hin. rewrite order_by_perm in Hin. eauto.
  - symmetry. apply not_true_is_false. intros Hs%terminal_spec. apply Ht in Hs as (h & Hin & Hh%terminal_spec).
    pose proof (find_none_elem _ _ Hf h) as Hno. simpl in Hno. rewrite Hno in Hh; [done|].
    unfold history_of. by rewrite order_by_perm.
Qed.

(** C27: whatever the two services do, an errand's chat takes a new message only from the errand's requester
    or the courier it has at that moment, and never again once the errand has reached a final status; and
    until then, while it has a courier, it is open. *)
Theorem chat_follows_errand odb odb' o st st' days now_ms who cl body timeout stmt seen later e e' db m db' :
  order_reachable periods hashRequest odb -> orders odb !! o = Some st ->
  rtc (order_step periods hashRequest) odb odb' -> orders odb' !! o = Some st' ->
  post_message days (order_answer o odb') now_ms o who cl body timeout stmt seen later e e' db = (Ok (201, m), db') ->
  or_status (st_row st) ∉ TERMINAL_ORDER_STATUSES /\ or_status (st_row st') ∉ TERMINAL_ORDER_STATUSES
  /\ (ac_userId who = or_requesterId (st_row st') \/ or_courierId (st_row st') = Some (ac_userId who))
  /\ is_Some (or_courierId (st_row st')).
Proof.
  intros Hr Hst Hrun Hst' Hpost.
  assert (order_reachable periods hashRequest odb') as Hr' by (unfold order_reachable in *; by etrans).
  destruct (ended_iff odb' o st' Hr' Hst') as (ord & Hans & Hreq & Hcour & Hend).
  apply post_authorised in Hpost as (ord' & Hask & _ & Hmay & Hopen). rewrite Hans in Hask. injection Hask as <-.
  destruct (Hopen eq_refl) as (Ho & _). unfold open_for in Ho. rewrite Hend, andb_true_iff, negb_true_iff in Ho.
  destruct Ho as [Hc Hterm]. assert (or_status (st_row st') ∉ TERMINAL_ORDER_STATUSES) as Hopen'.
  { intros Hin%terminal_spec. congruence. }
  split_and!; [|done|unfold may_send in Hmay; by rewrite Hreq, Hcour in Hmay|].
  - intros Hin. apply Hopen'.
    destruct (run_closed periods hashRequest o odb odb' (order_reachable_inv _ _ _ Hr) Hrun st Hst Hin) as (st2 & Hst2 & Heq).
    simplify_eq. by rewrite Heq.
  - rewrite Hcour in Hc. by destruct (or_courierId (st_row st')).
Qed.
End Together.

(** ** At an errand just taken *)

#[local] Existing Instance demo_zod.
#[local] Existing Instance demo_pg.

(** Bob, who took it, writes. *)
Definition bob_writes :=
  post_message 90 (order_answer errand taken) 5000 errand (mkAuth "bob" false "Bob") "m1" "On my way." false (stamped 5)
    empty_chat empty_chat (at_s 5) (at_s 5) empty_chat.
Definition on_my_way : Message := mkMessage 1 "m1" "bob" "On my way." 5000000.

Lemma chat_follows_errand_witness :
  or_status (st_row (row_of taken)) ∉ TERMINAL_ORDER_STATUSES /\ or_status (st_row (row_of taken)) ∉ TERMINAL_ORDER_STATUSES
  /\ ("bob" = or_requesterId (st_row (row_of taken)) \/ or_courierId (st_row (row_of taken)) = Some "bob")
  /\ is_Some (or_courierId (st_row (row_of taken))).
Proof.
  assert (orders taken !! errand = Some (row_of taken)) as Hst by has_row.
  assert (bob_writes.1 = Ok (201, on_my_way)) as Hw by (vm_compute; reflexivity).
  refine (chat_follows_errand demo_periods demo_hash taken taken errand (row_of taken) (row_of taken) 90 5000
    (mkAuth "bob" false "Bob") "m1" "On my way." false (stamped 5) empty_chat empty_chat (at_s 5) (at_s 5) empty_chat
    on_my_way bob_writes.2 taken_reachable Hst (rtc_refl _ _) Hst _).
  transitivity (bob_writes.1, bob_writes.2); [exact (surjective_pairing bob_writes)|]. rewrite Hw. reflexivity.
Defined.
