(* ===== verification/SupplierHours.v ===== *)
(** * SupplierHours: the opening hours a supplier may post
    (supplier-service/src/suppliers/types.ts, suppliers/validation.ts)

    A period is a day and two times; one that closes no later than it opens runs past midnight, and Sunday
    runs into Monday. [openingHoursSchema] accepts a week's periods when no two are open at the same
    minute, and stores them in order. *)
From Stdlib Require Import Ascii.
From S2P Require Export Text Paging.
#[local] Open Scope Z_scope.

Inductive Day := MON | TUE | WED | THU | FRI | SAT | SUN.
#[export] Instance Day_eq_dec : EqDecision Day.
Proof. solve_decision. Defined.

Definition DAYS : list Day := [MON; TUE; WED; THU; FRI; SAT; SUN].
Definition day_index (d : Day) : Z :=
  match d with MON => 0 | TUE => 1 | WED => 2 | THU => 3 | FRI => 4 | SAT => 5 | SUN => 6 end.

Record OpeningHours := mkOpeningHours { oh_day : Day; oh_opens : string; oh_closes : string }.
#[export] Instance OpeningHours_eq_dec : EqDecision OpeningHours.
Proof. solve_decision. Defined.

(** ** Times of day *)

Definition digit (a : ascii) : Z := Z.of_N (N_of_ascii a) - 48.
Definition digit_in (low high : Z) (a : ascii) : bool := (low <=? digit a) && (digit a <=? high).

(** [/^([01]\d|2[0-3]):[0-5]\d$/] *)
Definition HHMM (s : string) : bool :=
  match s with
  | String a (String b (String c (String d (String e EmptyString)))) =>
      (digit_in 0 1 a && digit_in 0 9 b || digit_in 2 2 a && digit_in 0 3 b)
      && Ascii.eqb c ":" && digit_in 0 5 d && digit_in 0 9 e
  | _ => false
  end.

(** [Number(time.slice(0, 2)) * 60 + Number(time.slice(3))], of a well-formed time. *)
Definition minutes (s : string) : Z :=
  match s with
  | String a (String b (String _ (String d (String e _)))) => (digit a * 10 + digit b) * 60 + digit d * 10 + digit e
  | _ => 0
  end.

Definition MINUTES_PER_DAY : Z := 24 * 60.
Definition MINUTES_PER_WEEK : Z := 7 * MINUTES_PER_DAY.
Definition MAX_PERIODS_PER_DAY : nat := 4.

(** ** Periods of the week *)

Definition close_minute (p : OpeningHours) : Z :=
  if String.eqb (oh_closes p) "23:59" then MINUTES_PER_DAY else minutes (oh_closes p).

Definition spansOfTheWeek (p : OpeningHours) : list (Z * Z) :=
  let midnight := day_index (oh_day p) * MINUTES_PER_DAY in
  let open := minutes (oh_opens p) in
  let close := close_minute p in
  let start := midnight + open in
  let end_ := midnight + (if open <? close then close else close + MINUTES_PER_DAY) in
  if end_ <=? MINUTES_PER_WEEK then [(start, end_)]
  else [(start, MINUTES_PER_WEEK); (0, end_ - MINUTES_PER_WEEK)].

Definition spans_meet (a b : Z * Z) : bool := (fst b <? snd a) && (fst a <? snd b).
Definition clashes (p q : OpeningHours) : bool :=
  existsb (fun a => existsb (spans_meet a) (spansOfTheWeek p)) (spansOfTheWeek q).

Inductive HoursIssue := EMPTY_PERIOD | TOO_MANY_PERIODS | OVERLAPPING_HOURS.

(** The refinement, from an entry on: what is wrong, and with which. A refused entry is not seen. *)
Fixpoint refine_hours (seen : list OpeningHours) (index : nat) (entries : list OpeningHours) : list (nat * HoursIssue) :=
  match entries with
  | [] => []
  | p :: rest =>
      if String.eqb (oh_opens p) (oh_closes p) then (index, EMPTY_PERIOD) :: refine_hours seen (Datatypes.S index) rest
      else if Nat.eqb (length (List.filter (fun o => bool_decide (oh_day o = oh_day p)) seen)) MAX_PERIODS_PER_DAY
      then (index, TOO_MANY_PERIODS) :: refine_hours seen (Datatypes.S index) rest
      else if existsb (clashes p) seen then (index, OVERLAPPING_HOURS) :: refine_hours seen (Datatypes.S index) rest
      else refine_hours (seen ++ [p]) (Datatypes.S index) rest
  end.

(** [DAYS.indexOf(a.day) - DAYS.indexOf(b.day) || a.opens.localeCompare(b.opens)]: well-formed times
    compare as their digits do. *)
Definition hours_before (a b : OpeningHours) : bool :=
  (day_index (oh_day a) <? day_index (oh_day b))
  || ((day_index (oh_day a) =? day_index (oh_day b)) && (minutes (oh_opens a) <? minutes (oh_opens b))).

Definition openingHoursEntry (p : OpeningHours) : bool := HHMM (oh_opens p) && HHMM (oh_closes p).

Inductive HoursResult :=
  | HoursAccepted (hours : list OpeningHours)
  | HoursRefused (issues : list (nat * HoursIssue))
  | HoursMalformed.

Definition openingHoursSchema (entries : list OpeningHours) : HoursResult :=
  if forallb openingHoursEntry entries && (length entries <=? 7 * MAX_PERIODS_PER_DAY)%nat then
    match refine_hours [] 0 entries with
    | [] => HoursAccepted (order_by hours_before entries)
    | issues => HoursRefused issues
    end
  else HoursMalformed.

(** ** When a period is open *)

Definition opening (p : OpeningHours) : Z := day_index (oh_day p) * MINUTES_PER_DAY + minutes (oh_opens p).
(** How long: to its close, the next day's if that is not after it opens. *)
Definition length_of (p : OpeningHours) : Z :=
  let d := close_minute p - minutes (oh_opens p) in if 0 <? d then d else d + MINUTES_PER_DAY.

(** Open at a minute of the week, in this week or on from the week before. *)
Definition open_at (p : OpeningHours) (m : Z) : Prop :=
  exists week, opening p <= m + week * MINUTES_PER_WEEK < opening p + length_of p.

Lemma digit_in_spec l h a : digit_in l h a = true <-> l <= digit a <= h.
Proof. unfold digit_in. rewrite andb_true_iff, !Z.leb_le. tauto. Qed.

Lemma HHMM_minutes s : HHMM s = true -> 0 <= minutes s < MINUTES_PER_DAY.
Proof.
  unfold HHMM, minutes, MINUTES_PER_DAY.
  destruct s as [|a [|b [|c [|d [|e [|]]]]]]; try done.
  rewrite !andb_true_iff, orb_true_iff, !andb_true_iff, !digit_in_spec. lia.
Qed.

Lemma period_bounds p :
  openingHoursEntry p = true ->
  0 <= opening p < MINUTES_PER_WEEK /\ 0 < length_of p <= MINUTES_PER_DAY /\ 0 <= day_index (oh_day p) <= 6
  /\ 0 <= minutes (oh_opens p) < MINUTES_PER_DAY /\ 0 <= close_minute p <= MINUTES_PER_DAY.
Proof.
  unfold openingHoursEntry. rewrite andb_true_iff. intros [Ho%HHMM_minutes Hc%HHMM_minutes].
  assert (0 <= day_index (oh_day p) <= 6) by (destruct (oh_day p); simpl; lia).
  assert (0 <= close_minute p <= MINUTES_PER_DAY) by (unfold close_minute; case_match; unfold MINUTES_PER_DAY in *; lia).
  unfold opening, length_of, MINUTES_PER_WEEK, MINUTES_PER_DAY in *. cbv zeta. case_match; lia.
Qed.

Definition in_span (m : Z) (a : Z * Z) : bool := (fst a <=? m) && (m <? snd a).

(** The spans are the minutes of the week the period is open. *)
Lemma spans_open p m :
  openingHoursEntry p = true -> 0 <= m < MINUTES_PER_WEEK ->
  existsb (in_span m) (spansOfTheWeek p) = true <-> open_at p m.
Proof.
  intros Hp Hm. pose proof (period_bounds p Hp) as (Hs & Hl & Hd & Ho & Hc).
  assert (day_index (oh_day p) * MINUTES_PER_DAY
    + (if minutes (oh_opens p) <? close_minute p then close_minute p else close_minute p + MINUTES_PER_DAY)
    = opening p + length_of p) as Hend.
  { unfold opening, length_of. cbv zeta. destruct (Z.ltb_spec (minutes (oh_opens p)) (close_minute p)),
      (Z.ltb_spec 0 (close_minute p - minutes (oh_opens p))); lia. }
  unfold spansOfTheWeek. cbv zeta. rewrite Hend. fold (opening p). unfold open_at, in_span.
  assert (MINUTES_PER_WEEK = 10080 /\ MINUTES_PER_DAY = 1440) as [HW HD] by done. rewrite HW, HD in *.
  destruct (Z.leb_spec (opening p + length_of p) 10080); simpl; rewrite ?orb_false_r, ?orb_true_iff, !andb_true_iff,
    !Z.leb_le, !Z.ltb_lt.
  - split; [intros [? ?]; exists 0; lia|]. intros [w Hw]. assert (w = 0) by lia. subst. lia.
  - split.
    + intros [[? ?]|[? ?]]; [exists 0; lia|exists 1; lia].
    + intros [w Hw]. assert (w = 0 \/ w = 1) as [-> | ->] by lia; [left|right]; lia.
Qed.

Lemma spans_inside p :
  openingHoursEntry p = true -> forall a, a ∈ spansOfTheWeek p -> 0 <= fst a < snd a /\ snd a <= MINUTES_PER_WEEK.
Proof.
  intros Hp. pose proof (period_bounds p Hp) as (Hs & Hl & Hd & Ho & Hc). unfold spansOfTheWeek, opening in *. cbv zeta.
  assert (MINUTES_PER_WEEK = 10080 /\ MINUTES_PER_DAY = 1440) as [HW HD] by done. rewrite HW, HD in *.
  intros a. destruct (Z.ltb_spec (minutes (oh_opens p)) (close_minute p)); case_match eqn:Hle;
    rewrite ?Z.leb_le, ?Z.leb_gt in Hle; rewrite ?elem_of_cons, elem_of_nil; intros; destruct_or?; subst; simpl; try done; lia.
Qed.

Lemma clashes_spans p q :
  clashes p q = true <-> exists a b, a ∈ spansOfTheWeek q /\ b ∈ spansOfTheWeek p /\ spans_meet a b = true.
Proof.
  unfold clashes. rewrite existsb_true. split.
  - intros (a & Ha & (b & Hb & Hm)%existsb_true). eauto.
  - intros (a & b & Ha & Hb & Hm). exists a. split; [done|]. apply existsb_true. eauto.
Qed.

(** Two periods clash when there is a minute of the week both are open. *)
Lemma clashes_open p q :
  openingHoursEntry p = true -> openingHoursEntry q = true ->
  clashes p q = true <-> exists m, 0 <= m < MINUTES_PER_WEEK /\ open_at p m /\ open_at q m.
Proof.
  intros Hp Hq. rewrite clashes_spans. split.
  - intros (a & b & Ha & Hb & Hm). unfold spans_meet in Hm. rewrite andb_true_iff, !Z.ltb_lt in Hm.
    pose proof (spans_inside q Hq a Ha). pose proof (spans_inside p Hp b Hb).
    exists (Z.max (fst a) (fst b)). assert (0 <= Z.max (fst a) (fst b) < MINUTES_PER_WEEK) as Hin by lia.
    split; [done|]. split; [apply (spans_open p _ Hp Hin)|apply (spans_open q _ Hq Hin)]; apply existsb_true;
      eexists; (split; [eassumption|]); unfold in_span; rewrite andb_true_iff, Z.leb_le, Z.ltb_lt; lia.
  - intros (m & Hm & Hop & Hoq). apply (spans_open p m Hp Hm), existsb_true in Hop as (b & Hb & Hbm).
    apply (spans_open q m Hq Hm), existsb_true in Hoq as (a & Ha & Ham). exists a, b. split_and!; [done..|].
    unfold in_span, spans_meet in *. rewrite !andb_true_iff, ?Z.leb_le, ?Z.ltb_lt in *. lia.
Qed.

Lemma clashes_sym p q : openingHoursEntry p = true -> openingHoursEntry q = true -> clashes p q = clashes q p.
Proof. intros Hp Hq. apply eq_true_iff_eq. rewrite !clashes_open by done. naive_solver. Qed.

(** ** What the refinement accepts *)

Definition on_day (d : Day) (l : list OpeningHours) : nat := length (List.filter (fun o => bool_decide (oh_day o = d)) l).

Record WeekOk (l : list OpeningHours) : Prop := mkWeekOk {
  wk_nonempty : forall p, p ∈ l -> String.eqb (oh_opens p) (oh_closes p) = false;
  wk_few : forall d, (on_day d l <= MAX_PERIODS_PER_DAY)%nat;
  wk_apart : ForallOrdPairs (fun p q => clashes p q = false) l }.

Lemma on_day_app d l l' : on_day d (l ++ l') = (on_day d l + on_day d l')%nat.
Proof. unfold on_day. by rewrite List.filter_app, length_app. Qed.

Lemma apart_perm (l l' : list OpeningHours) :
  (forall p, p ∈ l -> openingHoursEntry p = true) -> l ≡ₚ l' ->
  ForallOrdPairs (fun p q => clashes p q = false) l -> ForallOrdPairs (fun p q => clashes p q = false) l'.
Proof.
  intros Hv Hp. induction Hp as [|x l l' Hp IH|x y l|l l' l'' Hp1 IH1 Hp2 IH2]; intros Ha.
  - done.
  - inversion Ha as [|? ? Hx Hl]; subst. constructor; [|apply IH; [intros; apply Hv; set_solver|done]].
    rewrite List.Forall_forall in *. intros z Hz. apply Hx. apply list_elem_of_In. rewrite Hp. by apply list_elem_of_In.
  - inversion Ha as [|? ? Hy Hxl]; subst. inversion Hxl as [|? ? Hx Hl]; subst. inversion Hy as [|? ? Hyx Hyl]; subst.
    constructor; [constructor; [rewrite clashes_sym; [done|..]; apply Hv; set_solver|done]|]. by constructor.
  - apply IH2; [intros p Hin; apply Hv; by rewrite Hp1|]. by apply IH1.
Qed.

Lemma week_perm l l' :
  (forall p, p ∈ l -> openingHoursEntry p = true) -> l ≡ₚ l' -> WeekOk l -> WeekOk l'.
Proof.
  intros Hv Hp [H1 H2 H3]. constructor.
  - intros p Hin. apply H1. by rewrite Hp.
  - intros d. specialize (H2 d). unfold on_day in *.
    assert (List.filter (fun o => bool_decide (oh_day o = d)) l ≡ₚ List.filter (fun o => bool_decide (oh_day o = d)) l') as Hf.
    { clear -Hp. induction Hp as [|x l l' _ IH|x y l|l l' l'' _ IH1 _ IH2]; simpl; [done| | |by etrans].
      - case_bool_decide; [by f_equiv|done].
      - repeat case_bool_decide; try done. apply Permutation_swap. }
    by rewrite <- Hf.
  - by apply (apart_perm l).
Qed.

Lemma apart_snoc l p :
  ForallOrdPairs (fun p q => clashes p q = false) l -> (forall q, q ∈ l -> clashes q p = false) ->
  ForallOrdPairs (fun p q => clashes p q = false) (l ++ [p]).
Proof.
  induction 1 as [|x l Hx _ IH]; intros Hp; simpl; [constructor; constructor|]. constructor.
  - apply List.Forall_app. split; [done|]. constructor; [apply Hp; set_solver|constructor].
  - apply IH. set_solver.
Qed.

Lemma refine_accepts seen index entries :
  (forall p, p ∈ seen ++ entries -> openingHoursEntry p = true) -> WeekOk seen ->
  refine_hours seen index entries = [] <-> WeekOk (seen ++ entries).
Proof.
  revert seen index. induction entries as [|p rest IH]; intros seen index Hv Hok; simpl; [by rewrite app_nil_r|].
  assert (forall a b, refine_hours a b rest = refine_hours a b rest) as _ by done.
  destruct (String.eqb (oh_opens p) (oh_closes p)) eqn:He.
  { split; [done|]. intros [H1 _ _]. rewrite (H1 p) in He by set_solver. done. }
  destruct (Nat.eqb_spec (length (List.filter (fun o => bool_decide (oh_day o = oh_day p)) seen)) MAX_PERIODS_PER_DAY) as [Hm|Hm].
  { split; [done|]. intros [_ H2 _]. specialize (H2 (oh_day p)). rewrite on_day_app in H2. unfold on_day in H2.
    simpl in H2. rewrite bool_decide_eq_true_2 in H2 by done. simpl in H2. lia. }
  destruct (existsb (clashes p) seen) eqn:Hc.
  { split; [done|]. intros [_ _ H3]. apply existsb_true in Hc as (q & Hq & Hc).
    rewrite clashes_sym in Hc by (apply Hv; set_solver).
    apply list_elem_of_split in Hq as (l1 & l2 & ->). clear -H3 Hc. exfalso.
    induction l1 as [|x l1 IH]; simpl in H3; inversion H3 as [|? ? Hx Hl]; subst; [|auto].
    rewrite List.Forall_forall in Hx. rewrite Hx in Hc; [done|]. apply list_elem_of_In. set_solver. }
  replace (seen ++ p :: rest) with ((seen ++ [p]) ++ rest) by (by rewrite <- app_assoc). apply IH.
  { intros q Hq. apply Hv. revert Hq. rewrite <- app_assoc. done. }
  rewrite existsb_false in Hc. destruct Hok as [H1 H2 H3]. constructor.
  - intros q [Hq| ->%list_elem_of_singleton]%elem_of_app; [by apply H1|done].
  - intros d. rewrite on_day_app. specialize (H2 d). unfold on_day at 2. simpl. case_bool_decide as Hd; simpl; [|lia].
    subst. unfold on_day in *. lia.
  - apply apart_snoc; [done|]. intros q Hq. rewrite clashes_sym by (apply Hv; set_solver). by apply Hc.
Qed.

Lemma week_empty : WeekOk [].
Proof. constructor; [set_solver|intros d; unfold on_day; simpl; lia|constructor]. Qed.

Lemma schema_accepts entries hours :
  openingHoursSchema entries = HoursAccepted hours <->
  (forall p, p ∈ entries -> openingHoursEntry p = true) /\ (length entries <= 28)%nat /\ WeekOk entries
  /\ hours = order_by hours_before entries.
Proof.
  unfold openingHoursSchema. change (7 * MAX_PERIODS_PER_DAY)%nat with 28%nat.
  destruct (forallb openingHoursEntry entries) eqn:Hv; simpl.
  - assert (forall p, p ∈ entries -> openingHoursEntry p = true) as Hall.
    { rewrite forallb_forall in Hv. intros p Hp. apply Hv. by apply list_elem_of_In. }
    destruct (Nat.leb_spec (length entries) 28) as [Hl|Hl]; [|split; [done|intros (_ & ? & _); lia]].
    pose proof (refine_accepts [] 0 entries Hall week_empty) as Hr. simpl in Hr.
    destruct (refine_hours [] 0 entries) as [|i l]; [|naive_solver].
    split; [intros [= <-]; naive_solver|]. intros (_ & _ & _ & Heq). by rewrite Heq.
  - split; [done|]. intros (Hall & _). assert (forallb openingHoursEntry entries = true) as Ht; [|congruence].
    apply forallb_forall. intros p Hp. apply Hall. by apply list_elem_of_In.
Qed.

(** ** Order *)

Lemma hours_before_irrefl a : hours_before a a = false.
Proof. unfold hours_before. by rewrite !Z.ltb_irrefl, andb_false_r. Qed.
Lemma hours_before_trans a b c : hours_before a b = true -> hours_before b c = true -> hours_before a c = true.
Proof. unfold hours_before. rewrite !orb_true_iff, !andb_true_iff, !Z.ltb_lt, !Z.eqb_eq. lia. Qed.

(** Periods that open at the same minute clash, so those of an accepted week are in strict order. *)
Lemma same_opening_clash p q :
  openingHoursEntry p = true -> openingHoursEntry q = true -> hours_before p q = false -> hours_before q p = false ->
  clashes p q = true.
Proof.
  intros Hp Hq H1 H2. apply clashes_open; [done..|]. unfold hours_before in *.
  rewrite orb_false_iff, andb_false_iff, !Z.ltb_ge, Z.eqb_neq in H1. rewrite orb_false_iff, andb_false_iff, !Z.ltb_ge, Z.eqb_neq in H2.
  pose proof (period_bounds p Hp) as (Hs & Hl & _). pose proof (period_bounds q Hq) as (_ & Hl' & _).
  assert (opening q = opening p) as Heq.
  { unfold opening. assert (day_index (oh_day p) = day_index (oh_day q)) as -> by lia.
    assert (minutes (oh_opens p) = minutes (oh_opens q)) as -> by lia. done. }
  exists (opening p). split; [done|]. split; exists 0; lia.
Qed.

Lemma week_ordered l :
  (forall p, p ∈ l -> openingHoursEntry p = true) -> WeekOk l -> in_order hours_before (order_by hours_before l).
Proof.
  intros Hv [_ _ Ha]. apply order_by_order.
  - apply hours_before_trans.
  - clear -Hv Ha. induction Ha as [|x l Hx _ IH]; [constructor|]. constructor; [|apply IH; intros; apply Hv; set_solver].
    intros Hin. rewrite List.Forall_forall in Hx. specialize (Hx x ltac:(by apply list_elem_of_In)).
    rewrite same_opening_clash in Hx; [done|apply Hv; set_solver|apply Hv; set_solver|apply hours_before_irrefl..].
  - intros p q Hp Hq Hne. destruct (hours_before p q) eqn:H1; [by left|]. destruct (hours_before q p) eqn:H2; [by right|].
    exfalso. assert (clashes p q = true) as Hc by (apply same_opening_clash; auto).
    assert (clashes q p = true) as Hc' by (rewrite clashes_sym; auto).
    clear -Hp Hq Hne Ha Hc Hc'. induction Ha as [|x l Hx _ IH]; [set_solver|]. rewrite List.Forall_forall in Hx.
    apply elem_of_cons in Hp as [->|Hp], Hq as [->|Hq]; auto.
    + rewrite Hx in Hc; [done|by apply list_elem_of_In].
    + rewrite Hx in Hc'; [done|by apply list_elem_of_In].
Qed.

(** ** What is stored *)

Lemma open_at_mod p m : open_at p m <-> open_at p (m mod MINUTES_PER_WEEK).
Proof.
  unfold open_at. assert (MINUTES_PER_WEEK = 10080) as -> by done. pose proof (Z.div_mod m 10080). split; intros [w Hw].
  - exists (w + m / 10080). lia.
  - exists (w - m / 10080). lia.
Qed.

(** Never open at the same minute. *)
Definition apart (p q : OpeningHours) : Prop := forall m, open_at p m -> open_at q m -> False.

Lemma clashes_apart p q :
  openingHoursEntry p = true -> openingHoursEntry q = true -> clashes p q = false <-> apart p q.
Proof.
  intros Hp Hq. rewrite <- not_true_iff_false, clashes_open by done. split.
  - intros Hn m H1 H2. apply Hn. exists (m mod MINUTES_PER_WEEK). rewrite <- !open_at_mod.
    split; [by apply Z.mod_pos_bound|done].
  - intros Ha (m & _ & H1 & H2). by apply (Ha m).
Qed.

Lemma pairs_apart l :
  (forall p, p ∈ l -> openingHoursEntry p = true) ->
  ForallOrdPairs (fun p q => clashes p q = false) l <-> ForallOrdPairs apart l.
Proof.
  induction l as [|x l IH]; intros Hv; [split; constructor|].
  assert (forall q, q ∈ l -> (clashes x q = false <-> apart x q)) as Hx by (intros; apply clashes_apart; apply Hv; set_solver).
  assert (forall p, p ∈ l -> openingHoursEntry p = true) as Hl by (intros; apply Hv; set_solver). specialize (IH Hl).
  split; inversion 1 as [|? ? H1 H2]; subst; constructor; try (by apply IH); rewrite List.Forall_forall in *;
    intros q Hq; apply Hx; auto; by apply list_elem_of_In.
Qed.

(** A day's share of the week bounds the whole. *)
Lemma on_days l : length l = foldr (fun d n => (on_day d l + n)%nat) 0%nat DAYS.
Proof.
  induction l as [|p l IH]; [done|]. simpl length. rewrite IH. unfold DAYS, on_day. simpl.
  destruct (oh_day p); simpl; lia.
Qed.

(** A week the rules allow: no empty period, at most four a day, never two open at once. *)
Record AllowedWeek (l : list OpeningHours) : Prop := mkAllowed {
  aw_formed : forall p, p ∈ l -> openingHoursEntry p = true;
  aw_nonempty : forall p, p ∈ l -> oh_opens p <> oh_closes p;
  aw_few : forall d, (on_day d l <= MAX_PERIODS_PER_DAY)%nat;
  aw_apart : ForallOrdPairs apart l }.

Lemma allowed_ok l :
  AllowedWeek l <-> (forall p, p ∈ l -> openingHoursEntry p = true) /\ (length l <= 28)%nat /\ WeekOk l.
Proof.
  split.
  - intros [H1 H2 H3 H4]. split_and!; [done| |constructor; [|done|by apply pairs_apart]].
    + rewrite on_days. unfold DAYS. simpl. pose proof (H3 MON). pose proof (H3 TUE). pose proof (H3 WED).
      pose proof (H3 THU). pose proof (H3 FRI). pose proof (H3 SAT). pose proof (H3 SUN).
      unfold MAX_PERIODS_PER_DAY in *. lia.
    + intros p Hp. apply String.eqb_neq. auto.
  - intros (H1 & _ & [H2 H3 H4]). constructor; [done| |done|by apply pairs_apart].
    intros p Hp. apply String.eqb_neq. auto.
Qed.

Lemma accepted_allowed entries hours :
  openingHoursSchema entries = HoursAccepted hours <-> AllowedWeek entries /\ hours = order_by hours_before entries.
Proof. rewrite schema_accepts, allowed_ok. tauto. Qed.

Lemma hours_permuted entries : order_by hours_before entries ≡ₚ entries.
Proof. apply order_by_perm. Qed.

Lemma allowed_perm l l' : l ≡ₚ l' -> AllowedWeek l -> AllowedWeek l'.
Proof.
  rewrite !allowed_ok. intros Hp (H1 & H2 & H3). split_and!.
  - intros p Hin. apply H1. by rewrite Hp.
  - by rewrite <- Hp.
  - by apply (week_perm l).
Qed.

Lemma allowed_sorted l : AllowedWeek l -> in_order hours_before (order_by hours_before l).
Proof. intros (H1 & _ & H3)%allowed_ok. by apply week_ordered. Qed.

(** ** Properties *)

(** C26: The hours are accepted exactly when every time is well formed, no period is empty, no day has more
    than four and no two periods, in this week or running on from the last, are open at the same minute —
    in whatever order they are given; and what is stored is those periods, in order. *)
Theorem hours_accepted_iff (entries : list OpeningHours) :
  ((exists hours, openingHoursSchema entries = HoursAccepted hours) <-> AllowedWeek entries)
  /\ (forall hours, openingHoursSchema entries = HoursAccepted hours ->
        hours ≡ₚ entries /\ in_order hours_before hours /\ AllowedWeek hours
        /\ openingHoursSchema hours = HoursAccepted hours).
Proof.
  split.
  - split; [intros (h & Hh); by apply accepted_allowed in Hh as [? _]|].
    intros Ha. eexists. by apply accepted_allowed.
  - intros hours [Ha ->]%accepted_allowed. pose proof (hours_permuted entries) as Hp.
    assert (AllowedWeek (order_by hours_before entries)) as Hs by (by apply (allowed_perm entries)).
    split_and!; [done|by apply allowed_sorted|done|]. apply accepted_allowed. split; [done|]. symmetry.
    apply order_by_id; [apply hours_before_irrefl|apply hours_before_trans|by apply allowed_sorted].
Qed.

(** Theorems about the schema apply: a late Saturday, and Sunday mornings before and after it closes. *)
Definition late_saturday : list OpeningHours :=
  [mkOpeningHours SUN "02:00" "11:00"; mkOpeningHours SAT "18:00" "02:00"; mkOpeningHours SUN "23:00" "23:59"].

Example hours_clash :
  openingHoursSchema [mkOpeningHours SUN "22:00" "01:00"; mkOpeningHours MON "00:30" "09:00"]
  = HoursRefused [(1%nat, OVERLAPPING_HOURS)].
Proof. reflexivity. Qed.

Lemma hours_accepted_witness :
  openingHoursSchema late_saturday
    = HoursAccepted [mkOpeningHours SAT "18:00" "02:00"; mkOpeningHours SUN "02:00" "11:00"; mkOpeningHours SUN "23:00" "23:59"]
  /\ in_order hours_before [mkOpeningHours SAT "18:00" "02:00"; mkOpeningHours SUN "02:00" "11:00"; mkOpeningHours SUN "23:00" "23:59"].
Proof.
  split; [reflexivity|]. exact (proj1 (proj2 (proj2 (hours_accepted_iff late_saturday) _ eq_refl))).
Defined.
