(* ===== verification/SupplierNormalize.v ===== *)
(** * SupplierNormalize: one spelling per building, type and time
    (supplier-service/src/suppliers/campus-buildings.ts, admin/normalize.ts, admin/csv.ts)

    The catalogue is seeded from spreadsheets, whose spellings vary; the API brings a building to the same
    spelling. Records are association lists, a later column of the same name replacing an earlier. *)
From Stdlib Require Import Ascii QArith.
From S2P Require Export SupplierHours.
#[local] Open Scope Z_scope.

(** ** Types *)

Inductive SupplierType := FOOD | CAFE | PRINTING | SHOPPING | LANDMARK.
#[export] Instance SupplierType_eq_dec : EqDecision SupplierType.
Proof. solve_decision. Defined.
Definition type_name (t : SupplierType) : string :=
  match t with FOOD => "FOOD" | CAFE => "CAFE" | PRINTING => "PRINTING" | SHOPPING => "SHOPPING" | LANDMARK => "LANDMARK" end.
Definition SUPPLIER_TYPES : list SupplierType := [FOOD; CAFE; PRINTING; SHOPPING; LANDMARK].
Definition type_of (s : string) : option SupplierType := List.find (fun t => String.eqb (type_name t) s) SUPPLIER_TYPES.

Definition TYPE_MAP : list (string * SupplierType) :=
  [("food", FOOD); ("food/coffee", CAFE); ("coffee", CAFE); ("cafe", CAFE); ("printing", PRINTING);
   ("shopping", SHOPPING); ("landmark", LANDMARK)].

(** ** Text *)

(** [s.replace(/…/g, by)] where the expression is a choice of fixed texts. *)
Fixpoint replace_each (fuel : nat) (tokens : list string) (by_ s : string) : string :=
  match fuel with
  | O => s
  | Datatypes.S fuel' =>
      match strip_one tokens s with
      | Some s' => by_ +:+ replace_each fuel' tokens by_ s'
      | None => match s with EmptyString => EmptyString | String a s' => String a (replace_each fuel' tokens by_ s') end
      end
  end.
Definition replace_all (tokens : list string) (by_ s : string) : string :=
  replace_each (Datatypes.S (String.length s)) tokens by_ s.

(** [/[‘’`´]/g]. *)
Definition APOSTROPHES : list string := [bytes [226; 128; 152]; bytes [226; 128; 153]; "`"; bytes [194; 180]]%nat.

(** [/\s+/g] by a space: each run of white space. *)
Fixpoint collapse (fuel : nat) (s : string) : string :=
  match fuel with
  | O => s
  | Datatypes.S fuel' =>
      match strip_one (bytes <$> WHITE_SPACE) s with
      | Some s' => String " " (collapse fuel' (trimStart s'))
      | None => match s with EmptyString => EmptyString | String a s' => String a (collapse fuel' s') end
      end
  end.

Definition tidyBuilding (raw : string) : string :=
  let s := replace_all APOSTROPHES "'" raw in trim (collapse (Datatypes.S (String.length s)) s).

Definition CAMPUS_BUILDINGS : list string :=
  ["Block AS8"; "Central Library"; "COM2"; "COM3"; "Engineering Block E3"; "Engineering Block E4";
   "Engineering Block EA"; "Frontier"; "Hon Sui Sen Memorial Library"; "Innovation 4.0"; "Kent Ridge MRT";
   "Medicine+Science Library"; "Prince George's Park"; "Techno Edge"; "Terrace"; "The Deck"; "The Ridge";
   "University Town"; "Yusof Ishak House"].

Definition BUILDING_MAP : list (string * string) :=
  [("com 2", "COM2"); ("com2", "COM2"); ("com3", "COM3"); ("prince george's park", "Prince George's Park");
   ("innovation4.0", "Innovation 4.0"); ("innovation 4.0", "Innovation 4.0"); ("blk as8", "Block AS8");
   ("block as8", "Block AS8"); ("terrace", "Terrace"); ("the terrace", "Terrace")].

(** ** Times and coordinates *)

Definition is_digit (a : ascii) : bool := digit_in 0 9 a.
Definition lower_ascii (a : ascii) : ascii :=
  let n := N_of_ascii a in if (65 <=? n)%N && (n <=? 90)%N then ascii_of_N (n + 32) else a.

(** [/^…\s*hrs?$/i] after the digits. *)
Definition is_hrs (s : string) : bool :=
  match trimStart s with
  | String h (String r EmptyString) => Ascii.eqb (lower_ascii h) "h" && Ascii.eqb (lower_ascii r) "r"
  | String h (String r (String x EmptyString)) =>
      Ascii.eqb (lower_ascii h) "h" && Ascii.eqb (lower_ascii r) "r" && Ascii.eqb (lower_ascii x) "s"
  | _ => false
  end.

(** The hours and minutes of [930hrs], [0900 hr], [9:30] or [09:30]. *)
Definition read_time (s : string) : option (Z * Z) :=
  let two a b := digit a * 10 + digit b in
  match s with
  | String a (String b (String c (String d rest))) =>
      if is_digit a && is_digit b && is_digit c && is_digit d && is_hrs rest then Some (two a b, two c d)
      else if is_digit a && is_digit b && is_digit c && is_hrs (String d rest) then Some (digit a, two b c)
      else if is_digit a && Ascii.eqb b ":" && is_digit c && is_digit d && String.eqb rest "" then Some (digit a, two c d)
      else match rest with
           | String e EmptyString =>
               if is_digit a && is_digit b && Ascii.eqb c ":" && is_digit d && is_digit e
               then Some (two a b, two d e) else None
           | _ => None
           end
  | _ => None
  end.

Definition digit_char (n : Z) : ascii := ascii_of_N (Z.to_N (n + 48)).
Definition two_digits (n : Z) : string := String (digit_char (n / 10)) (String (digit_char (n mod 10)) EmptyString).

Definition normalizeTime (raw : string) : outcome (option string) :=
  let s := trim raw in
  if String.eqb s "" then Ok None else
  match read_time s with
  | None => Throw (Failure "Unrecognized time")
  | Some (h, m) =>
      if (23 <? h) || (59 <? m) then Throw (Failure "Time out of range")
      else Ok (Some (two_digits h +:+ String ":" (two_digits m)))
  end.

Definition normalizeOpeningHours (start close : string) : outcome (option (list OpeningHours)) :=
  match normalizeTime start with
  | Throw x => Throw x
  | Ok opens =>
      match normalizeTime close with
      | Throw x => Throw x
      | Ok closes =>
          match opens, closes with
          | None, None => Ok None
          | Some o, Some c => Ok (Some ((fun d => mkOpeningHours d o c) <$> DAYS))
          | _, _ => Throw (Failure "Incomplete opening hours")
          end
      end
  end.

(** ** Name-based identifiers (admin/uuid.ts) *)

Definition nibble (n : Z) : ascii := ascii_of_N (Z.to_N (if n <? 10 then n + 48 else n + 87)).
Definition hex_of (bs : list Z) : string :=
  foldr (fun b s => String (nibble (Z.shiftr b 4)) (String (nibble (Z.land b 15)) s)) "" bs.
Definition hex_value (a : ascii) : option Z :=
  let n := Z.of_N (N_of_ascii (lower_ascii a)) in
  if (48 <=? n) && (n <=? 57) then Some (n - 48) else if (97 <=? n) && (n <=? 102) then Some (n - 87) else None.

(** [Buffer.from(hex, 'hex')] stops at the first pair that is not hexadecimal. *)
Fixpoint from_hex (s : string) : list Z :=
  match s with
  | String a (String b s') =>
      match hex_value a, hex_value b with Some x, Some y => x * 16 + y :: from_hex s' | _, _ => [] end
  | _ => []
  end.

Fixpoint without_dashes (s : string) : string :=
  match s with
  | EmptyString => EmptyString
  | String a s' => if Ascii.eqb a "-" then without_dashes s' else String a (without_dashes s')
  end.
Definition namespaceToBytes (namespace : string) : outcome (list Z) :=
  let hex := without_dashes namespace in
  if Nat.eqb (String.length hex) 32 then Ok (from_hex hex) else Throw (Failure "Not a UUID namespace").

(** UTF-8. *)
Definition utf8 (s : string) : list Z := (fun a => Z.of_N (N_of_ascii a)) <$> String.list_ascii_of_string s.

Definition slice (from to_ : nat) (s : string) : string := String.substring from (to_ - from) s.

(** [sha1]: Node's. *)
Definition uuidv5 (sha1 : list Z -> list Z) (name namespace : string) : outcome string :=
  match namespaceToBytes namespace with
  | Throw x => Throw x
  | Ok ns =>
      let bs := take 16 (sha1 (ns ++ utf8 name)) in
      let bs := alter (fun b => Z.lor (Z.land b 15) 80) 6%nat bs in
      let bs := alter (fun b => Z.lor (Z.land b 63) 128) 8%nat bs in
      let hex := hex_of bs in
      Ok (slice 0 8 hex +:+ "-" +:+ slice 8 12 hex +:+ "-" +:+ slice 12 16 hex +:+ "-" +:+ slice 16 20 hex
          +:+ "-" +:+ slice 20 (String.length hex) hex)
  end.

Definition SUPPLIER_NAMESPACE : string := "f0c5a1de-0000-4000-8000-000000000001".

(** ** Records *)

(** The fields an administrator gives; an optional one may be absent or [null]. A coordinate is a finite
    double, which is a rational. *)
Record SupplierInput := mkInput {
  in_name : string; in_type : SupplierType; in_building : string; in_floor : string; in_location : string;
  in_openingHours : option (option (list OpeningHours)); in_latitude : option (option Q);
  in_longitude : option (option Q); in_imageUrl : option (option string); in_tags : option (option (list string)) }.

(** A record of the spreadsheet, its columns in order: what the last of that name holds. *)
Definition column (name : string) (r : list (string * string)) : string := default "" (assoc name (rev r)).

(** [csvToRecords], of rows already split into cells (papaparse). *)
Definition csvToRecords (rows : list (list string)) : list (list (string * string)) :=
  match rows with
  | [] => []
  | header :: rows =>
      (fun cells => imap (fun i key => (trim key, trim (default "" (cells !! i)))) header) <$> rows
  end.

Section Normalize.
Context {texts : Texts}.
(** [Number(s)] of text that is not empty, when it is finite; and SHA-1. *)
Context (js_number : string -> option Q) (sha1 : list Z -> list Z).

Definition normalizeType (raw : string) : outcome SupplierType :=
  match assoc (to_lower (trim raw)) TYPE_MAP with
  | Some t => Ok t
  | None => Throw (Failure "Unknown supplier type")
  end.

Definition buildingKey (raw : string) : string := to_lower (tidyBuilding raw).

(** A [Map] keeps the last value given for a key. *)
Definition CANONICAL_BUILDINGS : list (string * string) :=
  rev (((fun b => (buildingKey b, b)) <$> CAMPUS_BUILDINGS) ++ BUILDING_MAP).
Definition normalizeBuilding (raw : string) : string :=
  default (tidyBuilding raw) (assoc (buildingKey raw) CANONICAL_BUILDINGS).

Definition parseCoordinate (raw : string) : outcome (option Q) :=
  let s := trim raw in
  if String.eqb s "" then Ok None
  else match js_number s with Some q => Ok (Some q) | None => Throw (Failure "Unrecognized coordinate") end.

Definition seed_key (name building : string) : string := to_lower name +:+ "|" +:+ building.

(** The input and its identifier. *)
Definition recordToSupplier (r : list (string * string)) : outcome (string * SupplierInput) :=
  let name := trim (column "Name" r) in
  let building := normalizeBuilding (column "Building" r) in
  match parseCoordinate (column "Latitude" r) with
  | Throw x => Throw x
  | Ok latitude =>
      match parseCoordinate (column "Longitude" r) with
      | Throw x => Throw x
      | Ok longitude =>
          if negb (Bool.eqb (is_some latitude) (is_some longitude)) then Throw (Failure "Incomplete coordinates") else
          match uuidv5 sha1 (seed_key name building) SUPPLIER_NAMESPACE with
          | Throw x => Throw x
          | Ok supplierId =>
          match normalizeType (column "Type" r) with
          | Throw x => Throw x
          | Ok type =>
              match normalizeOpeningHours (column "StartingTime" r) (column "ClosingTime" r) with
              | Throw x => Throw x
              | Ok hours =>
                  let image := trim (column "ImageURL" r) in
                  Ok (supplierId,
                      mkInput name type building (trim (column "Floor" r)) (trim (column "Location Description" r))
                        (Some hours) (Some latitude) (Some longitude)
                        (Some (if String.eqb image "" then None else Some image)) (Some None))
              end
          end
          end
      end
  end.
End Normalize.

(** ** Lower case *)

Fixpoint ascii_lower (s : string) : string :=
  match s with EmptyString => EmptyString | String a s' => String (lower_ascii a) (ascii_lower s') end.
Fixpoint is_ascii (s : string) : bool :=
  match s with EmptyString => true | String a s' => (N_of_ascii a <? 128)%N && is_ascii s' end.

(** What is relied on of JavaScript's [toLowerCase]: on ASCII text it changes the capitals only. *)
Class LowerAscii (texts : Texts) := lower_ascii_ok : forall s, is_ascii s = true -> to_lower s = ascii_lower s.

Example building_aliases :
  let texts := {| nfkc := fun s => s; to_lower := ascii_lower |} in
  normalizeBuilding " Com  2 " = "COM2"
  /\ normalizeBuilding ("Prince George" +:+ bytes [226; 128; 153]%nat +:+ "s Park") = "Prince George's Park"
  /\ normalizeBuilding "the DECK" = "The Deck" /\ normalizeBuilding "Blk  AS8" = "Block AS8".
Proof. vm_compute. auto. Qed.
Example times :
  normalizeTime "0900hrs" = Ok (Some "09:00") /\ normalizeTime " 930 HR" = Ok (Some "09:30")
  /\ normalizeTime "9:05" = Ok (Some "09:05") /\ normalizeTime "2400hrs" = Throw (Failure "Time out of range").
Proof. vm_compute. auto. Qed.

(** The version and the variant are set whatever the digest. *)
Example name_based_id :
  uuidv5 (fun bs => repeat 255 20) "kiosk|COM2" SUPPLIER_NAMESPACE = Ok "ffffffff-ffff-5fff-bfff-ffffffffffff".
Proof. vm_compute. reflexivity. Qed.

Section Facts.
Context {texts : Texts} {lower : LowerAscii texts}.

Lemma campus_keys_ascii b : b ∈ CAMPUS_BUILDINGS -> is_ascii (tidyBuilding b) = true.
Proof.
  assert (forallb (fun b => is_ascii (tidyBuilding b)) CAMPUS_BUILDINGS = true) as H by (vm_compute; reflexivity).
  rewrite forallb_forall in H. intros Hb. apply H. by apply list_elem_of_In.
Qed.

Lemma canonical_lowered :
  CANONICAL_BUILDINGS = rev (((fun b => (ascii_lower (tidyBuilding b), b)) <$> CAMPUS_BUILDINGS) ++ BUILDING_MAP).
Proof.
  unfold CANONICAL_BUILDINGS. do 2 f_equal. apply list_fmap_ext. intros i b Hb. unfold buildingKey.
  rewrite lower_ascii_ok; [done|]. apply campus_keys_ascii. by eapply list_elem_of_lookup_2.
Qed.

(** A listed building is its own spelling. *)
Lemma normalize_listed b : b ∈ CAMPUS_BUILDINGS -> normalizeBuilding b = b.
Proof.
  intros Hb. unfold normalizeBuilding, buildingKey. rewrite lower_ascii_ok by (by apply campus_keys_ascii).
  rewrite canonical_lowered.
  assert (forallb (fun b => String.eqb (default (tidyBuilding b) (assoc (ascii_lower (tidyBuilding b))
    (rev (((fun b => (ascii_lower (tidyBuilding b), b)) <$> CAMPUS_BUILDINGS) ++ BUILDING_MAP)))) b) CAMPUS_BUILDINGS = true)
    as H by (vm_compute; reflexivity).
  rewrite forallb_forall in H. apply String.eqb_eq, H. by apply list_elem_of_In.
Qed.

(** A spelling is brought to a listed building or left as it is, tidied. *)
Lemma normalize_cases raw : normalizeBuilding raw ∈ CAMPUS_BUILDINGS \/ normalizeBuilding raw = tidyBuilding raw.
Proof.
  unfold normalizeBuilding. destruct (assoc _ _) as [b|] eqn:Ha; [left; simpl|by right].
  apply assoc_Some_elem in Ha. unfold CANONICAL_BUILDINGS in Ha. apply list_elem_of_In, in_rev, list_elem_of_In in Ha.
  apply elem_of_app in Ha as [(x & [= _ ->] & Hx)%list_elem_of_fmap|Ha]; [done|].
  assert (forallb (fun kb => bool_decide (kb.2 ∈ CAMPUS_BUILDINGS)) BUILDING_MAP = true) as H by (vm_compute; reflexivity).
  rewrite forallb_forall in H. specialize (H (buildingKey raw, b) ltac:(by apply list_elem_of_In)).
  by apply bool_decide_eq_true in H.
Qed.

Lemma normalize_normalized raw : normalizeBuilding raw ∈ CAMPUS_BUILDINGS -> normalizeBuilding (normalizeBuilding raw) = normalizeBuilding raw.
Proof. apply normalize_listed. Qed.
End Facts.
