(* ===== verification/SupplierRepository.v ===== *)
(** * SupplierRepository: the catalogue's tables
    (supplier-service/src/db/schema.ts, suppliers/types.ts, suppliers/suppliers.repository.ts)

    One record per row, with every constraint of the schema, and one operation per method. A listing's
    order is that of the database's collation, a parameter with the laws of a strict order. *)
From Stdlib Require Import QArith.
From S2P Require Export SupplierNormalize.
#[local] Open Scope Z_scope.

(** ** Tables *)

Record Supplier := mkSupplier {
  sp_name : string; sp_type : SupplierType; sp_building : string; sp_floor : string; sp_location : string;
  sp_openingHours : option (list OpeningHours); sp_latitude : option Q; sp_longitude : option Q;
  sp_imageUrl : option string; sp_tags : option (list string);
  sp_active : bool; sp_version : Z; sp_createdAt : Z; sp_updatedAt : Z }.

Record SupplierKey := mkSupplierKey { sk_supplierId : string; sk_requestHash : string; sk_createdAt : Z }.

Record SupplierDb := mkSupplierDb { suppliers : gmap string Supplier; supplierKeys : gmap string SupplierKey }.
Definition set_suppliers v (d : SupplierDb) : SupplierDb := mkSupplierDb v (supplierKeys d).
Definition set_supplierKeys v (d : SupplierDb) : SupplierDb := mkSupplierDb (suppliers d) v.
Definition empty_suppliers : SupplierDb := mkSupplierDb ∅ ∅.

Notation SupplierM := (M SupplierDb).

(** [numeric BETWEEN low AND high]. *)
Definition q_between (low high : Z) (q : Q) : bool := Qle_bool (inject_Z low) q && Qle_bool q (inject_Z high).

(** PostgreSQL's text holds no NUL. *)
Definition row_texts (r : Supplier) : list string :=
  [sp_name r; sp_building r; sp_floor r; sp_location r] ++ option_list (sp_imageUrl r) ++ default [] (sp_tags r).

(** What a stored row must satisfy, whatever statement writes it. *)
Definition storable (r : Supplier) : SupplierM unit :=
  require (negb (existsb has_nul (row_texts r))) (Sql (InvalidText "suppliers")) ;;;
  width_ok (sp_version r) ;;;
  check_ (len_between 1 200 (sp_name r)) "suppliers_name_len" ;;;
  check_ (len_between 1 200 (sp_building r)) "suppliers_building_len" ;;;
  check_ (len_between 1 50 (sp_floor r)) "suppliers_floor_len" ;;;
  check_ (len_between 1 500 (sp_location r)) "suppliers_location_len" ;;;
  check_ (optP (sp_imageUrl r) (len_between 1 2048)) "suppliers_image_url_len" ;;;
  check_ (1 <=? sp_version r) "suppliers_version_positive" ;;;
  check_ (Bool.eqb (is_some (sp_latitude r)) (is_some (sp_longitude r))) "suppliers_coordinates_paired" ;;;
  check_ (optP (sp_latitude r) (q_between (-90) 90)) "suppliers_latitude_range" ;;;
  check_ (optP (sp_longitude r) (q_between (-180) 180)) "suppliers_longitude_range".

Definition NAME_BUILDING_INDEX : string := "suppliers_name_building_active_key".

Section Tables.
Context {pg : Pg}.

(** The key of the partial unique index. *)
Definition name_building (r : Supplier) : string * string := (pg_lower (sp_name r), pg_lower (sp_building r)).
Definition clash (id_ : string) (r : Supplier) (db : SupplierDb) : bool :=
  sp_active r
  && existsb (fun kr => negb (String.eqb kr.1 id_) && sp_active kr.2 && bool_decide (name_building kr.2 = name_building r))
       (map_to_list (suppliers db)).

(** A row written under an identifier, new or not. *)
Definition write_row (id_ : string) (r : Supplier) : SupplierM Supplier :=
  storable r ;;;
  let! db := gets id in
  unique_ (negb (clash id_ r db)) NAME_BUILDING_INDEX ;;;
  modify (set_suppliers (<[id_ := r]> (suppliers db))) ;;;
  ret r.

(** ** Methods *)

(** [value ?? null]. *)
Definition or_null {A} (o : option (option A)) : option A := mjoin o.

Definition insertValues (s : SupplierInput) (at_ : Z) : Supplier :=
  mkSupplier (in_name s) (in_type s) (in_building s) (in_floor s) (in_location s)
    (or_null (in_openingHours s)) (or_null (in_latitude s)) (or_null (in_longitude s))
    (or_null (in_imageUrl s)) (or_null (in_tags s)) true 1 at_ at_.

Definition repo_insert (id_ : string) (s : SupplierInput) : SupplierM Supplier :=
  let! at_ := now in
  let r := insertValues s at_ in
  storable r ;;;
  let! db := gets id in
  unique_ (negb (is_some (suppliers db !! id_))) "suppliers_pkey" ;;;
  write_row id_ r.

(** [ON CONFLICT (supplier_id) DO NOTHING]: the row's checks come first, the other index after. *)
Definition insertIfAbsent (id_ : string) (s : SupplierInput) : SupplierM (option Supplier) :=
  let! at_ := now in
  let r := insertValues s at_ in
  storable r ;;;
  let! db := gets id in
  if is_some (suppliers db !! id_) then ret None
  else let! r' := write_row id_ r in ret (Some r').

Definition repo_findById (id_ : string) (db : SupplierDb) : option Supplier := suppliers db !! id_.

Definition active_rows (db : SupplierDb) : list (string * Supplier) :=
  List.filter (fun kr => sp_active kr.2) (map_to_list (suppliers db)).
Definition activeBuildings (db : SupplierDb) : list string := remove_dups ((fun kr => sp_building kr.2) <$> active_rows db).

(** The fields of an update that are present. *)
Record SupplierPatch := mkPatch {
  pt_name : option string; pt_type : option SupplierType; pt_building : option string; pt_floor : option string;
  pt_location : option string; pt_openingHours : option (option (list OpeningHours)); pt_latitude : option (option Q);
  pt_longitude : option (option Q); pt_imageUrl : option (option string); pt_tags : option (option (list string)) }.

Definition patch_columns (c : SupplierPatch) (at_ : Z) (r : Supplier) : Supplier :=
  mkSupplier (default (sp_name r) (pt_name c)) (default (sp_type r) (pt_type c)) (default (sp_building r) (pt_building c))
    (default (sp_floor r) (pt_floor c)) (default (sp_location r) (pt_location c))
    (default (sp_openingHours r) (pt_openingHours c)) (default (sp_latitude r) (pt_latitude c))
    (default (sp_longitude r) (pt_longitude c)) (default (sp_imageUrl r) (pt_imageUrl c)) (default (sp_tags r) (pt_tags c))
    (sp_active r) (sp_version r + 1) (sp_createdAt r) at_.

(** [UPDATE … WHERE supplier_id = $1 AND cond RETURNING]. *)
Definition update_supplier (id_ : string) (cond : Supplier -> bool) (f : Supplier -> Supplier) : SupplierM (option Supplier) :=
  let! db := gets id in
  match suppliers db !! id_ with
  | Some r => if cond r then let! r' := write_row id_ (f r) in ret (Some r') else ret None
  | None => ret None
  end.

Definition repo_update (id_ : string) (expectedVersion : Z) (changes : SupplierPatch) : SupplierM (option Supplier) :=
  let! at_ := now in
  update_supplier id_ (fun r => sp_version r =? expectedVersion) (patch_columns changes at_).

Definition deactivated (at_ : Z) (r : Supplier) : Supplier :=
  mkSupplier (sp_name r) (sp_type r) (sp_building r) (sp_floor r) (sp_location r) (sp_openingHours r) (sp_latitude r)
    (sp_longitude r) (sp_imageUrl r) (sp_tags r) false (sp_version r + 1) (sp_createdAt r) at_.

Definition repo_deactivate (id_ : string) (expectedVersion : Z) : SupplierM (option Supplier) :=
  let! at_ := now in
  update_supplier id_ (fun r => (sp_version r =? expectedVersion) && sp_active r) (deactivated at_).

Definition findSupplierKey (key : string) (db : SupplierDb) : option (string * string) :=
  (fun k => (sk_supplierId k, sk_requestHash k)) <$> supplierKeys db !! key.

(** [ON CONFLICT DO NOTHING], under the foreign key. *)
Definition claimIdempotencyKey (key id_ hash : string) : SupplierM bool :=
  let! at_ := now in
  let! db := gets id in
  if is_some (supplierKeys db !! key) then ret false else
  references_ (is_some (suppliers db !! id_)) "supplier_idempotency_keys_supplier_id_suppliers_supplier_id_fk" ;;;
  modify (set_supplierKeys (<[key := mkSupplierKey id_ hash at_]> (supplierKeys db))) ;;;
  ret true.
End Tables.

(** ** Listing *)

(** The collation of text: a strict order, in which texts that differ stand one before the other. *)
Class Collation := { text_before : string -> string -> bool }.
Class CollationLaws (c : Collation) := {
  text_irrefl : forall a, text_before a a = false;
  text_trans : forall a b c, text_before a b = true -> text_before b c = true -> text_before a c = true;
  text_total : forall a b, a <> b -> text_before a b = true \/ text_before b a = true }.

(** The C collation is one. *)
#[export] Instance bytewise : Collation := {| text_before := String.ltb |}.
#[export] Instance bytewise_laws : CollationLaws bytewise.
Proof.
  constructor; [apply string_ltb_irrefl| |apply string_ltb_total]. intros a b c. apply string_ltb_trans.
Qed.

Inductive SupplierSort := SortName | SortType | SortBuilding | SortUpdatedAt.
#[export] Instance SupplierSort_eq_dec : EqDecision SupplierSort.
Proof. solve_decision. Defined.

(** The expressions a listing may be ordered by. *)
Inductive SortKey := LowerName | TypeKey | LowerBuilding | UpdatedAt | SupplierIdKey.
#[export] Instance SortKey_eq_dec : EqDecision SortKey.
Proof. solve_decision. Defined.

Definition SORT_KEY (s : SupplierSort) : SortKey :=
  match s with SortName => LowerName | SortType => TypeKey | SortBuilding => LowerBuilding | SortUpdatedAt => UpdatedAt end.
Definition TIE_BREAKS : list SortKey := [LowerName; SupplierIdKey].

Record SupplierQuery := mkSupplierQuery {
  sq_page : Z; sq_pageSize : Z; sq_type : option SupplierType; sq_building : option string; sq_q : option string;
  sq_sort : SupplierSort; sq_descending : bool }.

Record SupplierListItem := mkListItem {
  li_supplierId : string; li_name : string; li_type : SupplierType; li_building : string; li_imageUrl : option string }.
Definition toSupplierListItem (kr : string * Supplier) : SupplierListItem :=
  mkListItem kr.1 (sp_name kr.2) (sp_type kr.2) (sp_building kr.2) (sp_imageUrl kr.2).

Section List_.
Context {pg : Pg} {collation : Collation}.

(** [ILIKE]: both sides in lower case. *)
Definition ilike (s term : string) : bool := like (pg_lower term) (pg_lower s).

Definition search_term (q : string) : string := ("%" +:+ escapeLike q +:+ "%").
Definition matches_q (q : string) (r : Supplier) : bool :=
  let term := search_term q in
  ilike (sp_name r) term || ilike (sp_building r) term || ilike (sp_location r) term
  || existsb (fun tag => ilike tag term) (default [] (sp_tags r)).

Definition matched (f : SupplierQuery) (kr : string * Supplier) : bool :=
  sp_active kr.2
  && optP (sq_type f) (fun t => bool_decide (sp_type kr.2 = t))
  && optP (sq_building f) (fun b => String.eqb (pg_lower (sp_building kr.2)) (pg_lower b))
  && optP (sq_q f) (fun q => matches_q q kr.2).

Definition before_by (k : SortKey) (a b : string * Supplier) : bool :=
  match k with
  | LowerName => text_before (pg_lower (sp_name a.2)) (pg_lower (sp_name b.2))
  | TypeKey => text_before (type_name (sp_type a.2)) (type_name (sp_type b.2))
  | LowerBuilding => text_before (pg_lower (sp_building a.2)) (pg_lower (sp_building b.2))
  | UpdatedAt => sp_updatedAt a.2 <? sp_updatedAt b.2
  | SupplierIdKey => String.ltb a.1 b.1
  end.

(** [ORDER BY k1 DESC, k2, …]: each key with its direction. *)
Fixpoint lexical (keys : list (SortKey * bool)) (a b : string * Supplier) : bool :=
  match keys with
  | [] => false
  | (k, desc) :: keys =>
      let lt x y := if (desc : bool) then before_by k y x else before_by k x y in
      lt a b || (negb (lt b a) && lexical keys a b)
  end.

Definition orderBy (f : SupplierQuery) : list (SortKey * bool) :=
  let primary := SORT_KEY (sq_sort f) in
  (primary, sq_descending f) :: ((fun k => (k, false)) <$> List.filter (fun k => bool_decide (k <> primary)) TIE_BREAKS).

Definition sorted_matches (f : SupplierQuery) (db : SupplierDb) : list (string * Supplier) :=
  order_by (lexical (orderBy f)) (List.filter (matched f) (map_to_list (suppliers db))).

(** The rows of the page, and how many match in all. *)
Definition repo_list (f : SupplierQuery) (db : SupplierDb) : list (string * Supplier) * nat :=
  offset_page (Z.to_nat (sq_page f)) (Z.to_nat (sq_pageSize f)) (sorted_matches f db).
End List_.
