(* ===== verification/SupplierService.v ===== *)
(** * SupplierService: the catalogue's operations and their routes
    (supplier-service/src/suppliers/validation.ts, suppliers.service.ts, suppliers.controller.ts,
    buildings.controller.ts, admin/seed.ts, admin/seed-data.ts)

    A body whose JSON has the wrong shape, or an unknown field, is refused before it is read here; which
    fields an invalid body is told about is left out, except for opening hours. *)
From Stdlib Require Import Ascii QArith.
From S2P Require Export Catalogue SupplierRepository.
#[local] Open Scope Z_scope.

(** ** Validation *)

(** [text().trim().min(1).max(n)]. *)
Definition text_field (max : nat) (s : string) : option string :=
  let t := trim s in
  if negb (has_nul s) && (1 <=? js_length t)%nat && (js_length t <=? max)%nat then Some t else None.

(** A body: a field may be absent, and some may be [null]. *)
Record SupplierBody := mkBody {
  bd_name : option string; bd_type : option string; bd_building : option string; bd_floor : option string;
  bd_location : option string; bd_openingHours : option (option (list OpeningHours)); bd_latitude : option (option Q);
  bd_longitude : option (option Q); bd_imageUrl : option (option string); bd_tags : option (option (list string)) }.

(** A field that is absent passes; one that is present passes when [f] accepts it. *)
Definition optional {A B} (f : A -> option B) (o : option A) : option (option B) :=
  match o with None => Some None | Some a => Some <$> f a end.
Definition nullable {A B} (f : A -> option B) (o : option A) : option (option B) := optional f o.

Definition hours_field (l : list OpeningHours) : option (list OpeningHours) :=
  match openingHoursSchema l with HoursAccepted h => Some h | _ => None end.
Definition number_field (low high : Z) (q : Q) : option Q := if q_between low high q then Some q else None.
Definition tags_field (l : list string) : option (list string) :=
  if (length l <=? 50)%nat then mapM (text_field 50) l else None.

Definition present {A} (o : option A) : bool := is_some o.
(** Both present, and then both numbers or both [null]. *)
Definition coordinatesPaired (latitude longitude : option (option Q)) : bool :=
  Bool.eqb (present latitude) (present longitude) && Bool.eqb (is_some (or_null latitude)) (is_some (or_null longitude)).

(** [version], as [parseIfMatch] reads it: the value between a pair of quotes, or all of it. *)
Fixpoint without_last (s : string) : option (string * ascii) :=
  match s with
  | EmptyString => None
  | String a s' => match without_last s' with None => Some (EmptyString, a) | Some (t, z) => Some (String a t, z) end
  end.
Definition is_quote (a : ascii) : bool := Nat.eqb (nat_of_ascii a) 34.
Definition unquote (s : string) : string :=
  match s with
  | String q s' =>
      if is_quote q then
        match without_last s' with Some (t, z) => if is_quote z then t else s | None => s end
      else s
  | EmptyString => s
  end.

Definition all_digits (s : string) : bool := forallb is_digit (String.list_ascii_of_string s).
Definition decimal (s : string) : Z := fold_left (fun n a => n * 10 + digit a) (String.list_ascii_of_string s) 0.
(** [/^\d{1,9}$/]. *)
Definition nine_digits (s : string) : bool :=
  all_digits s && (1 <=? String.length s)%nat && (String.length s <=? 9)%nat.

Definition parseIfMatch (raw : option string) : outcome Z :=
  let s := trim (default "" raw) in
  if String.eqb s "" then Throw (ApiException 428 "PRECONDITION_REQUIRED") else
  let t := unquote s in
  if nine_digits t && (1 <=? decimal t) then Ok (decimal t) else Throw (ApiException 400 "BAD_REQUEST").

(** [`"${version}"`], of a version PostgreSQL's integer holds: ten digits at most. *)
Fixpoint digits (fuel : nat) (n : Z) (acc : string) : string :=
  match fuel with
  | O => acc
  | Datatypes.S fuel =>
      let acc := String (digit_char (n mod 10)) acc in if n <? 10 then acc else digits fuel (n / 10) acc
  end.
Definition quote : string := String (ascii_of_nat 34) EmptyString.
Definition etag (version : Z) : string := quote +:+ digits 10 version quote.

Definition IDEMPOTENCY_KEY_MAX : nat := 200.
Definition parseIdempotencyKey (raw : option string) : outcome (option string) :=
  let key := trim (default "" raw) in
  if String.eqb key "" then Ok None
  else if (IDEMPOTENCY_KEY_MAX <? js_length key)%nat then Throw (ApiException 400 "BAD_REQUEST")
  else Ok (Some key).

(** [count]: a plain decimal integer of at most nine digits, clamped; anything else is the default. *)
Definition count (fallback : Z) (clamp : Z -> Z) (raw : option string) : Z :=
  match raw with
  | None => fallback
  | Some s =>
      let t := trim s in
      match t with
      | String a t' =>
          if Ascii.eqb a "-" then (if nine_digits t' then clamp (- decimal t') else fallback)
          else if nine_digits t then clamp (decimal t) else fallback
      | EmptyString => fallback
      end
  end.
Definition page_number : option string -> Z := count 1 (Z.max 1).
Definition page_size : option string -> Z := count 20 (fun v => Z.min 100 (Z.max 1 v)).

Definition sort_name (s : SupplierSort) : string :=
  match s with SortName => "name" | SortType => "type" | SortBuilding => "building" | SortUpdatedAt => "updatedAt" end.
Definition SUPPLIER_SORTS : list SupplierSort := [SortName; SortType; SortBuilding; SortUpdatedAt].

(** The query of a listing. A repeated key is not a string, and is taken for absent here. *)
Record RawQuery := mkRawQuery {
  rw_page : option string; rw_pageSize : option string; rw_type : option string; rw_building : option string;
  rw_q : option string; rw_sort : option string; rw_order : option string }.

Definition invalid : Exn := ApiException 422 "VALIDATION_FAILED".
Definition or_invalid {A} (o : option A) : outcome A := match o with Some a => Ok a | None => Throw invalid end.

Section Validation.
Context {texts : Texts}.
(** [z.url({ protocol: /^https$/ })]: the URL it accepts, trimmed; and [toUpperCase]. *)
Context (https_url : string -> option string) (to_upper : string -> string).

Definition building_field (s : string) : option string :=
  b ← text_field 200 s;
  let b := normalizeBuilding b in if bool_decide (b ∈ CAMPUS_BUILDINGS) then Some b else None.

Definition url_field (s : string) : option string :=
  u ← https_url s; if (js_length u <=? 2048)%nat && negb (has_nul u) then Some u else None.

(** [baseFields], each optional. *)
Definition parse_fields (b : SupplierBody) : option SupplierPatch :=
  name ← optional (text_field 200) (bd_name b);
  type ← optional type_of (bd_type b);
  building ← optional building_field (bd_building b);
  floor ← optional (text_field 50) (bd_floor b);
  location ← optional (text_field 500) (bd_location b);
  hours ← optional (nullable hours_field) (bd_openingHours b);
  latitude ← optional (nullable (number_field (-90) 90)) (bd_latitude b);
  longitude ← optional (nullable (number_field (-180) 180)) (bd_longitude b);
  image ← optional (nullable url_field) (bd_imageUrl b);
  tags ← optional (nullable tags_field) (bd_tags b);
  Some (mkPatch name type building floor location hours latitude longitude image tags).

Definition supplierCreateSchema (b : SupplierBody) : option SupplierInput :=
  p ← parse_fields b;
  name ← pt_name p; type ← pt_type p; building ← pt_building p; floor ← pt_floor p; location ← pt_location p;
  if coordinatesPaired (pt_latitude p) (pt_longitude p)
  then Some (mkInput name type building floor location (pt_openingHours p) (pt_latitude p) (pt_longitude p)
               (pt_imageUrl p) (pt_tags p))
  else None.

Definition has_fields (p : SupplierPatch) : bool :=
  is_some (pt_name p) || is_some (pt_type p) || is_some (pt_building p) || is_some (pt_floor p) || is_some (pt_location p)
  || is_some (pt_openingHours p) || is_some (pt_latitude p) || is_some (pt_longitude p) || is_some (pt_imageUrl p)
  || is_some (pt_tags p).

Definition supplierUpdateSchema (b : SupplierBody) : option SupplierPatch :=
  p ← parse_fields b;
  if has_fields p && coordinatesPaired (pt_latitude p) (pt_longitude p) then Some p else None.

(** A filter that is blank is unset. *)
Definition optionalFilter {A} (f : string -> option A) (raw : option string) : option (option A) :=
  match raw with
  | None => Some None
  | Some s => if String.eqb (trim s) "" then Some None else Some <$> f s
  end.

Definition supplierListQuerySchema (r : RawQuery) : option SupplierQuery :=
  type ← optionalFilter (fun s => type_of (to_upper (trim s))) (rw_type r);
  building ← optionalFilter (fun s => if has_nul s then None else Some (normalizeBuilding (trim s))) (rw_building r);
  q ← optionalFilter (fun s => if negb (has_nul s) && (js_length (trim s) <=? 200)%nat then Some (trim s) else None) (rw_q r);
  let sort := match rw_sort r with
              | Some s => default SortName (List.find (fun x => String.eqb (to_lower (sort_name x)) (to_lower (trim s))) SUPPLIER_SORTS)
              | None => SortName
              end in
  let desc := match rw_order r with Some s => String.eqb (to_lower (trim s)) "desc" | None => false end in
  Some (mkSupplierQuery (page_number (rw_page r)) (page_size (rw_pageSize r)) type building q sort desc).
End Validation.

(** ** Operations (suppliers.service.ts) *)

Record SupplierView := mkSupplierView {
  vw_supplierId : string; vw_name : string; vw_type : SupplierType; vw_building : string; vw_floor : string;
  vw_location : string; vw_openingHours : option (list OpeningHours); vw_latitude : option Q; vw_longitude : option Q;
  vw_imageUrl : option string; vw_tags : option (list string); vw_active : bool; vw_version : Z;
  vw_createdAt : Z; vw_updatedAt : Z }.
Definition toSupplierView (id_ : string) (r : Supplier) : SupplierView :=
  mkSupplierView id_ (sp_name r) (sp_type r) (sp_building r) (sp_floor r) (sp_location r) (sp_openingHours r)
    (sp_latitude r) (sp_longitude r) (sp_imageUrl r) (sp_tags r) (sp_active r) (sp_version r)
    (iso (sp_createdAt r)) (iso (sp_updatedAt r)).

Definition supplierNotFound : Exn := ApiException 404 "NOT_FOUND".
Definition staleVersion : Exn := ApiException 412 "STALE_VERSION".
Definition keyReused : Exn := ApiException 422 "IDEMPOTENCY_KEY_REUSED".

(** [try … catch]: a clash on the index is a field error; anything else is thrown on. *)
Definition on_duplicate {A} (m : SupplierM A) : SupplierM A :=
  fun e s => match m e s with
             | Throw (Sql (UniqueViolation c)) =>
                 Throw (if String.eqb c NAME_BUILDING_INDEX then invalid else Sql (UniqueViolation c))
             | r => r
             end.

Section Service.
Context {pg : Pg} {texts : Texts} {collation : Collation}.
(** The SHA-256 of a body in canonical form. *)
Context (requestHash : SupplierInput -> string).

Record SupplierPage := mkSupplierPage { gp_page : Z; gp_pageSize : Z; gp_total : nat; gp_items : list SupplierListItem }.
Definition list_suppliers (f : SupplierQuery) (db : SupplierDb) : SupplierPage :=
  let r := repo_list f db in mkSupplierPage (sq_page f) (sq_pageSize f) (snd r) (toSupplierListItem <$> fst r).

Definition buildings (inUse : bool) (db : SupplierDb) : list string :=
  if inUse then List.filter (fun b => bool_decide (b ∈ (normalizeBuilding <$> activeBuildings db))) CAMPUS_BUILDINGS
  else CAMPUS_BUILDINGS.

Definition supplier_getById (id_ : string) (db : SupplierDb) : outcome SupplierView :=
  match repo_findById id_ db with Some r => Ok (toSupplierView id_ r) | None => Throw supplierNotFound end.

Definition insert_new (input : SupplierInput) (key : option string) : SupplierM (SupplierView * bool) :=
  let! id_ := randomUUID in
  let! r := on_duplicate (repo_insert id_ input) in
  (match key with
   | Some k => let! _c := claimIdempotencyKey k id_ (requestHash input) in ret tt
   | None => ret tt
   end) ;;;
  ret (toSupplierView id_ r, false).

(** A [key] is not empty. Its lock is the atomicity of the transaction. *)
Definition supplier_create (input : SupplierInput) (key : option string) : SupplierM (SupplierView * bool) :=
  let! db := gets id in
  match key ≫= (fun k => findSupplierKey k db) with
  | Some (id_, hash) =>
      if negb (String.eqb hash (requestHash input)) then throw keyReused
      else match repo_findById id_ db with
           | Some r => ret (toSupplierView id_ r, true)
           | None => throw (Failure "row")
           end
  | None => insert_new input key
  end.

Definition supplier_update (id_ : string) (expectedVersion : Z) (changes : SupplierPatch) : SupplierM SupplierView :=
  let! updated := on_duplicate (repo_update id_ expectedVersion changes) in
  match updated with
  | Some r => ret (toSupplierView id_ r)
  | None => let! db := gets id in
            match repo_findById id_ db with None => throw supplierNotFound | Some _ => throw staleVersion end
  end.

Definition supplier_deactivate (id_ : string) (expectedVersion : Z) : SupplierM SupplierView :=
  let! done_ := repo_deactivate id_ expectedVersion in
  match done_ with
  | Some r => ret (toSupplierView id_ r)
  | None =>
      let! db := gets id in
      match repo_findById id_ db with
      | None => throw supplierNotFound
      | Some r => if negb (sp_active r) && (sp_version r =? expectedVersion) then ret (toSupplierView id_ r) else throw staleVersion
      end
  end.

(** ** Seeding (admin/seed.ts) *)

Record SeedResult := mkSeedResult { sr_created : list string; sr_skipped : list string }.
Definition seed_label (s : SupplierInput) : string := in_name s +:+ " @ " +:+ in_building s.

(** Each supplier in a transaction of its own; [e i] is the [i]-th's. *)
Fixpoint seedSuppliers (e : nat -> Env) (l : list (string * SupplierInput)) (res : SeedResult) (db : SupplierDb)
  : outcome SeedResult * SupplierDb :=
  match l with
  | [] => (Ok res, db)
  | (id_, s) :: l =>
      let skip := mkSeedResult (sr_created res) (sr_skipped res ++ [seed_label s]) in
      match transaction (insertIfAbsent id_ s) (e 0%nat) db with
      | (Ok (Some _), db') => seedSuppliers (fun i => e (Datatypes.S i)) l
                                (mkSeedResult (sr_created res ++ [seed_label s]) (sr_skipped res)) db'
      | (Ok None, db') => seedSuppliers (fun i => e (Datatypes.S i)) l skip db'
      | (Throw (Sql (UniqueViolation _)), db') => seedSuppliers (fun i => e (Datatypes.S i)) l skip db'
      | (Throw x, db') => (Throw x, db')
      end
  end.

(** [loadSeedSuppliers], of the files' records: normalized, valid, and the first of each name and building. *)
Fixpoint load_records (js_number : string -> option Q) (sha1 : list Z -> list Z) (https_url : string -> option string)
    (records : list (list (string * string))) (seen : list string) : outcome (list (string * SupplierInput)) :=
  match records with
  | [] => Ok []
  | r :: records =>
      match recordToSupplier js_number sha1 r with
      | Throw x => Throw x
      | Ok (id_, s) =>
          let body := mkBody (Some (in_name s)) (Some (type_name (in_type s))) (Some (in_building s)) (Some (in_floor s))
                        (Some (in_location s)) (in_openingHours s) (in_latitude s) (in_longitude s) (in_imageUrl s) (in_tags s) in
          if is_some (supplierCreateSchema https_url body) then
            let key := seed_key (in_name s) (in_building s) in
            if bool_decide (key ∈ seen) then load_records js_number sha1 https_url records seen
            else match load_records js_number sha1 https_url records (key :: seen) with
                 | Ok l => Ok ((id_, s) :: l)
                 | Throw x => Throw x
                 end
          else Throw invalid
      end
  end.

(** ** Routes *)

Section Routes.
Context {zod : Zod} (https_url : string -> option string) (to_upper : string -> string).

(** [parseOrThrow(supplierIdSchema, id)]; PostgreSQL reads an identifier in either case. *)
Definition path_id (id_ : string) : outcome string := if zod_uuid id_ then Ok (to_lower id_) else Throw invalid.

(** The view and its [ETag]; the other routes set it alike. *)
Definition get_supplier (id_ : string) (db : SupplierDb) : outcome (SupplierView * string) :=
  match path_id id_ with
  | Throw x => Throw x
  | Ok i => match supplier_getById i db with Ok v => Ok (v, etag (vw_version v)) | Throw x => Throw x end
  end.

Definition get_list (r : RawQuery) (db : SupplierDb) : outcome SupplierPage :=
  match supplierListQuerySchema to_upper r with Some f => Ok (list_suppliers f db) | None => Throw invalid end.

(** Status and view. *)
Definition post_supplier (key : option string) (body : SupplierBody) (e : Env) (db : SupplierDb)
  : outcome (Z * SupplierView) * SupplierDb :=
  match parseIdempotencyKey key with
  | Throw x => (Throw x, db)
  | Ok k =>
      match supplierCreateSchema https_url body with
      | None => (Throw invalid, db)
      | Some input =>
          match transaction (supplier_create input k) e db with
          | (Ok (v, replayed), db') => (Ok (if (replayed : bool) then 200 else 201, v), db')
          | (Throw x, db') => (Throw x, db')
          end
      end
  end.

Definition put_supplier (id_ : string) (ifMatch : option string) (body : SupplierBody) (e : Env) (db : SupplierDb)
  : outcome SupplierView * SupplierDb :=
  match path_id id_ with
  | Throw x => (Throw x, db)
  | Ok i =>
      match parseIfMatch ifMatch with
      | Throw x => (Throw x, db)
      | Ok version =>
          match supplierUpdateSchema https_url body with
          | None => (Throw invalid, db)
          | Some changes => transaction (supplier_update i version changes) e db
          end
      end
  end.

Definition delete_supplier (id_ : string) (ifMatch : option string) (e : Env) (db : SupplierDb)
  : outcome SupplierView * SupplierDb :=
  match path_id id_ with
  | Throw x => (Throw x, db)
  | Ok i =>
      match parseIfMatch ifMatch with
      | Throw x => (Throw x, db)
      | Ok version => transaction (supplier_deactivate i version) e db
      end
  end.
End Routes.
End Service.
