(* ===== verification/SupplierFacts.v ===== *)
(** * SupplierFacts: what each operation of the catalogue does, and what every change preserves *)
From Stdlib Require Import Ascii QArith.
From stdpp Require Import relations.
From Stdlib Require Import Ascii.
From S2P Require Export SupplierService.

#[local] Open Scope Z_scope.

(** ** Steps that cannot fail *)

Lemma bind_gets {S A B} (f : S -> A) (k : A -> M S B) e (s : nat * S) : bind (gets f) k e s = k (f (snd s)) e s.
Proof. done. Qed.
Lemma bind_now {S B} (k : Z -> M S B) e (s : nat * S) : bind now k e s = k (env_now e) e s.
Proof. done. Qed.
Lemma bind_uuid {S B} (k : string -> M S B) e n (db : S) :
  bind randomUUID k e (n, db) = k (env_uuid e n) e (Datatypes.S n, db).
Proof. done. Qed.
Lemma bind_require {S B} (b : bool) x (k : unit -> M S B) e (s : nat * S) r :
  bind (require b x) k e s = Ok r <-> b = true /\ k tt e s = Ok r.
Proof. destruct b; unfold bind, require, ret, throw; naive_solver. Qed.

Ltac peel :=
  repeat first [rewrite bind_gets in * | rewrite bind_now in * | rewrite bind_uuid in *];
  unfold id in *; cbn [fst snd] in *.

(** ** Rows *)

Definition row_ok (r : Supplier) : bool :=
  negb (existsb has_nul (row_texts r)) && in_int4 (sp_version r) && len_between 1 200 (sp_name r)
  && len_between 1 200 (sp_building r) && len_between 1 50 (sp_floor r) && len_between 1 500 (sp_location r)
  && optP (sp_imageUrl r) (len_between 1 2048) && (1 <=? sp_version r)
  && Bool.eqb (is_some (sp_latitude r)) (is_some (sp_longitude r))
  && optP (sp_latitude r) (q_between (-90) 90) && optP (sp_longitude r) (q_between (-180) 180).

Lemma storable_ok r e s x : storable r e s = Ok x <-> row_ok r = true /\ x = (tt, s).
Proof.
  unfold storable, row_ok. unfold_checks. rewrite !andb_true_iff. split.
  - intros H. repeat (apply bind_ok in H as (? & ? & Hm & H); apply require_ok in Hm as [? [= -> ->]]).
    apply require_ok in H as [? ->]. tauto.
  - intros [((((((((((H1 & H2) & H3) & H4) & H5) & H6) & H7) & H8) & H9) & H10) & H11) ->].
    rewrite H1, H2, H3, H4, H5, H6, H7, H8, H9, H10, H11. reflexivity.
Qed.

Section Does.
Context {pg : Pg}.

Lemma write_row_ok id_ r e n db x :
  write_row id_ r e (n, db) = Ok x <->
  row_ok r = true /\ clash id_ r db = false /\ x = (r, (n, set_suppliers (<[id_ := r]> (suppliers db)) db)).
Proof.
  unfold write_row. unfold_checks. split.
  - intros H. apply bind_ok in H as ([] & s & [Hr [= ->]]%storable_ok & H). inv_tx.
    by rewrite negb_true_iff in *.
  - intros (Hr & Hc & ->). eapply bind_step; [by apply storable_ok|]. run_plain.
    eapply bind_step; [apply require_ok; split; [|reflexivity]; by rewrite negb_true_iff|]. reflexivity.
Qed.

Lemma update_row_ok id_ cond f e n db o s :
  update_supplier id_ cond f e (n, db) = Ok (o, s) ->
  (exists r, suppliers db !! id_ = Some r /\ cond r = true /\ row_ok (f r) = true /\ clash id_ (f r) db = false
     /\ o = Some (f r) /\ s = (n, set_suppliers (<[id_ := f r]> (suppliers db)) db))
  \/ (o = None /\ s = (n, db) /\ forall r, suppliers db !! id_ = Some r -> cond r = false).
Proof.
  unfold update_supplier. intros H. apply bind_ok in H as (d & s1 & [= -> ->]%gets_ok & H). simpl snd in *. unfold id in H.
  destruct (suppliers db !! id_) as [r|] eqn:Hr; [|inv_tx; right; naive_solver].
  destruct (cond r) eqn:Hc; [|inv_tx; right; naive_solver].
  apply bind_ok in H as (r' & s' & [Hok [Hcl [= -> ->]]]%write_row_ok & H). inv_tx. left. eauto 10.
Qed.

Lemma insert_does id_ s e n db x :
  repo_insert id_ s e (n, db) = Ok x <->
  let r := insertValues s (env_now e) in
  row_ok r = true /\ suppliers db !! id_ = None /\ clash id_ r db = false
  /\ x = (r, (n, set_suppliers (<[id_ := r]> (suppliers db)) db)).
Proof.
  unfold repo_insert. unfold_checks. cbv zeta. split.
  - intros H. peel. apply bind_ok in H as ([] & ? & [Hr [= ->]]%storable_ok & H). peel.
    apply bind_require in H as [Hn H]. apply write_row_ok in H as (_ & Hc & ->). split_and!; [done| |done..].
    destruct (suppliers db !! id_); done.
  - intros (Hr & Hn & Hc & ->). run_plain. eapply bind_step; [by apply storable_ok|]. run_plain.
    eapply bind_step; [apply require_ok; split; [|reflexivity]; simpl; by rewrite Hn|]. by apply write_row_ok.
Qed.

Lemma absent_does id_ s e n db x :
  insertIfAbsent id_ s e (n, db) = Ok x <->
  let r := insertValues s (env_now e) in
  row_ok r = true
  /\ (is_Some (suppliers db !! id_) /\ x = (None, (n, db))
      \/ suppliers db !! id_ = None /\ clash id_ r db = false
         /\ x = (Some r, (n, set_suppliers (<[id_ := r]> (suppliers db)) db))).
Proof.
  unfold insertIfAbsent. cbv zeta. split.
  - intros H. peel. apply bind_ok in H as ([] & ? & [Hr [= ->]]%storable_ok & H). peel.
    split; [done|]. destruct (suppliers db !! id_) as [r|] eqn:Hl; [simpl in H; inv_tx; left; eauto|].
    change (is_some None) with false in H. cbv iota in H.
    apply bind_ok in H as (r' & s' & (_ & Hc & [= -> ->])%write_row_ok & H). inv_tx. eauto.
  - intros (Hr & H). run_plain. eapply bind_step; [by apply storable_ok|]. run_plain. unfold id. cbn [snd].
    destruct H as [([r ->] & ->)|(-> & Hc & ->)]; [done|]. simpl.
    eapply bind_step; [by apply write_row_ok|]. reflexivity.
Qed.

Lemma on_duplicate_ok {A} (m : SupplierM A) e s r : on_duplicate m e s = Ok r <-> m e s = Ok r.
Proof. unfold on_duplicate. destruct (m e s) as [|[[]| | | | | | | | | | | | |]]; split; naive_solver. Qed.

Lemma claim_does key id_ hash e n db b s :
  claimIdempotencyKey key id_ hash e (n, db) = Ok (b, s) ->
  (is_Some (supplierKeys db !! key) /\ s = (n, db))
  \/ (supplierKeys db !! key = None /\ is_Some (suppliers db !! id_)
      /\ s = (n, set_supplierKeys (<[key := mkSupplierKey id_ hash (env_now e)]> (supplierKeys db)) db)).
Proof.
  unfold claimIdempotencyKey. unfold_checks. intros H. peel. destruct (supplierKeys db !! key) as [k|] eqn:Hk; simpl in H; inv_tx; [left; eauto|right].
  split; [done|]. split; [destruct (suppliers db !! id_); done|done].
Qed.

(** ** Operations *)

Context (requestHash : SupplierInput -> string).

Definition with_key (key : option string) (k : SupplierKey) (db : SupplierDb) : SupplierDb :=
  match key with Some s => set_supplierKeys (<[s := k]> (supplierKeys db)) db | None => db end.

Lemma create_does input key e db v b db' :
  transaction (supplier_create requestHash input key) e db = (Ok (v, b), db') ->
  (exists k x r, key = Some k /\ supplierKeys db !! k = Some x /\ sk_requestHash x = requestHash input
     /\ suppliers db !! sk_supplierId x = Some r /\ v = toSupplierView (sk_supplierId x) r /\ b = true /\ db' = db)
  \/ (exists id_ r, id_ = env_uuid e 0 /\ r = insertValues input (env_now e)
     /\ (key ≫= fun k => supplierKeys db !! k) = None /\ suppliers db !! id_ = None /\ row_ok r = true
     /\ clash id_ r db = false /\ v = toSupplierView id_ r /\ b = false
     /\ db' = with_key key (mkSupplierKey id_ (requestHash input) (env_now e))
                (set_suppliers (<[id_ := r]> (suppliers db)) db)).
Proof.
  intros (n & H)%transaction_ok. unfold supplier_create in H. peel. unfold findSupplierKey in H. destruct (key ≫= _) as [[i h]|] eqn:Hk.
  - left. destruct key as [k|]; simpl in Hk; [|done].
    destruct (supplierKeys db !! k) as [x|] eqn:Hx; simplify_eq/=.
    destruct (String.eqb_spec (sk_requestHash x) (requestHash input)); simpl in H; [|inv_tx].
    unfold repo_findById in H. destruct (suppliers db !! _) as [r|] eqn:Hr; inv_tx. eauto 12.
  - right. unfold insert_new in H. peel.
    apply bind_ok in H as (r & s2 & Hi & H). rewrite on_duplicate_ok in Hi.
    apply insert_does in Hi as (Hr & Hn & Hc & [= -> ->]).
    exists (env_uuid e 0), (insertValues input (env_now e)).
    apply bind_ok in H as ([] & s3 & Hcl & H). inv_tx.
    assert ((key ≫= fun k => supplierKeys db !! k) = None) as Hnone.
    { destruct key as [k|]; [|done]. simpl in *. by destruct (supplierKeys db !! k). }
    split_and!; try done. destruct key as [k|]; simpl in *; [|by inv_tx].
    apply bind_ok in Hcl as (bb & s4 & Hcl & H4). inv_tx.
    apply claim_does in Hcl as [[[y Hy] _]|(_ & _ & [= _ ->])]; [|done]. simpl in Hy. congruence.
Qed.

Lemma update_does id_ version changes e db v db' :
  transaction (supplier_update id_ version changes) e db = (Ok v, db') ->
  exists r, suppliers db !! id_ = Some r /\ sp_version r = version
    /\ row_ok (patch_columns changes (env_now e) r) = true /\ clash id_ (patch_columns changes (env_now e) r) db = false
    /\ v = toSupplierView id_ (patch_columns changes (env_now e) r)
    /\ db' = set_suppliers (<[id_ := patch_columns changes (env_now e) r]> (suppliers db)) db.
Proof.
  intros (n & H)%transaction_ok. unfold supplier_update in H.
  apply bind_ok in H as (o & s & Hu & H). rewrite on_duplicate_ok in Hu. unfold repo_update in Hu.
  peel. apply update_row_ok in Hu as [(r & Hr & Hv & Hok & Hc & -> & ->)|(-> & -> & Hno)].
  - inv_tx. apply Z.eqb_eq in Hv. eauto 10.
  - peel. destruct (repo_findById id_ db); inv_tx.
Qed.

Lemma deactivate_does id_ version e db v db' :
  transaction (supplier_deactivate id_ version) e db = (Ok v, db') ->
  exists r, suppliers db !! id_ = Some r /\ sp_version r = version /\
    (sp_active r = true /\ row_ok (deactivated (env_now e) r) = true /\ v = toSupplierView id_ (deactivated (env_now e) r)
       /\ db' = set_suppliers (<[id_ := deactivated (env_now e) r]> (suppliers db)) db
     \/ sp_active r = false /\ v = toSupplierView id_ r /\ db' = db).
Proof.
  intros (n & H)%transaction_ok. unfold supplier_deactivate in H.
  apply bind_ok in H as (o & s & Hu & H). unfold repo_deactivate in Hu.
  peel. apply update_row_ok in Hu as [(r & Hr & Hv & Hok & Hc & -> & ->)|(-> & -> & Hno)].
  - inv_tx. apply andb_true_iff in Hv as [?%Z.eqb_eq ?]. exists r. split; [done|]. split; [done|]. left. by split_and!.
  - peel. unfold repo_findById in H. destruct (suppliers db !! id_) as [r|] eqn:Hr; [|inv_tx].
    destruct (sp_active r) eqn:Ha; simpl in H; [inv_tx|].
    destruct (Z.eqb_spec (sp_version r) version); inv_tx.
    exists r. split; [done|]. split; [done|]. right. by split_and!.
Qed.
End Does.

(** ** Steps *)

Section Steps.
Context {pg : Pg} {texts : Texts} {zod : Zod}.
Context (requestHash : SupplierInput -> string) (https_url : string -> option string).

(** What changes the catalogue: an administrator's request, whatever its answer, or a seeded record. *)
Inductive catalogue_step (db db' : SupplierDb) : Prop :=
  | StepPost key body e o : post_supplier requestHash https_url key body e db = (o, db') -> catalogue_step db db'
  | StepPut id_ ifMatch body e o : put_supplier https_url id_ ifMatch body e db = (o, db') -> catalogue_step db db'
  | StepDelete id_ ifMatch e o : delete_supplier id_ ifMatch e db = (o, db') -> catalogue_step db db'
  | StepSeed id_ s e o : transaction (insertIfAbsent id_ s) e db = (o, db') -> catalogue_step db db'.

Record CatalogueInv (db : SupplierDb) : Prop := mkCatalogueInv {
  ci_rows : forall i r, suppliers db !! i = Some r -> row_ok r = true;
  ci_unique : forall i j r r', suppliers db !! i = Some r -> suppliers db !! j = Some r' ->
    sp_active r = true -> sp_active r' = true -> name_building r = name_building r' -> i = j;
  ci_keys : forall k x, supplierKeys db !! k = Some x -> is_Some (suppliers db !! sk_supplierId x) }.

(** Every step leaves the tables alone, adds one row, or rewrites one at its next version. *)
Inductive change (db db' : SupplierDb) : Prop :=
  | Unchanged : db' = db -> change db db'
  | RowAdded i r key k :
      suppliers db !! i = None -> row_ok r = true -> clash i r db = false -> sk_supplierId k = i ->
      (key ≫= fun s => supplierKeys db !! s) = None ->
      db' = with_key key k (set_suppliers (<[i := r]> (suppliers db)) db) -> change db db'
  | RowChanged i r r' :
      suppliers db !! i = Some r -> row_ok r' = true -> clash i r' db = false -> sp_version r' = sp_version r + 1 ->
      sp_createdAt r' = sp_createdAt r -> (sp_active r' = true -> sp_active r = true) ->
      db' = set_suppliers (<[i := r']> (suppliers db)) db -> change db db'.

Lemma deactivated_no_clash i at_ r db : clash i (deactivated at_ r) db = false.
Proof. done. Qed.

Lemma tx_change {A} (m : SupplierM A) e db o db' :
  (forall v, transaction m e db = (Ok v, db') -> change db db') -> transaction m e db = (o, db') -> change db db'.
Proof. destruct o as [v|x]; [eauto|]. intros _ H%transaction_throw. by apply Unchanged. Qed.

Lemma step_change db db' : catalogue_step db db' -> change db db'.
Proof.
  intros [key body e o H|id_ ifm body e o H|id_ ifm e o H|id_ s e o H].
  - unfold post_supplier in H. destruct (parseIdempotencyKey key) as [k|]; [|by apply Unchanged; simplify_eq].
    destruct (supplierCreateSchema https_url body) as [input|]; [|by apply Unchanged; simplify_eq].
    destruct (transaction _ e db) as [[[v b]|x] db1] eqn:Ht.
    + assert (db1 = db') as -> by (by destruct b; simplify_eq).
      apply create_does in Ht as [(?&?&?&?&?&?&?&?&?& ->)|(i & r & -> & -> & Hk & Hn & Hr & Hc & _ & _ & ->)].
      * by apply Unchanged.
      * exact (RowAdded _ _ _ _ k (mkSupplierKey _ (requestHash input) (env_now e)) Hn Hr Hc eq_refl Hk eq_refl).
    + apply transaction_throw in Ht. apply Unchanged. naive_solver.
  - unfold put_supplier in H. destruct (path_id id_) as [i|]; [|by apply Unchanged; simplify_eq].
    destruct (parseIfMatch ifm) as [v|]; [|by apply Unchanged; simplify_eq].
    destruct (supplierUpdateSchema https_url body) as [c|]; [|by apply Unchanged; simplify_eq].
    eapply tx_change; [|exact H]. intros w (r & Hr & _ & Hok & Hc & _ & ->)%update_does. by eapply RowChanged.
  - unfold delete_supplier in H. destruct (path_id id_) as [i|]; [|by apply Unchanged; simplify_eq].
    destruct (parseIfMatch ifm) as [v|]; [|by apply Unchanged; simplify_eq].
    eapply tx_change; [|exact H].
    intros w (r & Hr & _ & [(Ha & Hok & _ & ->)|(_ & _ & ->)])%deactivate_does; [|by apply Unchanged].
    eapply RowChanged; try done.
  - eapply tx_change; [|exact H]. intros w (n & Hw)%transaction_ok.
    apply absent_does in Hw as (Hr & [(_ & [= _ ->])|(Hn & Hc & [= _ _ ->])]); [by apply Unchanged|].
    by eapply (RowAdded _ _ id_ _ None (mkSupplierKey id_ "" 0)).
Qed.

Lemma suppliers_with_key key k db : suppliers (with_key key k db) = suppliers db.
Proof. by destruct key. Qed.

Lemma clash_false i r db :
  clash i r db = false -> forall j r', suppliers db !! j = Some r' -> j <> i -> sp_active r = true -> sp_active r' = true ->
  name_building r' <> name_building r.
Proof.
  unfold clash. intros Hc j r' Hj Hne Ha Ha' Heq. rewrite Ha in Hc. simpl in Hc. rewrite existsb_false in Hc.
  specialize (Hc (j, r') ltac:(by apply elem_of_map_to_list)). simpl in Hc.
  rewrite (proj2 (String.eqb_neq j i) Hne), Ha', (bool_decide_eq_true_2 _ Heq) in Hc. done.
Qed.

Lemma insert_row_inv i r db :
  CatalogueInv db -> row_ok r = true -> clash i r db = false ->
  CatalogueInv (set_suppliers (<[i := r]> (suppliers db)) db).
Proof.
  intros [H1 H2 H3] Hr Hc. pose proof (clash_false _ _ _ Hc) as Hn. constructor; simpl.
  - intros j r'. destruct (decide (i = j)) as [<-|Hne]; [rewrite lookup_insert_eq; naive_solver|].
    rewrite lookup_insert_ne by done. eauto.
  - intros j k r1 r2. destruct (decide (i = j)) as [<-|Hj]; destruct (decide (i = k)) as [<-|Hk];
      rewrite ?lookup_insert_eq, ?lookup_insert_ne by done; intros; simplify_eq; try done.
    + exfalso. eapply (Hn k); [eassumption|unfold name_building; congruence..].
    + exfalso. eapply (Hn j); [eassumption|unfold name_building; congruence..].
    + eapply H2; [eassumption..|]. unfold name_building. congruence.
  - intros k x Hx. specialize (H3 k x Hx). apply lookup_insert_is_Some'. by right.
Qed.

Lemma with_key_inv key k db : CatalogueInv db -> is_Some (suppliers db !! sk_supplierId k) -> CatalogueInv (with_key key k db).
Proof.
  intros [H1 H2 H3] Hk. destruct key as [s|]; [|done]. constructor; [done..|]. simpl. intros k' x.
  destruct (decide (s = k')) as [<-|Hne]; [rewrite lookup_insert_eq; naive_solver|].
  rewrite lookup_insert_ne by done. eauto.
Qed.

Lemma catalogue_change_inv db db' : change db db' -> CatalogueInv db -> CatalogueInv db'.
Proof.
  intros [->|i r key k Hn Hr Hc Hk _ ->|i r r' Hi Hr Hc _ _ _ ->] HI; [done| |by apply insert_row_inv].
  apply with_key_inv; [by apply insert_row_inv|]. rewrite Hk. simpl. rewrite lookup_insert_eq. eauto.
Qed.

(** What becomes of a row: it stays, its version never goes down, a version is never written twice, and it
    does not come back once deactivated. *)
Definition row_later (r r' : Supplier) : Prop :=
  sp_version r <= sp_version r' /\ (sp_version r' = sp_version r -> r' = r)
  /\ (sp_active r' = true -> sp_active r = true) /\ sp_createdAt r' = sp_createdAt r.

#[local] Instance row_later_preorder : PreOrder row_later.
Proof.
  split; [intros a; unfold row_later; split_and!; (lia || done)|]. intros a b c (H1 & H2 & H3 & H4) (H5 & H6 & H7 & H8). unfold row_later. split_and!; [lia| |auto|congruence].
  intros Heq. assert (sp_version b = sp_version a) as Hb by lia. rewrite (H6 ltac:(lia)). auto.
Qed.

Definition catalogue_later (db db' : SupplierDb) : Prop :=
  (forall i r, suppliers db !! i = Some r -> exists r', suppliers db' !! i = Some r' /\ row_later r r')
  /\ (forall k x, supplierKeys db !! k = Some x -> supplierKeys db' !! k = Some x).

Lemma change_later db db' : change db db' -> catalogue_later db db'.
Proof.
  intros [->|i r key k Hn _ _ _ Hk ->|i r r' Hi _ _ Hv Hc Ha ->].
  - split; [|done]. intros i r Hr. exists r. split; [done|reflexivity].
  - split.
    + intros j r' Hr'. exists r'. split; [|reflexivity]. rewrite suppliers_with_key. simpl.
      rewrite lookup_insert_ne by congruence. done.
    + intros k' x Hx. destruct key as [s|]; [|done]. simpl in *. rewrite lookup_insert_ne by congruence. done.
  - split; [|done]. intros j r0 Hj. simpl. destruct (decide (i = j)) as [<-|Hne].
    + rewrite lookup_insert_eq. exists r'. split; [done|]. assert (r0 = r) as -> by congruence.
      split_and!; [lia|lia|done|done].
    + exists r0. rewrite lookup_insert_ne by done. split; [done|reflexivity].
Qed.

Lemma run_later db db' : rtc catalogue_step db db' -> catalogue_later db db'.
Proof.
  induction 1 as [db|db db1 db' Hs _ IH].
  - split; [|done]. intros i r Hr. exists r. split; [done|reflexivity].
  - destruct (change_later _ _ (step_change _ _ Hs)) as [H1 H2], IH as [H3 H4]. split; [|auto].
    intros i r Hr. destruct (H1 i r Hr) as (r1 & Hr1 & Hl1). destruct (H3 i r1 Hr1) as (r2 & Hr2 & Hl2).
    exists r2. split; [done|]. by etrans.
Qed.

Lemma run_catalogue_inv db db' : rtc catalogue_step db db' -> CatalogueInv db -> CatalogueInv db'.
Proof. induction 1 as [|db db1 db' Hs _ IH]; [done|]. intros HI. apply IH. eapply catalogue_change_inv; [by apply step_change|done]. Qed.

Lemma empty_catalogue_inv : CatalogueInv empty_suppliers.
Proof. by constructor. Qed.
End Steps.

(** ** SupplierTags: the version a reader is given is the version a writer may send back *)

#[local] Open Scope Z_scope.

(** Digits and quotes are no white space. *)
Lemma quote_start s : trimStart (quote +:+ s) = quote +:+ s.
Proof. reflexivity. Qed.

Lemma reverse_app s t acc : reverse_bytes (s +:+ t) acc = reverse_bytes t (reverse_bytes s acc).
Proof. revert acc. induction s as [|a s IH]; intros acc; simpl; [done|]. apply IH. Qed.
Lemma reverse_twice s acc x : reverse_bytes (reverse_bytes s acc) x = reverse_bytes acc (s +:+ x).
Proof. revert acc. induction s as [|a s IH]; intros acc; simpl; [done|]. by rewrite IH. Qed.
Lemma string_app_nil s : s +:+ "" = s.
Proof. induction s as [|a s IH]; [done|]. exact (f_equal (String a) IH). Qed.
Lemma string_app_assoc s t u : s +:+ (t +:+ u) = (s +:+ t) +:+ u.
Proof. induction s as [|a s IH]; [done|]. exact (f_equal (String a) IH). Qed.
Lemma list_ascii_app s t :
  String.list_ascii_of_string (s +:+ t) = String.list_ascii_of_string s ++ String.list_ascii_of_string t.
Proof. induction s as [|a s IH]; simpl; [done|]. by rewrite IH. Qed.
Lemma string_length_app s t : String.length (s +:+ t) = (String.length s + String.length t)%nat.
Proof. induction s as [|a s IH]; simpl; [done|]. by rewrite IH. Qed.

Lemma quoted_trim w : trim (quote +:+ w +:+ quote) = quote +:+ w +:+ quote.
Proof.
  unfold trim. rewrite quote_start. unfold trimEnd. set (s := quote +:+ w +:+ quote).
  assert (reverse_bytes s "" = quote +:+ reverse_bytes w quote) as Hr.
  { unfold s. rewrite reverse_app. simpl. by rewrite reverse_app. }
  assert (forall n x, strip n ((fun t => bytes (rev t)) <$> WHITE_SPACE) (quote +:+ x) = quote +:+ x) as Hs by (by intros []).
  rewrite Hr, Hs, <- Hr, reverse_twice. simpl. apply string_app_nil.
Qed.

Lemma without_last_quote w : without_last (w +:+ quote) = Some (w, ascii_of_nat 34).
Proof.
  induction w as [|a w IH]; [done|].
  change (without_last (String a w +:+ quote)) with
    (match without_last (w +:+ quote) with None => Some (EmptyString, a) | Some (t, z) => Some (String a t, z) end).
  by rewrite IH.
Qed.

Lemma unquote_quoted w : unquote (quote +:+ w +:+ quote) = w.
Proof.
  change (unquote (quote +:+ w +:+ quote)) with
    (match without_last (w +:+ quote) with
     | Some (t, z) => if is_quote z then t else quote +:+ w +:+ quote
     | None => quote +:+ w +:+ quote
     end).
  by rewrite without_last_quote.
Qed.

Lemma digit_char_digit n : 0 <= n < 10 -> digit (digit_char n) = n.
Proof.
  intros Hn. unfold digit, digit_char. rewrite N_ascii_embedding by lia. lia.
Qed.

Definition add_digit (n : Z) (a : ascii) : Z := n * 10 + digit a.
Lemma all_digits_app s t : all_digits (s +:+ t) = all_digits s && all_digits t.
Proof. unfold all_digits. by rewrite list_ascii_app, forallb_app. Qed.

(** What [digits] writes reads back, in as many digits as the number has. *)
Lemma digits_written fuel n acc (k : nat) :
  0 <= n < 10 ^ Z.of_nat fuel -> n < 10 ^ Z.of_nat k -> (1 <= k)%nat -> (1 <= fuel)%nat ->
  exists w, digits fuel n acc = w +:+ acc /\ all_digits w = true /\ (1 <= String.length w <= k)%nat /\ decimal w = n.
Proof.
  revert n acc k. induction fuel as [|fuel IH]; intros n acc k Hn Hk Hk1 Hf; [lia|]. cbn [digits].
  assert (0 <= n mod 10 < 10) as Hm by (by apply Z.mod_pos_bound).
  assert (all_digits (String (digit_char (n mod 10)) "") = true) as Hd.
  { unfold all_digits, is_digit. simpl. unfold digit_in. rewrite digit_char_digit by done.
    rewrite (proj2 (Z.leb_le _ _)), (proj2 (Z.leb_le _ _)) by lia. done. }
  destruct (Z.ltb_spec n 10) as [Hl|Hl].
  { exists (String (digit_char (n mod 10)) ""). split_and!; [done|done|simpl; lia|simpl; lia|].
    unfold decimal. simpl. rewrite digit_char_digit, Z.mod_small by lia. lia. }
  assert (0 <= n / 10) as H0 by (apply Z.div_pos; lia).
  destruct fuel as [|fuel]; [simpl in Hn; lia|]. destruct k as [|[|k]]; [lia|simpl in Hk; lia|].
  assert (n / 10 < 10 ^ Z.of_nat (Datatypes.S fuel)) as H1.
  { apply Z.div_lt_upper_bound; [done|]. rewrite <- Z.pow_succ_r by lia. rewrite <- Nat2Z.inj_succ. lia. }
  assert (n / 10 < 10 ^ Z.of_nat (Datatypes.S k)) as H2.
  { apply Z.div_lt_upper_bound; [done|]. rewrite <- Z.pow_succ_r by lia. rewrite <- Nat2Z.inj_succ. lia. }
  destruct (IH (n / 10) (String (digit_char (n mod 10)) acc) (Datatypes.S k)) as (w & Hw & Ha & Hlen & Hv); [lia..|].
  exists (w +:+ String (digit_char (n mod 10)) ""). split_and!.
  - rewrite Hw. by rewrite <- string_app_assoc.
  - by rewrite all_digits_app, Ha, Hd.
  - rewrite string_length_app. simpl. lia.
  - rewrite string_length_app. simpl. lia.
  - unfold decimal in *. rewrite list_ascii_app, fold_left_app, Hv. simpl. rewrite digit_char_digit by done.
    pose proof (Z.div_mod n 10). lia.
Qed.

(** A version up to 999,999,999 read from an [ETag] header and sent back as [If-Match] is the version it
    was. *)
Theorem etag_roundtrip (version : Z) :
  1 <= version <= 999999999 -> parseIfMatch (Some (etag version)) = Ok version.
Proof.
  intros Hv. destruct (digits_written 10 version quote 9) as (w & Hw & Ha & Hl & Hd); [simpl; lia|simpl; lia|lia|lia|].
  unfold parseIfMatch, etag. rewrite Hw.
  change (default "" (Some (quote +:+ (w +:+ quote)))) with (quote +:+ (w +:+ quote)). rewrite quoted_trim. cbv zeta.
  assert (String.eqb (quote +:+ w +:+ quote) "" = false) as -> by done.
  rewrite unquote_quoted. unfold nine_digits. rewrite Ha, Hd.
  rewrite !(proj2 (Nat.leb_le _ _)) by lia. rewrite (proj2 (Z.leb_le _ _)) by lia. done.
Qed.

Lemma etag_roundtrip_witness : 1 <= 407 <= 999999999 /\ parseIfMatch (Some (etag 407)) = Ok 407.
Proof. split; [lia|]. exact (etag_roundtrip 407 ltac:(lia)). Defined.

(** One version more, and the tag given out is refused. *)
Lemma etag_too_long : parseIfMatch (Some (etag 1000000000)) = Throw (ApiException 400 "BAD_REQUEST").
Proof. reflexivity. Qed.

Lemma if_match_version raw v : parseIfMatch raw = Ok v -> 1 <= v <= 999999999.
Proof.
  unfold parseIfMatch. cbv zeta. case_match; [done|]. destruct (nine_digits _ && _) eqn:H1; [|done]. intros [= <-].
  rewrite andb_true_iff, Z.leb_le in H1. destruct H1 as [Hn H1]. split; [done|].
  unfold nine_digits in Hn. rewrite !andb_true_iff, !Nat.leb_le in Hn. destruct Hn as [[Ha _] Hl].
  set (t := unquote _) in *. clearbody t. clear -Ha Hl.
  assert (forall l n, forallb is_digit l = true -> 0 <= n -> fold_left (fun n a => n * 10 + digit a) l n < (n + 1) * 10 ^ Z.of_nat (length l)) as H.
  { clear. induction l as [|a l IH]; intros n Hd Hn; simpl fold_left; [simpl; lia|]. simpl in Hd. apply andb_true_iff in Hd as [Hd Hl].
    apply digit_in_spec in Hd. specialize (IH (n * 10 + digit a) Hl ltac:(lia)).
    simpl length. rewrite Nat2Z.inj_succ, Z.pow_succ_r by lia.
    assert (0 < 10 ^ Z.of_nat (length l)) by (apply Z.pow_pos_nonneg; lia). nia. }
  specialize (H _ 0 Ha ltac:(lia)). unfold decimal.
  assert (length (String.list_ascii_of_string t) = String.length t) as Hlen by (clear; induction t; simpl; congruence).
  rewrite Hlen in H. assert (10 ^ Z.of_nat (String.length t) <= 10 ^ 9) by (apply Z.pow_le_mono_r; lia). lia.
Qed.
