(* ===== verification/SupplierValid.v ===== *)
(** * SupplierValid: a request that passes validation meets no constraint of the database *)
From Stdlib Require Import Ascii QArith.
From S2P Require Export SupplierFacts.
#[local] Open Scope Z_scope.

(** ** Text *)

Lemma has_nul_cons a s : has_nul (String a s) = Ascii.eqb a zero || has_nul s.
Proof. done. Qed.

Lemma substring_nul n m s : has_nul s = false -> has_nul (String.substring n m s) = false.
Proof.
  revert n m. induction s as [|a s IH]; intros n m Hs; [by destruct n, m|]. rewrite has_nul_cons, orb_false_iff in Hs.
  destruct Hs as [Ha Hs]. destruct n as [|n]; simpl; [|by apply IH]. destruct m as [|m]; [done|].
  rewrite has_nul_cons, Ha. by apply IH.
Qed.

Lemma strip_one_nul tokens s s' : has_nul s = false -> strip_one tokens s = Some s' -> has_nul s' = false.
Proof.
  intros Hs. induction tokens as [|t tokens IH]; simpl; [done|]. case_match; [|done]. intros [= <-]. by apply substring_nul.
Qed.

Lemma strip_nul fuel tokens s : has_nul s = false -> has_nul (strip fuel tokens s) = false.
Proof.
  revert s. induction fuel as [|fuel IH]; intros s Hs; simpl; [done|]. destruct (strip_one tokens s) eqn:Ho; [|done].
  apply IH. by eapply strip_one_nul.
Qed.

Lemma reverse_nul s acc : has_nul (reverse_bytes s acc) = has_nul s || has_nul acc.
Proof.
  revert acc. induction s as [|a s IH]; intros acc; simpl; [done|]. rewrite IH, !has_nul_cons.
  by destruct (has_nul s), (Ascii.eqb a zero), (has_nul acc).
Qed.

Lemma trim_nul s : has_nul s = false -> has_nul (trim s) = false.
Proof.
  intros Hs. unfold trim, trimEnd. rewrite reverse_nul, orb_false_r. apply strip_nul. rewrite reverse_nul, orb_false_r.
  unfold trimStart. by apply strip_nul.
Qed.

(** Text the database takes in a column of at most [max] characters. *)
Definition text_ok (max : Z) (s : string) : bool := negb (has_nul s) && len_between 1 max s.

Lemma length_ok s (max : nat) :
  (1 <= js_length s)%nat -> (js_length s <= max)%nat -> len_between 1 (Z.of_nat max) s = true.
Proof.
  intros H1 H2. pose proof (char_length_js s). pose proof (js_length_char s). unfold len_between. cbv zeta.
  rewrite andb_true_iff, !Z.leb_le. lia.
Qed.

Lemma text_field_ok max s t : text_field max s = Some t -> text_ok (Z.of_nat max) t = true.
Proof.
  unfold text_field, text_ok. cbv zeta. destruct (negb (has_nul s) && _ && _) eqn:Hb; [|done]. intros [= <-].
  rewrite !andb_true_iff, negb_true_iff, !Nat.leb_le in Hb. destruct Hb as [[Hn H1] H2].
  by rewrite trim_nul, length_ok by done.
Qed.

Lemma campus_text b : b ∈ CAMPUS_BUILDINGS -> text_ok 200 b = true.
Proof.
  assert (forallb (text_ok 200) CAMPUS_BUILDINGS = true) as H by (vm_compute; reflexivity).
  rewrite forallb_forall in H. intros Hb. apply H. by apply list_elem_of_In.
Qed.

(** A row is stored when each of its columns may be. *)
Lemma row_ok_parts r :
  row_ok r = true <->
  (text_ok 200 (sp_name r) = true /\ text_ok 200 (sp_building r) = true /\ text_ok 50 (sp_floor r) = true
   /\ text_ok 500 (sp_location r) = true /\ optP (sp_imageUrl r) (text_ok 2048) = true
   /\ existsb has_nul (default [] (sp_tags r)) = false)
  /\ (in_int4 (sp_version r) = true /\ (1 <=? sp_version r) = true)
  /\ (Bool.eqb (is_some (sp_latitude r)) (is_some (sp_longitude r)) = true
      /\ optP (sp_latitude r) (q_between (-90) 90) = true /\ optP (sp_longitude r) (q_between (-180) 180) = true).
Proof.
  unfold row_ok, row_texts, text_ok. rewrite !existsb_app, !negb_orb. simpl existsb. rewrite !orb_false_r.
  destruct (sp_imageUrl r) as [u|]; simpl; rewrite ?orb_false_r, ?negb_orb, !andb_true_iff, ?negb_true_iff; tauto.
Qed.

(** ** Fields *)

Section Fields.
Context {texts : Texts} (https_url : string -> option string).
(** An accepted URL is not empty: it starts with its scheme. *)
Context (https_nonempty : forall s u, https_url s = Some u -> (1 <= js_length u)%nat).

Lemma url_field_ok s u : url_field https_url s = Some u -> text_ok 2048 u = true.
Proof.
  unfold url_field. intros (v & Hv & Hu)%bind_Some. destruct (_ && _) eqn:Hb; [|done]. injection Hu as <-.
  rewrite andb_true_iff, Nat.leb_le, negb_true_iff in Hb. destruct Hb as [Hl Hn]. unfold text_ok. rewrite Hn.
  apply (length_ok v 2048); [|done]. by eapply https_nonempty.
Qed.

Lemma building_field_listed s b : building_field s = Some b -> b ∈ CAMPUS_BUILDINGS.
Proof.
  unfold building_field. intros (v & _ & Hb)%bind_Some. cbv zeta in Hb. case_bool_decide; [|done]. by injection Hb as <-.
Qed.

Lemma tags_field_ok l l' : tags_field l = Some l' -> existsb has_nul l' = false.
Proof.
  unfold tags_field. case_match; [|done]. intros Hm. apply existsb_false. intros t Ht.
  apply mapM_Some in Hm. apply list_elem_of_lookup in Ht as [i Hi]. eapply Forall2_lookup_r in Hm as (a & _ & Ha); [|exact Hi].
  apply text_field_ok in Ha. unfold text_ok in Ha. rewrite andb_true_iff, negb_true_iff in Ha. tauto.
Qed.

(** ** Bodies *)

(** Every field present may be stored. *)
Record PatchOk (p : SupplierPatch) : Prop := mkPatchOk {
  po_name : optP (pt_name p) (text_ok 200) = true;
  po_building : optP (pt_building p) (fun b => bool_decide (b ∈ CAMPUS_BUILDINGS)) = true;
  po_floor : optP (pt_floor p) (text_ok 50) = true;
  po_location : optP (pt_location p) (text_ok 500) = true;
  po_image : optP (or_null (pt_imageUrl p)) (text_ok 2048) = true;
  po_tags : existsb has_nul (default [] (or_null (pt_tags p))) = false;
  po_latitude : optP (or_null (pt_latitude p)) (q_between (-90) 90) = true;
  po_longitude : optP (or_null (pt_longitude p)) (q_between (-180) 180) = true;
  po_hours : optP (or_null (pt_openingHours p)) (fun h => match openingHoursSchema h with HoursAccepted h' => bool_decide (h' = h) | _ => false end) = true }.

Lemma optional_ok {A B} (f : A -> option B) o r (q : B -> bool) :
  (forall a b, f a = Some b -> q b = true) -> optional f o = Some r -> optP r q = true.
Proof.
  intros Hf. destruct o as [a|]; simpl; [|by intros [= <-]]. destruct (f a) as [b|] eqn:Hb; [|done]. intros [= <-]. simpl. eauto.
Qed.

Lemma nullable_ok {A B} (f : A -> option B) o r (q : B -> bool) :
  (forall a b, f a = Some b -> q b = true) -> optional (nullable f) o = Some r -> optP (or_null r) q = true.
Proof.
  intros Hf. destruct o as [a|]; simpl; [|by intros [= <-]]. destruct (nullable f a) as [b|] eqn:Hb; [|done]. intros [= <-].
  simpl. by eapply optional_ok.
Qed.

Lemma hours_field_ok l h :
  hours_field l = Some h -> match openingHoursSchema h with HoursAccepted h' => bool_decide (h' = h) | _ => false end = true.
Proof.
  unfold hours_field. destruct (openingHoursSchema l) as [h'| |] eqn:Hs; [|done..]. intros [= ->].
  assert (openingHoursSchema h = HoursAccepted h) as ->; [|by apply bool_decide_eq_true_2].
  apply accepted_allowed in Hs as [Ha ->]. assert (AllowedWeek (order_by hours_before l)) as Hw.
  { apply (allowed_perm l); [|done]. by rewrite hours_permuted. }
  apply accepted_allowed. split; [done|]. symmetry.
  apply order_by_id; [apply hours_before_irrefl|apply hours_before_trans|by apply allowed_sorted].
Qed.

Lemma number_field_ok low high a b : number_field low high a = Some b -> q_between low high b = true.
Proof. unfold number_field. case_match; [|done]. by intros [= <-]. Qed.

Lemma parse_fields_ok b p : parse_fields https_url b = Some p -> PatchOk p.
Proof.
  unfold parse_fields. intros H.
  repeat match type of H with (_ ≫= _) = Some _ => let x := fresh "x" in let Hx := fresh "Hx" in apply bind_Some in H as (x & Hx & H) end.
  injection H as <-. constructor; simpl.
  - eapply optional_ok; [|eassumption]. intros. by eapply (text_field_ok 200).
  - eapply optional_ok; [|eassumption]. intros. apply bool_decide_eq_true. by eapply building_field_listed.
  - eapply optional_ok; [|eassumption]. intros. by eapply (text_field_ok 50).
  - eapply optional_ok; [|eassumption]. intros. by eapply (text_field_ok 500).
  - eapply nullable_ok; [|eassumption]. apply url_field_ok.
  - assert (optP (or_null x8) (fun l => negb (existsb has_nul l)) = true) as Ht.
    { eapply nullable_ok; [|eassumption]. intros. apply negb_true_iff. by eapply tags_field_ok. }
    destruct (or_null x8); simpl in *; [by apply negb_true_iff|done].
  - eapply nullable_ok; [|eassumption]. apply number_field_ok.
  - eapply nullable_ok; [|eassumption]. apply number_field_ok.
  - eapply nullable_ok; [|eassumption]. apply hours_field_ok.
Qed.

(** What passes validation makes a row the table takes, whenever it is stored. *)
Lemma create_row_ok b input at_ : supplierCreateSchema https_url b = Some input -> row_ok (insertValues input at_) = true.
Proof.
  unfold supplierCreateSchema. intros (p & Hp%parse_fields_ok & H)%bind_Some. destruct Hp as [H1 H2 H3 H4 H5 H6 H7 H8 _].
  repeat match type of H with (_ ≫= _) = Some _ => let x := fresh "x" in let Hx := fresh "Hx" in apply bind_Some in H as (x & Hx & H) end.
  destruct (coordinatesPaired _ _) eqn:Hc; [|done]. injection H as <-.
  rewrite Hx in H1. rewrite Hx1 in H2. rewrite Hx2 in H3. rewrite Hx3 in H4. simpl in H1, H2, H3, H4.
  apply bool_decide_eq_true, campus_text in H2.
  unfold coordinatesPaired in Hc. rewrite andb_true_iff in Hc.
  apply row_ok_parts. simpl. tauto.
Qed.

Lemma set_row_ok b p at_ r :
  supplierUpdateSchema https_url b = Some p -> row_ok r = true -> sp_version r < INT4_MAX ->
  row_ok (patch_columns p at_ r) = true.
Proof.
  unfold supplierUpdateSchema. intros (q & Hq%parse_fields_ok & H)%bind_Some Hr Hv.
  destruct (_ && _) eqn:Hc; [|done]. injection H as ->. destruct Hq as [H1 H2 H3 H4 H5 H6 H7 H8 _].
  rewrite andb_true_iff in Hc. destruct Hc as [_ Hc]. unfold coordinatesPaired, present in Hc. rewrite andb_true_iff in Hc.
  apply row_ok_parts in Hr as ((R1 & R2 & R3 & R4 & R5 & R6) & (R7 & R8) & R9 & R10 & R11).
  apply row_ok_parts. simpl. split; [split_and!|split; [|split_and!]].
  - by destruct (pt_name p).
  - destruct (pt_building p); simpl in *; [apply campus_text; by apply bool_decide_eq_true in H2|done].
  - by destruct (pt_floor p).
  - by destruct (pt_location p).
  - by destruct (pt_imageUrl p).
  - by destruct (pt_tags p).
  - unfold in_int4, INT4_MIN, INT4_MAX in *. rewrite andb_true_iff, !Z.leb_le in *. lia.
  - destruct Hc as [Hc Hc']. clear -Hc Hc' R9. by destruct (pt_latitude p) as [[]|], (pt_longitude p) as [[]|].
  - by destruct (pt_latitude p).
  - by destruct (pt_longitude p).
Qed.
End Fields.
