(* ===== verification/SupplierTheorems.v ===== *)
(** * SupplierTheorems: what the catalogue promises its administrators and readers *)
From Stdlib Require Import Ascii QArith.
From stdpp Require Import relations.
From S2P Require Export SupplierValid SupplierFacts.
#[local] Open Scope Z_scope.

(** ** Running the operations forward *)

Section Forward.
Context {pg : Pg}.

Definition clashes_error : Exn := Sql (UniqueViolation NAME_BUILDING_INDEX).

Lemma write_row_eq id_ r e n db :
  row_ok r = true ->
  write_row id_ r e (n, db) =
  if clash id_ r db then Throw clashes_error else Ok (r, (n, set_suppliers (<[id_ := r]> (suppliers db)) db)).
Proof.
  intros Hr. unfold write_row. eapply bind_step; [by apply storable_ok|]. rewrite bind_gets. unfold id. cbn [snd].
  unfold unique_, bind, require. destruct (clash id_ r db); reflexivity.
Qed.

Lemma update_row_eq id_ cond f e n db :
  (forall r, suppliers db !! id_ = Some r -> cond r = true -> row_ok (f r) = true) ->
  update_supplier id_ cond f e (n, db) =
  match suppliers db !! id_ with
  | Some r =>
      if cond r then
        if clash id_ (f r) db then Throw clashes_error
        else Ok (Some (f r), (n, set_suppliers (<[id_ := f r]> (suppliers db)) db))
      else Ok (None, (n, db))
  | None => Ok (None, (n, db))
  end.
Proof.
  intros Hok. unfold update_supplier. rewrite bind_gets. unfold id. cbn [snd].
  destruct (suppliers db !! id_) as [r|] eqn:Hr; [|done]. destruct (cond r) eqn:Hc; [|done].
  unfold bind. rewrite write_row_eq by eauto. by destruct (clash id_ (f r) db).
Qed.

Lemma insert_eq id_ s e n db :
  row_ok (insertValues s (env_now e)) = true -> suppliers db !! id_ = None ->
  repo_insert id_ s e (n, db) =
  if clash id_ (insertValues s (env_now e)) db then Throw clashes_error
  else Ok (insertValues s (env_now e), (n, set_suppliers (<[id_ := insertValues s (env_now e)]> (suppliers db)) db)).
Proof.
  intros Hr Hn. unfold repo_insert. rewrite bind_now. eapply bind_step; [by apply storable_ok|]. rewrite bind_gets. unfold id. cbn [snd].
  rewrite Hn. unfold unique_, bind at 1. simpl. by apply write_row_eq.
Qed.

(** A seeded record, by what the table holds. *)
Lemma absent_eq id_ s e db :
  row_ok (insertValues s 0) = true ->
  transaction (insertIfAbsent id_ s) e db =
  if is_some (suppliers db !! id_) then (Ok None, db)
  else if clash id_ (insertValues s 0) db then (Throw clashes_error, db)
  else (Ok (Some (insertValues s (env_now e))), set_suppliers (<[id_ := insertValues s (env_now e)]> (suppliers db)) db).
Proof.
  intros Hr. assert (row_ok (insertValues s (env_now e)) = true) as Hr' by done.
  assert (clash id_ (insertValues s (env_now e)) db = clash id_ (insertValues s 0) db) as Hc by done.
  unfold transaction, insertIfAbsent. rewrite bind_now. unfold bind at 1.
  rewrite (proj2 (storable_ok _ _ _ _) (conj Hr' eq_refl)). rewrite bind_gets. unfold id. cbn [snd].
  destruct (suppliers db !! id_); [done|]. simpl. unfold bind. rewrite write_row_eq by done. rewrite Hc.
  by destruct (clash id_ (insertValues s 0) db).
Qed.
End Forward.

(** ** Order of a listing *)

Section Order.
Context {pg : Pg} {collation : Collation} {laws : CollationLaws collation}.

Inductive KeyValue := KText (s : string) | KTime (t : Z) | KId (s : string).
Definition value (k : SortKey) (a : string * Supplier) : KeyValue :=
  match k with
  | LowerName => KText (pg_lower (sp_name a.2))
  | TypeKey => KText (type_name (sp_type a.2))
  | LowerBuilding => KText (pg_lower (sp_building a.2))
  | UpdatedAt => KTime (sp_updatedAt a.2)
  | SupplierIdKey => KId a.1
  end.

Lemma before_irrefl k a : before_by k a a = false.
Proof. destruct k; simpl; rewrite ?text_irrefl, ?Z.ltb_irrefl, ?string_ltb_irrefl; done. Qed.
Lemma before_trans k a b c : before_by k a b = true -> before_by k b c = true -> before_by k a c = true.
Proof.
  destruct k; simpl; try apply text_trans; [rewrite !Z.ltb_lt; lia|apply string_ltb_trans].
Qed.
Lemma before_total k a b : before_by k a b = true \/ before_by k b a = true \/ value k a = value k b.
Proof.
  assert (forall x y, text_before x y = true \/ text_before y x = true \/ KText x = KText y) as Ht.
  { intros x y. destruct (decide (x = y)) as [->|Hne]; [by right; right|]. apply text_total in Hne. tauto. }
  destruct k; simpl; auto.
  - rewrite !Z.ltb_lt. destruct (Z.lt_trichotomy (sp_updatedAt a.2) (sp_updatedAt b.2)) as [|[->|]]; auto.
  - destruct (decide (a.1 = b.1)) as [->|Hne]; [auto|]. apply string_ltb_total in Hne. tauto.
Qed.
Lemma before_value k a b c : value k a = value k b -> before_by k a c = before_by k b c /\ before_by k c a = before_by k c b.
Proof. destruct k; simpl; intros [= H]; rewrite ?H; done. Qed.

Lemma lexical_irrefl keys a : lexical keys a a = false.
Proof. induction keys as [|[k d] keys IH]; simpl; [done|]. rewrite IH, before_irrefl. by destruct d. Qed.

Lemma lexical_trans keys a b c : lexical keys a b = true -> lexical keys b c = true -> lexical keys a c = true.
Proof.
  induction keys as [|[k d] keys IH]; [done|]. cbn [lexical].
  set (lt := fun x y => if d then before_by k y x else before_by k x y).
  assert (forall x y z, lt x y = true -> lt y z = true -> lt x z = true) as Htr.
  { intros x y z. unfold lt. destruct d; intros; eapply before_trans; eassumption. }
  assert (forall x y, lt x y = true \/ lt y x = true \/ value k x = value k y) as Hto.
  { intros x y. unfold lt. destruct (before_total k x y) as [|[|]], d; auto. }
  assert (forall x y z, value k x = value k y -> lt x z = lt y z /\ lt z x = lt z y) as Hv.
  { intros x y z Hxy. destruct (before_value k x y z Hxy) as [H1 H2]. unfold lt. destruct d; auto. }
  change (lt a b || (negb (lt b a) && lexical keys a b) = true -> lt b c || (negb (lt c b) && lexical keys b c) = true ->
    lt a c || (negb (lt c a) && lexical keys a c) = true).
  clearbody lt. rewrite !orb_true_iff, !andb_true_iff, !negb_true_iff.
  destruct (Hto a b) as [Hab|[Hab|Hab]], (Hto b c) as [Hbc|[Hbc|Hbc]]; intros [H1|[H1 H1']] [H2|[H2 H2']];
    try congruence; try (left; eapply Htr; eassumption).
  all: try (left; destruct (Hv _ _ c Hab) as [E1 E2]; congruence).
  all: try (left; destruct (Hv _ _ a Hbc) as [E1 E2]; congruence).
  right. destruct (Hv _ _ c Hab) as [E1 E2], (Hv _ _ a Hbc) as [E3 E4]. split; [congruence|auto].
Qed.

Lemma lexical_total keys a b :
  SupplierIdKey ∈ keys.*1 -> a.1 <> b.1 -> lexical keys a b = true \/ lexical keys b a = true.
Proof.
  intros Hin Hne. induction keys as [|[k d] keys IH]; [set_solver|]. cbn [lexical].
  destruct (before_total k a b) as [H|[H|H]].
  - destruct d; rewrite ?H; simpl; [right|left]; by rewrite ?orb_true_l.
  - destruct d; rewrite ?H; simpl; [left|right]; by rewrite ?orb_true_l.
  - rewrite fmap_cons, elem_of_cons in Hin. simpl in Hin. destruct Hin as [<-|Hin]; [simpl in H; congruence|].
    assert (before_by k a b = false /\ before_by k b a = false) as [-> ->].
    { destruct (before_value k a b a H) as [E1 _], (before_value k a b b H) as [E2 _]. rewrite before_irrefl in *. by rewrite E2, <- E1. }
    destruct d; simpl; auto.
Qed.

Lemma order_has_id f : SupplierIdKey ∈ (orderBy f).*1.
Proof.
  unfold orderBy. rewrite fmap_cons. destruct (sq_sort f); vm_compute; repeat constructor.
Qed.

Lemma matches_sorted f db : in_order (lexical (orderBy f)) (sorted_matches f db).
Proof.
  unfold sorted_matches. apply order_by_order.
  - apply lexical_trans.
  - apply NoDup_filter_bool, NoDup_map_to_list.
  - intros a b [_ Ha]%elem_filter [_ Hb]%elem_filter Hne. apply lexical_total; [apply order_has_id|].
    intros Heq. apply Hne. destruct a as [i r], b as [j r']. simpl in Heq. subst.
    apply elem_of_map_to_list in Ha, Hb. congruence.
Qed.
End Order.

Lemma pages_take {A} (size n : nat) (l : list A) :
  concat ((fun i => fst (offset_page (Datatypes.S i) size l)) <$> seq 0 n) = take (n * size) l.
Proof.
  induction n as [|n IH]; [done|]. rewrite seq_S, fmap_app, concat_app, IH. simpl. rewrite app_nil_r, Nat.sub_0_r.
  replace (size + n * size)%nat with (n * size + size)%nat by lia. by rewrite <- take_take_drop.
Qed.

Lemma fmap_concat {A B} (f : A -> B) (l : list (list A)) : @fmap list _ _ _ f (concat l) = concat (@fmap list _ _ _ (@fmap list _ _ _ f) l).
Proof. induction l as [|x l IH]; simpl; [done|]. by rewrite fmap_app, IH. Qed.

(** ** Properties *)

Section Properties.
Context {pg : Pg} {texts : Texts} {zod : Zod}.
Context (requestHash : SupplierInput -> string) (https_url : string -> option string).

Notation step := (catalogue_step requestHash https_url).
Notation post := (post_supplier requestHash https_url).
Notation put := (put_supplier https_url).

(** C24: Whatever requests and seeded records the catalogue has been through, no two active suppliers have the
    same name in the same building, letter case aside, every row is within the schema's bounds, and every
    Idempotency-Key names a supplier that exists. *)
Theorem catalogue_consistent (db : SupplierDb) :
  rtc step empty_suppliers db ->
  (forall i j r r', suppliers db !! i = Some r -> suppliers db !! j = Some r' -> sp_active r = true -> sp_active r' = true ->
     pg_lower (sp_name r) = pg_lower (sp_name r') -> pg_lower (sp_building r) = pg_lower (sp_building r') -> i = j)
  /\ (forall i r, suppliers db !! i = Some r -> row_ok r = true)
  /\ (forall k x, supplierKeys db !! k = Some x -> is_Some (suppliers db !! sk_supplierId x)).
Proof.
  intros H%run_catalogue_inv; [|apply empty_catalogue_inv]. destruct H as [H1 H2 H3]. split_and!; [|done..].
  intros i j r r' Hi Hj Ha Ha' Hn Hb. apply (H2 i j r r'); try done. unfold name_building. by rewrite Hn, Hb.
Qed.

(** A row a stale write meets. *)
Lemma update_stale i version changes e db r :
  suppliers db !! i = Some r -> sp_version r <> version ->
  transaction (supplier_update i version changes) e db = (Throw staleVersion, db).
Proof.
  intros Hr Hv. assert (supplier_update i version changes e (0%nat, db) = Throw staleVersion) as Hs.
  { eapply (bind_step _ _ _ _ None).
    - apply on_duplicate_ok. unfold repo_update. rewrite bind_now, update_row_eq by (intros ? ? ?%Z.eqb_eq; congruence).
      by rewrite Hr, (proj2 (Z.eqb_neq _ _) Hv).
    - rewrite bind_gets. unfold id, repo_findById. cbn [snd]. by rewrite Hr. }
  unfold transaction. by rewrite Hs.
Qed.

Lemma deactivate_stale i version e db r :
  suppliers db !! i = Some r -> sp_version r <> version ->
  transaction (supplier_deactivate i version) e db = (Throw staleVersion, db).
Proof.
  intros Hr Hv. assert (supplier_deactivate i version e (0%nat, db) = Throw staleVersion) as Hs.
  { eapply (bind_step _ _ _ _ None).
    - unfold repo_deactivate. rewrite bind_now, update_row_eq by (intros ? ? [?%Z.eqb_eq _]%andb_true_iff; congruence).
      by rewrite Hr, (proj2 (Z.eqb_neq _ _) Hv).
    - rewrite bind_gets. unfold id, repo_findById. cbn [snd]. by rewrite Hr, (proj2 (Z.eqb_neq _ _) Hv), andb_false_r. }
  unfold transaction. by rewrite Hs.
Qed.

Lemma get_row id_ db v tag :
  get_supplier id_ db = Ok (v, tag) ->
  exists i r, path_id id_ = Ok i /\ suppliers db !! i = Some r /\ v = toSupplierView i r /\ tag = etag (sp_version r).
Proof.
  unfold get_supplier, supplier_getById, repo_findById. destruct (path_id id_) as [i|]; [|done].
  destruct (suppliers db !! i) as [r|] eqn:Hr; [|done]. intros [= <- <-]. eauto 10.
Qed.

Lemma put_row id_ tag body e db w db' :
  put id_ tag body e db = (Ok w, db') ->
  exists i v changes r, path_id id_ = Ok i /\ parseIfMatch tag = Ok v /\ supplierUpdateSchema https_url body = Some changes
    /\ suppliers db !! i = Some r /\ sp_version r = v /\ w = toSupplierView i (patch_columns changes (env_now e) r)
    /\ db' = set_suppliers (<[i := patch_columns changes (env_now e) r]> (suppliers db)) db.
Proof.
  unfold put_supplier. destruct (path_id id_) as [i|]; [|done]. destruct (parseIfMatch tag) as [v|]; [|done].
  destruct (supplierUpdateSchema https_url body) as [c|]; [|done].
  intros (r & Hr & Hv & _ & _ & -> & ->)%update_does. eauto 12.
Qed.

(** C22: A successful PUT under the ETag of an earlier GET changes the very row that was read, by the body's
    fields and nothing else, whatever happened in between; and every later PUT or DELETE under that ETag
    is refused as stale and changes nothing. *)
Theorem no_lost_update (db db1 db2 : SupplierDb) (id_ tag : string) (v w : SupplierView) (body : SupplierBody) (e : Env) :
  get_supplier id_ db = Ok (v, tag) -> 1 <= vw_version v <= 999999999 ->
  rtc step db db1 -> put id_ (Some tag) body e db1 = (Ok w, db2) ->
  (exists r changes, suppliers db !! vw_supplierId v = Some r /\ suppliers db1 !! vw_supplierId v = Some r
     /\ supplierUpdateSchema https_url body = Some changes
     /\ suppliers db2 = <[vw_supplierId v := patch_columns changes (env_now e) r]> (suppliers db1)
     /\ w = toSupplierView (vw_supplierId v) (patch_columns changes (env_now e) r))
  /\ forall db3, rtc step db2 db3 ->
       (forall body' e', supplierUpdateSchema https_url body' <> None -> put id_ (Some tag) body' e' db3 = (Throw staleVersion, db3))
       /\ (forall e', delete_supplier id_ (Some tag) e' db3 = (Throw staleVersion, db3)).
Proof.
  intros (i & r & Hi & Hr & -> & ->)%get_row Hb Hrun (i' & v' & c & r1 & Hi' & Hv & Hc & Hr1 & Hver & -> & ->)%put_row.
  simpl in *. rewrite etag_roundtrip in Hv by done. assert (i' = i) as -> by congruence. injection Hv as <-.
  destruct (run_later _ _ _ _ Hrun) as [Hl _]. destruct (Hl i r Hr) as (r' & Hr' & _ & Hsame & _ & _).
  assert (r' = r1) as -> by congruence. specialize (Hsame Hver) as ->. split; [exists r, c; auto|].
  intros db3 Hrun3. destruct (run_later _ _ _ _ Hrun3) as [Hl3 _].
  destruct (Hl3 i (patch_columns c (env_now e) r)) as (r3 & Hr3 & Hle & _); [simpl; by rewrite lookup_insert_eq|]. simpl in Hle.
  split.
  - intros body' e' Hbody. unfold put_supplier. rewrite Hi, etag_roundtrip by done.
    destruct (supplierUpdateSchema https_url body'); [|done]. eapply update_stale; [exact Hr3|lia].
  - intros e'. unfold delete_supplier. rewrite Hi, etag_roundtrip by done. eapply deactivate_stale; [exact Hr3|lia].
Qed.

(** A create under a key already claimed. *)
Lemma create_again input k x r e db :
  supplierKeys db !! k = Some x -> suppliers db !! sk_supplierId x = Some r ->
  transaction (supplier_create requestHash input (Some k)) e db =
  if String.eqb (sk_requestHash x) (requestHash input) then (Ok (toSupplierView (sk_supplierId x) r, true), db)
  else (Throw keyReused, db).
Proof.
  intros Hx Hr. unfold transaction, supplier_create. rewrite bind_gets. unfold id. cbn [snd mbind option_bind].
  unfold findSupplierKey. rewrite Hx. simpl. unfold repo_findById. rewrite Hr.
  by destruct (String.eqb (sk_requestHash x) (requestHash input)).
Qed.

(** C23: A POST that created a supplier under an Idempotency-Key, sent again at any later time, answers 200 with
    that supplier as it then stands and changes nothing; another body under the key is refused. *)
Theorem created_under_key (db db1 db2 : SupplierDb) (key : string) (body : SupplierBody) (e : Env) (v : SupplierView) :
  parseIdempotencyKey (Some key) <> Ok None ->
  post (Some key) body e db = (Ok (201, v), db1) -> rtc step db1 db2 ->
  (forall e', exists r, suppliers db2 !! vw_supplierId v = Some r
     /\ post (Some key) body e' db2 = (Ok (200, toSupplierView (vw_supplierId v) r), db2))
  /\ forall body' input input' e', supplierCreateSchema https_url body = Some input ->
       supplierCreateSchema https_url body' = Some input' -> requestHash input' <> requestHash input ->
       post (Some key) body' e' db2 = (Throw keyReused, db2).
Proof.
  intros Hkey Hpost Hrun. unfold post_supplier in *. destruct (parseIdempotencyKey (Some key)) as [[k|]|] eqn:Hk; [|done..].
  destruct (supplierCreateSchema https_url body) as [input|] eqn:Hs; [|done].
  destruct (transaction _ e db) as [[[w b]|] db0] eqn:Ht; [|done]. destruct b; [done|]. injection Hpost as -> ->.
  apply create_does in Ht as [(?&?&?&_&_&_&_&_&[=]&_)|(i & r & _ & _ & _ & _ & _ & _ & -> & _ & ->)].
  destruct (run_later _ _ _ _ Hrun) as [Hl Hkeys]. simpl with_key in *. set (x := mkSupplierKey i _ _) in *.
  assert (supplierKeys db2 !! k = Some x) as Hx2 by (apply Hkeys; simpl; by rewrite lookup_insert_eq).
  destruct (Hl i r) as (r2 & Hr2 & _); [simpl; by rewrite lookup_insert_eq|]. simpl vw_supplierId. split.
  - intros e'. exists r2. split; [done|]. rewrite (create_again _ _ x r2) by done. simpl. by rewrite String.eqb_refl.
  - intros body' input0 input' e' [= <-] -> Hne. rewrite (create_again _ _ x r2) by done. simpl.
    by rewrite (proj2 (String.eqb_neq _ _) (fun H => Hne (eq_sym H))).
Qed.

(** A supplier, once created, is answered under its identifier for ever; once deactivated it stays
    inactive and no listing, whatever its filters, holds it. *)
Theorem retired_but_found `{Collation} (db db1 : SupplierDb) (i : string) (r : Supplier) :
  suppliers db !! i = Some r -> rtc step db db1 ->
  exists r', supplier_getById i db1 = Ok (toSupplierView i r') /\ sp_version r <= sp_version r'
    /\ sp_createdAt r' = sp_createdAt r
    /\ (sp_active r = false -> sp_active r' = false
         /\ forall f, i ∉ (li_supplierId <$> gp_items (list_suppliers f db1))).
Proof.
  intros Hr Hrun. destruct (run_later _ _ _ _ Hrun) as [Hl _]. destruct (Hl i r Hr) as (r' & Hr' & Hv & _ & Ha & Hc).
  exists r'. unfold supplier_getById, repo_findById. rewrite Hr'. split_and!; [done..|]. intros Hoff.
  assert (sp_active r' = false) as Hoff' by (destruct (sp_active r'); [rewrite Ha in Hoff by done; done|done]). split; [done|].
  intros f Hin. apply list_elem_of_fmap in Hin as (it & -> & Hin). simpl in Hin.
  apply list_elem_of_fmap in Hin as ([j rj] & -> & Hin). simpl in *.
  assert ((j, rj) ∈ sorted_matches f db1) as Hm.
  { eapply subseteq_drop, subseteq_take. exact Hin. }
  unfold sorted_matches in Hm. rewrite order_by_perm in Hm. apply elem_filter in Hm as [Hm Hmap].
  apply elem_of_map_to_list in Hmap. assert (rj = r') as -> by congruence. unfold matched in Hm. simpl in Hm.
  by rewrite Hoff' in Hm.
Qed.

(** ** No database error *)

(** What a caller is answered with: a result, or one of the service's own refusals. *)
Definition answered {A} (o : outcome A) : Prop := match o with Ok _ | Throw (ApiException _ _) => True | _ => False end.

Lemma duplicate_answer {A} (m : SupplierM A) e s :
  m e s = Throw clashes_error -> on_duplicate m e s = Throw invalid.
Proof. intros H. unfold on_duplicate. by rewrite H. Qed.

Lemma create_answered input key e db :
  row_ok (insertValues input (env_now e)) = true -> CatalogueInv db -> suppliers db !! env_uuid e 0 = None ->
  answered (fst (transaction (supplier_create requestHash input key) e db)).
Proof.
  intros Hr [_ _ Hk] Hf. unfold transaction, supplier_create. rewrite bind_gets. unfold id. cbn [snd].
  destruct (key ≫= _) as [[i h]|] eqn:Hi.
  - destruct (String.eqb h (requestHash input)); [simpl|done]. unfold repo_findById.
    destruct key as [k|]; [|done]. simpl in Hi. unfold findSupplierKey in Hi. destruct (supplierKeys db !! k) as [x|] eqn:Hx; [|done].
    injection Hi as <- <-. destruct (Hk k x Hx) as [r ->]. done.
  - unfold insert_new. rewrite bind_uuid.
    pose proof (insert_eq (env_uuid e 0) input e 1 db Hr Hf) as Hins.
    destruct (clash (env_uuid e 0) (insertValues input (env_now e)) db).
    + unfold bind at 1. by rewrite (duplicate_answer _ _ _ Hins).
    + unfold bind at 1. rewrite (proj2 (on_duplicate_ok _ _ _ _) Hins).
      destruct key as [k|]; [|done]. unfold bind, claimIdempotencyKey, now, gets, id, bind. simpl.
      assert (supplierKeys db !! k = None) as ->.
      { simpl in Hi. unfold findSupplierKey in Hi. by destruct (supplierKeys db !! k). }
      unfold references_, require. simpl. by rewrite lookup_insert_eq.
Qed.

Lemma update_answered i version changes e db :
  (forall r, suppliers db !! i = Some r -> sp_version r = version -> row_ok (patch_columns changes (env_now e) r) = true) ->
  answered (fst (transaction (supplier_update i version changes) e db)).
Proof.
  intros Hok. destruct (suppliers db !! i) as [r|] eqn:Hr.
  - destruct (decide (sp_version r = version)) as [Hv|Hv]; [|by rewrite (update_stale i version changes e db r)].
    unfold transaction, supplier_update, bind at 1. 
    assert (repo_update i version changes e (0%nat, db) =
      if clash i (patch_columns changes (env_now e) r) db then Throw clashes_error
      else Ok (Some (patch_columns changes (env_now e) r), (0%nat, set_suppliers (<[i := patch_columns changes (env_now e) r]> (suppliers db)) db))) as Hu.
    { unfold repo_update. rewrite bind_now, update_row_eq; [by rewrite Hr, (proj2 (Z.eqb_eq _ _) Hv)|].
      intros r' Hr' ?%Z.eqb_eq. apply Hok; congruence. }
    destruct (clash i _ db); [by rewrite (duplicate_answer _ _ _ Hu)|]. by rewrite (proj2 (on_duplicate_ok _ _ _ _) Hu).
  - unfold transaction, supplier_update, bind at 1.
    assert (repo_update i version changes e (0%nat, db) = Ok (None, (0%nat, db))) as Hu.
    { unfold repo_update. rewrite bind_now, update_row_eq; [by rewrite Hr|]. intros; congruence. }
    rewrite (proj2 (on_duplicate_ok _ _ _ _) Hu), bind_gets. unfold id, repo_findById. cbn [snd]. by rewrite Hr.
Qed.

Lemma deactivate_answered i version e db :
  (forall r, suppliers db !! i = Some r -> sp_version r = version -> row_ok (deactivated (env_now e) r) = true) ->
  answered (fst (transaction (supplier_deactivate i version) e db)).
Proof.
  intros Hok. unfold transaction, supplier_deactivate, bind at 1, repo_deactivate. rewrite bind_now, update_row_eq.
  2:{ intros r Hr [?%Z.eqb_eq _]%andb_true_iff. auto. }
  destruct (suppliers db !! i) as [r|] eqn:Hr; [destruct (_ && _); [by rewrite deactivated_no_clash|]|];
    rewrite bind_gets; unfold id, repo_findById; cbn [snd]; rewrite Hr; [|done].
  by destruct (negb (sp_active r) && (sp_version r =? version)).
Qed.

End Properties.

(** ** Listing *)

Section Listing.
Context {pg : Pg} {collation : Collation} {laws : CollationLaws collation}.

Definition at_page (n : Z) (f : SupplierQuery) : SupplierQuery :=
  mkSupplierQuery n (sq_pageSize f) (sq_type f) (sq_building f) (sq_q f) (sq_sort f) (sq_descending f).

(** The pages of a listing, read one after the other, are the active suppliers that match its filters, each
    exactly once, in the order asked for with equal keys by name and identifier; every page says how many there are. *)
Theorem pages_complete (f : SupplierQuery) (db : SupplierDb) (n : nat) :
  0 < sq_pageSize f -> (length (sorted_matches f db) <= n * Z.to_nat (sq_pageSize f))%nat ->
  concat ((fun i => gp_items (list_suppliers (at_page (Z.of_nat (Datatypes.S i)) f) db)) <$> seq 0 n)
    = toSupplierListItem <$> sorted_matches f db
  /\ in_order (lexical (orderBy f)) (sorted_matches f db)
  /\ (forall i r, (i, r) ∈ sorted_matches f db <-> suppliers db !! i = Some r /\ matched f (i, r) = true)
  /\ NoDup (fst <$> sorted_matches f db)
  /\ forall k, gp_total (list_suppliers (at_page k f) db) = length (sorted_matches f db).
Proof.
  intros Hsize Hn. split_and!.
  - rewrite <- (take_ge (sorted_matches f db) (n * Z.to_nat (sq_pageSize f))) by done.
    rewrite <- pages_take. rewrite fmap_concat, <- list_fmap_compose. f_equal. apply list_fmap_ext. intros j i _.
    unfold list_suppliers, repo_list, at_page. cbn [gp_items sq_page sq_pageSize]. unfold compose. by rewrite Nat2Z.id.
  - apply matches_sorted.
  - intros i r. unfold sorted_matches. rewrite order_by_perm, elem_filter, elem_of_map_to_list. tauto.
  - unfold sorted_matches. rewrite order_by_perm. apply NoDup_fmap_filter, NoDup_fst_map_to_list.
  - done.
Qed.

(** Searching finds the text itself: a name, building, place or tag that contains it, letter case aside,
    the characters [LIKE] reads as wildcards included. *)
Theorem search_is_literal (q : string) (r : Supplier) :
  pg_lower (search_term q) = search_term (pg_lower q) ->
  matches_q q r = existsb (fun s => contains (pg_lower q) (pg_lower s))
                    ([sp_name r; sp_building r; sp_location r] ++ default [] (sp_tags r)).
Proof.
  intros Hq. assert (forall s, ilike s (search_term q) = contains (pg_lower q) (pg_lower s)) as Hi.
  { intros s. unfold ilike. rewrite Hq. apply like_contains. }
  unfold matches_q. rewrite !Hi, existsb_app. simpl. rewrite !orb_false_r, <- !orb_assoc. do 3 f_equal.
  induction (default [] (sp_tags r)) as [|t l IH]; simpl; [done|]. by rewrite Hi, IH.
Qed.
End Listing.

(** ** Seeding *)

Section Seeding.
Context {pg : Pg}.

(** A record there is nothing left to do for: its identifier is taken, or its name in its building. *)
Definition seeded (db : SupplierDb) (l : string * SupplierInput) : Prop :=
  row_ok (insertValues l.2 0) = true
  /\ (is_Some (suppliers db !! l.1) \/ clash l.1 (insertValues l.2 0) db = true).

Definition kept (db db' : SupplierDb) : Prop :=
  (forall i r, suppliers db !! i = Some r -> suppliers db' !! i = Some r) /\ supplierKeys db' = supplierKeys db.

Lemma clash_kept i r db db' : kept db db' -> clash i r db = true -> clash i r db' = true.
Proof.
  intros [Hk _]. unfold clash. rewrite !andb_true_iff, !existsb_true. intros (Ha & [j rj] & Hin & Hp). split; [done|].
  exists (j, rj). split; [|done]. apply elem_of_map_to_list. apply Hk. by apply elem_of_map_to_list.
Qed.

Lemma seeded_kept db db' l : kept db db' -> seeded db l -> seeded db' l.
Proof.
  intros Hk [Hr [[r Hs]|Hc]]; split; [done| |done|right; by eapply clash_kept]. left. exists r. by apply Hk.
Qed.

Lemma require_throw {S B} (b : bool) x (k : unit -> M S B) e (s : nat * S) y :
  bind (require b x) k e s = Throw y -> y = x \/ k tt e s = Throw y.
Proof. destruct b; unfold bind, require, ret, throw; naive_solver. Qed.

(** No constraint of a row alone is mistaken for a duplicate. *)
Lemma storable_not_unique r e s c : storable r e s <> Throw (Sql (UniqueViolation c)).
Proof.
  unfold storable. unfold_checks. intros H. do 10 (apply require_throw in H as [H|H]; [discriminate H|]).
  revert H. unfold require. case_match; discriminate.
Qed.

Lemma seed_run e l res db res1 db1 :
  seedSuppliers e l res db = (Ok res1, db1) ->
  kept db db1 /\ (forall x, x ∈ l -> seeded db1 x).
Proof.
  revert e res db. induction l as [|[i s] l IH]; intros e res db; simpl.
  { intros [= _ <-]. split; [done|set_solver]. }
  destruct (row_ok (insertValues s 0)) eqn:Hr.
  2:{ intros H. assert (forall x, insertIfAbsent i s (e 0%nat) (0%nat, db) <> Ok x) as Hno.
      { intros x (Hr' & _)%absent_does. assert (row_ok (insertValues s 0) = true) by done. congruence. }
      unfold transaction in H. destruct (insertIfAbsent i s (e 0%nat) (0%nat, db)) as [x|x] eqn:Hi; [by destruct (Hno x)|].
      exfalso. unfold insertIfAbsent in Hi. rewrite bind_now in Hi.
      assert (forall c, x <> Sql (UniqueViolation c)) as Hx.
      { intros c ->. unfold bind at 1 in Hi.
        destruct (storable _ _ _) as [y|y] eqn:Hst.
        - apply storable_ok in Hst as [Hst _]. assert (row_ok (insertValues s 0) = true) by done. congruence.
        - injection Hi as ->. by apply storable_not_unique in Hst. }
      destruct x as [[]| | | | | | | | | | | | |]; try discriminate H. by eapply Hx. }
  rewrite absent_eq by done. destruct (suppliers db !! i) as [r|] eqn:Hi; simpl.
  { intros [Hk Hall]%IH. split; [done|]. intros x [->|Hx]%elem_of_cons; [|auto]. split; [done|]. left. exists r. by apply Hk. }
  destruct (clash i (insertValues s 0) db) eqn:Hc.
  { intros [Hk Hall]%IH. split; [done|]. intros x [->|Hx]%elem_of_cons; [|auto]. split; [done|]. right. by eapply clash_kept. }
  intros [[Hk Hk'] Hall]%IH. split.
  - split; [|by rewrite Hk']. intros j r Hj. apply Hk. simpl. by rewrite lookup_insert_ne by congruence.
  - intros x [->|Hx]%elem_of_cons; [|auto]. split; [done|]. left. eexists. apply Hk. simpl. apply lookup_insert_eq.
Qed.

Lemma seed_again e l res db :
  (forall x, x ∈ l -> seeded db x) ->
  seedSuppliers e l res db = (Ok (mkSeedResult (sr_created res) (sr_skipped res ++ (seed_label ∘ snd <$> l))), db).
Proof.
  revert e res. induction l as [|[i s] l IH]; intros e res Hl; simpl; [by rewrite app_nil_r; destruct res|].
  destruct (Hl (i, s)) as [Hr Hs]; [set_solver|]. simpl in *. rewrite absent_eq by done.
  assert (forall x, x ∈ l -> seeded db x) as Hl' by set_solver.
  destruct (suppliers db !! i) as [r|]; simpl.
  - rewrite IH by done. simpl. by rewrite <- app_assoc.
  - destruct Hs as [[]|Hc]; [done|]. rewrite Hc. simpl. rewrite IH by done. simpl. by rewrite <- app_assoc.
Qed.

(** Seeding overwrites nothing that was there, and seeding the same records again, whatever the clock,
    creates nothing and changes nothing. *)
Theorem seeding_idempotent (e e' : nat -> Env) (l : list (string * SupplierInput)) (res res1 : SeedResult) (db db1 : SupplierDb) :
  seedSuppliers e l res db = (Ok res1, db1) ->
  (forall i r, suppliers db !! i = Some r -> suppliers db1 !! i = Some r) /\ supplierKeys db1 = supplierKeys db
  /\ seedSuppliers e' l (mkSeedResult [] []) db1 = (Ok (mkSeedResult [] (seed_label ∘ snd <$> l)), db1).
Proof. intros [[H1 H2] H3]%seed_run. split_and!; [done..|]. by rewrite seed_again. Qed.
End Seeding.
