(* ===== verification/SupplierDemo.v ===== *)
(** * SupplierDemo: the catalogue's theorems at work on a small catalogue *)
From Stdlib Require Import Ascii QArith.
From stdpp Require Import relations.
From S2P Require Export SupplierTheorems.
#[local] Open Scope Z_scope.

#[local] Instance demo_pg : Pg := {| pg_uuid := fun _ => true; pg_lower := ascii_lower |}.
#[local] Instance demo_texts : Texts := {| nfkc := fun s => s; to_lower := ascii_lower |}.
#[local] Instance demo_zod : Zod := {| zod_uuid := nonempty; zod_datetime := nonempty |}.

Definition demo_url (s : string) : option string := if String.prefix "https://" s then Some s else None.
Definition demo_hash (i : SupplierInput) : string := in_name i +:+ "|" +:+ in_floor i.

Lemma demo_url_law s u : demo_url s = Some u -> (1 <= js_length u)%nat.
Proof.
  unfold demo_url. destruct s as [|a s]; [done|]. cbn [String.prefix]. destruct (ascii_dec "h" a) as [<-|]; [|done].
  case_match; [|done]. intros [= <-]. simpl. lia.
Qed.

Definition kiosk (floor : string) : SupplierBody :=
  mkBody (Some "Kiosk 7 ") (Some "CAFE") (Some "com 2") (Some floor) (Some "By the lift")
    (Some (Some late_saturday)) (Some (Some (1 # 4))) (Some (Some (103 # 1))) (Some None) (Some (Some ["coffee"; "100% arabica"])).
Definition move_up : SupplierBody := mkBody None None None (Some "2") None None None None None None.

Definition env (t : Z) : Env := mkEnv t (fun _ => "s1").

Definition posted := post_supplier demo_hash demo_url (Some "k1") (kiosk "1") (env 1000000) empty_suppliers.
Definition db1 : SupplierDb := Eval vm_compute in snd posted.
Definition view1 : SupplierView := Eval vm_compute in match fst posted with Ok (_, v) => v | _ => mkSupplierView "" "" FOOD "" "" "" None None None None None false 0 0 0 end.
Lemma posted_ok : posted = (Ok (201, view1), db1).
Proof. vm_compute. reflexivity. Qed.

Definition moved := put_supplier demo_url "S1" (Some (etag 1)) move_up (env 2000000) db1.
Definition db2 : SupplierDb := Eval vm_compute in snd moved.
Definition view2 : SupplierView := Eval vm_compute in match fst moved with Ok v => v | _ => view1 end.
Lemma moved_ok : moved = (Ok view2, db2).
Proof. vm_compute. reflexivity. Qed.

Definition closed := delete_supplier "s1" (Some (etag 2)) (env 3000000) db2.
Definition db3 : SupplierDb := Eval vm_compute in snd closed.

Notation demo_step := (catalogue_step demo_hash demo_url).
Lemma step1 : demo_step empty_suppliers db1.
Proof. eapply StepPost. exact posted_ok. Qed.
Lemma step2 : demo_step db1 db2.
Proof. eapply StepPut. exact moved_ok. Qed.
Lemma step3 : demo_step db2 db3.
Proof. apply (StepDelete _ _ _ _ "s1" (Some (etag 2)) (env 3000000) (fst closed)). vm_compute. reflexivity. Qed.
Lemma reached2 : rtc demo_step empty_suppliers db2.
Proof. eapply rtc_l; [exact step1|]. apply rtc_once. exact step2. Qed.

Lemma catalogue_consistent_witness :
  (forall i r, suppliers db2 !! i = Some r -> row_ok r = true)
  /\ (forall k x, supplierKeys db2 !! k = Some x -> is_Some (suppliers db2 !! sk_supplierId x)).
Proof. exact (proj2 (catalogue_consistent demo_hash demo_url db2 reached2)). Defined.

(** Ann reads the kiosk, moves it, and Bob's tab, opened on what Ann read, is refused for good. *)
Lemma no_lost_update_witness :
  get_supplier "s1" db1 = Ok (view1, etag 1)
  /\ delete_supplier "s1" (Some (etag 1)) (env 4000000) db3 = (Throw staleVersion, db3).
Proof.
  split; [vm_compute; reflexivity|].
  refine (proj2 (proj2 (no_lost_update demo_hash demo_url db1 db1 db2 "s1" (etag 1) view1 view2 move_up (env 2000000) _ _ (rtc_refl _ _) _) db3 _) (env 4000000)).
  - vm_compute. reflexivity.
  - vm_compute. split; discriminate.
  - vm_compute. reflexivity.
  - apply rtc_once. exact step3.
Defined.

Lemma created_under_key_witness :
  exists r, suppliers db3 !! "s1" = Some r
    /\ post_supplier demo_hash demo_url (Some "k1") (kiosk "1") (env 9000000) db3 = (Ok (200, toSupplierView "s1" r), db3).
Proof.
  refine (proj1 (created_under_key demo_hash demo_url empty_suppliers db1 db3 "k1" (kiosk "1") (env 1000000) view1 _ posted_ok _) (env 9000000)).
  - vm_compute. discriminate.
  - eapply rtc_l; [exact step2|]. apply rtc_once. exact step3.
Defined.

Lemma retired_but_found_witness :
  exists r', supplier_getById "s1" db3 = Ok (toSupplierView "s1" r').
Proof.
  assert (is_Some (suppliers db1 !! "s1")) as [r Hr] by (vm_compute; eauto).
  destruct (retired_but_found demo_hash demo_url db1 db3 "s1" r Hr) as (r' & H & _).
  { eapply rtc_l; [exact step2|]. apply rtc_once. exact step3. }
  exists r'. exact H.
Defined.


(** ** Listing and seeding *)

Definition demo_input (name building : string) : SupplierInput := mkInput name FOOD building "1" "Here" None None None None None.
Definition seeds : list (string * SupplierInput) :=
  [("a", demo_input "Noodles" "COM2"); ("b", demo_input "Rice" "COM3"); ("c", demo_input "NOODLES" "com2"); ("d", demo_input "Bread" "COM2")].
Definition seeded1 := seedSuppliers (fun i => env (Z.of_nat i)) seeds (mkSeedResult [] []) db2.
Definition db4 : SupplierDb := Eval vm_compute in snd seeded1.
Definition seed_result : SeedResult := mkSeedResult ["Noodles @ COM2"; "Rice @ COM3"; "Bread @ COM2"] ["NOODLES @ com2"].
Lemma seeded1_ok : seeded1 = (Ok seed_result, db4).
Proof. vm_compute. reflexivity. Qed.

Lemma seeding_idempotent_witness :
  seedSuppliers (fun _ => env 7) seeds (mkSeedResult [] []) db4
  = (Ok (mkSeedResult [] ["Noodles @ COM2"; "Rice @ COM3"; "NOODLES @ com2"; "Bread @ COM2"]), db4).
Proof.
  exact (proj2 (proj2 (seeding_idempotent (fun i => env (Z.of_nat i)) (fun _ => env 7) seeds (mkSeedResult [] []) seed_result db2 db4 seeded1_ok))).
Defined.

Definition by_building : SupplierQuery := mkSupplierQuery 1 2 None None None SortBuilding true.
Lemma pages_complete_witness :
  concat ((fun i => gp_items (list_suppliers (at_page (Z.of_nat (Datatypes.S i)) by_building) db4)) <$> seq 0 2)
    = toSupplierListItem <$> sorted_matches by_building db4
  /\ li_name <$> (toSupplierListItem <$> sorted_matches by_building db4) = ["Rice"; "Bread"; "Kiosk 7"; "Noodles"].
Proof.
  split; [|vm_compute; reflexivity]. apply (pages_complete by_building db4 2); [vm_compute; reflexivity|vm_compute; lia].
Defined.

Lemma search_is_literal_witness :
  exists r, suppliers db2 !! "s1" = Some r
    /\ matches_q "100%" r = existsb (fun s => contains (pg_lower "100%") (pg_lower s)) ([sp_name r; sp_building r; sp_location r] ++ default [] (sp_tags r)).
Proof.
  assert (is_Some (suppliers db2 !! "s1")) as [r Hr] by (vm_compute; eauto). exists r. split; [exact Hr|].
  apply (search_is_literal "100%" r). vm_compute. reflexivity.
Defined.
