(* ===== verification/IdentityClient.v ===== *)
(** * IdentityClient: who is behind a token, asked once and remembered briefly
    (auth-client/src/identity-client.ts, authenticator.ts, errors.ts, nest.ts, status-events.ts)

    Every service that takes access tokens holds one client. It is a state machine over the requests that
    ask it, the User Service's replies and the identity events that tell it to forget; each act happens at a
    time of the clock. A key, [sessionId:userId] in the code, is the pair: identifiers hold no colon
    ([key_text]). A lookup that fails is answered, and forgotten, without being remembered. *)
From Stdlib Require Import Ascii.
From S2P Require Export Catalogue SupplierNormalize.
#[local] Open Scope Z_scope.

(** ** Replies *)

Inductive Introspection :=
  | NotActive
  | ActiveSession (userId status : string) (roles : list Role) (displayName : string).
#[export] Instance Introspection_eq_dec : EqDecision Introspection.
Proof. solve_decision. Defined.

(** A reply's body: a field that is missing, or of another type, is [None]; a role that is no text too. *)
Record IntrospectionBody := mkIntrospectionBody {
  ib_active : option bool; ib_userId : option string; ib_displayName : option string; ib_status : option string;
  ib_roles : option (list (option string)) }.

Definition known_role (r : option string) : option Role :=
  match r with
  | Some s => if String.eqb s "STUDENT" then Some STUDENT else if String.eqb s "ADMIN" then Some ADMIN else None
  | None => None
  end.

Definition authFailure (status : Z) (code : string) : Exn := ApiException status code.
Definition IDENTITY_UNAVAILABLE : Exn := authFailure 503 "IDENTITY_UNAVAILABLE".

Definition parse_introspection (b : IntrospectionBody) : outcome Introspection :=
  match ib_active b with
  | None => Throw IDENTITY_UNAVAILABLE
  | Some false => Ok NotActive
  | Some true =>
      match ib_userId b, ib_displayName b, ib_status b, ib_roles b with
      | Some u, Some n, Some s, Some rs => Ok (ActiveSession u s (omap known_role rs) n)
      | _, _, _, _ => Throw IDENTITY_UNAVAILABLE
      end
  end.

(** ** The cache *)

Notation LookupKey := (string * string)%type.

Record CacheEntry := mkEntry { en_value : Introspection; en_expiresAt : Z; en_userId : string }.

(** A JavaScript [Map], in order of insertion: setting a key it has keeps the key's place. *)
Section JsMap.
Context {K V : Type} `{EqDecision K}.
Fixpoint js_get (k : K) (l : list (K * V)) : option V :=
  match l with [] => None | (k', v) :: l => if decide (k = k') then Some v else js_get k l end.
Fixpoint js_set (k : K) (v : V) (l : list (K * V)) : list (K * V) :=
  match l with [] => [(k, v)] | (k', w) :: l => if decide (k = k') then (k, v) :: l else (k', w) :: js_set k v l end.
Definition js_delete (k : K) (l : list (K * V)) : list (K * V) := List.filter (fun x => bool_decide (x.1 <> k)) l.
End JsMap.

Record IdentityConfig := mkIdentityConfig { cacheTtlMs : Z; maxCacheEntries : nat }.
Definition DEFAULT_CACHE_TTL_MS : Z := 5000.
Definition default_identity : IdentityConfig := mkIdentityConfig DEFAULT_CACHE_TTL_MS 10000.

(** [lookups]: the lookups begun, with their keys, numbered in order. *)
Record IdentityState := mkIdentity_ {
  cache : list (LookupKey * CacheEntry);
  keysByUser : gmap string (gset LookupKey);
  inflight : gmap LookupKey nat;
  lookups : list LookupKey }.
Definition no_identities : IdentityState := mkIdentity_ [] ∅ ∅ [].

Definition set_cache c x (s : IdentityState) : IdentityState := mkIdentity_ c x (inflight s) (lookups s).
Definition set_inflight f (s : IdentityState) : IdentityState := mkIdentity_ (cache s) (keysByUser s) f (lookups s).

Definition forget (key : LookupKey) (s : IdentityState) : IdentityState :=
  match js_get key (cache s) with
  | None => s
  | Some e =>
      let keys := default ∅ (keysByUser s !! en_userId e) ∖ {[key]} in
      set_cache (js_delete key (cache s))
        (match keysByUser s !! en_userId e with
         | None => keysByUser s
         | Some _ => if decide (keys = ∅) then delete (en_userId e) (keysByUser s)
                     else <[en_userId e := keys]> (keysByUser s)
         end) s
  end.

Section Client.
Context {texts : Texts} (cfg : IdentityConfig).

Definition make_room (now : Z) (s : IdentityState) : IdentityState :=
  if (maxCacheEntries cfg <=? length (cache s))%nat then
    let s := foldr forget s (rev (fst <$> List.filter (fun x => en_expiresAt x.2 <=? now) (cache s))) in
    match cache s with
    | (oldest, _) :: _ => if (maxCacheEntries cfg <=? length (cache s))%nat then forget oldest s else s
    | [] => s
    end
  else s.

Definition remember (key : LookupKey) (value : Introspection) (now : Z) (s : IdentityState) : IdentityState :=
  if cacheTtlMs cfg <=? 0 then s else
  let s := make_room now s in
  let id_ := to_lower key.2 in
  set_cache (js_set key (mkEntry value (now + cacheTtlMs cfg) id_) (cache s))
    (<[id_ := {[key]} ∪ default ∅ (keysByUser s !! id_)]> (keysByUser s)) s.

(** What a request gets: the answer remembered, or a lookup's, begun now or by another request. *)
Inductive Asked := Hit (v : Introspection) | Awaits (lookup : nat).

Definition client_introspect (key : LookupKey) (now : Z) (s : IdentityState) : Asked * IdentityState :=
  let ask :=
    match inflight s !! key with
    | Some l => (Awaits l, s)
    | None =>
        let l := length (lookups s) in
        (Awaits l, mkIdentity_ (cache s) (keysByUser s) (<[key := l]> (inflight s)) (lookups s ++ [key]))
    end in
  match js_get key (cache s) with
  | Some e => if now <? en_expiresAt e then (Hit (en_value e), s) else ask
  | None => ask
  end.

(** [.then]: a lookup was answered; it is remembered while it is the current one. *)
Definition lookup_answered (l : nat) (value : Introspection) (now : Z) (s : IdentityState) : IdentityState :=
  match lookups s !! l with
  | Some key => if decide (inflight s !! key = Some l) then remember key value now s else s
  | None => s
  end.

(** [.finally], after an answer or a failure. *)
Definition lookup_finished (l : nat) (s : IdentityState) : IdentityState :=
  match lookups s !! l with
  | Some key => if decide (inflight s !! key = Some l) then set_inflight (delete key (inflight s)) s else s
  | None => s
  end.

Definition invalidateUser (userId : string) (s : IdentityState) : IdentityState :=
  let id_ := to_lower userId in
  mkIdentity_
    (foldr (fun k c => js_delete k c) (cache s) (elements (default ∅ (keysByUser s !! id_))))
    (delete id_ (keysByUser s))
    (filter (fun kl => to_lower kl.1.2 <> id_) (inflight s)) (lookups s).

(** ** Authentication (authenticator.ts) *)

(** [/^Bearer\s+(\S+)$/i] of a trimmed header. *)
Fixpoint no_space (fuel : nat) (s : string) : bool :=
  match fuel with
  | O => true
  | Datatypes.S fuel =>
      match s with
      | EmptyString => true
      | String _ s' => negb (is_some (strip_one (bytes <$> WHITE_SPACE) s)) && no_space fuel s'
      end
  end.
Definition bearerToken (header : option string) : outcome string :=
  let h := trim (default "" header) in
  if String.eqb h "" then Throw (authFailure 401 "TOKEN_MISSING") else
  let scheme := String.substring 0 6 h in
  let rest := String.substring 6 (String.length h - 6) h in
  let token := trimStart rest in
  if String.eqb (ascii_lower scheme) "bearer" && negb (String.eqb token rest) && nonempty token
     && no_space (String.length token) token
  then Ok token else Throw (authFailure 401 "TOKEN_MALFORMED").

Record AuthedCaller := mkCaller { cl_userId : string; cl_sessionId : string; cl_displayName : string; cl_roles : list Role; cl_isAdmin : bool }.

(** What the introspected session makes of a verified token. *)
Definition admit_caller (sid : string) (who : Introspection) : outcome AuthedCaller :=
  match who with
  | NotActive => Throw (authFailure 401 "TOKEN_REVOKED")
  | ActiveSession u status roles name =>
      if String.eqb status "SUSPENDED" then Throw (authFailure 403 "ACCOUNT_SUSPENDED")
      else if negb (String.eqb status "ACTIVE") then Throw (authFailure 403 "ACCOUNT_NOT_ACTIVATED")
      else Ok (mkCaller u sid name roles (bool_decide (ADMIN ∈ roles)))
  end.

(** [verify]: the token's subject and session, checked by signature, issuer and expiry (token-verifier.ts,
    jose); [who]: what the lookup answers. *)
Definition authenticate (verify : string -> outcome (string * string)) (who : string -> string -> outcome Introspection)
    (header : option string) : outcome AuthedCaller :=
  match bearerToken header with
  | Throw x => Throw x
  | Ok token =>
      match verify token with
      | Throw x => Throw x
      | Ok (sub, sid) => match who sid sub with Throw x => Throw x | Ok w => admit_caller sid w end
      end
  end.

Definition requireAdmin (c : AuthedCaller) : outcome unit :=
  if cl_isAdmin c then Ok tt else Throw (authFailure 403 "FORBIDDEN").

(** [@AdminOnly()]: both guards, in order. *)
Definition admin_only (verify : string -> outcome (string * string)) (who : string -> string -> outcome Introspection)
    (header : option string) : outcome AuthedCaller :=
  match authenticate verify who header with
  | Throw x => Throw x
  | Ok c => match requireAdmin c with Ok _ => Ok c | Throw x => Throw x end
  end.

(** The event's handler reads the user's identifier only. *)
Definition on_identity_event (userId : string) (s : IdentityState) : IdentityState := invalidateUser userId s.

(** ** Runs *)

Inductive act :=
  | Ask (key : LookupKey)
  | Answered (l : nat) (v : Introspection)
  | Finished (l : nat)
  | Changed (userId : string).

Definition act_step (t : Z) (a : act) (s : IdentityState) : option Asked * IdentityState :=
  match a with
  | Ask key => let r := client_introspect key t s in (Some r.1, r.2)
  | Answered l v => (None, lookup_answered l v t s)
  | Finished l => (None, lookup_finished l s)
  | Changed u => (None, on_identity_event u s)
  end.

Definition run_acts (l : list (Z * act)) (s : IdentityState) : IdentityState :=
  fold_left (fun s ta => (act_step ta.1 ta.2 s).2) l s.
End Client.
