(* ===== verification/IdentityTheorems.v ===== *)
(** * IdentityTheorems: a remembered identity is recent, and never older than the event that changed it *)
From Stdlib Require Import Ascii.
From S2P Require Export IdentityClient SupplierFacts.
#[local] Open Scope Z_scope.

(** ** Maps in order of insertion *)

Section JsMapFacts.
Context {K V : Type} `{EqDecision K}.
Implicit Types (k : K) (v : V) (l : list (K * V)).

Lemma js_get_elem k l v : js_get k l = Some v -> (k, v) ∈ l.
Proof. induction l as [|[k' w] l IH]; simpl; [done|]. case_decide; [intros [= ->]; subst|]; set_solver. Qed.
Lemma js_get_none k l : js_get k l = None -> forall v, (k, v) ∉ l.
Proof. induction l as [|[k' w] l IH]; simpl; [set_solver|]. case_decide; [done|]. intros Hg v. specialize (IH Hg v). set_solver. Qed.
Lemma js_set_elem k v l x : x ∈ js_set k v l -> x = (k, v) \/ x ∈ l.
Proof. induction l as [|[k' w] l IH]; simpl; [set_solver|]. case_decide; set_solver. Qed.
Lemma js_delete_elem k l x : x ∈ js_delete k l <-> x ∈ l /\ x.1 <> k.
Proof. unfold js_delete. rewrite elem_filter, bool_decide_eq_true. tauto. Qed.
Lemma js_delete_all ks l x : x ∈ foldr (fun k c => js_delete k c) l ks <-> x ∈ l /\ x.1 ∉ ks.
Proof. induction ks as [|k ks IH]; simpl; [set_solver|]. rewrite js_delete_elem, IH, not_elem_of_cons. tauto. Qed.
Lemma js_set_length k v l : (length (js_set k v l) <= Datatypes.S (length l))%nat.
Proof. induction l as [|[k' w] l IH]; simpl; [lia|]. case_decide; simpl; lia. Qed.
Lemma js_delete_length k l : (length (js_delete k l) <= length l)%nat.
Proof. apply List.filter_length_le. Qed.
Lemma js_delete_shorter k v l : (k, v) ∈ l -> (length (js_delete k l) < length l)%nat.
Proof.
  induction l as [|[k' w] l IH]; [set_solver|]. unfold js_delete in *. simpl. case_bool_decide as Hk; simpl.
  - intros [[= <- <-]|Hin]%elem_of_cons; [done|]. specialize (IH Hin). lia.
  - intros _. pose proof (js_delete_length k l). unfold js_delete in *. lia.
Qed.
End JsMapFacts.

Section Facts.
Context {texts : Texts} (cfg : IdentityConfig).

(** The index finds every entry of a user, and a lookup in flight is for its key. *)
Record IndexOk (s : IdentityState) : Prop := mkIndexOk {
  ix_cache : forall k e, (k, e) ∈ cache s -> en_userId e = to_lower k.2 /\ k ∈ default ∅ (keysByUser s !! en_userId e);
  ix_flight : forall k l, inflight s !! k = Some l -> lookups s !! l = Some k }.

Definition kept_cache (s s' : IdentityState) : Prop :=
  (forall x, x ∈ cache s' -> x ∈ cache s) /\ inflight s' = inflight s /\ lookups s' = lookups s.

Lemma forget_kept k s : kept_cache s (forget k s).
Proof.
  unfold forget. destruct (js_get k (cache s)); [|done]. split; [|done]. simpl. intros x [? _]%js_delete_elem. done.
Qed.

Lemma forget_index k s : IndexOk s -> IndexOk (forget k s).
Proof.
  intros [H1 H2]. unfold forget. destruct (js_get k (cache s)) as [e|] eqn:Hg; [|done]. constructor; [|done].
  simpl. intros k' e' [Hin Hne]%js_delete_elem. destruct (H1 _ _ Hin) as [Hu Hk]. split; [done|]. simpl in Hne.
  destruct (keysByUser s !! en_userId e) as [ks|] eqn:Hks; [|done]. simpl.
  destruct (decide (en_userId e' = en_userId e)) as [Heq|Hother].
  - rewrite Heq in *. rewrite Hks in Hk. simpl in Hk. case_decide as Hemp; [exfalso; set_solver|].
    rewrite lookup_insert_eq. simpl. set_solver.
  - case_decide; [rewrite lookup_delete_ne by done|rewrite lookup_insert_ne by done]; done.
Qed.

Lemma forget_all_kept ks s : kept_cache s (foldr forget s ks) /\ (IndexOk s -> IndexOk (foldr forget s ks)).
Proof.
  induction ks as [|k ks [[H1 [H2 H3]] H4]]; simpl; [done|]. destruct (forget_kept k (foldr forget s ks)) as (F1 & F2 & F3).
  split; [|intros; by apply forget_index, H4]. split; [auto|]. split; congruence.
Qed.

Lemma forget_length k s : (length (cache (forget k s)) <= length (cache s))%nat.
Proof. unfold forget. destruct (js_get k (cache s)); [apply js_delete_length|done]. Qed.
Lemma forget_all_length ks s : (length (cache (foldr forget s ks)) <= length (cache s))%nat.
Proof. induction ks as [|k ks IH]; simpl; [done|]. pose proof (forget_length k (foldr forget s ks)). lia. Qed.

Lemma room_kept now s : kept_cache s (make_room cfg now s) /\ (IndexOk s -> IndexOk (make_room cfg now s)).
Proof.
  unfold make_room. case_match; [|done]. set (ks := rev _). destruct (forget_all_kept ks s) as [[H1 [H2 H3]] H4].
  destruct (cache (foldr _ s ks)) as [|[k e] c] eqn:Hc; [split; [split; [|done]|auto]; rewrite Hc; set_solver|].
  case_match; [|split; [split; [|done]|done]; rewrite Hc; set_solver].
  destruct (forget_kept k (foldr forget s ks)) as (F1 & F2 & F3). split; [|intros; by apply forget_index, H4].
  split; [|split; congruence]. intros x Hx. apply H1. rewrite <- Hc. auto.
Qed.

Lemma room_made now s :
  (1 <= maxCacheEntries cfg)%nat -> (length (cache s) <= maxCacheEntries cfg)%nat ->
  (length (cache (make_room cfg now s)) < maxCacheEntries cfg)%nat.
Proof.
  intros H1 Hs. unfold make_room. destruct (Nat.leb_spec (maxCacheEntries cfg) (length (cache s))) as [Hf|Hf]; [|done].
  set (ks := rev _). pose proof (forget_all_length ks s) as Hl.
  destruct (cache (foldr _ s ks)) as [|[k e] c] eqn:Hc; [rewrite Hc; simpl; lia|]. rewrite <- Hc in *.
  destruct (Nat.leb_spec (maxCacheEntries cfg) (length (cache (foldr forget s ks)))) as [Hm|Hm]; [|done].
  assert (length (cache (forget k (foldr forget s ks))) < length (cache (foldr forget s ks)))%nat; [|unfold ks in *; lia].
  unfold forget at 1. rewrite Hc at 1. simpl js_get. rewrite decide_True by done. simpl cache.
  apply (js_delete_shorter k e). rewrite Hc. set_solver.
Qed.

(** ** Steps *)

(** Where the entries of the user [u] come from: answers [from] of lookups numbered [n] or later. *)
Record Since (u : string) (n : nat) (from : list (Z * act)) (s : IdentityState) : Prop := mkSince {
  sc_cache : forall k e, (k, e) ∈ cache s -> to_lower k.2 = u ->
    exists t l, (t, Answered l (en_value e)) ∈ from /\ (n <= l)%nat /\ lookups s !! l = Some k
      /\ en_expiresAt e = t + cacheTtlMs cfg;
  sc_flight : forall k l, inflight s !! k = Some l -> to_lower k.2 = u -> (n <= l)%nat;
  sc_count : (n <= length (lookups s))%nat }.

Lemma since_weaken u n from from' s : (forall x, x ∈ from -> x ∈ from') -> Since u n from s -> Since u n from' s.
Proof.
  intros Hf [H1 H2 H3]. constructor; [|done..]. intros k e Hin Hu. destruct (H1 k e Hin Hu) as (t & l & ? & ?). eauto 6.
Qed.

Lemma remember_ok key value now s u n from l :
  IndexOk s -> Since u n from s -> inflight s !! key = Some l -> (now, Answered l value) ∈ from ->
  IndexOk (remember cfg key value now s) /\ Since u n from (remember cfg key value now s).
Proof.
  intros HI HS Hf Hin. unfold remember. case_match; [done|]. destruct (room_kept now s) as [(K1 & K2 & K3) K4].
  specialize (K4 HI). set (s' := make_room cfg now s) in *. destruct HI as [I1 I2], HS as [S1 S2 S3], K4 as [J1 J2].
  split; constructor; simpl.
  - intros k e [[= -> ->]|Hk]%js_set_elem; simpl; [rewrite lookup_insert_eq; set_solver|].
    destruct (J1 k e Hk) as [Hu Hx]. split; [done|]. destruct (decide (to_lower key.2 = en_userId e)) as [Heq|Hne].
    + rewrite Heq, lookup_insert_eq. simpl. set_solver.
    + by rewrite lookup_insert_ne.
  - done.
  - rewrite K3. intros k e [[= -> ->]|Hk]%js_set_elem Hu; [|eauto]. simpl. exists now, l. split_and!; eauto.
  - rewrite K2. done.
  - by rewrite K3.
Qed.

Lemma act_ok t a s u n from :
  IndexOk s -> Since u n from s ->
  IndexOk (act_step cfg t a s).2 /\ Since u n (from ++ [(t, a)]) (act_step cfg t a s).2.
Proof.
  intros HI HS. assert (Since u n (from ++ [(t, a)]) s) as HS' by (eapply since_weaken; [|done]; set_solver).
  destruct a as [key|l v|l|w]; cbn [act_step snd].
  - unfold client_introspect. destruct HI as [I1 I2], HS' as [S1 S2 S3].
    assert (forall k : LookupKey, inflight s !! k = None ->
      let s' := mkIdentity_ (cache s) (keysByUser s) (<[k := length (lookups s)]> (inflight s)) (lookups s ++ [k]) in
      IndexOk s' /\ Since u n (from ++ [(t, Ask key)]) s') as Hnew.
    { intros k Hk s'. split; constructor; simpl.
      - done.
      - intros k' l'. destruct (decide (k = k')) as [<-|Hne].
        + rewrite lookup_insert_eq. intros [= <-]. by rewrite lookup_app_r, Nat.sub_diag.
        + rewrite lookup_insert_ne by done. intros Hl. by apply lookup_app_l_Some, I2.
      - intros k' e Hin Hu. destruct (S1 k' e Hin Hu) as (t0 & l0 & ? & ? & Hl & ?). exists t0, l0. split_and!; [done..| |done].
        by apply lookup_app_l_Some.
      - intros k' l'. destruct (decide (k = k')) as [<-|Hne].
        + rewrite lookup_insert_eq. intros [= <-] _. done.
        + rewrite lookup_insert_ne by done. eauto.
      - rewrite length_app. lia. }
    assert (IndexOk s /\ Since u n (from ++ [(t, Ask key)]) s) as Hsame by (split; by constructor).
    destruct (js_get key (cache s)); [case_match; [done|]|]; destruct (inflight s !! key) eqn:Hk; simpl; auto; by apply Hnew.
  - unfold lookup_answered. destruct (lookups s !! l) as [key|]; [|done]. case_decide as Hf; [|done].
    eapply remember_ok; [done..|]. set_solver.
  - unfold lookup_finished. destruct (lookups s !! l) as [key|]; [|done]. case_decide as Hf; [|done].
    destruct HI as [I1 I2], HS' as [S1 S2 S3]. split; constructor; simpl; try done.
    + intros k l' [_ Hk]%lookup_delete_Some. eauto.
    + intros k l' [_ Hk]%lookup_delete_Some. eauto.
  - destruct HI as [I1 I2], HS' as [S1 S2 S3]. split; constructor; simpl; try done.
    + intros k e [Hin Hne]%js_delete_all. simpl in Hne. rewrite elem_of_elements in Hne. destruct (I1 k e Hin) as [Hu Hk].
      split; [done|]. destruct (decide (to_lower w = en_userId e)) as [Heq|Hd]; [exfalso; rewrite Heq in Hne; done|].
      by rewrite lookup_delete_ne.
    + intros k l' [Hk _]%map_lookup_filter_Some. eauto.
    + intros k e [Hin _]%js_delete_all. eauto.
    + intros k l' [Hk _]%map_lookup_filter_Some. eauto.
Qed.

Lemma acts_ok l s u n from :
  IndexOk s -> Since u n from s -> IndexOk (run_acts cfg l s) /\ Since u n (from ++ l) (run_acts cfg l s).
Proof.
  revert s from. induction l as [|[t a] l IH]; intros s from HI HS; simpl; [by rewrite app_nil_r|].
  destruct (act_ok t a s u n from HI HS) as [HI' HS']. specialize (IH _ _ HI' HS'). by rewrite <- app_assoc in IH.
Qed.

Lemma no_identities_ok : IndexOk no_identities.
Proof. constructor; simpl; [set_solver|]. intros k l. by rewrite lookup_empty. Qed.

(** Forgetting a user leaves nothing of theirs behind. *)
Lemma invalidated_since w s : IndexOk s -> Since (to_lower w) (length (lookups s)) [] (invalidateUser w s).
Proof.
  intros [I1 I2]. constructor; simpl; [| |done].
  - intros k e [Hin Hne]%js_delete_all Hu. exfalso. simpl in Hne. rewrite elem_of_elements in Hne.
    destruct (I1 k e Hin) as [Hk Hx]. by rewrite Hk, Hu in Hx.
  - intros k l [_ Hk]%map_lookup_filter_Some. done.
Qed.
End Facts.

(** ** Properties *)

Section Properties.
Context {texts : Texts} (cfg : IdentityConfig).

(** Where an answer comes from. *)
Lemma identity_since (before later : list (Z * act)) (userId : string) (key : LookupKey) (t : Z) :
  to_lower key.2 = to_lower userId ->
  let s := run_acts cfg before no_identities in
  let s' := run_acts cfg later (invalidateUser userId s) in
  match (client_introspect key t s').1 with
  | Hit v => exists at_ l, (at_, Answered l v) ∈ later /\ t < at_ + cacheTtlMs cfg
               /\ (length (lookups s) <= l)%nat /\ lookups s' !! l = Some key
  | Awaits l => (length (lookups s) <= l)%nat /\ lookups (client_introspect key t s').2 !! l = Some key
  end.
Proof.
  intros Hu s s'. assert (Since cfg "" 0 [] no_identities) as H0.
  { constructor; simpl; [set_solver|intros k l; by rewrite lookup_empty|lia]. }
  destruct (acts_ok cfg before no_identities "" 0 [] no_identities_ok H0) as [HI HS].
  destruct (act_ok cfg 0 (Changed userId) s "" 0 _ HI HS) as [HI' _].
  destruct (acts_ok cfg later (invalidateUser userId s) (to_lower userId) (length (lookups s)) []) as [[J1 J2] [S1 S2 S3]];
    [done|by apply invalidated_since|]. fold s' in J1, J2, S1, S2, S3.
  unfold client_introspect. destruct (js_get key (cache s')) as [e|] eqn:Hg.
  - destruct (Z.ltb_spec t (en_expiresAt e)) as [Hlt|Hge].
    + apply js_get_elem in Hg. destruct (S1 key e Hg Hu) as (t0 & l & Hin & Hl & Hk & He). simpl. exists t0, l. split_and!; try done. lia.
    + destruct (inflight s' !! key) as [l|] eqn:Hf; simpl; [eauto|]. split; [done|]. by rewrite lookup_app_r, Nat.sub_diag.
  - destruct (inflight s' !! key) as [l|] eqn:Hf; simpl; [eauto|]. split; [done|]. by rewrite lookup_app_r, Nat.sub_diag.
Qed.

(** C21: Once an event says a user has changed, no request of theirs is answered from a lookup begun before it,
    however late its reply; and every answer from memory was given by the User Service, for the same session
    and user, less than [cacheTtlMs] ago. With no such event, [before] is empty and the bound alone remains. *)
Theorem identity_fresh (before later : list (Z * act)) (userId : string) (key : LookupKey) (t : Z) :
  to_lower key.2 = to_lower userId ->
  let s := run_acts cfg before no_identities in
  let s' := run_acts cfg later (invalidateUser userId s) in
  match (client_introspect key t s').1 with
  | Hit v => exists at_ l, (at_, Answered l v) ∈ later /\ t < at_ + cacheTtlMs cfg
               /\ (length (lookups s) <= l)%nat /\ lookups s' !! l = Some key
  | Awaits l => (length (lookups s) <= l)%nat /\ lookups (client_introspect key t s').2 !! l = Some key
  end.
Proof. apply identity_since. Qed.

(** The memory never holds more than [maxCacheEntries] sessions. *)
Theorem memory_bounded (l : list (Z * act)) :
  (1 <= maxCacheEntries cfg)%nat -> (length (cache (run_acts cfg l no_identities)) <= maxCacheEntries cfg)%nat.
Proof.
  intros Hm. assert (forall s, (length (cache s) <= maxCacheEntries cfg)%nat ->
    (length (cache (run_acts cfg l s)) <= maxCacheEntries cfg)%nat) as H; [|apply H; simpl; lia].
  induction l as [|[t a] l IH]; intros s Hs; simpl; [done|]. apply IH. destruct a as [key|i v|i|w]; simpl.
  - unfold client_introspect. repeat case_match; done.
  - unfold lookup_answered. case_match; [|done]. case_decide; [|done]. unfold remember. case_match; [done|]. simpl.
    pose proof (room_made cfg t s Hm Hs). etrans; [apply js_set_length|]. lia.
  - unfold lookup_finished. case_match; [|done]. by case_decide.
  - etrans; [|exact Hs]. generalize (elements (default ∅ (keysByUser s !! to_lower w))). intros ks. clear.
    induction ks as [|k ks IH]; simpl; [done|]. etrans; [apply js_delete_length|done].
Qed.

(** A caller is admitted exactly when the token is genuine and its session is live on an active account; what
    it may do is what the User Service answered, never what the token says. *)
Theorem caller_admitted (verify : string -> outcome (string * string)) (who : string -> string -> outcome Introspection)
    (header : option string) (c : AuthedCaller) :
  authenticate verify who header = Ok c <->
  exists token sub sid roles, bearerToken header = Ok token /\ verify token = Ok (sub, sid)
    /\ who sid sub = Ok (ActiveSession (cl_userId c) "ACTIVE" roles (cl_displayName c))
    /\ cl_sessionId c = sid /\ cl_roles c = roles /\ cl_isAdmin c = bool_decide (ADMIN ∈ roles).
Proof.
  unfold authenticate. split.
  - destruct (bearerToken header) as [token|]; [|done]. destruct (verify token) as [[sub sid]|] eqn:Hv; [|done].
    destruct (who sid sub) as [[|u st roles n]|] eqn:Hw; [done| |done]. unfold admit_caller.
    destruct (String.eqb st "SUSPENDED"); [done|]. destruct (String.eqb_spec st "ACTIVE") as [->|]; [|done]. simpl.
    intros [= <-]. eauto 12.
  - intros (token & sub & sid & roles & -> & -> & -> & <- & <- & Ha). simpl. rewrite <- Ha. by destruct c.
Qed.
End Properties.

(** ** Keys as text *)

(** [key.toLowerCase().endsWith(`:${id}`)]. *)
Definition ends_with (t s : string) : bool := String.prefix (reverse_bytes t "") (reverse_bytes s "").
Definition key_string (key : LookupKey) : string := key.1 +:+ ":" +:+ key.2.
Definition no_colon (s : string) : bool := forallb (fun a => negb (Ascii.eqb a ":")) (String.list_ascii_of_string s).

Lemma reverse_nil_inv s : reverse_bytes (reverse_bytes s "") "" = s.
Proof. rewrite reverse_twice. simpl. apply string_app_nil. Qed.

Lemma reverse_acc s acc : reverse_bytes s acc = reverse_bytes s "" +:+ acc.
Proof.
  revert acc. induction s as [|a s IH]; intros acc; [done|]. simpl reverse_bytes. rewrite IH, (IH (String a "")).
  by rewrite <- string_app_assoc.
Qed.

Lemma no_colon_reverse s : no_colon (reverse_bytes s "") = no_colon s.
Proof.
  assert (forall acc, no_colon (reverse_bytes s acc) = no_colon s && no_colon acc) as H; [|by rewrite H, andb_true_r].
  induction s as [|a s IH]; intros acc; [done|]. simpl reverse_bytes. rewrite IH. unfold no_colon. simpl.
  by destruct (Ascii.eqb a ":"), (forallb _ (String.list_ascii_of_string s)).
Qed.

Lemma prefix_to (c : ascii) u v w :
  forallb (fun a => negb (Ascii.eqb a c)) (String.list_ascii_of_string u) = true ->
  forallb (fun a => negb (Ascii.eqb a c)) (String.list_ascii_of_string v) = true ->
  String.prefix (u +:+ String c "") (v +:+ String c w) = String.eqb u v.
Proof.
  revert v. induction u as [|a u IH]; intros [|b v]; simpl; rewrite ?andb_true_iff, ?negb_true_iff, ?Ascii.eqb_neq.
  - intros _ _. destruct (ascii_dec c c); [by destruct w|done].
  - intros _ [Hb _]. by destruct (ascii_dec c b); [congruence|].
  - intros [Ha _] _. by destruct (ascii_dec a c); [congruence|].
  - intros [_ Hu] [_ Hv]. destruct (ascii_dec a b) as [->|Hne].
    + rewrite Ascii.eqb_refl. by apply IH.
    + by rewrite (proj2 (Ascii.eqb_neq a b) Hne).
Qed.

(** A key ends in a user's identifier exactly when it is that user's. *)
Lemma key_text key id_ :
  no_colon key.2 = true -> no_colon id_ = true ->
  ends_with (":" +:+ id_) (key_string key) = String.eqb id_ key.2.
Proof.
  intros Hk Hi. unfold ends_with, key_string. rewrite !reverse_app.
  change (reverse_bytes ":" "") with ":". change (reverse_bytes ":" (reverse_bytes key.1 "")) with (String ":" (reverse_bytes key.1 "")).
  rewrite (reverse_acc id_ ":"), (reverse_acc key.2 (String ":" _)), (prefix_to ":") by (change (no_colon (reverse_bytes id_ "") = true) || change (no_colon (reverse_bytes key.2 "") = true); by rewrite no_colon_reverse).
  destruct (String.eqb_spec id_ key.2) as [->|Hne]; [apply String.eqb_refl|]. apply String.eqb_neq. intros Heq. apply Hne.
  by rewrite <- (reverse_nil_inv id_), Heq, reverse_nil_inv.
Qed.

(** ** Age and place *)

(** An entry renewed after it expired keeps its place, so a full memory drops it before an older one. *)
Example renewed_dropped_first `{Texts} :
  let cfg := mkIdentityConfig 100 3 in
  let a := ("s1", "u1") in let b := ("s2", "u2") in let c := ("s3", "u3") in let d := ("s4", "u4") in
  let looked_up k t l := [(t, Ask k); (t, Answered l NotActive); (t, Finished l)] in
  let s := run_acts cfg (looked_up a 0 0%nat ++ looked_up b 60 1%nat ++ looked_up a 120 2%nat ++ looked_up c 125 3%nat) no_identities in
  (fst <$> cache s) = [a; b; c] /\ (en_expiresAt ∘ snd <$> cache s) = [220; 160; 225]
  /\ (fst <$> cache (remember cfg d NotActive 130 s)) = [b; c; d].
Proof. vm_compute. split_and!; reflexivity. Qed.
