(* ===== verification/IdentityUser.v ===== *)
(** * IdentityUser: the User Service's replies, and what a suspension means to every other service
    (user-service/src/users/internal.controller.ts, users.service.ts; auth-client/src/identity-client.ts) *)
From stdpp Require Import relations.
From S2P Require Export IdentityTheorems UserTheorems UserDemo.

#[local] Open Scope Z_scope.

Definition status_name (s : Account.Status) : string :=
  match s with
  | Account.PENDING_ACTIVATION => "PENDING_ACTIVATION"
  | Account.ACTIVE => "ACTIVE"
  | Account.SUSPENDED => "SUSPENDED"
  end.
Definition role_name (r : Role) : string := match r with STUDENT => "STUDENT" | ADMIN => "ADMIN" end.

(** The body of [GET /internal/introspect]. *)
Definition introspection_reply (u : string) (o : option Identity) : IntrospectionBody :=
  match o with
  | None => mkIntrospectionBody (Some false) None None None None
  | Some i => mkIntrospectionBody (Some true) (Some u) (Some (id_displayName i)) (Some (status_name (id_status i)))
                (Some ((Some ∘ role_name) <$> id_roles i))
  end.

(** Nothing is lost on the way: what the client reads is what the User Service answered. *)
Lemma reply_read u o :
  parse_introspection (introspection_reply u o)
  = Ok (match o with
        | None => NotActive
        | Some i => ActiveSession u (status_name (id_status i)) (id_roles i) (id_displayName i)
        end).
Proof.
  assert (forall l : list Role, @omap list _ _ _ known_role ((Some ∘ role_name) <$> l) = l) as Hl.
  { induction l as [|[] l IH]; simpl; [done|f_equal; exact IH..]. }
  destruct o as [i|]; [|done]. unfold parse_introspection. simpl. by rewrite Hl.
Qed.

Section Composition.
Context {zod : Zod} {pg : Pg} {texts : Texts} {crypto : Crypto}.
Context (users_settings : UserSettings) (settings : AdminSettings) (cfg : IdentityConfig).
Notation user_step := (UserInvariant.user_step users_settings settings).

(** Every reply of a lookup begun after the event was given by the User Service in a state after the change. *)
Definition replies_after (db1 : UserDb) (sid u : string) (n : nat) (later : list (Z * act)) (s' : IdentityState) : Prop :=
  forall t l v, (t, Answered l v) ∈ later -> (n <= l)%nat -> lookups s' !! l = Some (sid, u) ->
    exists db2 at_, rtc user_step db1 db2 /\ parse_introspection (introspection_reply u (introspect sid u at_ db2)) = Ok v.

End Composition.

(** ** IdentityDemo: Ben is suspended while a service remembers him *)

#[local] Open Scope Z_scope.

#[local] Existing Instance demo_zod.
#[local] Existing Instance user_pg.
#[local] Existing Instance user_texts.
#[local] Existing Instance user_crypto.

Definition ben_key : LookupKey := (ben_sid, ben).
Definition ben_active : Introspection := ActiveSession ben "ACTIVE" [STUDENT] "Someone".

(** He is looked up and remembered, and a second lookup is begun but not answered when the event arrives. *)
Definition before_event : list (Z * act) :=
  [(16000, Ask ben_key); (16001, Answered 0 ben_active); (16002, Finished 0); (21500, Ask ben_key)].
(** The old answer comes late; the next request asks again. *)
Definition after_event : list (Z * act) :=
  [(21600, Answered 1 ben_active); (21601, Finished 1); (21700, Ask ben_key); (21800, Answered 2 NotActive)].

Notation remembered := (run_acts default_identity before_event no_identities).

Example served_from_memory :
  fst (client_introspect ben_key 17000 (run_acts default_identity (take 3 before_event) no_identities)) = Hit ben_active.
Proof. vm_compute. reflexivity. Qed.

Notation after_state := (run_acts default_identity after_event (invalidateUser ben remembered)).
Lemma refused_from_memory : (client_introspect ben_key 21900 after_state).1 = Hit NotActive.
Proof. vm_compute. reflexivity. Qed.

Lemma identity_fresh_witness :
  exists at_ l, (at_, Answered l NotActive) ∈ after_event /\ 21900 < at_ + cacheTtlMs default_identity
    /\ (length (lookups remembered) <= l)%nat /\ lookups after_state !! l = Some ben_key.
Proof.
  pose proof (identity_fresh default_identity before_event after_event ben ben_key 21900 eq_refl) as H. cbv zeta in H.
  rewrite refused_from_memory in H. exact H.
Defined.

Definition is_ben_session (s : Session) : bool := String.eqb (ss_id s) ben_sid.

Lemma replies_from_user_service :
  replies_after campus controls u16 ben_sid ben (length (lookups remembered)) after_event after_state.
Proof.
  intros t l v Hl Hge Hk. exists u16, 17000000. split; [apply rtc_refl|].
  assert (introspect ben_sid ben 17000000 u16 = None) as -> by (vm_compute; reflexivity).
  unfold after_event in Hl. rewrite !elem_of_cons, elem_of_nil in Hl.
  destruct Hl as [[= -> -> ->]|[[=]|[[=]|[[= -> -> ->]|[]]]]]; [|reflexivity].
  exfalso. vm_compute in Hge. lia.
Qed.

